(* ===== verification/_CoqProject ===== *)
-Q . S2P
Prelude.v
Json.v
Externals.v
Concrete.v
Identity.v
Scope.v
IssuerIdentity.v
Document.v
DupScan.v
Revocation.v
Attenuation.v
Verify.v
Attestation.v
Chain.v
World.v
Pop.v
Wire.v
Vectors.v
Firewall.v
PopFirewall.v
Packaging.v
Harness.v
HarnessVerdicts.v
EmitterTexts.v
Emitters.v
EmittersPass.v
EmitterSamples.v
VerdictTexts.v
VerdictEmitter.v
PrettyText.v
VerdictLiterals.v
VerdictCases.v
VerdictPass.v
VerdictSplit.v
VerdictSamples.v
Issuer.v
Mint.v
Interleaving.v
AuditTrail.v
Delegation.v
Sha256.v
TestKit.v
MintTests.v
DepthTests.v
ExpiryTests.v
IssuerTests.v
DocumentTests.v
CrateTests.v
UnitRuns.v
Client.v
ClientExamples.v
