(* ===== verification/Prelude.v ===== *)
(** * The VAID reference mint: a verification development

    ** The program

    VAID is a signed agent credential.  Three Rust crates under [crates/] are
    modelled.  [vaid-pop] holds the identity newtypes and the one signing
    primitive (an Ed25519 signature over the SHA-256 of a payload's canonical
    JSON).  [vaid-mint] holds the document and its serde form, the attenuation
    rules, the revocation and lineage seams, the reference issuer that signs,
    the mint service that decides what may be signed, and the verifiers a
    relying party runs with a public key only: one document's standing, a
    delegation chain's containment, and a crossing from one issuer to another.
    [vaid-client] signs requests with the key a document names.

    The parts meet as follows.  A mint call ([mint_root], [mint_child]) asks the
    authorization gate or checks the authenticated parent, verifies a proof of
    possession and spends its nonce, calls the issuer, records an audit entry
    and returns the document.  The issuer bounds the expiry, signs, and records
    the lineage of what it issued; its own verification consults revocation over
    the assembled lineage.  A chain verifier never sees the issuer: it
    authenticates every presented document, assembles the lineage from the
    bundle, and compares neighbours.

    ** Which file models which source

    - [Prelude]: outcomes ([Ok], [Err], a panic), the state-and-error monad [M],
      string tests, tactics and the [vaid] hint database.
    - [Json]: serde_json values, presented JSON with repeated members, and the
      [Deserialize] and [Serialize] of leaf types.
    - [Externals], [Concrete]: the third-party crates, below.
    - [Identity]: [vaid-pop/src/identity.rs] and the identifiers of
      [vaid-mint/src/document.rs].
    - [Scope]: boundary entries and the matchers of [document.rs].
    - [IssuerIdentity]: [vaid-mint/src/issuer_identity.rs].
    - [Document]: timestamps, [Vaid], its serde form, lineage hash and signing
      digest ([document.rs]).
    - [DupScan]: [has_duplicate_member_names] of [document.rs].
    - [Revocation]: [vaid-mint/src/revocation.rs]: lineage assembly, the
      in-memory stores and the traits [RevocationCheck], [LineageResolver] and
      [LineageStore], which are type classes here.
    - [Attenuation]: the containment predicates of [vaid-mint/src/mint.rs].
    - [Verify]: [vaid-mint/src/verify.rs].
    - [Attestation]: [vaid-mint/src/attestation.rs].
    - [Chain]: [vaid-mint/src/chain.rs].
    - [World]: the wall clock and the random source.
    - [Pop]: the rest of [vaid-pop/src] and the types of
      [vaid-mint/src/mint_types.rs].
    - [Wire]: the derived serde of requests, responses, payloads and
      attestations ([mint_types.rs], [attestation.rs], [vaid-pop/src]).
    - [Vectors], [Firewall], [PopFirewall]: the two conformance runners
      ([vaid-mint/src/bin/conformance.rs], [vaid-pop/src/bin/conformance.rs]):
      what they share, the nine checks of the mint's vectors, the four of the
      signing primitive's, and [run].
    - [Harness], [HarnessVerdicts]: [vaid-mint/examples/aat_interop_harness.rs],
      a caller that builds chains and judges them with the public verifiers.
    - [EmitterTexts], [Emitters], [EmittersPass], [EmitterSamples]: the
      generators of seven frozen vectors and the reading of the unknown scope
      kind ([vaid-mint/examples/emit_*.rs], [vaid-pop/examples]), with the prose
      they write, what the firewalls say of their output, and witnesses.
    - [VerdictTexts], [VerdictEmitter], [PrettyText], [VerdictLiterals],
      [VerdictCases], [VerdictPass], [VerdictSplit], [VerdictSamples]: the
      generator of the verdict vector
      ([vaid-mint/examples/emit_verdict_vector.rs]): its prose, its table and the
      texts it makes, the pretty printer's documented layout, what the table's
      literals denote, every row's verdict, the vector under the firewall, what
      a row's signature covers, and witnesses.
    - [Packaging]: [vaid-mint/build.rs], [vaid-pop/build.rs] and [main] of the two
      conformance binaries.
    - [ClientExamples]: [vaid-client/examples/emit_pop.rs] and
      [emit_pop_pathquery.rs].
    - [Issuer]: [vaid-mint/src/issuer.rs], [error.rs] and the injected
      [RevocationBackend].  [VaidIssuer] is the trait; [IssuerLaws] is what an
      issuer promises the mint, and [reference_issuer_laws] proves it of the
      reference issuer over any lineage store that meets [LineageStoreLaws].
    - [Mint]: [MintService] of [mint.rs], with [audit.rs] and [authz.rs].
    - [Interleaving]: a mint call as a step machine over the shared service, a
      pool of calls and everything else that may touch what they share.
    - [AuditTrail]: the in-memory sink of [audit.rs] under that pool.
    - [Delegation]: mint, issuer and verifier together, proved against
      [IssuerLaws].
    - [Client]: [vaid-client/src/auth.rs].
    - [TestKit], [MintTests], [DepthTests], [ExpiryTests], [IssuerTests],
      [DocumentTests], [CrateTests]: the unit tests at the end of the modelled
      files and the example in [vaid-mint/src/lib.rs], as computations over the
      world that return or panic.  [Sha256] and [UnitRuns] run them.

    A struct is a Record with the source's field names (prefixed, since field
    names are global here), an enum an Inductive with its constructors, a trait
    a Class, a [HashMap] or [HashSet] a finite map or set.  A method that takes
    a lock or awaits is a state-passing computation; early returns by [?] are
    [mthrow]; [expect] and overflow are [mpanic] or [Panicked].

    ** What the theorems show

    - Delegation end to end ([Delegation]): what the mint returns for a parent
      whose chain verifies, the verifier accepts; over the reference issuer, who
      is entitled to a child gets it, bounded as promised, and nobody else does;
      the recorded depth; two places where the configuration and the root path
      admit more than the text says.
    - The mint ([Mint]): a returned child was checked against every attenuation
      rule at the clock's next reading and a fresh proof at the one after it; a
      refusal changes nothing; nothing is returned without an accepted audit
      entry; the proof of possession on every branch, with the state it leaves.
    - Concurrent calls ([Interleaving]): a call run alone is the sequential
      operation; under any interleaving no nonce mints twice, and a returned child
      has a history in the run, each rule holding at the turn that checked it.
    - The audit trail ([AuditTrail]): under any interleaving it grows by one
      truthful entry for each call that returned, and none for any other.
    - Chains ([Chain]): the verdict is exactly the declarative conditions;
      containment of the leaf in every ancestor; consent for every crossing of
      keys; the fail-closed answers; one tenant under one key.
    - One document ([Verify], [Document], [DupScan]): every verdict and their
      precedence, and from the characters of a text to its verdict; the round trip of a presented document;
      the digest determines the document up to a collision; the scan for
      repeated names against a grammar of JSON texts.
    - Attenuation and scope ([Attenuation], [Scope]): the test on boundaries is
      equivalent to containment of the resources they admit, and composes.
    - Revocation and the issuer ([Revocation], [Issuer]): lineage assembly is
      complete exactly for acyclic ancestries within the bound, and ends;
      revocation reaches descendants; absent knowledge never verifies; issued
      expiry; consent the issuer signs.
    - Wire forms ([Wire]): requests, responses and attestations are read back
      as written; the verdict over the text of a document the mint writes is
      the document's; what an attestation's signature does not cover.
    - Conformance ([Firewall], [PopFirewall]): a pass vouches for every vector
      that shipped and no other; what each passing check pins of this build,
      and of the vector itself (that it can still tell a wrong build apart);
      from the files of the crate to the exit code ([Packaging]).
    - Generators ([EmittersPass], [VerdictPass]): each runs to its end without a
      panic, and what it writes passes the check of its name; seven signed chains
      get the verdict written beside them; every text of the verdict table,
      forged, respelled, cut or repeating ones included, gets the reason written
      beside it; the reading of the unknown scope kind refuses on every line.
    - The pre-sign and post-sign split ([VerdictSplit]): for every row, not only
      the table's, the signature covers exactly what stood before signing.
    - A caller's verdict ([HarnessVerdicts]): PERMIT is a grant at every level,
      by an issuer bound to the domain; each scenario has the one fault it is
      about, for every tool; a suite of vectors is run to its end.
    - Identity, consent windows, payloads, client ([IssuerIdentity],
      [Attestation], [Pop], [Client]); the client signs to the primitive's frozen
      vector, and its generator extends that vector to a path with a query
      ([ClientExamples]).

    The program's own unit tests are run against these definitions in [UnitRuns],
    as a regression check of the model and not as theorems about the program.

    ** Bounds and fuel

    [MAX_LINEAGE_DEPTH] is the source's 1024.  [assemble_loop] runs on
    [ASSEMBLE_FUEL], one more, and [Revocation] shows that no resolver exhausts
    it.  [dup_loop] runs on the length of the text plus one, and [DupScan] shows
    that this is enough for every text of the grammar.  Instants are
    unbounded integers of nanoseconds; where the source's addition can overflow
    and panic ([duration_hours], [dt_add], the consent window) the panic is a
    value.  Bytes and version numbers keep their width in deserialization.

    ** What is assumed

    Third-party crates are the operations of the classes [UuidText], [Chrono],
    [Crypto] and [Codec], about which nothing is known except what a theorem
    takes as a class of laws: parsing inverts printing for UUIDs; the E.6 format
    has its shape and parses back; a key's signature verifies under its public
    key; durations, additions and whole seconds within range; an object's text
    is a JSON object of its members in order; the identifiers and timestamps the
    generators spell out are read and printed as RFC 9562 and RFC 3339 say
    ([LiteralLaws]); a pretty-printed object is one line a member and reads back
    in order ([PrettyLaws]), and the texts the verdict table spells out are what
    JSON, UUID and timestamp grammars make of them ([VerdictLaws]).  A forged
    signature of that table not verifying is a hypothesis ([VerdictCrypto]), as
    is base64's round trip ([ExampleLaws]), and that a signature with its first
    bit flipped does not verify ([flip_detected] of [HarnessVerdicts]).  Hash collisions are conclusions ("or
    the digest collides"), never excluded.  [Concrete] gives computable functions
    that meet every law, and the witnesses evaluate there.  [UnitRuns] has an
    instance of its own, with SHA-256, base64url and JSON texts as published and
    the calendar and the signature of [Concrete].

    ** What is not modelled

    Between two turns of a call anything may happen to the shared state, but the
    walk of a parent's lineage is one turn, an await of the gate, the issuer or
    the sink is answered within its turn, and a mutex is never poisoned.
    Leap-second instants and the Debug escaping of a trust domain in one error
    message are left out.  An error message of the conformance runners is cut
    where a value's Debug text or a parser's own message follows; what a
    generator prints is modelled as the value, not its text.  In the build
    scripts the lines that ask cargo to run again are left out, and that rustc
    reads the generated table as the table is taken for granted.  The
    integration tests under [tests/] and the Python and TypeScript packages are
    not modelled: the first run the vectors the firewalls check, the others
    restate the same rules in another language.

    ** Plan

    Every component of the crates is modelled, their unit tests included.  What
    could still be added is the integration tests under [tests/], as scenarios of
    the same kind.

    This file is also the prelude: outcomes, string tests, tactics. *)

From stdpp Require Export base gmap strings list.
From Stdlib Require Export ZArith Lia.
From Stdlib Require Export Strings.Ascii Strings.Byte.

#[export] Set Default Goal Selector "!".

Declare Scope vaid_scope.
Delimit Scope vaid_scope with vaid.
#[global] Open Scope vaid_scope.

(** ** Outcomes of a Rust call: [Ok], [Err] and a panic *)
Inductive Outcome (E A : Type) : Type :=
  | Ok (a : A)
  | Err (e : E)
  | Panicked.
Arguments Ok {E A} a.
Arguments Err {E A} e.
Arguments Panicked {E A}.

(** A computation over a state [S] that can fail or panic; the state survives
    a failure, as it does behind a [&self] with interior mutability. *)
Definition M (S E A : Type) : Type := S → Outcome E A * S.

Definition mret {S E A} (a : A) : M S E A := λ s, (Ok a, s).
Definition mthrow {S E A} (e : E) : M S E A := λ s, (Err e, s).
Definition mpanic {S E A} : M S E A := λ s, (Panicked, s).
Definition mbindM {S E A B} (m : M S E A) (f : A → M S E B) : M S E B :=
  λ s, match m s with
       | (Ok a, s') => f a s'
       | (Err e, s') => (Err e, s')
       | (Panicked, s') => (Panicked, s')
       end.
Definition mget {S E} : M S E S := λ s, (Ok s, s).
Definition mliftO {S E A} (o : Outcome E A) : M S E A := λ s, (o, s).

Notation "'let!' x ':=' m 'in' k" := (mbindM m (λ x, k))
  (at level 10, x binder, m at level 100, k at level 200,
   format "'[' 'let!'  x  ':='  m  'in'  '/' k ']'") : vaid_scope.
Notation "m ';;!' k" := (mbindM m (λ _, k))
  (at level 100, k at level 200, right associativity) : vaid_scope.

(** ** String tests on byte strings (a Rust [&str] is its UTF-8 bytes) *)
Fixpoint starts_with (p s : string) : bool :=
  match p, s with
  | EmptyString, _ => true
  | String a p', String b s' => bool_decide (a = b) && starts_with p' s'
  | String _ _, EmptyString => false
  end.

Fixpoint ends_with_char (c : ascii) (s : string) : bool :=
  match s with
  | EmptyString => false
  | String a EmptyString => bool_decide (a = c)
  | String _ s' => ends_with_char c s'
  end.

Definition starts_with_char (c : ascii) (s : string) : bool :=
  match s with
  | EmptyString => false
  | String a _ => bool_decide (a = c)
  end.

Definition char_string (c : ascii) : string := String c EmptyString.

(** [s.split(c)]: always at least one piece. *)
Fixpoint split_on (c : ascii) (s : string) : list string :=
  match s with
  | EmptyString => [""]
  | String a s' =>
      if bool_decide (a = c) then "" :: split_on c s'
      else match split_on c s' with
           | [] => [char_string a]
           | l :: ls => String a l :: ls
           end
  end.

Fixpoint string_forallb (f : ascii → bool) (s : string) : bool :=
  match s with
  | EmptyString => true
  | String a s' => f a && string_forallb f s'
  end.

Fixpoint join (sep : string) (l : list string) : string :=
  match l with
  | [] => ""
  | [x] => x
  | x :: l' => x +:+ sep +:+ join sep l'
  end.

Definition is_ascii_digit (a : ascii) : bool :=
  let n := nat_of_ascii a in (48 <=? n)%nat && (n <=? 57)%nat.
Definition is_ascii_lowercase (a : ascii) : bool :=
  let n := nat_of_ascii a in (97 <=? n)%nat && (n <=? 122)%nat.

Definition string_bytes (s : string) : list byte := String.list_byte_of_string s.

(** Rust's [b as u8] for a byte value. *)
Definition byte_Z (b : byte) : Z := Z.of_N (Byte.to_N b).
Definition byte_of_Z (z : Z) : option byte :=
  if bool_decide (0 ≤ z)%Z then Byte.of_N (Z.to_N z) else None.

#[global] Instance byte_eq_dec : EqDecision byte := Byte.byte_eq_dec.

(** ** Tactics *)

(** Split every boolean conjunction in the context and turn [bool_decide]
    facts into propositions. *)
Ltac bool_hyps :=
  repeat match goal with
  | H : _ && _ = true |- _ => apply andb_true_iff in H; destruct H
  | H : _ || _ = false |- _ => apply orb_false_iff in H; destruct H
  | H : negb _ = true |- _ => apply negb_true_iff in H
  | H : negb _ = false |- _ => apply negb_false_iff in H
  | H : bool_decide _ = true |- _ => apply bool_decide_eq_true in H
  | H : bool_decide _ = false |- _ => apply bool_decide_eq_false in H
  end.

(** Case split on the innermost [match]/[if] scrutinee of the goal or of a
    hypothesis, closing the impossible branches. *)
Ltac step_case H :=
  match type of H with
  | context [match ?x with _ => _ end] =>
      lazymatch x with
      | context [match _ with _ => _ end] => fail
      | _ => let E := fresh "E" in destruct x eqn:E; try discriminate H
      end
  end.
Ltac goal_case :=
  match goal with
  | |- context [match ?x with _ => _ end] =>
      lazymatch x with
      | context [match _ with _ => _ end] => fail
      | _ => let E := fresh "E" in destruct x eqn:E
      end
  end.
(** The binds of a computation that returned. *)
Ltac invert_binds :=
  repeat match goal with
  | H : mbind _ _ = Some _ |- _ => apply bind_Some in H as (? & ? & ?)
  end.
(** A decidable proposition, by evaluation. *)
Ltac decided := lazymatch goal with |- ?P => exact (bool_decide_eq_true_1 P eq_refl) end.
Ltac cases H := repeat (step_case H; simplify_eq).

(** ** String lemmas *)
#[global] Arguments String.append !_ _ / : simpl nomatch.

Lemma string_app_assoc (a b c : string) : (a +:+ b) +:+ c = a +:+ b +:+ c.
Proof. induction a as [|x a IH]; simpl; [done | by rewrite IH]. Qed.

Lemma string_app_nil_r (a : string) : a +:+ "" = a.
Proof. induction a as [|x a IH]; simpl; [done | by rewrite IH]. Qed.

Lemma string_app_length (a b : string) :
  String.length (a +:+ b) = (String.length a + String.length b)%nat.
Proof. induction a as [|x a IH]; simpl; [done | by rewrite IH]. Qed.

Lemma starts_with_spec (p s : string) :
  starts_with p s = true ↔ ∃ t, s = p +:+ t.
Proof.
  revert s. induction p as [|a p IH]; intros s; simpl.
  - destruct s; split; eauto.
  - destruct s as [|b s]; [naive_solver|].
    rewrite andb_true_iff, IH, bool_decide_eq_true. naive_solver.
Qed.

Lemma starts_with_refl (s : string) : starts_with s s = true.
Proof. apply starts_with_spec. exists "". by rewrite string_app_nil_r. Qed.

Lemma starts_with_app (p t : string) : starts_with p (p +:+ t) = true.
Proof. apply starts_with_spec. eauto. Qed.

Lemma starts_with_trans (a b c : string) :
  starts_with a b = true → starts_with b c = true → starts_with a c = true.
Proof.
  rewrite !starts_with_spec. intros [t ->] [u ->].
  exists (t +:+ u). apply string_app_assoc.
Qed.

(** Dropping a suffix of the prefix keeps it a prefix. *)
Lemma starts_with_app_l (p q s : string) :
  starts_with (p +:+ q) s = true → starts_with p s = true.
Proof. rewrite !starts_with_spec. intros [t ->]. exists (q +:+ t). apply string_app_assoc. Qed.

Lemma starts_with_empty_r (p : string) : starts_with p "" = true → p = "".
Proof. rewrite starts_with_spec. intros [t Ht]. by destruct p. Qed.

Lemma ends_with_char_app (c : ascii) (t : string) :
  ends_with_char c (t +:+ char_string c) = true.
Proof.
  induction t as [|a t IH]; simpl; [by apply bool_decide_eq_true|].
  destruct (t +:+ char_string c) eqn:E; [by destruct t | done].
Qed.

Lemma ends_with_char_spec (c : ascii) (s : string) :
  ends_with_char c s = true ↔ ∃ t, s = t +:+ char_string c.
Proof.
  split; [|intros [t ->]; apply ends_with_char_app].
  induction s as [|a s IH]; simpl; [done|].
  destruct s as [|b s].
  - intros ->%bool_decide_eq_true. by exists "".
  - intros [t Ht]%IH. exists (String a t). simpl. by rewrite <- Ht.
Qed.

Lemma string_forallb_app (f : ascii → bool) (a b : string) :
  string_forallb f (a +:+ b) = string_forallb f a && string_forallb f b.
Proof. induction a as [|x a IH]; simpl; [done | by rewrite IH, andb_assoc]. Qed.

Definition no_char (c : ascii) (s : string) : Prop :=
  string_forallb (λ a, bool_decide (a ≠ c)) s = true.

Lemma split_on_nonempty (c : ascii) (s : string) : split_on c s ≠ [].
Proof. destruct s as [|a s]; simpl; [done|]. repeat case_match; done. Qed.

(** [split_on] is inverted by [join] and its pieces hold no separator... *)
Lemma join_split_on (c : ascii) (s : string) :
  join (char_string c) (split_on c s) = s.
Proof.
  induction s as [|a s IH]; [done|].
  simpl. case_bool_decide as Hc; subst.
  - destruct (split_on c s) as [|l ls] eqn:E; [by apply split_on_nonempty in E|].
    change (String c (join (char_string c) (l :: ls)) = String c s). by rewrite IH.
  - destruct (split_on c s) as [|l [|l' ls]] eqn:E;
      [by apply split_on_nonempty in E | by rewrite <- IH | ].
    by rewrite <- IH.
Qed.

Lemma split_on_no_char (c : ascii) (s : string) : Forall (no_char c) (split_on c s).
Proof.
  induction s as [|a s IH]; simpl; [by repeat constructor|].
  case_bool_decide as Hc; [by constructor|].
  destruct (split_on c s) as [|l ls]; inversion IH; subst.
  - repeat constructor. unfold no_char. simpl. by rewrite bool_decide_eq_true_2.
  - constructor; [|done]. unfold no_char in *. simpl. by rewrite bool_decide_eq_true_2.
Qed.

Lemma split_on_no_sep (c : ascii) (s : string) : no_char c s → split_on c s = [s].
Proof.
  unfold no_char. induction s as [|a s IH]; simpl; [done|].
  intros [Ha Hs]%andb_true_iff. apply bool_decide_eq_true in Ha.
  rewrite bool_decide_eq_false_2 by done. by rewrite IH.
Qed.

Lemma split_on_app_sep (c : ascii) (a b : string) :
  no_char c a → split_on c (a +:+ char_string c +:+ b) = a :: split_on c b.
Proof.
  unfold no_char. induction a as [|x a IH]; simpl.
  - intros _. by rewrite bool_decide_eq_true_2.
  - intros [Hx Ha]%andb_true_iff. apply bool_decide_eq_true in Hx.
    rewrite bool_decide_eq_false_2 by done. simpl in IH. by rewrite IH.
Qed.

(** ...and it is the only such splitting. *)
Lemma split_on_join (c : ascii) (ls : list string) :
  ls ≠ [] → Forall (no_char c) ls → split_on c (join (char_string c) ls) = ls.
Proof.
  induction ls as [|l [|l' ls] IH]; intros Hne Hf; [done| |].
  - simpl. inversion Hf; subst. by apply split_on_no_sep.
  - inversion Hf; subst. cbn [join] in *.
    rewrite split_on_app_sep by done. by rewrite IH.
Qed.

Lemma forallb_Forall_true {A} (f : A → bool) (l : list A) :
  forallb f l = true ↔ Forall (λ x, f x = true) l.
Proof.
  induction l as [|x l IH]; simpl; [by split|].
  rewrite andb_true_iff, Forall_cons, IH. done.
Qed.

Lemma existsb_Exists_true {A} (f : A → bool) (l : list A) :
  existsb f l = true ↔ Exists (λ x, f x = true) l.
Proof.
  induction l as [|x l IH]; simpl; [by rewrite Exists_nil|].
  rewrite orb_true_iff, Exists_cons, IH. done.
Qed.

(** ** Hints shared by the components *)
Create HintDb vaid.
#[export] Hint Resolve starts_with_refl starts_with_app starts_with_trans : vaid.
#[export] Hint Resolve andb_true_intro conj : vaid.
Create Rewrite HintDb vaid_rw.
#[export] Hint Rewrite string_app_assoc string_app_nil_r : vaid_rw.
#[export] Hint Rewrite andb_true_iff orb_true_iff negb_true_iff : vaid_rw.

(** ** Lowercase hexadecimal, as [{:02x}] over bytes *)
Definition hex_digit (n : N) : ascii :=
  ascii_of_N (if (n <? 10)%N then 48 + n else 87 + n).
Fixpoint to_hex (l : list byte) : string :=
  match l with
  | [] => ""
  | b :: l' =>
      let n := Byte.to_N b in
      String (hex_digit (n / 16)) (String (hex_digit (n mod 16)) (to_hex l'))
  end.
