(* ===== verification/Json.v ===== *)
(** * JSON values and the serde conventions the sources rely on

    [Json] is [serde_json::Value] (objects are key-ordered maps, so a finite
    map); [RawJson] is what a text or a [Value] presents to a deserializer:
    members in order, repeats included.  The accessors are the [Deserialize]
    implementations of the leaf types the source's structs use. *)

From S2P Require Import Prelude.

(** [serde_json::Number]: an unsigned 64-bit integer, a negative one, or the
    bits of a finite double. *)
Inductive Number : Type :=
  | PosInt (n : Z)
  | NegInt (n : Z)
  | Float (bits : Z).

Inductive Json : Type :=
  | JNull
  | JBool (b : bool)
  | JNumber (n : Number)
  | JString (s : string)
  | JArray (l : list Json)
  | JObject (m : gmap string Json).

Inductive RawJson : Type :=
  | RNull
  | RBool (b : bool)
  | RNumber (n : Number)
  | RString (s : string)
  | RArray (l : list RawJson)
  | RObject (l : list (string * RawJson)).

(** Building a [Value] from presented members: a later repeat replaces an
    earlier one. *)
Fixpoint value_of_raw (r : RawJson) : Json :=
  match r with
  | RNull => JNull
  | RBool b => JBool b
  | RNumber n => JNumber n
  | RString s => JString s
  | RArray l => JArray (map value_of_raw l)
  | RObject l =>
      JObject
        ((fix go (m : gmap string Json) (l : list (string * RawJson)) :=
            match l with
            | [] => m
            | (k, v) :: l' => go (<[k := value_of_raw v]> m) l'
            end) ∅ l)
  end.

(** What a [Value] presents to a deserializer ([serde_json::from_value]): its
    members, each once, in some order. *)
Fixpoint raw_of_value (v : Json) : RawJson :=
  match v with
  | JNull => RNull
  | JBool b => RBool b
  | JNumber n => RNumber n
  | JString s => RString s
  | JArray l => RArray (map raw_of_value l)
  | JObject m => RObject (map_fold (λ k x l, (k, raw_of_value x) :: l) [] m)
  end.

(** [Value::as_str], [Value::is_string]. *)
Definition as_str (v : Json) : option string :=
  match v with JString s => Some s | _ => None end.
Definition is_string (v : Json) : bool :=
  match v with JString _ => true | _ => false end.

(** One member of a presented object, as a derived visitor sees it: absent,
    present once, or repeated (which is an error). *)
Fixpoint member (k : string) (l : list (string * RawJson)) : list RawJson :=
  match l with
  | [] => []
  | (k', v) :: l' => if bool_decide (k' = k) then v :: member k l' else member k l'
  end.

(** [None]: a deserialization error; [Some None]: absent. *)
Definition de_member {A} (k : string) (f : RawJson → option A)
    (l : list (string * RawJson)) : option (option A) :=
  match member k l with
  | [] => Some None
  | [v] => a ← f v; Some (Some a)
  | _ => None
  end.

Definition de_required {A} (k : string) (f : RawJson → option A)
    (l : list (string * RawJson)) : option A :=
  o ← de_member k f l; o.

Definition de_default {A} (k : string) (f : RawJson → option A) (d : A)
    (l : list (string * RawJson)) : option A :=
  o ← de_member k f l; Some (default d o).

Definition de_string (r : RawJson) : option string :=
  match r with RString s => Some s | _ => None end.

Definition de_u8 (r : RawJson) : option Z :=
  match r with
  | RNumber (PosInt n) => if bool_decide (0 ≤ n ≤ 255)%Z then Some n else None
  | _ => None
  end.

Definition de_byte (r : RawJson) : option byte :=
  n ← de_u8 r; byte_of_Z n.

Definition de_vec {A} (f : RawJson → option A) (r : RawJson) : option (list A) :=
  match r with RArray l => mapM f l | _ => None end.

(** [Option<T>]: a JSON [null] is [None]. *)
Definition de_option {A} (f : RawJson → option A) (r : RawJson) : option (option A) :=
  match r with
  | RNull => Some None
  | _ => a ← f r; Some (Some a)
  end.

Definition ser_byte (b : byte) : Json := JNumber (PosInt (byte_Z b)).
Definition ser_bytes (l : list byte) : Json := JArray (map ser_byte l).
Definition ser_strings (l : list string) : Json := JArray (map JString l).

Definition object_insert (k : string) (v : Json) (j : Json) : Json :=
  match j with JObject m => JObject (<[k := v]> m) | _ => j end.

(** ** Lemmas *)

(** The object a member list denotes: [value_of_raw]'s inner loop. *)
Definition raw_members (l : list (string * RawJson)) : gmap string Json :=
  foldl (λ m kv, <[kv.1 := value_of_raw kv.2]> m) ∅ l.

Lemma value_of_raw_object (l : list (string * RawJson)) :
  value_of_raw (RObject l) = JObject (raw_members l).
Proof.
  unfold raw_members. simpl. f_equal.
  generalize (∅ : gmap string Json). induction l as [|[k v] l IH]; intros m; simpl; done.
Qed.

Lemma foldl_insert_lookup (l : list (string * RawJson)) (m : gmap string Json) (k : string) :
  foldl (λ m kv, <[kv.1 := value_of_raw kv.2]> m) m l !! k =
  match last (member k l) with
  | Some v => Some (value_of_raw v)
  | None => m !! k
  end.
Proof.
  revert m. induction l as [|[k' v] l IH]; intros m; cbn [foldl member fst snd]; [done|].
  rewrite IH. case_bool_decide as Hk; subst.
  - rewrite last_cons. destruct (last (member k l)); [done|]. by rewrite lookup_insert_eq.
  - destruct (last _); [done|]. by rewrite lookup_insert_ne.
Qed.

Lemma raw_members_lookup (l : list (string * RawJson)) (k : string) :
  raw_members l !! k = value_of_raw <$> last (member k l).
Proof. unfold raw_members. rewrite foldl_insert_lookup. by destruct (last _). Qed.

Lemma de_string_value (r : RawJson) (s : string) :
  de_string r = Some s → value_of_raw r = JString s.
Proof. destruct r; naive_solver. Qed.

Lemma byte_Z_of (z : Z) (b : byte) : byte_of_Z z = Some b → byte_Z b = z.
Proof.
  unfold byte_of_Z, byte_Z. case_bool_decide; [|done].
  intros Hb. apply Byte.to_of_N in Hb. rewrite Hb. lia.
Qed.

Lemma byte_of_Z_byte (b : byte) : byte_of_Z (byte_Z b) = Some b.
Proof.
  unfold byte_of_Z, byte_Z. rewrite bool_decide_eq_true_2 by lia.
  rewrite N2Z.id. apply Byte.of_to_N.
Qed.

Lemma byte_Z_bounds (b : byte) : (0 ≤ byte_Z b ≤ 255)%Z.
Proof. unfold byte_Z. pose proof (Byte.to_N_bounded b). lia. Qed.

Lemma de_u8_value (r : RawJson) (n : Z) :
  de_u8 r = Some n → value_of_raw r = JNumber (PosInt n) ∧ (0 ≤ n ≤ 255)%Z.
Proof.
  destruct r as [| |[n'| |]| | |]; simpl; try done.
  case_bool_decide; naive_solver.
Qed.

Lemma de_byte_value (r : RawJson) (b : byte) :
  de_byte r = Some b → value_of_raw r = ser_byte b.
Proof.
  unfold de_byte, ser_byte. intros (n & Hb & Hn)%bind_Some.
  apply de_u8_value in Hb as [-> _]. by rewrite (byte_Z_of _ _ Hn).
Qed.

(** A sequence whose elements serialize back serializes back. *)
Lemma de_vec_value {A} (f : RawJson → option A) (g : A → Json) (r : RawJson) (l : list A) :
  (∀ x a, f x = Some a → value_of_raw x = g a) →
  de_vec f r = Some l → value_of_raw r = JArray (map g l).
Proof.
  intros Hf. destruct r as [| | | |xs|]; simpl; try done.
  intros H. f_equal. apply mapM_Some_1 in H.
  induction H as [|x a xs l Hx Hxs IH]; simpl; [done|]. by rewrite (Hf _ _ Hx), IH.
Qed.

Lemma de_member_value {A} (k : string) (f : RawJson → option A) (l : list (string * RawJson))
    (o : option A) (g : A → Json) :
  (∀ x a, f x = Some a → value_of_raw x = g a) →
  de_member k f l = Some o → raw_members l !! k = g <$> o.
Proof.
  intros Hf. rewrite raw_members_lookup. unfold de_member.
  destruct (member k l) as [|v [|]]; simpl; try done.
  - naive_solver.
  - intros (a & Ha & [= <-])%bind_Some. simpl. by rewrite (Hf _ _ Ha).
Qed.

Lemma de_required_value {A} (k : string) (f : RawJson → option A) (l : list (string * RawJson))
    (a : A) (g : A → Json) :
  (∀ x a, f x = Some a → value_of_raw x = g a) →
  de_required k f l = Some a → raw_members l !! k = Some (g a).
Proof.
  intros Hf. unfold de_required. intros (o & Ho & ->)%bind_Some.
  by rewrite (de_member_value _ _ _ _ _ Hf Ho).
Qed.

(** ** A [Value] presented to a deserializer *)

Definition raw_object (m : gmap string Json) : list (string * RawJson) :=
  map_fold (λ k x l, (k, raw_of_value x) :: l) [] m.

Lemma raw_of_value_object (m : gmap string Json) : raw_of_value (JObject m) = RObject (raw_object m).
Proof. reflexivity. Qed.

(** Each member is presented once. *)
Lemma member_raw_object (k : string) (m : gmap string Json) :
  member k (raw_object m) = match m !! k with Some v => [raw_of_value v] | None => [] end.
Proof.
  apply (map_fold_weak_ind (λ l m, member k l
    = match m !! k with Some v => [raw_of_value v] | None => [] end)); clear m; [done|].
  intros i x m r Hi IH. simpl. rewrite IH. case_bool_decide as Hk.
  - subst. by rewrite Hi, lookup_insert_eq.
  - by rewrite lookup_insert_ne.
Qed.

Fixpoint json_size (v : Json) : nat :=
  match v with
  | JArray l => S (foldr (λ x n, json_size x + n) 0 l)
  | JObject m => S (map_fold (λ _ x n, json_size x + n) 0 m)
  | _ => 1
  end.

Lemma json_size_member (m : gmap string Json) (k : string) (v : Json) :
  m !! k = Some v → json_size v < json_size (JObject m).
Proof.
  simpl. intros Hk. apply Nat.lt_succ_r. revert Hk.
  apply (map_fold_weak_ind (λ n m, m !! k = Some v → json_size v ≤ n)); clear m; [done|].
  intros i x m r Hi IH [[-> ->]|[_ Hk]]%lookup_insert_Some; [lia|]. specialize (IH Hk). lia.
Qed.

Lemma json_size_element (l : list Json) (v : Json) :
  v ∈ l → json_size v < json_size (JArray l).
Proof.
  simpl. intros Hv. apply Nat.lt_succ_r.
  induction Hv as [v l|v x l Hv IH]; simpl; lia.
Qed.

(** Presented and read back, a value is the same value. *)
Lemma value_of_raw_of_value (v : Json) : value_of_raw (raw_of_value v) = v.
Proof.
  remember (json_size v) as n eqn:Hn. revert v Hn.
  induction (lt_wf n) as [n _ IH]. intros [| | | |l|m] ->; try done.
  - simpl. f_equal. rewrite map_map. rewrite <- (map_id l) at 2. apply map_ext_in.
    intros v Hv%list_elem_of_In. eapply IH; [by apply json_size_element|done].
  - rewrite raw_of_value_object, value_of_raw_object. f_equal. apply map_eq. intros k.
    rewrite raw_members_lookup, member_raw_object. destruct (m !! k) as [v|] eqn:Hk; [|done].
    simpl. f_equal. eapply IH; [by eapply json_size_member|done].
Qed.

Lemma de_vec_raw {A} (f : RawJson → option A) (g : A → Json) (l : list A) :
  (∀ a, a ∈ l → f (raw_of_value (g a)) = Some a) →
  de_vec f (raw_of_value (JArray (map g l))) = Some l.
Proof.
  intros Hf. simpl. rewrite map_map. induction l as [|a l IH]; simpl; [done|].
  rewrite Hf by left. simpl. rewrite IH; [done|]. intros b Hb. apply Hf. by right.
Qed.

Lemma de_byte_raw (b : byte) : de_byte (raw_of_value (ser_byte b)) = Some b.
Proof.
  unfold de_byte, ser_byte. simpl. rewrite bool_decide_eq_true_2 by apply byte_Z_bounds.
  simpl. apply byte_of_Z_byte.
Qed.

Lemma de_bytes_raw (l : list byte) : de_vec de_byte (raw_of_value (ser_bytes l)) = Some l.
Proof. apply de_vec_raw. intros b _. apply de_byte_raw. Qed.

Lemma de_strings_raw (l : list string) :
  de_vec de_string (raw_of_value (ser_strings l)) = Some l.
Proof. by apply de_vec_raw. Qed.

#[export] Hint Resolve de_string_value de_byte_value : vaid.

#[global] Instance byte_Z_inj : Inj (=) (=) byte_Z.
Proof.
  intros a b Hab. apply (inj Some). by rewrite <- !byte_of_Z_byte, Hab.
Qed.

#[global] Instance ser_byte_inj : Inj (=) (=) ser_byte.
Proof. intros a b [= Hab]. by apply (inj byte_Z). Qed.

#[global] Instance ser_bytes_inj : Inj (=) (=) ser_bytes.
Proof. intros a b [= Hab]. by apply (inj (map ser_byte)). Qed.

#[global] Instance JString_inj : Inj (=) (=) JString.
Proof. by intros a b [= ->]. Qed.

#[global] Instance ser_strings_inj : Inj (=) (=) ser_strings.
Proof. intros a b [= Hab]. by apply (inj (map JString)). Qed.

#[global] Instance JObject_inj : Inj (=) (=) JObject.
Proof.
  intros a b H.
  exact (f_equal (λ j, match j with JObject m => m | _ => ∅ end) H).
Qed.

#[global] Instance JArray_inj : Inj (=) (=) JArray.
Proof. by intros a b [= ->]. Qed.

(** ** Members of an object written out *)

Fixpoint assoc (k : string) (l : list (string * Json)) : option Json :=
  match l with
  | [] => None
  | (k', v) :: l' => if String.eqb k' k then Some v else assoc k l'
  end.

Lemma list_to_map_assoc l k : (list_to_map l : gmap string Json) !! k = assoc k l.
Proof.
  induction l as [|[k' v] l IH]; [done|]. cbn [list_to_map foldr assoc fst snd].
  destruct (String.eqb_spec k' k) as [->|Hne]; [apply lookup_insert_eq|].
  by rewrite lookup_insert_ne.
Qed.
