(* ===== verification/Externals.v ===== *)
(** * The code the sources call but do not contain

    Third-party crates ([uuid], [chrono], [ring], [sha2], [base64],
    [serde_json], [serde_jcs]) are operations of type classes; what the crates
    document of them is a class of laws, which a theorem names only when it
    needs it.  An instant is a number of nanoseconds since the epoch (leap
    second readings are not represented). *)

From S2P Require Import Prelude Json.

(** A 128-bit identifier. *)
Definition Uuid : Type := N.
#[global] Instance Uuid_eq_dec : EqDecision Uuid := N.eq_dec.
#[global] Instance Uuid_countable : Countable Uuid := _ : Countable N.

Definition Instant : Type := Z.
Definition NANOS : Z := 1000000000.

Class UuidText := {
  uuid_to_string : Uuid → string;
  uuid_parse_str : string → option Uuid;
}.

Class Chrono := {
  (** [DateTime::parse_from_rfc3339(s).ok().map(with_timezone(&Utc))] *)
  dt_parse_from_rfc3339 : string → option Instant;
  (** [t.format(fmt).to_string()] *)
  dt_format : string → Instant → string;
  (** [Utc.timestamp_opt(secs, 0).single()] *)
  dt_timestamp_opt : Z → option Instant;
  (** [t.trunc_subsecs(0)] *)
  dt_trunc_subsecs0 : Instant → Instant;
  (** chrono's [Serialize] for [DateTime<Utc>] *)
  dt_serialize : Instant → string;
  (** chrono's [Deserialize] for [DateTime<Utc>], from a string *)
  dt_deserialize : string → option Instant;
  (** [t.to_rfc3339_opts(SecondsFormat::Secs, true)] *)
  dt_to_rfc3339_secs_z : Instant → string;
  (** [Duration::hours(h)], [None] being its documented panic *)
  duration_hours : Z → option Z;
  (** [t + d], [None] being its documented panic *)
  dt_add : Instant → Z → option Instant;
}.

Class Crypto := {
  sha256 : list byte → list byte;
  ed25519_verify : list byte → list byte → list byte → bool;
  KeyPair : Type;
  kp_public_key : KeyPair → list byte;
  kp_sign : KeyPair → list byte → list byte;
  kp_from_pkcs8 : list byte → option KeyPair;
  kp_from_seed_unchecked : list byte → option KeyPair;
}.

Class Codec := {
  base64_url_no_pad : list byte → string;
  base64_standard : list byte → string;
  base64_standard_decode : string → option (list byte);
  serde_jcs_to_vec : Json → list byte;
  (** The syntax tree of a JSON text, repeats kept, or a syntax error. *)
  json_parse : string → option RawJson;
  (** [serde_json::to_string] of an object written with these members in order *)
  serde_json_to_string : list (string * Json) → string;
  (** [serde_json::to_string_pretty] of such an object *)
  serde_json_to_string_pretty : list (string * Json) → string;
  str_to_uppercase : string → string;
}.

Class Externals := {
  ext_uuid :: UuidText;
  ext_chrono :: Chrono;
  ext_crypto :: Crypto;
  ext_codec :: Codec;
}.

(** [fmt] is the E.6 rendering the sources use. *)
Definition E6_FORMAT : string := "%Y-%m-%dT%H:%M:%SZ".

(** Instants whose year has four digits: 0000-01-01 to 9999-12-31. *)
Definition four_digit_year (t : Instant) : Prop :=
  (-62167219200 * NANOS ≤ t < 253402300800 * NANOS)%Z.

#[global] Instance four_digit_year_dec t : Decision (four_digit_year t).
Proof. unfold four_digit_year. apply _. Defined.

(** A template of fixed characters and digits (['d']). *)
Fixpoint matches_template (tmpl s : string) : bool :=
  match tmpl, s with
  | EmptyString, EmptyString => true
  | String c tmpl', String a s' =>
      (if bool_decide (c = "d"%char) then is_ascii_digit a else bool_decide (a = c))
      && matches_template tmpl' s'
  | _, _ => false
  end.

Definition I64_MAX : Z := 9223372036854775807.

(** ** Documented behaviour *)

Class UuidLaws `{UuidText} : Prop := {
  uuid_parse_to_string u : uuid_parse_str (uuid_to_string u) = Some u;
}.

Class ChronoLaws `{Chrono} : Prop := {
  dt_trunc_spec t : dt_trunc_subsecs0 t = (t - t mod NANOS)%Z;
  dt_timestamp_opt_spec s :
    four_digit_year (s * NANOS)%Z → dt_timestamp_opt s = Some (s * NANOS)%Z;
  dt_format_e6_shape t :
    four_digit_year t →
    matches_template "dddd-dd-ddTdd:dd:ddZ" (dt_format E6_FORMAT t) = true;
  dt_parse_format_e6 t :
    four_digit_year t →
    dt_parse_from_rfc3339 (dt_format E6_FORMAT t) = Some (t - t mod NANOS)%Z;
  dt_deserialize_serialize t :
    four_digit_year t → dt_deserialize (dt_serialize t) = Some t;
  duration_hours_spec h :
    duration_hours h =
    if decide (Z.abs (h * 3600000) ≤ I64_MAX)%Z then Some (h * 3600 * NANOS)%Z else None;
  dt_add_four_digit_year t d :
    four_digit_year t → four_digit_year (t + d)%Z → dt_add t d = Some (t + d)%Z;
  (** an addition that does not panic adds *)
  dt_add_some t d u : dt_add t d = Some u → u = (t + d)%Z;
}.

Class CryptoLaws `{Crypto} : Prop := {
  ed25519_verify_sign kp m : ed25519_verify (kp_public_key kp) m (kp_sign kp m) = true;
}.

Class ExternalLaws `{Externals} : Prop := {
  laws_uuid :: UuidLaws;
  laws_chrono :: ChronoLaws;
  laws_crypto :: CryptoLaws;
}.
