(* ===== verification/Concrete.v ===== *)
(** * A concrete instance of the externals

    Small computable functions that satisfy every documented law, so that a
    theorem which names a law can be applied at a concrete input.  Nothing here
    models the crates: the calendar counts seconds, the signature is the key
    followed by the message, the digest is the identity. *)

From S2P Require Import Prelude Json Externals.

(** ** Identifiers: the binary digits after a ["u"]; ["U"] is a second spelling *)

Fixpoint pos_bits (p : positive) : string :=
  match p with
  | xH => ""
  | xO p => String "0" (pos_bits p)
  | xI p => String "1" (pos_bits p)
  end.

Definition uuid_text (u : Uuid) : string :=
  match u with
  | N0 => "u"
  | Npos p => String "u" (String "-" (pos_bits p))
  end.

Fixpoint bits_pos (s : string) : option positive :=
  match s with
  | EmptyString => Some xH
  | String a s' =>
      p ← bits_pos s';
      if bool_decide (a = "0"%char) then Some (xO p)
      else if bool_decide (a = "1"%char) then Some (xI p) else None
  end.

Definition uuid_read (s : string) : option Uuid :=
  match s with
  | String a s' =>
      if bool_decide (a = "u"%char ∨ a = "U"%char) then
        match s' with
        | EmptyString => Some 0%N
        | String "-" s'' => Npos <$> bits_pos s''
        | _ => None
        end
      else None
  | _ => None
  end.

(** ** Timestamps: fourteen decimal digits of a second count *)

Fixpoint digits (k : nat) (z : Z) : list Z :=
  match k with
  | O => []
  | S k' => digits k' (z / 10) ++ [z mod 10]%Z
  end.

Definition digits_value (l : list Z) : Z := foldl (λ a d, a * 10 + d)%Z 0%Z l.

Definition digit_char (d : Z) : ascii := ascii_of_nat (48 + Z.to_nat d).
Definition char_digit (a : ascii) : Z := (Z.of_nat (nat_of_ascii a) - 48)%Z.

Fixpoint place (tmpl : string) (ds : list Z) : string :=
  match tmpl with
  | EmptyString => EmptyString
  | String c tmpl' =>
      if bool_decide (c = "d"%char) then
        match ds with
        | d :: ds' => String (digit_char d) (place tmpl' ds')
        | [] => EmptyString
        end
      else String c (place tmpl' ds)
  end.

Fixpoint unplace (tmpl s : string) : list Z :=
  match tmpl, s with
  | String c tmpl', String a s' =>
      if bool_decide (c = "d"%char) then char_digit a :: unplace tmpl' s'
      else unplace tmpl' s'
  | _, _ => []
  end.

Fixpoint template_digits (tmpl : string) : nat :=
  match tmpl with
  | EmptyString => 0
  | String c tmpl' => (if bool_decide (c = "d"%char) then 1 else 0) + template_digits tmpl'
  end.

Definition E6_TEMPLATE : string := "dddd-dd-ddTdd:dd:ddZ".
(** A second spelling of the same instant. *)
Definition OFFSET_TEMPLATE : string := "dddd-dd-ddTdd:dd:dd+00:00".
Definition EPOCH_SHIFT : Z := 62167219200.

Definition e6_print (t : Instant) : string :=
  place E6_TEMPLATE (digits 14 (t / NANOS + EPOCH_SHIFT)).

Definition e6_read (s : string) : option Instant :=
  if matches_template E6_TEMPLATE s then
    Some ((digits_value (unplace E6_TEMPLATE s) - EPOCH_SHIFT) * NANOS)%Z
  else if matches_template OFFSET_TEMPLATE s then
    Some ((digits_value (unplace OFFSET_TEMPLATE s) - EPOCH_SHIFT) * NANOS)%Z
  else None.

(** The serde form: nine more digits for the nanoseconds. *)
Definition NANOS_TEMPLATE : string := "dddd-dd-ddTdd:dd:dd.dddddddddZ".

Definition nanos_print (t : Instant) : string :=
  place NANOS_TEMPLATE (digits 23 (t + EPOCH_SHIFT * NANOS)).

Definition nanos_read (s : string) : option Instant :=
  if matches_template NANOS_TEMPLATE s then
    Some (digits_value (unplace NANOS_TEMPLATE s) - EPOCH_SHIFT * NANOS)%Z
  else e6_read s.

(** ** JSON bytes *)

Fixpoint json_bytes (j : Json) : list byte :=
  match j with
  | JNull => string_bytes "null"
  | JBool b => string_bytes (if b then "true" else "false")
  | JNumber (PosInt n) => string_bytes "#" ++ map (λ d, byte_of_ascii (digit_char d)) (digits 4 n)
  | JNumber (NegInt n) => string_bytes "-" ++ map (λ d, byte_of_ascii (digit_char d)) (digits 4 (- n))
  | JNumber (Float n) => string_bytes "f" ++ map (λ d, byte_of_ascii (digit_char d)) (digits 4 n)
  | JString s => string_bytes "'" ++ string_bytes s ++ string_bytes "'"
  | JArray l => string_bytes "[" ++ flat_map (λ x, json_bytes x ++ string_bytes ",") l
  | JObject m =>
      string_bytes "{" ++
      map_fold (λ k v acc, string_bytes k ++ string_bytes ":" ++ json_bytes v ++ acc)
        (string_bytes "}") m
  end.

Fixpoint upper (s : string) : string :=
  match s with
  | EmptyString => EmptyString
  | String a s' =>
      String (if is_ascii_lowercase a then ascii_of_nat (nat_of_ascii a - 32) else a) (upper s')
  end.

(** An object with these member names, every value a zero. *)
Definition member_names_text (l : list (string * Json)) : string :=
  "{" +:+ join "," (map (λ kv, String "034" (kv.1 +:+ String "034" ":0")) l) +:+ "}".

(** The instance, for a given table of JSON texts. *)
Definition concrete (parse : string → option RawJson) : Externals := {|
  ext_uuid := {| uuid_to_string := uuid_text; uuid_parse_str := uuid_read |};
  ext_chrono := {|
    dt_parse_from_rfc3339 := e6_read;
    dt_format fmt t := if bool_decide (fmt = E6_FORMAT) then e6_print t else "";
    dt_timestamp_opt s :=
      if decide (four_digit_year (s * NANOS)%Z) then Some (s * NANOS)%Z else None;
    dt_trunc_subsecs0 t := (t - t mod NANOS)%Z;
    dt_serialize := nanos_print;
    dt_deserialize := nanos_read;
    dt_to_rfc3339_secs_z := e6_print;
    duration_hours h :=
      if decide (Z.abs (h * 3600000) ≤ I64_MAX)%Z then Some (h * 3600 * NANOS)%Z else None;
    dt_add t d := if decide (four_digit_year (t + d)%Z) then Some (t + d)%Z else None;
  |};
  ext_crypto := {|
    sha256 m := m;
    ed25519_verify pk m s := bool_decide (s = pk ++ m);
    KeyPair := list byte;
    kp_public_key kp := kp;
    kp_sign kp m := kp ++ m;
    kp_from_pkcs8 b := if bool_decide (b = []) then None else Some b;
    kp_from_seed_unchecked b := if bool_decide (length b = 32) then Some b else None;
  |};
  ext_codec := {|
    base64_url_no_pad := String.string_of_list_byte;
    base64_standard := String.string_of_list_byte;
    base64_standard_decode s := Some (string_bytes s);
    serde_jcs_to_vec := json_bytes;
    json_parse := parse;
    serde_json_to_string := member_names_text;
    serde_json_to_string_pretty := member_names_text;
    str_to_uppercase := upper;
  |};
|}.

Definition no_json : string → option RawJson := λ _, None.

(** ** The laws hold *)

Lemma bits_pos_bits (p : positive) : bits_pos (pos_bits p) = Some p.
Proof. induction p as [p IH|p IH|]; simpl; try rewrite IH; done. Qed.

Lemma uuid_read_text (u : Uuid) : uuid_read (uuid_text u) = Some u.
Proof. destruct u as [|p]; [done|]. simpl. by rewrite bits_pos_bits. Qed.

Lemma digits_length (k : nat) (z : Z) : length (digits k z) = k.
Proof. revert z. induction k as [|k IH]; intros z; simpl; [done|]. rewrite length_app, IH. simpl. lia. Qed.

Lemma digits_bounds (k : nat) (z : Z) : Forall (λ d, 0 ≤ d ≤ 9)%Z (digits k z).
Proof.
  revert z. induction k as [|k IH]; intros z; simpl; [done|].
  apply Forall_app; split; [done|]. constructor; [|done].
  pose proof (Z.mod_pos_bound z 10 ltac:(lia)). lia.
Qed.

Lemma digits_value_digits (k : nat) (z : Z) :
  (0 ≤ z < 10 ^ Z.of_nat k)%Z → digits_value (digits k z) = z.
Proof.
  revert z. induction k as [|k IH]; intros z Hz; simpl.
  - unfold digits_value. simpl in *. lia.
  - unfold digits_value in *. rewrite foldl_app. cbn [foldl].
    rewrite IH.
    + pose proof (Z.div_mod z 10 ltac:(lia)). lia.
    + rewrite Nat2Z.inj_succ, Z.pow_succ_r in Hz by lia. split.
      * apply Z.div_pos; lia.
      * apply Z.div_lt_upper_bound; lia.
Qed.

Lemma char_digit_char (d : Z) : (0 ≤ d ≤ 9)%Z → char_digit (digit_char d) = d.
Proof.
  intros Hd. unfold char_digit, digit_char. rewrite nat_ascii_embedding by lia. lia.
Qed.

Lemma digit_char_digit (d : Z) : (0 ≤ d ≤ 9)%Z → is_ascii_digit (digit_char d) = true.
Proof.
  intros Hd. unfold is_ascii_digit, digit_char. rewrite nat_ascii_embedding by lia.
  apply andb_true_iff. split; apply Nat.leb_le; lia.
Qed.

Lemma unplace_place (tmpl : string) (ds : list Z) :
  length ds = template_digits tmpl → Forall (λ d, 0 ≤ d ≤ 9)%Z ds →
  unplace tmpl (place tmpl ds) = ds.
Proof.
  revert ds. induction tmpl as [|c tmpl IH]; intros ds; simpl.
  - by destruct ds.
  - case_bool_decide as Hc.
    + destruct ds as [|d ds]; [done|]. intros [= Hl] Hf. inversion Hf; subst.
      by rewrite IH, char_digit_char.
    + intros Hl Hf. by apply IH.
Qed.

Lemma matches_place (tmpl : string) (ds : list Z) :
  length ds = template_digits tmpl → Forall (λ d, 0 ≤ d ≤ 9)%Z ds →
  matches_template tmpl (place tmpl ds) = true.
Proof.
  revert ds. induction tmpl as [|c tmpl IH]; intros ds; simpl; [done|].
  case_bool_decide as Hc.
  - destruct ds as [|d ds]; [done|]. intros [= Hl] Hf. inversion Hf; subst.
    by rewrite digit_char_digit, IH.
  - intros Hl Hf. rewrite bool_decide_eq_true_2 by done. by apply IH.
Qed.

Lemma e6_read_print (t : Instant) :
  four_digit_year t → e6_read (e6_print t) = Some (t - t mod NANOS)%Z.
Proof.
  unfold four_digit_year, NANOS. intros Ht. unfold e6_read, e6_print.
  rewrite matches_place by (try apply digits_bounds; by rewrite digits_length).
  rewrite unplace_place by (try apply digits_bounds; by rewrite digits_length).
  rewrite digits_value_digits; unfold EPOCH_SHIFT, NANOS.
  - f_equal. pose proof (Z.div_mod t 1000000000 ltac:(lia)). lia.
  - pose proof (Z.div_mod t 1000000000 ltac:(lia)).
    pose proof (Z.mod_pos_bound t 1000000000 ltac:(lia)).
    change (10 ^ Z.of_nat 14)%Z with 100000000000000%Z. lia.
Qed.

Lemma nanos_read_print (t : Instant) : four_digit_year t → nanos_read (nanos_print t) = Some t.
Proof.
  unfold four_digit_year, NANOS. intros Ht. unfold nanos_read, nanos_print.
  rewrite matches_place by (try apply digits_bounds; by rewrite digits_length).
  rewrite unplace_place by (try apply digits_bounds; by rewrite digits_length).
  rewrite digits_value_digits; unfold EPOCH_SHIFT, NANOS; [f_equal; lia|].
  change (10 ^ Z.of_nat 23)%Z with 100000000000000000000000%Z. lia.
Qed.

#[global] Instance concrete_laws (parse : string → option RawJson) :
  @ExternalLaws (concrete parse).
Proof.
  split.
  - split. apply uuid_read_text.
  - split.
    + intros t. reflexivity.
    + intros s Hs. cbn [dt_timestamp_opt ext_chrono concrete]. by rewrite decide_True.
    + intros t Ht. apply matches_place; [by rewrite digits_length | apply digits_bounds].
    + intros t Ht. by apply e6_read_print.
    + intros t Ht. by apply nanos_read_print.
    + intros h. reflexivity.
    + intros t d Ht Hd. cbn [dt_add ext_chrono concrete]. by rewrite decide_True.
    + intros t d u. cbn [dt_add ext_chrono concrete]. case_decide; naive_solver.
  - split. intros kp m. simpl. by apply bool_decide_eq_true.
Qed.
