(* ===== verification/Identity.v ===== *)
(** * Identity newtypes and identifiers kept as presented

    [crates/vaid-pop/src/identity.rs] ([TenantId], [VaidId]) and the identity
    part of [crates/vaid-mint/src/document.rs] ([AgentId], [AgentClass],
    [PresentedUuid]). *)

From S2P Require Import Prelude Json Externals Concrete.

Record TenantId : Type := mkTenantId { tenant_as_str : string }.
Record VaidId : Type := VaidId_from_uuid { vaid_as_uuid : Uuid }.
Record AgentId : Type := AgentId_from_uuid { agent_as_uuid : Uuid }.
Record AgentClass : Type := mkAgentClass { class_as_str : string }.

#[global] Instance TenantId_eq_dec : EqDecision TenantId.
Proof. solve_decision. Defined.
#[global] Instance VaidId_eq_dec : EqDecision VaidId.
Proof. solve_decision. Defined.
#[global] Instance AgentId_eq_dec : EqDecision AgentId.
Proof. solve_decision. Defined.
#[global] Instance AgentClass_eq_dec : EqDecision AgentClass.
Proof. solve_decision. Defined.

#[global] Instance VaidId_countable : Countable VaidId.
Proof. refine (inj_countable' vaid_as_uuid VaidId_from_uuid _). by intros []. Defined.

Section Identity.
  Context {Ext : Externals}.

  (** [Display for VaidId], [Display for AgentId]. *)
Definition vaid_id_to_string (v : VaidId) : string := uuid_to_string (vaid_as_uuid v).
Definition agent_id_to_string (a : AgentId) : string := uuid_to_string (agent_as_uuid a).

  (** [VaidId]'s derived serde: the UUID's text. *)
Definition ser_vaid_id (v : VaidId) : Json := JString (vaid_id_to_string v).
Definition de_vaid_id (r : RawJson) : option VaidId :=
  s ← de_string r; VaidId_from_uuid <$> uuid_parse_str s.

  (** A UUID-valued member kept exactly as it was presented. *)
Record PresentedUuid : Type := mkPresentedUuid { pu_raw : string; pu_uuid : Uuid }.

Definition pu_as_presented (p : PresentedUuid) : string := pu_raw p.
Definition pu_is_canonical (p : PresentedUuid) : bool :=
  bool_decide (pu_raw p = uuid_to_string (pu_uuid p)).
Definition pu_from_uuid (u : Uuid) : PresentedUuid :=
  mkPresentedUuid (uuid_to_string u) u.
Definition pu_serialize (p : PresentedUuid) : Json := JString (pu_raw p).
Definition pu_deserialize (r : RawJson) : option PresentedUuid :=
  raw ← de_string r; uuid ← uuid_parse_str raw; Some (mkPresentedUuid raw uuid).

  (** [deserialize_present]: a present member is never collapsed to absent. *)
Definition deserialize_present (r : RawJson) : option (option (option PresentedUuid)) :=
  o ← de_option pu_deserialize r; Some (Some o).

  (** What deserialization guarantees of a presented identifier. *)
Definition pu_wf (p : PresentedUuid) : Prop := uuid_parse_str (pu_raw p) = Some (pu_uuid p).

Lemma pu_deserialize_wf r p : pu_deserialize r = Some p → pu_wf p.
Proof.
  unfold pu_deserialize. intros (raw & _ & (u & Hu & [= <-])%bind_Some)%bind_Some. done.
Qed.

Lemma pu_deserialize_value r p : pu_deserialize r = Some p → value_of_raw r = pu_serialize p.
Proof.
  unfold pu_deserialize.
  intros (raw & Hr & (u & Hu & [= <-])%bind_Some)%bind_Some. by apply de_string_value.
Qed.

Lemma pu_from_uuid_canonical u : pu_is_canonical (pu_from_uuid u) = true.
Proof. by apply bool_decide_eq_true. Qed.

Lemma pu_from_uuid_wf `{!UuidLaws} u : pu_wf (pu_from_uuid u).
Proof. apply uuid_parse_to_string. Qed.

Lemma pu_serialize_inj p q : pu_wf p → pu_wf q → pu_serialize p = pu_serialize q → p = q.
Proof.
  destruct p as [r u], q as [r' u']. unfold pu_wf, pu_serialize. simpl.
  intros Hp Hq [= ->]. congruence.
Qed.

End Identity.

#[export] Hint Resolve pu_deserialize_value pu_deserialize_wf pu_from_uuid_wf : vaid.
