(* ===== verification/Scope.v ===== *)
(** * The scope boundary and the two matchers

    [crates/vaid-mint/src/document.rs]: [ScopeBoundaryEntry] and its shape
    gate, [entry_contains], [entry_claimed_resource], [boundary_is_evaluable],
    [scope_contains], [prefix_contains] and [caps_contain]. *)

From S2P Require Import Prelude Json.

Definition SCOPE_SEPARATORS : list ascii := ["/"%char; "."%char].
Definition SCOPE_KIND_PREFIX : string := "prefix".
Definition RECOGNISED_SCOPE_KINDS : list string := [SCOPE_KIND_PREFIX].

Record ScopeBoundaryEntry : Type := mkEntry { entry_kind : string; entry_value : Json }.

Definition entry_prefix (value : string) : ScopeBoundaryEntry :=
  {| entry_kind := SCOPE_KIND_PREFIX; entry_value := JString value |}.

(** The entry-shape rule of S.8; [Some msg] is the refusal. *)
Definition validate_scope_entry (kind : string) (value : Json) : option string :=
  if bool_decide (kind = "") then
    Some "scope_boundary entry `kind` must be a non-empty string"
  else if bool_decide (kind = SCOPE_KIND_PREFIX) && negb (is_string value) then
    Some "scope_boundary entry of kind `prefix` must carry a string `value`"
  else None.

Definition entry_new (kind : string) (value : Json) : Outcome string ScopeBoundaryEntry :=
  match validate_scope_entry kind value with
  | Some e => Err e
  | None => Ok (mkEntry kind value)
  end.

(** [PartialEq<&str>]: an entry of any other kind equals no string. *)
Definition entry_eq_str (e : ScopeBoundaryEntry) (other : string) : bool :=
  bool_decide (entry_kind e = SCOPE_KIND_PREFIX)
  && bool_decide (as_str (entry_value e) = Some other).

(** The derived visitor of [Raw] ([deny_unknown_fields]): a map with exactly
    the members [kind] and [value], or, as for every derived struct, the
    two-element sequence of them. *)
Definition de_entry_raw (r : RawJson) : option (string * Json) :=
  match r with
  | RObject l =>
      if forallb (λ kv, bool_decide (kv.1 = "kind" ∨ kv.1 = "value")) l then
        kind ← de_required "kind" de_string l;
        value ← de_required "value" (λ v, Some (value_of_raw v)) l;
        Some (kind, value)
      else None
  | RArray [k; v] => kind ← de_string k; Some (kind, value_of_raw v)
  | _ => None
  end.

Definition entry_deserialize (r : RawJson) : option ScopeBoundaryEntry :=
  kv ← de_entry_raw r;
  match validate_scope_entry kv.1 kv.2 with
  | Some _ => None
  | None => Some (mkEntry kv.1 kv.2)
  end.

Definition entry_serialize (e : ScopeBoundaryEntry) : Json :=
  JObject (<["kind" := JString (entry_kind e)]> (<["value" := entry_value e]> ∅)).

Definition ser_boundary (b : list ScopeBoundaryEntry) : Json := JArray (map entry_serialize b).

(** ** Matching *)

Definition prefix_contains (prefix resource : string) : bool :=
  if bool_decide (prefix = "") then true
  else if bool_decide (resource = prefix) then true
  else if existsb (λ sep, ends_with_char sep prefix) SCOPE_SEPARATORS then
    starts_with prefix resource
  else existsb (λ sep, starts_with (prefix +:+ char_string sep) resource) SCOPE_SEPARATORS.

Definition entry_contains (entry : ScopeBoundaryEntry) (resource : string) : option bool :=
  if bool_decide (entry_kind entry = SCOPE_KIND_PREFIX) then
    (λ p, prefix_contains p resource) <$> as_str (entry_value entry)
  else None.

Definition entry_claimed_resource (entry : ScopeBoundaryEntry) : option string :=
  if bool_decide (entry_kind entry = SCOPE_KIND_PREFIX) then as_str (entry_value entry)
  else None.

Definition entry_is_evaluable (entry : ScopeBoundaryEntry) : bool :=
  match entry_contains entry "" with Some _ => true | None => false end.

Definition boundary_is_evaluable (boundary : list ScopeBoundaryEntry) : bool :=
  forallb entry_is_evaluable boundary.

(** The loop of [scope_contains]; [None] is its early [return false]. *)
Fixpoint scope_contains_loop (boundary : list ScopeBoundaryEntry) (resource : string)
    (contained : bool) : option bool :=
  match boundary with
  | [] => Some contained
  | entry :: rest =>
      match entry_contains entry resource with
      | None => None
      | Some true => scope_contains_loop rest resource true
      | Some false => scope_contains_loop rest resource contained
      end
  end.

Definition is_empty {A} (l : list A) : bool := match l with [] => true | _ => false end.

Definition scope_contains (boundary : list ScopeBoundaryEntry) (resource : string) : bool :=
  match scope_contains_loop boundary resource false with
  | None => false
  | Some contained => is_empty boundary || contained
  end.

Definition caps_contain (capabilities : list string) (capability : string) : bool :=
  existsb (λ c, bool_decide (c = capability)) capabilities.

(** ** Lemmas *)

#[export] Instance ScopeBoundaryEntry_inhabited : Inhabited ScopeBoundaryEntry :=
  populate (entry_prefix "").

Lemma is_empty_true {A} (l : list A) : is_empty l = true ↔ l = [].
Proof. destruct l; naive_solver. Qed.

Lemma sep_existsb (f : ascii → bool) :
  existsb f SCOPE_SEPARATORS = true ↔ ∃ sep, sep ∈ SCOPE_SEPARATORS ∧ f sep = true.
Proof.
  rewrite existsb_Exists_true, Exists_exists. split; intros (x & ? & ?); eauto.
Qed.

Lemma caps_contain_spec (l : list string) (c : string) : caps_contain l c = true ↔ c ∈ l.
Proof.
  unfold caps_contain. rewrite existsb_Exists_true, Exists_exists. split.
  - intros (x & Hx & ->%bool_decide_eq_true). done.
  - intros Hc. exists c. split; [done|]. by apply bool_decide_eq_true.
Qed.

Lemma prefix_contains_refl (p : string) : prefix_contains p p = true.
Proof. unfold prefix_contains. case_bool_decide; [done|]. by rewrite bool_decide_eq_true_2. Qed.

(** Containment never reads past a textual prefix. *)
Lemma prefix_contains_starts_with (p r : string) :
  prefix_contains p r = true → starts_with p r = true.
Proof.
  unfold prefix_contains. case_bool_decide as H1; [intros; by subst|].
  case_bool_decide as H2; [intros; subst; apply starts_with_refl|].
  destruct (existsb _ _) eqn:E; [done|].
  intros (sep & _ & Hs)%sep_existsb. by apply starts_with_app_l in Hs.
Qed.

Lemma entry_contains_is_Some (e : ScopeBoundaryEntry) (r : string) :
  entry_is_evaluable e = true ↔ is_Some (entry_contains e r).
Proof.
  unfold entry_is_evaluable, entry_contains. case_bool_decide.
  - destruct (as_str (entry_value e)); simpl; by rewrite is_Some_alt.
  - by rewrite is_Some_alt.
Qed.

Lemma entry_contains_prefix (e : ScopeBoundaryEntry) (r : string) (b : bool) :
  entry_contains e r = Some b ↔
  ∃ p, entry_claimed_resource e = Some p ∧ b = prefix_contains p r.
Proof.
  unfold entry_contains, entry_claimed_resource. case_bool_decide; [|naive_solver].
  destruct (as_str (entry_value e)); naive_solver.
Qed.

Lemma entry_evaluable_claims (e : ScopeBoundaryEntry) :
  entry_is_evaluable e = true ↔ is_Some (entry_claimed_resource e).
Proof.
  unfold entry_is_evaluable, entry_contains, entry_claimed_resource.
  case_bool_decide.
  - destruct (as_str (entry_value e)); simpl; by rewrite is_Some_alt.
  - by rewrite is_Some_alt.
Qed.

Lemma boundary_is_evaluable_spec (b : list ScopeBoundaryEntry) :
  boundary_is_evaluable b = true ↔ Forall (λ e, is_Some (entry_claimed_resource e)) b.
Proof.
  unfold boundary_is_evaluable. rewrite forallb_Forall_true.
  apply Forall_iff. intros e. apply entry_evaluable_claims.
Qed.

Lemma scope_contains_loop_spec (b : list ScopeBoundaryEntry) (r : string) (c : bool) :
  scope_contains_loop b r c =
  if boundary_is_evaluable b
  then Some (c || existsb (λ e, bool_decide (entry_contains e r = Some true)) b)
  else None.
Proof.
  revert c. induction b as [|e b IH]; intros c; simpl; [by rewrite orb_false_r|].
  pose proof (entry_contains_is_Some e r) as He.
  destruct (entry_contains e r) as [[]|] eqn:E.
  - rewrite IH. rewrite (proj2 He) by eauto. simpl.
    by rewrite orb_true_r.
  - rewrite IH. rewrite (proj2 He) by eauto. done.
  - destruct (entry_is_evaluable e); [|done]. destruct (proj1 He); done.
Qed.

(** [scope_contains] in closed form. *)
Lemma scope_contains_true (b : list ScopeBoundaryEntry) (r : string) :
  scope_contains b r = true ↔
  boundary_is_evaluable b = true ∧ (b = [] ∨ ∃ e, e ∈ b ∧ entry_contains e r = Some true).
Proof.
  unfold scope_contains. rewrite scope_contains_loop_spec.
  destruct (boundary_is_evaluable b); [|naive_solver]. simpl.
  rewrite orb_true_iff, is_empty_true, existsb_Exists_true, Exists_exists.
  split.
  - intros [Hb|(e & He & Ht%bool_decide_eq_true)]; eauto.
  - intros [_ [Hb|(e & He & Ht)]]; eauto. right. exists e. by rewrite bool_decide_eq_true.
Qed.

Lemma scope_contains_claims (b : list ScopeBoundaryEntry) (r : string) :
  boundary_is_evaluable b = true → b ≠ [] →
  scope_contains b r = true ↔
  ∃ e p, e ∈ b ∧ entry_claimed_resource e = Some p ∧ prefix_contains p r = true.
Proof.
  intros Hev Hne. rewrite scope_contains_true. split.
  - intros [_ [?|(e & He & (p & Hp & Ht)%entry_contains_prefix)]]; [done|]. eauto 6.
  - intros (e & p & He & Hp & Ht). split; [done|]. right. exists e. split; [done|].
    apply entry_contains_prefix. eauto.
Qed.

Lemma entry_serialize_lookup (e : ScopeBoundaryEntry) (k : string) :
  (<["kind" := JString (entry_kind e)]> (<["value" := entry_value e]> ∅) : gmap string Json) !! k =
  if decide (k = "kind") then Some (JString (entry_kind e))
  else if decide (k = "value") then Some (entry_value e) else None.
Proof.
  repeat case_decide; subst; simplify_map_eq; done.
Qed.

Lemma member_forallb_none (f : string → bool) (l : list (string * RawJson)) (k : string) :
  forallb (λ kv, f kv.1) l = true → f k = false → member k l = [].
Proof.
  induction l as [|[k' v] l IH]; simpl; [done|].
  intros [Hk Hl]%andb_true_iff Hf. case_bool_decide; [congruence|]. eauto.
Qed.

(** An entry presented as an object is reproduced by serializing it... *)
Lemma entry_deserialize_object (l : list (string * RawJson)) (e : ScopeBoundaryEntry) :
  entry_deserialize (RObject l) = Some e → value_of_raw (RObject l) = entry_serialize e.
Proof.
  unfold entry_deserialize, de_entry_raw. destruct (forallb _ l) eqn:Hk; [|done].
  intros ([k v] & (kind & Hkind & (value & Hv & [= <- <-])%bind_Some)%bind_Some & H)%bind_Some.
  simpl in H. destruct (validate_scope_entry kind value); simplify_eq.
  rewrite value_of_raw_object. unfold entry_serialize. f_equal. apply map_eq. intros k.
  rewrite entry_serialize_lookup. repeat case_decide; subst; simpl.
  - apply (de_required_value _ _ _ _ JString de_string_value Hkind).
  - eapply (de_required_value _ _ _ _ id); [|exact Hv]. naive_solver.
  - rewrite raw_members_lookup.
    rewrite (member_forallb_none (λ k, bool_decide (k = "kind" ∨ k = "value")) l k Hk); [done|].
    apply bool_decide_eq_false. naive_solver.
Qed.

#[global] Instance entry_serialize_inj : Inj (=) (=) entry_serialize.
Proof.
  intros [k v] [k' v'] H%(inj JObject). simpl in H. f_equal.
  - apply (f_equal (λ m : gmap string Json, m !! "kind")) in H. by simplify_map_eq.
  - apply (f_equal (λ m : gmap string Json, m !! "value")) in H. by simplify_map_eq.
Qed.

#[global] Instance ser_boundary_inj : Inj (=) (=) ser_boundary.
Proof. intros a b Hab%(inj JArray). by apply (inj (map entry_serialize)). Qed.

#[export] Hint Resolve prefix_contains_refl entry_deserialize_object : vaid.

(** ** Properties *)

(** The three textual relations [prefix_contains] accepts, as propositions. *)
Definition within_prefix (p r : string) : Prop :=
  p = "" ∨ r = p
  ∨ (∃ sep t u, sep ∈ SCOPE_SEPARATORS ∧ p = t +:+ char_string sep ∧ r = p +:+ u)
  ∨ (∃ sep u, sep ∈ SCOPE_SEPARATORS ∧ r = p +:+ char_string sep +:+ u).

Lemma prefix_contains_within (p r : string) :
  prefix_contains p r = true ↔ within_prefix p r.
Proof.
  unfold prefix_contains, within_prefix. case_bool_decide as H1; [naive_solver|].
  case_bool_decide as H2; [naive_solver|].
  destruct (existsb _ _) eqn:E.
  - apply sep_existsb in E as (sep & Hsep & (t & Ht)%ends_with_char_spec).
    rewrite starts_with_spec. split.
    + intros [u ->]. right; right; left. eauto 6.
    + intros [?|[?|[(sep' & t' & u & _ & _ & ->)|(sep' & u & _ & ->)]]]; [done..| |]; eauto.
  - rewrite sep_existsb. split.
    + intros (sep & Hsep & [u ->]%starts_with_spec). right; right; right.
      exists sep, u. by rewrite string_app_assoc.
    + intros [?|[?|[(sep & t & u & Hs & -> & ->)|(sep & u & Hs & ->)]]]; [done..| |].
      * rewrite (proj2 (sep_existsb _)) in E; [done|].
        exists sep. split; [done|]. apply ends_with_char_app.
      * exists sep. split; [done|]. rewrite <- string_app_assoc. apply starts_with_app.
Qed.

(** Containment under one [prefix] value is segment-bounded: the resource is
    the prefix itself, or continues it after a separator the prefix ends with or
    that follows it, or the prefix is empty; nothing else is contained. *)
Theorem prefix_contains_segment_bounded (p r : string) :
  prefix_contains p r = true ↔ within_prefix p r.
Proof. apply prefix_contains_within. Qed.

(** A sibling that merely shares the text of a prefix is never contained:
    with a prefix not ending in a separator, a continuation that does not begin
    with a separator is refused. *)
Theorem sibling_not_contained (p t : string) (c : ascii)
    (Hp : p ≠ "") (Hend : existsb (λ sep, ends_with_char sep p) SCOPE_SEPARATORS = false)
    (Hc : c ∉ SCOPE_SEPARATORS) :
  prefix_contains p (p +:+ String c t) = false.
Proof.
  unfold prefix_contains. rewrite bool_decide_eq_false_2 by done.
  rewrite bool_decide_eq_false_2.
  - rewrite Hend. apply not_true_iff_false. intros (sep & Hsep & [u Hu]%starts_with_spec)%sep_existsb.
    rewrite string_app_assoc in Hu. apply (inj (String.append p)) in Hu. simpl in Hu. naive_solver.
  - intros Heq. assert (String.length (p +:+ String c t) = String.length p) as Hl by by rewrite Heq.
    rewrite string_app_length in Hl. simpl in Hl. lia.
Qed.

Lemma sibling_not_contained_witness :
  prefix_contains "data.governance" "data.governance-secret" = false.
Proof.
  apply (sibling_not_contained "data.governance" "secret" "-"%char); [done|reflexivity|].
  unfold SCOPE_SEPARATORS. set_solver.
Defined.

(** The scope matcher in closed form: a resource is in scope exactly when
    every entry of the boundary can be evaluated and the boundary is empty or
    some [prefix] entry contains the resource; so one entry the implementation
    cannot read refuses every resource, even one another entry matches. *)
Theorem scope_contains_spec (b : list ScopeBoundaryEntry) (r : string) :
  scope_contains b r = true ↔
  Forall (λ e, is_Some (entry_claimed_resource e)) b
  ∧ (b = [] ∨ ∃ e p, e ∈ b ∧ entry_claimed_resource e = Some p ∧ within_prefix p r).
Proof.
  rewrite <- boundary_is_evaluable_spec, scope_contains_true. split.
  - intros [Hev [Hb|(e & He & (p & Hp & Ht)%entry_contains_prefix)]]; [by eauto|].
    split; [done|]. right. exists e, p. split_and!; try done.
    by apply prefix_contains_within.
  - intros [Hev [Hb|(e & p & He & Hp & Ht)]]; [by eauto|].
    split; [done|]. right. exists e. split; [done|]. apply entry_contains_prefix.
    exists p. split; [done|]. symmetry. by apply prefix_contains_within.
Qed.

(** Whether an entry can be evaluated is decided by the registry of
    recognised kinds: an entry that passed the shape gate of [new] (the one
    [Deserialize] applies) is evaluable exactly when its kind is registered. *)
Theorem entry_new_evaluable_iff_recognised (kind : string) (value : Json) (e : ScopeBoundaryEntry)
    (Hnew : entry_new kind value = Ok e) :
  entry_is_evaluable e = true ↔ kind ∈ RECOGNISED_SCOPE_KINDS.
Proof.
  unfold entry_new, validate_scope_entry in Hnew. cases Hnew.
  unfold RECOGNISED_SCOPE_KINDS, entry_is_evaluable, entry_contains. simpl.
  rewrite list_elem_of_singleton. bool_hyps.
  case_bool_decide as Hk; [|naive_solver].
  split; [done|]. intros _. subst kind. by destruct value.
Qed.

Lemma entry_new_evaluable_witness :
  (entry_is_evaluable (mkEntry "amount" (JNumber (PosInt 100))) = true
   ↔ "amount" ∈ RECOGNISED_SCOPE_KINDS).
Proof.
  apply (entry_new_evaluable_iff_recognised "amount" (JNumber (PosInt 100))). reflexivity.
Defined.

(** The derived visitor accepts an entry presented as the two-element array
    [[kind, value]] and reads it as the object with those members: an entry's
    presented form is not unique. *)
Theorem entry_array_form_accepted (kind : string) (v : RawJson) :
  entry_deserialize (RArray [RString kind; v])
  = entry_deserialize (RObject [("kind", RString kind); ("value", v)]).
Proof. reflexivity. Qed.
