(* ===== verification/IssuerIdentity.v ===== *)
(** * Issuer identity: the key thumbprint and the trust-domain grammar

    [crates/vaid-mint/src/issuer_identity.rs]. *)

From S2P Require Import Prelude Json Externals.

Definition THUMBPRINT_URI_PREFIX : string := "urn:ietf:params:oauth:jwk-thumbprint:sha-256:".
Definition TRUST_DOMAIN_MAX_LEN : nat := 253.
Definition TRUST_DOMAIN_MAX_LABEL_LEN : nat := 63.

(** The RFC 9278 thumbprint URI of a raw Ed25519 public key. *)
Definition kernel_key_thumbprint `{!Externals} (public_key : list byte) : string :=
  let x := base64_url_no_pad public_key in
  let jwk := JObject (<["crv" := JString "Ed25519"]>
                     (<["kty" := JString "OKP"]> (<["x" := JString x]> ∅))) in
  let canonical := serde_jcs_to_vec jwk in
  let digest := sha256 canonical in
  THUMBPRINT_URI_PREFIX +:+ base64_url_no_pad digest.

Definition trust_domain_byte (b : ascii) : bool :=
  is_ascii_lowercase b || is_ascii_digit b || bool_decide (b = "-"%char).

(** One pass of the label loop; [false] is its early return. *)
Definition label_is_valid (label : string) : bool :=
  if bool_decide (label = "") || (TRUST_DOMAIN_MAX_LABEL_LEN <? String.length label)%nat then false
  else if starts_with_char "-" label || ends_with_char "-" label then false
  else string_forallb trust_domain_byte label.

Definition is_valid_trust_domain (s : string) : bool :=
  if bool_decide (s = "") || (TRUST_DOMAIN_MAX_LEN <? String.length s)%nat then false
  else
    let labels := split_on "." s in
    if (length labels <? 2)%nat then false
    else if negb (forallb label_is_valid labels) then false
    else negb (string_forallb is_ascii_digit (default "" (last labels))).

Definition RESERVED_TLDS : list string :=
  ["example"; "invalid"; "localhost"; "test"; "local"; "internal"].

(** [s.rsplit('.').next()]: the piece after the last dot. *)
Definition is_special_use_trust_domain (s : string) : bool :=
  match last (split_on "." s) with
  | Some tld => bool_decide (tld ∈ RESERVED_TLDS)
  | None => false
  end.

(** ** The grammar the function decides *)

Record label_ok (l : string) : Prop := {
  label_nonempty : l ≠ "";
  label_short : String.length l ≤ 63;
  label_no_lead : ∀ t, l ≠ "-" +:+ t;
  label_no_trail : ∀ t, l ≠ t +:+ "-";
  label_bytes : string_forallb trust_domain_byte l = true;
}.

(** A sequence of at least two labels joined by dots, 253 bytes at most, whose
    last label is not a number. *)
Definition trust_domain_grammar (s : string) : Prop :=
  ∃ labels final,
    s = join "." (labels ++ [final])
    ∧ labels ≠ []
    ∧ Forall label_ok (labels ++ [final])
    ∧ ¬ string_forallb is_ascii_digit final = true
    ∧ String.length s ≤ 253.

Lemma starts_with_char_spec (c : ascii) (s : string) :
  starts_with_char c s = true ↔ ∃ t, s = char_string c +:+ t.
Proof.
  destruct s as [|a s]; simpl; [naive_solver|].
  rewrite bool_decide_eq_true. split; [intros ->; by exists s | naive_solver].
Qed.

Lemma label_is_valid_spec (l : string) : label_is_valid l = true ↔ label_ok l.
Proof.
  unfold label_is_valid, TRUST_DOMAIN_MAX_LABEL_LEN.
  destruct (bool_decide (l = "") || _) eqn:E1.
  { split; [done|]. intros [H1 H2 _ _ _]. apply orb_true_iff in E1 as [E|E]; bool_hyps; [done|].
    apply Nat.ltb_lt in E. lia. }
  destruct (starts_with_char _ _ || _) eqn:E2.
  { split; [done|]. intros [_ _ H3 H4 _].
    apply orb_true_iff in E2 as [[t Ht]%starts_with_char_spec|[t Ht]%ends_with_char_spec];
      [by destruct (H3 t) | by destruct (H4 t)]. }
  bool_hyps. split.
  - intros Hb. split; try done.
    + match goal with H : (_ <? _)%nat = false |- _ => apply Nat.ltb_ge in H; lia end.
    + intros t ->. match goal with H : starts_with_char _ _ = false |- _ =>
        rewrite (proj2 (starts_with_char_spec _ _)) in H; [done | by exists t] end.
    + intros t ->. match goal with H : ends_with_char _ _ = false |- _ =>
        rewrite (proj2 (ends_with_char_spec _ _)) in H; [done | by exists t] end.
  - by intros [].
Qed.

(** A valid label holds no dot, so labels are what splitting recovers. *)
Lemma label_ok_no_dot (l : string) : label_ok l → no_char "." l.
Proof.
  intros [_ _ _ _ Hb]. unfold no_char. induction l as [|a l IH]; simpl in *; [done|].
  bool_hyps. rewrite IH by done. rewrite bool_decide_eq_true_2; [done|]. by intros ->.
Qed.

Lemma forallb_labels (ls : list string) : forallb label_is_valid ls = true ↔ Forall label_ok ls.
Proof. rewrite forallb_Forall_true. apply Forall_iff. apply label_is_valid_spec. Qed.

Lemma join_two_nonempty (sep : string) (a b : string) (ls : list string) :
  sep ≠ "" → join sep (a :: b :: ls) ≠ "".
Proof. intros Hsep Heq. cbn [join] in Heq. destruct a; [by destruct sep | done]. Qed.

(** The trust-domain checker decides exactly the ADR-0004 grammar: dotted
    labels, at least two, each 1 to 63 lowercase letters, digits and hyphens
    without a leading or trailing hyphen, 253 bytes in all, the last label not
    all-numeric. *)
Theorem is_valid_trust_domain_grammar (s : string) :
  is_valid_trust_domain s = true ↔ trust_domain_grammar s.
Proof.
  unfold is_valid_trust_domain, trust_domain_grammar, TRUST_DOMAIN_MAX_LEN. split.
  - destruct (bool_decide (s = "") || _) eqn:E1; [done|].
    destruct (length _ <? 2)%nat eqn:E2; [done|].
    destruct (negb (forallb _ _)) eqn:E3; [done|]. intros Hd. bool_hyps.
    apply Nat.ltb_ge in E2. apply forallb_labels in E3.
    destruct (exists_last (split_on_nonempty "." s)) as (labels & final & Hs).
    rewrite Hs in *. rewrite last_snoc in Hd. exists labels, final. split_and!; try done.
    + rewrite <- Hs. symmetry. apply (join_split_on ".").
    + rewrite length_app in E2. simpl in E2. destruct labels; [simpl in E2; lia | done].
    + apply not_true_iff_false. exact Hd.
    + match goal with H : (_ <? _)%nat = false |- _ => apply Nat.ltb_ge in H; lia end.
  - intros (labels & final & -> & Hne & Hf & Hd & Hlen).
    assert (split_on "." (join "." (labels ++ [final])) = labels ++ [final]) as Hs.
    { apply (split_on_join "."); [by destruct labels|].
      eapply Forall_impl; [exact Hf|]. apply label_ok_no_dot. }
    rewrite Hs, last_snoc. simpl.
    rewrite (proj2 (Nat.ltb_ge _ _) Hlen), orb_false_r.
    rewrite bool_decide_eq_false_2.
    + rewrite (proj2 (forallb_labels _) Hf). simpl.
      rewrite (proj2 (Nat.ltb_ge _ _)).
      * by destruct (string_forallb _ final).
      * rewrite length_app. destruct labels; [done|simpl; lia].
    + destruct labels as [|a [|b ls]]; [done| |]; by apply join_two_nonempty.
Qed.
