(* ===== verification/Document.v ===== *)
(** * The VAID document

    [crates/vaid-mint/src/document.rs]: timestamps, the [Vaid] struct with its
    serde form, its getters and predicates, the lineage hash and the signing
    digest. *)

From S2P Require Import Prelude Json Externals Concrete Identity Scope.

Definition VAID_SIG_VERSION_V4 : Z := 4.

Section Document.
  Context {Ext : Externals}.

  (** ** Timestamps *)

Definition format_e6 (instant : Instant) : string := dt_format E6_FORMAT instant.

Definition parse_rfc3339 (value : string) : option Instant := dt_parse_from_rfc3339 value.

Definition byte_at (s : string) (i : nat) (c : ascii) : bool :=
  bool_decide (String.get i s = Some c).
Definition digit_at (s : string) (i : nat) : bool :=
  match String.get i s with Some a => is_ascii_digit a | None => false end.

Definition is_e6_timestamp (value : string) : bool :=
  (String.length value =? 20)%nat
  && byte_at value 4 "-" && byte_at value 7 "-" && byte_at value 10 "T"
  && byte_at value 13 ":" && byte_at value 16 ":" && byte_at value 19 "Z"
  && forallb (digit_at value) [0; 1; 2; 3; 5; 6; 8; 9; 11; 12; 14; 15; 17; 18]
  && match parse_rfc3339 value with Some _ => true | None => false end.

  (** ** The struct *)

Record Vaid : Type := mkVaid {
  vd_sig_version : Z;
  vd_vaid_id : PresentedUuid;
  vd_agent_id : PresentedUuid;
  vd_agent_class : AgentClass;
  vd_version : string;
  vd_tenant_id : TenantId;
  vd_issued_at : string;
  vd_expires_at : string;
  vd_public_key_der : list byte;
  vd_kernel_signature : list byte;
  (** presence, then value *)
  vd_parent_vaid : option (option PresentedUuid);
  vd_scope_boundary : list ScopeBoundaryEntry;
  vd_lineage_hash : string;
  vd_capability_set : list string;
  vd_trust_domain : string;
  vd_kernel_key_thumbprint : string;
  vd_unknown_fields : gmap string Json;
}.

Definition with_lineage (agent_id : AgentId) (agent_class : AgentClass) (version : string)
    (tenant_id : TenantId) (issued_at expires_at : Instant) (public_key_der : list byte)
    (kernel_signature : list byte) (parent_vaid : option VaidId)
    (scope_boundary : list ScopeBoundaryEntry) (lineage_hash : string)
    (capability_set : list string) (trust_domain kernel_key_thumbprint : string) : Vaid := {|
  vd_sig_version := VAID_SIG_VERSION_V4;
  vd_vaid_id := pu_from_uuid (agent_as_uuid agent_id);
  vd_agent_id := pu_from_uuid (agent_as_uuid agent_id);
  vd_agent_class := agent_class;
  vd_version := version;
  vd_tenant_id := tenant_id;
  vd_issued_at := format_e6 issued_at;
  vd_expires_at := format_e6 expires_at;
  vd_public_key_der := public_key_der;
  vd_kernel_signature := kernel_signature;
  vd_parent_vaid := Some ((λ p, pu_from_uuid (vaid_as_uuid p)) <$> parent_vaid);
  vd_scope_boundary := scope_boundary;
  vd_lineage_hash := lineage_hash;
  vd_capability_set := capability_set;
  vd_trust_domain := trust_domain;
  vd_kernel_key_thumbprint := kernel_key_thumbprint;
  vd_unknown_fields := ∅;
|}.

Definition with_kernel_signature (d : Vaid) (signature : list byte) : Vaid := {|
  vd_sig_version := vd_sig_version d;
  vd_vaid_id := vd_vaid_id d;
  vd_agent_id := vd_agent_id d;
  vd_agent_class := vd_agent_class d;
  vd_version := vd_version d;
  vd_tenant_id := vd_tenant_id d;
  vd_issued_at := vd_issued_at d;
  vd_expires_at := vd_expires_at d;
  vd_public_key_der := vd_public_key_der d;
  vd_kernel_signature := signature;
  vd_parent_vaid := vd_parent_vaid d;
  vd_scope_boundary := vd_scope_boundary d;
  vd_lineage_hash := vd_lineage_hash d;
  vd_capability_set := vd_capability_set d;
  vd_trust_domain := vd_trust_domain d;
  vd_kernel_key_thumbprint := vd_kernel_key_thumbprint d;
  vd_unknown_fields := vd_unknown_fields d;
|}.

  (** ** Getters and predicates *)

Definition sig_version (d : Vaid) : Z := vd_sig_version d.
Definition vaid_id (d : Vaid) : VaidId := VaidId_from_uuid (pu_uuid (vd_vaid_id d)).
Definition vaid_id_as_presented (d : Vaid) : string := pu_as_presented (vd_vaid_id d).
Definition agent_id (d : Vaid) : AgentId := AgentId_from_uuid (pu_uuid (vd_agent_id d)).
Definition issued_at (d : Vaid) : option Instant := parse_rfc3339 (vd_issued_at d).
Definition issued_at_as_presented (d : Vaid) : string := vd_issued_at d.
Definition expires_at (d : Vaid) : option Instant := parse_rfc3339 (vd_expires_at d).
Definition expires_at_as_presented (d : Vaid) : string := vd_expires_at d.
Definition parent_vaid (d : Vaid) : option VaidId :=
  p ← vd_parent_vaid d; u ← p; Some (VaidId_from_uuid (pu_uuid u)).

Definition is_expired_at (d : Vaid) (now : Instant) : bool :=
  match expires_at d with
  | Some e => bool_decide (e < now)%Z
  | None => true
  end.

Definition has_conforming_timestamps (d : Vaid) : bool :=
  is_e6_timestamp (vd_issued_at d) && is_e6_timestamp (vd_expires_at d).

Definition is_in_scope (d : Vaid) (resource : string) : bool :=
  scope_contains (vd_scope_boundary d) resource.
Definition has_capability (d : Vaid) (capability : string) : bool :=
  caps_contain (vd_capability_set d) capability.

  (** ** The serde form *)

Definition KNOWN_FIELDS : list string :=
  ["sig_version"; "vaid_id"; "agent_id"; "agent_class"; "version"; "tenant_id"; "issued_at";
   "expires_at"; "public_key_der"; "kernel_signature"; "parent_vaid"; "scope_boundary";
   "lineage_hash"; "capability_set"; "trust_domain"; "kernel_key_thumbprint"].

Definition ser_parent (p : option PresentedUuid) : Json :=
  match p with Some u => pu_serialize u | None => JNull end.

Definition vaid_members (d : Vaid) : list (string * Json) :=
  [("sig_version", JNumber (PosInt (vd_sig_version d)));
   ("vaid_id", pu_serialize (vd_vaid_id d));
   ("agent_id", pu_serialize (vd_agent_id d));
   ("agent_class", JString (class_as_str (vd_agent_class d)));
   ("version", JString (vd_version d));
   ("tenant_id", JString (tenant_as_str (vd_tenant_id d)));
   ("issued_at", JString (vd_issued_at d));
   ("expires_at", JString (vd_expires_at d));
   ("public_key_der", ser_bytes (vd_public_key_der d));
   ("kernel_signature", ser_bytes (vd_kernel_signature d))]
  ++ match vd_parent_vaid d with
     | Some p => [("parent_vaid", ser_parent p)]
     | None => []
     end
  ++ [("scope_boundary", ser_boundary (vd_scope_boundary d));
      ("lineage_hash", JString (vd_lineage_hash d));
      ("capability_set", ser_strings (vd_capability_set d));
      ("trust_domain", JString (vd_trust_domain d));
      ("kernel_key_thumbprint", JString (vd_kernel_key_thumbprint d))].

  (** [serde_json::to_value(vaid)]: the flattened map is written last. *)
Definition vaid_to_value (d : Vaid) : Json :=
  JObject (vd_unknown_fields d ∪ list_to_map (vaid_members d)).

Definition unknown_members (l : list (string * RawJson)) : list (string * RawJson) :=
  filter (λ kv, kv.1 ∉ KNOWN_FIELDS) l.

  (** The derived [Deserialize] of [Vaid] (a flattened struct is read as a map). *)
Definition vaid_deserialize (r : RawJson) : option Vaid :=
  match r with
  | RObject l =>
      sig_version ← de_default "sig_version" de_u8 0%Z l;
      vaid_id ← de_required "vaid_id" pu_deserialize l;
      agent_id ← de_required "agent_id" pu_deserialize l;
      agent_class ← de_required "agent_class" de_string l;
      version ← de_required "version" de_string l;
      tenant_id ← de_required "tenant_id" de_string l;
      issued_at ← de_required "issued_at" de_string l;
      expires_at ← de_required "expires_at" de_string l;
      public_key_der ← de_required "public_key_der" (de_vec de_byte) l;
      kernel_signature ← de_required "kernel_signature" (de_vec de_byte) l;
      parent_vaid ← de_default "parent_vaid" deserialize_present None l;
      scope_boundary ← de_required "scope_boundary" (de_vec entry_deserialize) l;
      lineage_hash ← de_required "lineage_hash" de_string l;
      capability_set ← de_required "capability_set" (de_vec de_string) l;
      trust_domain ← de_required "trust_domain" de_string l;
      kernel_key_thumbprint ← de_required "kernel_key_thumbprint" de_string l;
      Some {|
        vd_sig_version := sig_version;
        vd_vaid_id := vaid_id;
        vd_agent_id := agent_id;
        vd_agent_class := mkAgentClass agent_class;
        vd_version := version;
        vd_tenant_id := mkTenantId tenant_id;
        vd_issued_at := issued_at;
        vd_expires_at := expires_at;
        vd_public_key_der := public_key_der;
        vd_kernel_signature := kernel_signature;
        vd_parent_vaid := parent_vaid;
        vd_scope_boundary := scope_boundary;
        vd_lineage_hash := lineage_hash;
        vd_capability_set := capability_set;
        vd_trust_domain := trust_domain;
        vd_kernel_key_thumbprint := kernel_key_thumbprint;
        vd_unknown_fields := raw_members (unknown_members l);
      |}
  | _ => None
  end.

  (** ** Lineage hash and signing digest *)

Definition compute_lineage_hash (parent_vaid : option VaidId) (agent_id : AgentId) : string :=
  to_hex (sha256 (string_bytes
    (match parent_vaid with
     | Some parent => vaid_id_to_string parent +:+ ":" +:+ agent_id_to_string agent_id
     | None => "GENESIS:" +:+ agent_id_to_string agent_id
     end))).

Definition canonical_vaid_signing_bytes (d : Vaid) : list byte :=
  sha256 (serde_jcs_to_vec (object_insert "kernel_signature" JNull (vaid_to_value d))).

  (** The type invariant: identifiers denote what they spell, extension members
      are not the named ones, the version is a byte. *)
Record vaid_wf (d : Vaid) : Prop := {
  wf_vaid_id : pu_wf (vd_vaid_id d);
  wf_agent_id : pu_wf (vd_agent_id d);
  wf_parent : ∀ u, vd_parent_vaid d = Some (Some u) → pu_wf u;
  wf_unknown : ∀ k, k ∈ KNOWN_FIELDS → vd_unknown_fields d !! k = None;
  wf_sig_version : (0 ≤ vd_sig_version d ≤ 255)%Z;
}.


  (** ** Lemmas *)

Lemma member_unknown (l : list (string * RawJson)) (k : string) :
  member k (unknown_members l) = if decide (k ∈ KNOWN_FIELDS) then [] else member k l.
Proof.
  unfold unknown_members. induction l as [|[k' v] l IH]; simpl; [by case_decide|].
  rewrite filter_cons. simpl. repeat case_decide; simpl; repeat case_bool_decide; subst;
    rewrite ?IH; done.
Qed.

Lemma unknown_members_lookup (l : list (string * RawJson)) (k : string) :
  raw_members (unknown_members l) !! k =
  if decide (k ∈ KNOWN_FIELDS) then None else raw_members l !! k.
Proof. rewrite !raw_members_lookup, member_unknown. by case_decide. Qed.

Lemma vaid_members_keys (d : Vaid) (k : string) :
  k ∉ KNOWN_FIELDS → (list_to_map (vaid_members d) : gmap string Json) !! k = None.
Proof.
  intros Hk. apply not_elem_of_list_to_map_1. intros Hin. apply Hk.
  unfold vaid_members, KNOWN_FIELDS in *. destruct (vd_parent_vaid d); simpl in *; set_solver.
Qed.

  (** The member a document writes under a named field. *)
Definition known_value (d : Vaid) (k : string) : option Json :=
  (list_to_map (vaid_members d) : gmap string Json) !! k.

Lemma vaid_to_value_known (d : Vaid) (k : string) :
  vaid_wf d → k ∈ KNOWN_FIELDS →
  (vd_unknown_fields d ∪ list_to_map (vaid_members d)) !! k = known_value d k.
Proof. intros Hwf Hk. rewrite lookup_union, (wf_unknown d Hwf k Hk). by rewrite left_id_L by apply _. Qed.

Lemma known_value_parent (d : Vaid) :
  known_value d "parent_vaid" = ser_parent <$> vd_parent_vaid d.
Proof. unfold known_value, vaid_members. by destruct (vd_parent_vaid d). Qed.

Lemma deserialize_present_value (r : RawJson) (o : option (option PresentedUuid)) :
  deserialize_present r = Some o → ∃ p, o = Some p ∧ value_of_raw r = ser_parent p.
Proof.
  unfold deserialize_present. intros (p & Hp & [= <-])%bind_Some. exists p. split; [done|].
  unfold de_option in Hp.
  destruct r; simplify_eq; simpl in *; try done;
    apply bind_Some in Hp as (u & Hu & [= <-]); simpl; by apply (pu_deserialize_value _ _ Hu).
Qed.

Lemma de_vec_bytes_value r bs : de_vec de_byte r = Some bs → value_of_raw r = ser_bytes bs.
Proof. apply de_vec_value, de_byte_value. Qed.

Lemma de_vec_strings_value r ss : de_vec de_string r = Some ss → value_of_raw r = ser_strings ss.
Proof. apply de_vec_value, de_string_value. Qed.

Lemma de_vec_boundary_value r b :
  (∀ x, r = RArray x → Forall (λ e, ∃ m, e = RObject m) x) →
  de_vec entry_deserialize r = Some b → value_of_raw r = ser_boundary b.
Proof.
  intros Hobj Hb. destruct r as [| | | |x|]; try done. specialize (Hobj x eq_refl).
  simpl in *. unfold ser_boundary. f_equal. apply mapM_Some_1 in Hb.
  induction Hb as [|e a x b He _ IH]; [done|]. inversion Hobj as [|? ? [m ->] Hx]; subst.
  simpl map. rewrite IH by done. f_equal. by apply entry_deserialize_object.
Qed.

(** What a presented document must have for its re-serialization to be exact:
    the version member is present and the boundary entries are objects (the
    form spec S.8 gives them). *)
Definition presented_conformingly (l : list (string * RawJson)) : Prop :=
  member "sig_version" l ≠ []
  ∧ ∀ x, member "scope_boundary" l = [RArray x] → Forall (λ e, ∃ m, e = RObject m) x.

(** Evaluate [known_value] at a concrete member name. *)
Ltac known_value_refl := unfold known_value, vaid_members; goal_case; reflexivity.

(** Read off the value of a named member from the fact that it deserialized. *)
Ltac known_member :=
  match goal with
  | H : de_required ?k de_string ?l = Some _ |- context [raw_members ?l !! ?k] =>
      rewrite (de_required_value k _ l _ JString de_string_value H)
  | H : de_required ?k pu_deserialize ?l = Some _ |- context [raw_members ?l !! ?k] =>
      rewrite (de_required_value k _ l _ pu_serialize pu_deserialize_value H)
  | H : de_required ?k (de_vec de_byte) ?l = Some _ |- context [raw_members ?l !! ?k] =>
      rewrite (de_required_value k _ l _ ser_bytes de_vec_bytes_value H)
  | H : de_required ?k (de_vec de_string) ?l = Some _ |- context [raw_members ?l !! ?k] =>
      rewrite (de_required_value k _ l _ ser_strings de_vec_strings_value H)
  end; known_value_refl.

Lemma de_parent_value (l : list (string * RawJson)) (o : option (option PresentedUuid)) :
  de_default "parent_vaid" deserialize_present None l = Some o →
  raw_members l !! "parent_vaid" = ser_parent <$> o.
Proof.
  unfold de_default, de_member. rewrite raw_members_lookup.
  destruct (member _ l) as [|v [|]]; simpl; try done.
  - naive_solver.
  - intros H. invert_binds. simplify_eq. simpl.
    match goal with H : deserialize_present _ = Some _ |- _ =>
      apply deserialize_present_value in H as (p & -> & ->) end. done.
Qed.

Lemma de_sig_version_value (l : list (string * RawJson)) (n : Z) :
  de_default "sig_version" de_u8 0%Z l = Some n →
  (0 ≤ n ≤ 255)%Z ∧
  (member "sig_version" l ≠ [] → raw_members l !! "sig_version" = Some (JNumber (PosInt n))).
Proof.
  unfold de_default, de_member. rewrite raw_members_lookup.
  destruct (member _ l) as [|v [|]]; simpl; try done.
  - intros [= <-]. split; [lia|done].
  - intros H. invert_binds. simplify_eq. simpl.
    match goal with H : de_u8 _ = Some _ |- _ => apply de_u8_value in H as [-> ?] end. done.
Qed.

Lemma de_boundary_value (l : list (string * RawJson)) (b : list ScopeBoundaryEntry) :
  (∀ x, member "scope_boundary" l = [RArray x] → Forall (λ e, ∃ m, e = RObject m) x) →
  de_required "scope_boundary" (de_vec entry_deserialize) l = Some b →
  raw_members l !! "scope_boundary" = Some (ser_boundary b).
Proof.
  unfold de_required, de_member. rewrite raw_members_lookup. intros Hobj H.
  destruct (member _ l) as [|v [|]] eqn:E; invert_binds; simplify_eq; simpl.
  erewrite de_vec_boundary_value; [done| |done]. intros x ->. by apply Hobj.
Qed.

Lemma deserialized_wf (r : RawJson) (d : Vaid) : vaid_deserialize r = Some d → vaid_wf d.
Proof.
  intros Hd. destruct r as [| | | | |l]; try done. unfold vaid_deserialize in Hd. invert_binds.
  simplify_eq. split; simpl.
  - unfold de_required, de_member in *. destruct (member "vaid_id" l) as [|? [|]];
      invert_binds; simplify_eq. eauto using pu_deserialize_wf.
  - unfold de_required, de_member in *. destruct (member "agent_id" l) as [|? [|]];
      invert_binds; simplify_eq. eauto using pu_deserialize_wf.
  - intros u Hu. unfold de_default, de_member in *.
    destruct (member "parent_vaid" l) as [|v [|]]; invert_binds; simplify_eq; simpl in *; simplify_eq.
    unfold deserialize_present, de_option in *.
    destruct v; invert_binds; simplify_eq; eauto using pu_deserialize_wf.
  - intros k Hk. rewrite unknown_members_lookup. by case_decide.
  - by eapply de_sig_version_value.
Qed.

(** Every document that deserializes is well formed: its identifiers denote
    what they spell, its extension members are none of the named ones, and its
    version is a byte. *)
Theorem vaid_deserialize_wf (r : RawJson) (d : Vaid) (Hd : vaid_deserialize r = Some d) :
  vaid_wf d.
Proof. by apply (deserialized_wf r). Qed.

(** C11. ADR-0006 Requirement 3: a presented document that deserializes is
    reproduced exactly, member for member and spelling for spelling, by
    serializing the struct it was read into; so the signing digest is a function
    of the presented object.  It needs the version member to be present and the
    boundary entries to be objects. *)
Theorem vaid_roundtrip (l : list (string * RawJson)) (d : Vaid)
    (Hd : vaid_deserialize (RObject l) = Some d) (Hconf : presented_conformingly l) :
  vaid_to_value d = value_of_raw (RObject l).
Proof.
  pose proof (deserialized_wf _ _ Hd) as Hwf. destruct Hconf as [Hsig Hobj].
  rewrite value_of_raw_object. unfold vaid_to_value. f_equal. apply map_eq. intros k.
  destruct (decide (k ∈ KNOWN_FIELDS)) as [Hk|Hk].
  - rewrite vaid_to_value_known by done. unfold vaid_deserialize in Hd. invert_binds. simplify_eq.
    unfold KNOWN_FIELDS in Hk. rewrite !elem_of_cons, elem_of_nil in Hk.
    destruct_or! Hk; subst; try done; try (symmetry; known_member).
    + lazymatch goal with H : de_default _ de_u8 _ _ = _ |- _ =>
        rewrite (proj2 (de_sig_version_value _ _ H) Hsig) end. known_value_refl.
    + rewrite known_value_parent. symmetry. by apply de_parent_value.
    + symmetry. erewrite de_boundary_value by done. known_value_refl.
  - rewrite lookup_union, vaid_members_keys by done. rewrite (right_id_L None _).
    unfold vaid_deserialize in Hd. invert_binds. simplify_eq. simpl.
    rewrite unknown_members_lookup. by rewrite decide_False.
Qed.


(** Two documents with the same object have the same known members. *)
Lemma known_value_eq (d1 d2 : Vaid) (k : string) :
  vaid_wf d1 → vaid_wf d2 → k ∈ KNOWN_FIELDS →
  vd_unknown_fields d1 ∪ list_to_map (vaid_members d1)
  = vd_unknown_fields d2 ∪ list_to_map (vaid_members d2) →
  known_value d1 k = known_value d2 k.
Proof.
  intros H1 H2 Hk Heq. rewrite <- !vaid_to_value_known by done. by rewrite Heq.
Qed.

Lemma known_value_fields (d : Vaid) :
  known_value d "sig_version" = Some (JNumber (PosInt (vd_sig_version d)))
  ∧ known_value d "vaid_id" = Some (pu_serialize (vd_vaid_id d))
  ∧ known_value d "agent_id" = Some (pu_serialize (vd_agent_id d))
  ∧ known_value d "agent_class" = Some (JString (class_as_str (vd_agent_class d)))
  ∧ known_value d "version" = Some (JString (vd_version d))
  ∧ known_value d "tenant_id" = Some (JString (tenant_as_str (vd_tenant_id d)))
  ∧ known_value d "issued_at" = Some (JString (vd_issued_at d))
  ∧ known_value d "expires_at" = Some (JString (vd_expires_at d))
  ∧ known_value d "public_key_der" = Some (ser_bytes (vd_public_key_der d))
  ∧ known_value d "kernel_signature" = Some (ser_bytes (vd_kernel_signature d))
  ∧ known_value d "scope_boundary" = Some (ser_boundary (vd_scope_boundary d))
  ∧ known_value d "lineage_hash" = Some (JString (vd_lineage_hash d))
  ∧ known_value d "capability_set" = Some (ser_strings (vd_capability_set d))
  ∧ known_value d "trust_domain" = Some (JString (vd_trust_domain d))
  ∧ known_value d "kernel_key_thumbprint" = Some (JString (vd_kernel_key_thumbprint d)).
Proof. unfold known_value, vaid_members. by destruct (vd_parent_vaid d). Qed.

Lemma ser_parent_inj (p q : option (option PresentedUuid)) :
  (∀ u, p = Some (Some u) → pu_wf u) → (∀ u, q = Some (Some u) → pu_wf u) →
  ser_parent <$> p = ser_parent <$> q → p = q.
Proof.
  destruct p as [[u|]|], q as [[v|]|]; simpl; intros Hp Hq Heq; simplify_eq; try done.
  do 2 f_equal. apply pu_serialize_inj; [by apply Hp | by apply Hq|].
  unfold pu_serialize. congruence.
Qed.

(** The named fields written back fix the document. *)
Lemma vaid_known_inj (d1 d2 : Vaid) :
  vaid_wf d1 → vaid_wf d2 →
  (∀ k, k ∈ KNOWN_FIELDS → known_value d1 k = known_value d2 k) →
  vd_unknown_fields d1 = vd_unknown_fields d2 → d1 = d2.
Proof.
  intros H1 H2 Hk Hu.
  pose proof (known_value_parent d1) as P1. pose proof (known_value_parent d2) as P2.
  pose proof (known_value_fields d1) as F1. pose proof (known_value_fields d2) as F2.
  rewrite !Hk in F1 by decided. rewrite Hk in P1 by decided.
  assert (vd_parent_vaid d1 = vd_parent_vaid d2) as Hp.
  { apply ser_parent_inj; [apply H1 | apply H2 | congruence]. }
  destruct_and! F1. destruct_and! F2.
  repeat match goal with
  | A : known_value d2 ?k = Some _, B : known_value d2 ?k = Some _ |- _ =>
      rewrite A in B; apply (inj Some) in B; clear A
  end.
  assert (vd_vaid_id d1 = vd_vaid_id d2)
    by (apply pu_serialize_inj; [apply H1 | apply H2 | congruence]).
  assert (vd_agent_id d1 = vd_agent_id d2)
    by (apply pu_serialize_inj; [apply H1 | apply H2 | congruence]).
  clear Hk P1 P2. destruct d1 as [? ? ? [?] ? [?]], d2 as [? ? ? [?] ? [?]]; simpl in *.
  repeat match goal with
  | A : JString _ = JString _ |- _ => apply (inj JString) in A
  | A : ser_bytes _ = ser_bytes _ |- _ => apply (inj ser_bytes) in A
  | A : ser_strings _ = ser_strings _ |- _ => apply (inj ser_strings) in A
  | A : ser_boundary _ = ser_boundary _ |- _ => apply (inj ser_boundary) in A
  | A : JNumber _ = JNumber _ |- _ => injection A as A
  end. by simplify_eq.
Qed.

Lemma unknown_fields_inj (d1 d2 : Vaid) :
  vaid_wf d1 → vaid_wf d2 →
  vd_unknown_fields d1 ∪ list_to_map (vaid_members d1)
  = vd_unknown_fields d2 ∪ list_to_map (vaid_members d2) →
  vd_unknown_fields d1 = vd_unknown_fields d2.
Proof.
  intros H1 H2 Heq. apply map_eq. intros k.
  destruct (decide (k ∈ KNOWN_FIELDS)) as [Hk|Hk].
  - by rewrite (wf_unknown _ H1), (wf_unknown _ H2).
  - apply (f_equal (λ m : gmap string Json, m !! k)) in Heq.
    rewrite !lookup_union, !vaid_members_keys, !(right_id_L None _) in Heq by done. done.
Qed.

Lemma vaid_to_value_inj (d1 d2 : Vaid) :
  vaid_wf d1 → vaid_wf d2 → vaid_to_value d1 = vaid_to_value d2 → d1 = d2.
Proof.
  intros H1 H2 Heq%(inj JObject).
  apply vaid_known_inj; [done..| |by apply unknown_fields_inj].
  intros k Hk. by apply known_value_eq.
Qed.

(** C13. Serialization is injective on well-formed documents: no two of them have
    the same object, so a signature over the object covers every field, absent
    and null parents kept apart and identifiers by their presented spelling. *)
Theorem vaid_to_value_injective (d1 d2 : Vaid) (H1 : vaid_wf d1) (H2 : vaid_wf d2)
    (Heq : vaid_to_value d1 = vaid_to_value d2) : d1 = d2.
Proof. by apply vaid_to_value_inj. Qed.


(** Attaching a signature changes that member only. *)
Lemma vaid_to_value_with_signature (d : Vaid) (sig : list byte) :
  vaid_wf d →
  vaid_to_value (with_kernel_signature d sig)
  = object_insert "kernel_signature" (ser_bytes sig) (vaid_to_value d).
Proof.
  intros Hwf. unfold vaid_to_value. simpl object_insert. f_equal.
  rewrite insert_union_r by (apply (wf_unknown d Hwf); unfold KNOWN_FIELDS; set_solver).
  f_equal. unfold vaid_members. simpl. by destruct (vd_parent_vaid d).
Qed.

Lemma vaid_wf_with_signature (d : Vaid) (sig : list byte) :
  vaid_wf d → vaid_wf (with_kernel_signature d sig).
Proof. by intros [? ? ? ? ?]. Qed.

(** The value that is hashed and signed. *)
Definition signing_value (d : Vaid) : Json :=
  object_insert "kernel_signature" JNull (vaid_to_value d).

Lemma object_insert_insert k v w j :
  object_insert k v (object_insert k w j) = object_insert k v j.
Proof. destruct j; simpl; [done..|]. by rewrite insert_insert_eq. Qed.

Lemma signing_value_with_signature (d : Vaid) (sig : list byte) :
  vaid_wf d → signing_value (with_kernel_signature d sig) = signing_value d.
Proof.
  intros Hwf. unfold signing_value. rewrite vaid_to_value_with_signature by done.
  apply object_insert_insert.
Qed.

Lemma canonical_with_signature (d : Vaid) (sig : list byte) :
  vaid_wf d →
  canonical_vaid_signing_bytes (with_kernel_signature d sig) = canonical_vaid_signing_bytes d.
Proof.
  intros Hwf. unfold canonical_vaid_signing_bytes.
  do 2 f_equal. by apply (signing_value_with_signature d sig).
Qed.

Lemma with_lineage_wf `{!UuidLaws} aid ac ver ten iss exp pk sig par sc lh cs td kt :
  vaid_wf (with_lineage aid ac ver ten iss exp pk sig par sc lh cs td kt).
Proof.
  split; simpl; try apply pu_from_uuid_wf.
  - intros u. destruct par; simpl; intros [= <-]. apply pu_from_uuid_wf.
  - done.
  - unfold VAID_SIG_VERSION_V4. lia.
Qed.

(** C12. Every field but the kernel signature is covered by the signing digest:
    two well-formed documents with the same digest agree on everything but that
    field, unless the two exhibit a collision of the digest. *)
Theorem signing_digest_covers_document (d1 d2 : Vaid) (H1 : vaid_wf d1) (H2 : vaid_wf d2)
    (Hcollision : sha256 (serde_jcs_to_vec (signing_value d1))
                  = sha256 (serde_jcs_to_vec (signing_value d2)) →
                  signing_value d1 = signing_value d2)
    (Heq : canonical_vaid_signing_bytes d1 = canonical_vaid_signing_bytes d2) :
  with_kernel_signature d1 [] = with_kernel_signature d2 [].
Proof.
  apply vaid_to_value_inj; [by apply vaid_wf_with_signature..|].
  rewrite !vaid_to_value_with_signature by done.
  rewrite <- (object_insert_insert _ _ JNull (vaid_to_value d1)).
  rewrite <- (object_insert_insert _ _ JNull (vaid_to_value d2)).
  f_equal. by apply Hcollision.
Qed.

Lemma member_app (k : string) (l l' : list (string * RawJson)) :
  member k (l ++ l') = member k l ++ member k l'.
Proof.
  induction l as [|[k' v] l IH]; simpl; [done|]. case_bool_decide; simpl; by rewrite IH.
Qed.

Lemma member_other (k k' : string) (v : RawJson) (l : list (string * RawJson)) :
  k' ≠ k → member k ((k', v) :: l) = member k l.
Proof. intros Hne. simpl. by rewrite bool_decide_eq_false_2. Qed.

Lemma de_member_ext {A} (k : string) (f : RawJson → option A) l l' :
  member k l = member k l' → de_member k f l = de_member k f l'.
Proof. unfold de_member. by intros ->. Qed.

(** A document read with one member's value replaced. *)
Lemma vaid_deserialize_ext (l : list (string * RawJson)) (v v' : RawJson) :
  de_vec entry_deserialize v = de_vec entry_deserialize v' →
  vaid_deserialize (RObject (l ++ [("scope_boundary", v)]))
  = vaid_deserialize (RObject (l ++ [("scope_boundary", v')])).
Proof.
  intros Hv. unfold vaid_deserialize, de_required, de_default.
  assert (unknown_members (l ++ [("scope_boundary", v)])
          = unknown_members (l ++ [("scope_boundary", v')])) as ->.
  { unfold unknown_members. rewrite !filter_app. f_equal. }
  assert (∀ A (k : string) (f : RawJson → option A), k ≠ "scope_boundary" →
            de_member k f (l ++ [("scope_boundary", v)])
            = de_member k f (l ++ [("scope_boundary", v')])) as Hk.
  { intros A k f Hne. apply de_member_ext. by rewrite !member_app, !member_other. }
  assert (de_member "scope_boundary" (de_vec entry_deserialize) (l ++ [("scope_boundary", v)])
          = de_member "scope_boundary" (de_vec entry_deserialize) (l ++ [("scope_boundary", v')]))
    as ->; [|by rewrite !Hk by done].
  unfold de_member. rewrite !member_app. simpl.
  destruct (member _ l) as [|x [|y l']]; simpl; [by rewrite Hv|done..].
Qed.

(** Re-spelling a boundary entry after signing goes unnoticed: a document
    whose last member is a boundary with the entry in its two-element array form
    reads as the same struct as the one with the object form, although the two
    presented objects differ, so the two have one signing digest. *)
Theorem array_entry_not_reproduced (l : list (string * RawJson)) (kind : string) (v : RawJson) :
  let as_array := l ++ [("scope_boundary", RArray [RArray [RString kind; v]])] in
  let as_object := l ++ [("scope_boundary",
                          RArray [RObject [("kind", RString kind); ("value", v)]])] in
  vaid_deserialize (RObject as_array) = vaid_deserialize (RObject as_object)
  ∧ value_of_raw (RObject as_array) ≠ value_of_raw (RObject as_object).
Proof.
  split; [by apply vaid_deserialize_ext|].
  rewrite !value_of_raw_object. intros Heq%(inj JObject).
  apply (f_equal (λ m : gmap string Json, m !! "scope_boundary")) in Heq.
  rewrite !raw_members_lookup, !member_app in Heq. simpl in Heq. by rewrite !last_snoc in Heq.
Qed.

End Document.

(** ** Witnesses: a root document presented as JSON members, one identifier in
    its second spelling *)

Definition sample_members : list (string * RawJson) :=
  [("sig_version", RNumber (PosInt 4)); ("vaid_id", RString "U-1"); ("agent_id", RString "u-1");
   ("agent_class", RString "orchestrator"); ("version", RString "1.0.0");
   ("tenant_id", RString "acme"); ("issued_at", RString "0000-00-00T00:00:05Z");
   ("expires_at", RString "0000-00-00T00:01:05Z");
   ("public_key_der", RArray [RNumber (PosInt 7)]); ("kernel_signature", RArray []);
   ("parent_vaid", RNull);
   ("scope_boundary", RArray [RObject [("kind", RString "prefix"); ("value", RString "data")]]);
   ("lineage_hash", RString "00"); ("capability_set", RArray [RString "read"]);
   ("trust_domain", RString "vaid.example"); ("kernel_key_thumbprint", RString "t");
   ("x_extension", RBool true)].

Definition sample_doc : Vaid := {|
  vd_sig_version := 4; vd_vaid_id := mkPresentedUuid "U-1" 3%N; vd_agent_id := mkPresentedUuid "u-1" 3%N;
  vd_agent_class := mkAgentClass "orchestrator"; vd_version := "1.0.0";
  vd_tenant_id := mkTenantId "acme"; vd_issued_at := "0000-00-00T00:00:05Z";
  vd_expires_at := "0000-00-00T00:01:05Z"; vd_public_key_der := ["007"%byte];
  vd_kernel_signature := []; vd_parent_vaid := Some None;
  vd_scope_boundary := [entry_prefix "data"]; vd_lineage_hash := "00";
  vd_capability_set := ["read"]; vd_trust_domain := "vaid.example";
  vd_kernel_key_thumbprint := "t"; vd_unknown_fields := {["x_extension" := JBool true]};
|}.

Definition sample_other : Vaid := with_kernel_signature sample_doc ["001"%byte].

Lemma vaid_deserialize_wf_witness : @vaid_wf (concrete no_json) sample_doc.
Proof. apply (vaid_deserialize_wf (RObject sample_members)). vm_compute. reflexivity. Defined.

Lemma vaid_roundtrip_witness :
  @vaid_to_value sample_doc = value_of_raw (RObject sample_members).
Proof.
  apply (vaid_roundtrip (Ext := concrete no_json)).
  - vm_compute. reflexivity.
  - split; [done|]. intros x Hx. vm_compute in Hx. simplify_eq.
    repeat constructor. eauto.
Defined.

Lemma sample_wf (s : list byte) : @vaid_wf (concrete no_json) (with_kernel_signature sample_doc s).
Proof.
  split; try done. intros k Hk.
  unfold KNOWN_FIELDS in Hk. rewrite !elem_of_cons, elem_of_nil in Hk.
  destruct_or! Hk; by subst.
Qed.

Lemma vaid_to_value_injective_witness :
  with_kernel_signature sample_other [] = sample_doc.
Proof.
  apply (vaid_to_value_injective (Ext := concrete no_json)).
  - apply (sample_wf []).
  - apply (sample_wf []).
  - reflexivity.
Defined.

Lemma signing_digest_covers_document_witness :
  with_kernel_signature sample_doc [] = with_kernel_signature sample_other [].
Proof.
  apply (signing_digest_covers_document (Ext := concrete no_json)).
  - apply (sample_wf []).
  - apply (sample_wf ["001"%byte]).
  - intros _. vm_compute. reflexivity.
  - vm_compute. reflexivity.
Defined.

(** ** Minted timestamps *)

Section Timestamps.
  Context {Ext : Externals} {Laws : @ChronoLaws ext_chrono}.

Lemma parse_format_e6 t :
  four_digit_year t → parse_rfc3339 (format_e6 t) = Some (t - t mod NANOS)%Z.
Proof. apply dt_parse_format_e6. Qed.

Lemma parse_format_whole t :
  four_digit_year t → (t mod NANOS = 0)%Z → parse_rfc3339 (format_e6 t) = Some t.
Proof. intros Ht Hw. rewrite parse_format_e6 by done. f_equal. lia. Qed.

Lemma format_e6_profile t : four_digit_year t → is_e6_timestamp (format_e6 t) = true.
Proof.
  intros Ht. pose proof (dt_format_e6_shape t Ht) as Hs.
  pose proof (parse_format_e6 t Ht) as Hp. unfold format_e6 in *.
  unfold is_e6_timestamp. rewrite Hp. clear Hp.
  generalize dependent (dt_format E6_FORMAT t). intros s Hs.
  do 20 (destruct s as [|? s]; [by rewrite ?andb_false_r in Hs|]; simpl in Hs;
         apply andb_true_iff in Hs as [? Hs]).
  destruct s; [|done]. bool_hyps. subst. simpl. unfold digit_at. simpl.
  repeat match goal with H : is_ascii_digit _ = true |- _ => rewrite H; clear H end. done.
Qed.

(** A document built by the mint's constructor carries timestamps in the E.6
    profile whatever the precision of the instants it was given, for every
    four-digit year. *)
Theorem with_lineage_conforming aid ac ver ten iss exp pk sig par sc lh cs td kt
    (Hiss : four_digit_year iss) (Hexp : four_digit_year exp) :
  has_conforming_timestamps
    (with_lineage aid ac ver ten iss exp pk sig par sc lh cs td kt) = true.
Proof.
  unfold has_conforming_timestamps. simpl. by rewrite !format_e6_profile.
Qed.

Lemma is_expired_at_mono (d : Vaid) (now now' : Instant) :
  (now ≤ now')%Z → is_expired_at d now = true → is_expired_at d now' = true.
Proof.
  unfold is_expired_at. destruct (expires_at d); [|done].
  rewrite !bool_decide_eq_true. lia.
Qed.

End Timestamps.

Lemma with_lineage_conforming_witness :
  @has_conforming_timestamps (concrete no_json)
    (@with_lineage (concrete no_json) (AgentId_from_uuid 3%N) (mkAgentClass "a") "1" (mkTenantId "t")
      1754900000123456789%Z 1754903600000000000%Z [] [] None [] "" [] "vaid.example" "t") = true.
Proof.
  apply (with_lineage_conforming (Ext := concrete no_json));
    unfold four_digit_year, NANOS; lia.
Defined.
