(* ===== verification/DupScan.v ===== *)
(** * The duplicate member-name scan over raw JSON text

    [has_duplicate_member_names] and [scan_json_string] of
    [crates/vaid-mint/src/document.rs].  A position in the byte slice is the
    text from there on. *)

From S2P Require Import Prelude.

Definition DQUOTE : ascii := "034"%char.
Definition BACKSLASH : ascii := "\"%char.

(** [u8::is_ascii_whitespace]: space, tab, line feed, form feed, return. *)
Definition is_ascii_whitespace (a : ascii) : bool :=
  bool_decide (a = " "%char ∨ a = "009"%char ∨ a = "010"%char ∨ a = "012"%char ∨ a = "013"%char).

(** From just after the opening quote: the text as written, and what follows
    the closing quote. *)
Fixpoint scan_json_string (s out : string) : option (string * string) :=
  match s with
  | EmptyString => None
  | String c s' =>
      if bool_decide (c = DQUOTE) then Some (out, s')
      else if bool_decide (c = BACKSLASH) then
        match s' with
        | EmptyString => None
        | String d s'' => scan_json_string s'' (out +:+ String BACKSLASH (char_string d))
        end
      else scan_json_string s' (out +:+ char_string c)
  end.

Fixpoint skip_whitespace (s : string) : string :=
  match s with
  | String c s' => if is_ascii_whitespace c then skip_whitespace s' else s
  | EmptyString => s
  end.

(** The stack of open containers, innermost first: the names seen in an object,
    [None] for an array. *)
Definition ScanStack : Type := list (option (gset string)).

(** [if let Some(Some(seen)) = stack.last_mut()]: the stack with the name
    added, or [None] when it was there. *)
Definition note_key (text : string) (stack : ScanStack) : option ScanStack :=
  match stack with
  | Some seen :: rest =>
      if bool_decide (text ∈ seen) then None else Some (Some ({[text]} ∪ seen) :: rest)
  | _ => Some stack
  end.

(** The [while] loop; [None] is out of fuel. *)
Fixpoint dup_loop (fuel : nat) (s : string) (stack : ScanStack) : option bool :=
  match fuel with
  | O => None
  | S fuel' =>
      match s with
      | EmptyString => Some false
      | String c s' =>
          if bool_decide (c = "{"%char) then dup_loop fuel' s' (Some ∅ :: stack)
          else if bool_decide (c = "["%char) then dup_loop fuel' s' (None :: stack)
          else if bool_decide (c = "}"%char ∨ c = "]"%char) then dup_loop fuel' s' (tail stack)
          else if bool_decide (c = DQUOTE) then
            match scan_json_string s' "" with
            | None => Some false
            | Some (text, next) =>
                if starts_with_char ":" (skip_whitespace next) then
                  match note_key text stack with
                  | None => Some true
                  | Some stack' => dup_loop fuel' next stack'
                  end
                else dup_loop fuel' next stack
            end
          else dup_loop fuel' s' stack
      end
  end.

Definition has_duplicate_member_names (json : string) : bool :=
  match dup_loop (S (String.length json)) json [] with
  | Some b => b
  | None => false
  end.

(** ** A grammar of JSON texts *)

(** What the scan can see of a text: the member names as spelled. *)
Inductive Tree : Type :=
  | Leaf
  | Elements (l : list Tree)
  | Members (l : list (string * Tree)).

(** Some object repeats a name. *)
Fixpoint repeats (t : Tree) : bool :=
  match t with
  | Leaf => false
  | Elements l => existsb repeats l
  | Members l =>
      negb (bool_decide (NoDup (map fst l)))
      || existsb (λ kv, repeats kv.2) l
  end.

Definition json_ws (w : string) : Prop :=
  string_forallb (λ a, bool_decide (a = " "%char ∨ a = "009"%char ∨ a = "010"%char
                                    ∨ a = "013"%char)) w = true.

(** Numbers and the literals: no structural character, no quote. *)
Definition scalar_text (s : string) : Prop :=
  string_forallb (λ a, bool_decide (a ∉ ["{"; "}"; "["; "]"; DQUOTE]%char)) s = true.

(** Between the quotes of a string: plain characters and escape pairs. *)
Inductive string_body : string → Prop :=
  | body_nil : string_body ""
  | body_char c s : c ≠ DQUOTE → c ≠ BACKSLASH → string_body s → string_body (String c s)
  | body_escape d s : string_body s → string_body (String BACKSLASH (String d s)).

Definition quoted (k : string) : string := String DQUOTE (k +:+ char_string DQUOTE).

Inductive value_text : Tree → string → Prop :=
  | text_scalar s : scalar_text s → value_text Leaf s
  | text_string k : string_body k → value_text Leaf (quoted k)
  | text_array l s : elements_text l s → value_text (Elements l) (String "[" s)
  | text_object l s : members_text l s → value_text (Members l) (String "{" s)
  (** the elements of an array with the closing bracket *)
with elements_text : list Tree → string → Prop :=
  | elements_nil w : json_ws w → elements_text [] (w +:+ "]")
  | elements_last w t s w' :
      json_ws w → value_text t s → json_ws w' → elements_text [t] (w +:+ s +:+ w' +:+ "]")
  | elements_cons w t s w' t' l s' :
      json_ws w → value_text t s → json_ws w' → elements_text (t' :: l) s' →
      elements_text (t :: t' :: l) (w +:+ s +:+ w' +:+ String "," s')
  (** the members of an object with the closing brace *)
with members_text : list (string * Tree) → string → Prop :=
  | members_nil w : json_ws w → members_text [] (w +:+ "}")
  | members_last w k w1 w2 t s w3 :
      json_ws w → string_body k → json_ws w1 → json_ws w2 → value_text t s → json_ws w3 →
      members_text [(k, t)] (w +:+ quoted k +:+ w1 +:+ String ":" (w2 +:+ s +:+ w3 +:+ "}"))
  | members_cons w k w1 w2 t s w3 m l s' :
      json_ws w → string_body k → json_ws w1 → json_ws w2 → value_text t s → json_ws w3 →
      members_text (m :: l) s' →
      members_text ((k, t) :: m :: l)
        (w +:+ quoted k +:+ w1 +:+ String ":" (w2 +:+ s +:+ w3 +:+ String "," s')).

Scheme value_text_mut := Induction for value_text Sort Prop
with elements_text_mut := Induction for elements_text Sort Prop
with members_text_mut := Induction for members_text Sort Prop.
Combined Scheme json_text_ind from value_text_mut, elements_text_mut, members_text_mut.

(** ** Fuel *)

Lemma scan_json_string_shorter (s out t next : string) :
  scan_json_string s out = Some (t, next) → String.length next < String.length s.
Proof.
  enough (∀ n s out, String.length s ≤ n → scan_json_string s out = Some (t, next) →
                     String.length next < String.length s) by eauto.
  clear s out. induction n as [|n IH]; intros [|c s] out Hl; simpl in *; try done; [lia|].
  repeat case_bool_decide; [naive_solver lia| |].
  - destruct s as [|d s]; [done|]. simpl in *. intros Hx%IH; lia.
  - intros Hx%IH; lia.
Qed.

Lemma dup_loop_total n s st :
  String.length s < n → is_Some (dup_loop n s st).
Proof.
  revert s st. induction n as [|n IH]; intros s st Hl; [lia|]. simpl.
  destruct s as [|c s]; [by eauto|]. simpl in Hl.
  repeat case_bool_decide; try (apply IH; lia).
  destruct (scan_json_string s "") as [[t next]|] eqn:E; [|by eauto].
  apply scan_json_string_shorter in E.
  destruct (starts_with_char _ _); [destruct (note_key t st); [|by eauto]|]; apply IH; lia.
Qed.

Lemma dup_loop_more n m s st r : dup_loop n s st = Some r → n ≤ m → dup_loop m s st = Some r.
Proof.
  revert m s st. induction n as [|n IH]; intros m s st; [done|].
  destruct m as [|m]; [lia|]. simpl. intros Hr Hle. assert (n ≤ m) as Hnm by lia. clear Hle.
  destruct s as [|c s]; [done|].
  repeat case_bool_decide; eauto.
  destruct (scan_json_string s "") as [[t next]|]; [|done].
  destruct (starts_with_char _ _); [destruct (note_key t st); [|done]|]; eauto.
Qed.

(** The scan with the fuel hidden. *)
Definition scan (s : string) (st : ScanStack) : bool :=
  match dup_loop (S (String.length s)) s st with Some b => b | None => false end.

Lemma dup_loop_scan n s st : String.length s < n → dup_loop n s st = Some (scan s st).
Proof.
  intros Hl. unfold scan.
  destruct (dup_loop_total (S (String.length s)) s st) as [r Hr]; [lia|].
  rewrite Hr. by apply (dup_loop_more (S (String.length s))).
Qed.

Lemma dup_loop_cons (fuel' : nat) (c : ascii) (s' : string) (stack : ScanStack) :
  dup_loop (S fuel') (String c s') stack =
          if bool_decide (c = "{"%char) then dup_loop fuel' s' (Some ∅ :: stack)
          else if bool_decide (c = "["%char) then dup_loop fuel' s' (None :: stack)
          else if bool_decide (c = "}"%char ∨ c = "]"%char) then dup_loop fuel' s' (tail stack)
          else if bool_decide (c = DQUOTE) then
            match scan_json_string s' "" with
            | None => Some false
            | Some (text, next) =>
                if starts_with_char ":" (skip_whitespace next) then
                  match note_key text stack with
                  | None => Some true
                  | Some stack' => dup_loop fuel' next stack'
                  end
                else dup_loop fuel' next stack
            end
          else dup_loop fuel' s' stack.
Proof. done. Qed.

(** The loop body, with the recursive calls as [scan]. *)
Lemma scan_cons (c : ascii) (s : string) (st : ScanStack) :
  scan (String c s) st =
    if bool_decide (c = "{"%char) then scan s (Some ∅ :: st)
    else if bool_decide (c = "["%char) then scan s (None :: st)
    else if bool_decide (c = "}"%char ∨ c = "]"%char) then scan s (tail st)
    else if bool_decide (c = DQUOTE) then
      match scan_json_string s "" with
      | None => false
      | Some (text, next) =>
          if starts_with_char ":" (skip_whitespace next) then
            match note_key text st with
            | None => true
            | Some st' => scan next st'
            end
          else scan next st
      end
    else scan s st.
Proof.
  unfold scan at 1. rewrite dup_loop_cons. cbn [String.length].
  repeat case_bool_decide; try (rewrite dup_loop_scan; [done|lia]).
  destruct (scan_json_string s "") as [[t next]|] eqn:E; [|done].
  apply scan_json_string_shorter in E.
  destruct (starts_with_char _ _); [destruct (note_key t st); [|done]|];
    (rewrite dup_loop_scan; [done|lia]).
Qed.

Lemma scan_skip (f : ascii → bool) (w rest : string) (st : ScanStack) :
  (∀ a, f a = true → a ∉ ["{"; "}"; "["; "]"; DQUOTE]%char) →
  string_forallb f w = true → scan (w +:+ rest) st = scan rest st.
Proof.
  intros Hf. induction w as [|c w IH]; [done|]. simpl. intros [Hc Hw]%andb_true_iff.
  apply Hf in Hc. rewrite !not_elem_of_cons in Hc. destruct_and! Hc.
  rewrite scan_cons. repeat (rewrite bool_decide_eq_false_2 by naive_solver). by apply IH.
Qed.

Lemma scan_ws (w rest : string) (st : ScanStack) :
  json_ws w → scan (w +:+ rest) st = scan rest st.
Proof.
  apply scan_skip. intros a Ha%bool_decide_eq_true.
  apply (bool_decide_unpack (a ∉ ["{"; "}"; "["; "]"; DQUOTE]%char)).
  destruct_or! Ha; by subst.
Qed.

Lemma scan_scalar (w rest : string) (st : ScanStack) :
  scalar_text w → scan (w +:+ rest) st = scan rest st.
Proof. apply scan_skip. by intros a Ha%bool_decide_eq_true. Qed.

Lemma skip_ws (w rest : string) :
  json_ws w → skip_whitespace (w +:+ rest) = skip_whitespace rest.
Proof.
  unfold json_ws. induction w as [|c w IH]; [done|]. simpl.
  intros [Hc%bool_decide_eq_true Hw]%andb_true_iff. unfold is_ascii_whitespace.
  rewrite bool_decide_eq_true_2 by naive_solver. by apply IH.
Qed.

(** A string is consumed whole, whatever its escapes hide. *)
Lemma scan_json_string_quoted (k rest out : string) :
  string_body k →
  scan_json_string (k +:+ String DQUOTE rest) out = Some (out +:+ k, rest).
Proof.
  intros Hk. revert out. induction Hk as [|c s Hq Hb _ IH|d s _ IH]; intros out; simpl.
  - by rewrite string_app_nil_r.
  - rewrite !bool_decide_eq_false_2 by done. rewrite IH. by rewrite string_app_assoc.
  - rewrite IH. by rewrite string_app_assoc.
Qed.

Lemma scan_quoted (k rest : string) (st : ScanStack) :
  string_body k →
  scan (quoted k +:+ rest) st =
    if starts_with_char ":" (skip_whitespace rest) then
      match note_key k st with
      | None => true
      | Some st' => scan rest st'
      end
    else scan rest st.
Proof.
  intros Hk. unfold quoted. simpl. rewrite scan_cons. simpl.
  rewrite string_app_assoc. simpl. by rewrite scan_json_string_quoted.
Qed.

#[global] Opaque quoted.

(** ** The scan decides repetition *)

(** What follows a value is no colon. *)
Definition no_colon (rest : string) : Prop :=
  starts_with_char ":" (skip_whitespace rest) = false.

Lemma no_colon_ws (w rest : string) : json_ws w → no_colon rest → no_colon (w +:+ rest).
Proof. intros Hw. unfold no_colon. by rewrite skip_ws. Qed.

(** Repetition among the members still to come of an object whose names so far
    are [seen]. *)
Fixpoint members_repeat (seen : gset string) (l : list (string * Tree)) : bool :=
  match l with
  | [] => false
  | (k, t) :: l' =>
      bool_decide (k ∈ seen) || (repeats t || members_repeat ({[k]} ∪ seen) l')
  end.

Lemma members_repeat_spec (l : list (string * Tree)) (seen : gset string) :
  members_repeat seen l =
  negb (bool_decide (NoDup (map fst l) ∧ Forall (λ k, k ∉ seen) (map fst l)))
  || existsb (λ kv, repeats kv.2) l.
Proof.
  revert seen. induction l as [|[k t] l IH]; intros seen; simpl.
  { done. }
  rewrite IH. destruct (repeats t), (existsb _ l); rewrite ?orb_true_r, ?orb_false_r; try done.
  simpl. rewrite <- (negb_involutive (bool_decide (k ∈ seen))), <- negb_andb. f_equal.
  apply eq_bool_prop_intro. rewrite andb_True, negb_True, !bool_decide_spec.
  rewrite NoDup_cons, Forall_cons, !Forall_forall. set_solver.
Qed.

Lemma repeats_members (l : list (string * Tree)) : repeats (Members l) = members_repeat ∅ l.
Proof.
  rewrite members_repeat_spec. simpl. f_equal. f_equal. apply bool_decide_ext. rewrite Forall_forall. set_solver.
Qed.

(** The scan of a member's name. *)
Lemma scan_key (w k w1 rest : string) (seen : gset string) (st : ScanStack) :
  json_ws w → string_body k → json_ws w1 →
  scan (w +:+ quoted k +:+ w1 +:+ String ":" rest) (Some seen :: st) =
    bool_decide (k ∈ seen) || scan rest (Some ({[k]} ∪ seen) :: st).
Proof.
  intros Hw Hk Hw1. rewrite scan_ws, scan_quoted, skip_ws by done. simpl.
  case_bool_decide; [done|]. simpl. rewrite scan_ws by done. by rewrite scan_cons.
Qed.

Lemma scan_text :
  (∀ t s, value_text t s → ∀ rest st, no_colon rest →
     scan (s +:+ rest) st = repeats t || scan rest st)
  ∧ (∀ l s, elements_text l s → ∀ rest st,
     scan (s +:+ rest) (None :: st) = existsb repeats l || scan rest st)
  ∧ (∀ l s, members_text l s → ∀ rest seen st,
     scan (s +:+ rest) (Some seen :: st) = members_repeat seen l || scan rest st).
Proof.
  apply json_text_ind.
  - intros s Hs rest st _. by apply scan_scalar.
  - intros k Hk rest st Hr. rewrite scan_quoted by done. by rewrite Hr.
  - intros l s _ IH rest st _. simpl. rewrite scan_cons. simpl. apply IH.
  - intros l s _ IH rest st _. rewrite repeats_members. simpl. rewrite scan_cons. simpl. apply IH.
  - intros w Hw rest st. rewrite string_app_assoc, scan_ws by done. simpl. by rewrite scan_cons.
  - intros w t s w' Hw _ IH Hw' rest st. rewrite !string_app_assoc, scan_ws by done.
    rewrite IH by by apply no_colon_ws. rewrite scan_ws by done. simpl.
    rewrite scan_cons. simpl. by rewrite orb_false_r.
  - intros w t s w' t' l s' Hw _ IH Hw' _ IHl rest st.
    rewrite !string_app_assoc, scan_ws by done. simpl.
    rewrite IH by by apply no_colon_ws. rewrite scan_ws by done.
    rewrite scan_cons. simpl. rewrite IHl. simpl. by rewrite !orb_assoc.
  - intros w Hw rest seen st. rewrite string_app_assoc, scan_ws by done. simpl.
    by rewrite scan_cons.
  - intros w k w1 w2 t s w3 Hw Hk Hw1 Hw2 _ IH Hw3 rest seen st.
    rewrite !string_app_assoc. simpl. rewrite !string_app_assoc. rewrite scan_key by done.
    rewrite scan_ws by done. rewrite IH by by apply no_colon_ws. rewrite scan_ws by done.
    simpl. rewrite scan_cons. simpl. by rewrite orb_false_r, <- orb_assoc.
  - intros w k w1 w2 t s w3 [k' t'] l s' Hw Hk Hw1 Hw2 _ IH Hw3 _ IHl rest seen st.
    rewrite !string_app_assoc. simpl. rewrite !string_app_assoc. rewrite scan_key by done.
    rewrite scan_ws by done. simpl. rewrite IH by by apply no_colon_ws. rewrite scan_ws by done.
    rewrite scan_cons. simpl. rewrite IHl. simpl. by rewrite <- !orb_assoc.
Qed.

Lemma has_duplicate_value t s : value_text t s → has_duplicate_member_names s = repeats t.
Proof.
  intros Hs. unfold has_duplicate_member_names. rewrite dup_loop_scan by lia.
  rewrite <- (string_app_nil_r s) at 1. rewrite (proj1 scan_text t s Hs) by done.
  apply orb_false_r.
Qed.

Lemma has_duplicate_scan t w s w' :
  json_ws w → value_text t s → json_ws w' →
  has_duplicate_member_names (w +:+ s +:+ w') = repeats t.
Proof.
  intros Hw Hs Hw'. unfold has_duplicate_member_names. rewrite dup_loop_scan by lia.
  rewrite scan_ws by done. rewrite (proj1 scan_text t s Hs).
  - rewrite <- (string_app_nil_r w'), scan_ws by done. apply orb_false_r.
  - rewrite <- (string_app_nil_r w'). by apply no_colon_ws.
Qed.

(** C22. The duplicate-name scan is exact on JSON: for every text of the grammar
    (any nesting, any white space, strings with escapes that hide quotes and
    brackets), the loop ends within its fuel and answers whether some object,
    at any depth, spells one member name twice. *)
Theorem has_duplicate_member_names_spec (t : Tree) (w s w' : string)
    (Hw : json_ws w) (Hs : value_text t s) (Hw' : json_ws w') :
  dup_loop (S (String.length (w +:+ s +:+ w'))) (w +:+ s +:+ w') [] = Some (repeats t)
  ∧ has_duplicate_member_names (w +:+ s +:+ w') = repeats t.
Proof.
  split; [|by apply has_duplicate_scan]. rewrite dup_loop_scan by lia. f_equal.
  pose proof (has_duplicate_scan t w s w' Hw Hs Hw') as Hscan.
  unfold has_duplicate_member_names in Hscan. by rewrite dup_loop_scan in Hscan by lia.
Qed.

#[global] Transparent quoted.

(** Two members of an inner object share a name. *)
Definition dup_inner : string :=
  "" +:+ quoted "b" +:+ " " +:+ String ":" (" " +:+ "1" +:+ "" +:+ String ","
    (" " +:+ quoted "b" +:+ "" +:+ String ":" ("" +:+ quoted "x" +:+ "" +:+ "}"))).
Definition dup_text : string := String "[" ("" +:+ String "{" dup_inner +:+ " " +:+ "]").

Lemma dup_text_reads : value_text (Elements [Members [("b", Leaf); ("b", Leaf)]]) dup_text.
Proof.
  assert (string_body "b" ∧ string_body "x") as [Hb Hx] by (split; repeat constructor; done).
  apply text_array, elements_last; [done| |done].
  apply text_object, members_cons; try done; [by apply text_scalar|].
  apply members_last; try done. by apply text_string.
Qed.

Lemma has_duplicate_member_names_spec_witness :
  has_duplicate_member_names ("" +:+ dup_text +:+ " ") = true.
Proof.
  by apply (has_duplicate_member_names_spec
              (Elements [Members [("b", Leaf); ("b", Leaf)]]) "" dup_text " ");
    [|exact dup_text_reads|].
Defined.
