(* ===== verification/Revocation.v ===== *)
(** * The revocation seam: lineage assembly and the two stores

    [crates/vaid-mint/src/revocation.rs]. *)

From S2P Require Import Prelude Json Externals Concrete Identity Scope Document.

(** Kept symbolic in proofs: the bound is only ever compared with. *)
Definition MAX_LINEAGE_DEPTH : nat := 1024.

Inductive RevocationStatus : Type := NotRevoked | Revoked | Unavailable.
#[global] Instance RevocationStatus_eq_dec : EqDecision RevocationStatus.
Proof. solve_decision. Defined.

Inductive ParentResolution : Type := Root | Parent (p : VaidId) | Unknown.
#[global] Instance ParentResolution_eq_dec : EqDecision ParentResolution.
Proof. solve_decision. Defined.

Inductive LineageAssembly : Type := Complete (l : list VaidId) | Incomplete.

(** ** The interfaces *)

Class RevocationCheck (R : Type) := check_lineage : R → list VaidId → RevocationStatus.
Class LineageResolver (L : Type) := resolve_parent : L → VaidId → ParentResolution.

Record LineageWriteError : Type := mkLineageWriteError { lineage_write_message : string }.

(** The write half: each method has a default in terms of the other. *)
Class LineageStore (L : Type) := {
  ls_resolver :: LineageResolver L;
  record : VaidId → option VaidId → M L Empty_set unit;
  try_record : VaidId → option VaidId → M L LineageWriteError unit;
}.

(** [record]'s default: panic on a failed [try_record]. *)
Definition record_default {L} (try : VaidId → option VaidId → M L LineageWriteError unit)
    (vaid_id : VaidId) (parent : option VaidId) : M L Empty_set unit :=
  λ s, match try vaid_id parent s with
       | (Ok u, s') => (Ok u, s')
       | (Err _, s') => (Panicked, s')
       | (Panicked, s') => (Panicked, s')
       end.

(** [try_record]'s default: delegate to [record] and succeed. *)
Definition try_record_default {L} (rec : VaidId → option VaidId → M L Empty_set unit)
    (vaid_id : VaidId) (parent : option VaidId) : M L LineageWriteError unit :=
  λ s, match rec vaid_id parent s with
       | (Ok u, s') => (Ok u, s')
       | (Err e, s') => match e with end
       | (Panicked, s') => (Panicked, s')
       end.

(** ** Lineage assembly *)

Section Assembly.
  Context {L : Type} `{LR : LineageResolver L}.

(** The [while let] loop; [chain] is built leaf first.  [None]: out of fuel. *)
Fixpoint assemble_loop (fuel : nat) (resolver : L) (chain : list VaidId)
    (next_parent : option VaidId) : option LineageAssembly :=
  match fuel with
  | O => None
  | S fuel' =>
      match next_parent with
      | None => Some (Complete (reverse chain))
      | Some pid =>
          if bool_decide (pid ∈ chain) || (MAX_LINEAGE_DEPTH <=? length chain)%nat then
            Some Incomplete
          else
            match resolve_parent resolver pid with
            | Root => assemble_loop fuel' resolver (chain ++ [pid]) None
            | Parent grandparent =>
                assemble_loop fuel' resolver (chain ++ [pid]) (Some grandparent)
            | Unknown => Some Incomplete
            end
      end
  end.

(** One more iteration than the bound: [assemble_loop_total] shows the fuel is
    never used up. *)
Definition ASSEMBLE_FUEL : nat := S MAX_LINEAGE_DEPTH.

Definition assemble_lineage (leaf : Vaid) (resolver : L) : LineageAssembly :=
  match assemble_loop ASSEMBLE_FUEL resolver [vaid_id leaf] (parent_vaid leaf) with
  | Some r => r
  | None => Incomplete
  end.

End Assembly.

(** ** [InMemoryRevocationList]: [None] is absent, [Some] vouches *)

Definition InMemoryRevocationList : Type := option (gset VaidId).

Definition revocation_list_new : InMemoryRevocationList := None.
Definition assume_nothing_revoked : InMemoryRevocationList := Some ∅.
Definition revocation_list_unavailable : InMemoryRevocationList := revocation_list_new.
Definition list_revoke (vaid_id : VaidId) (s : InMemoryRevocationList) : InMemoryRevocationList :=
  Some ({[vaid_id]} ∪ default ∅ s).
Definition mark_unavailable (s : InMemoryRevocationList) : InMemoryRevocationList := None.
Definition is_available (s : InMemoryRevocationList) : bool :=
  match s with Some _ => true | None => false end.

#[global] Instance in_memory_check : RevocationCheck InMemoryRevocationList :=
  λ s lineage,
    match s with
    | None => Unavailable
    | Some revoked =>
        if existsb (λ id, bool_decide (id ∈ revoked)) lineage then Revoked else NotRevoked
    end.

(** ** [InMemoryLineageStore]: roots are recorded as [None] *)

Definition InMemoryLineageStore : Type := gmap VaidId (option VaidId).

Definition lineage_store_new : InMemoryLineageStore := ∅.
Definition lineage_clear (s : InMemoryLineageStore) : InMemoryLineageStore := ∅.
Definition lineage_len (s : InMemoryLineageStore) : nat := size (s : gmap VaidId (option VaidId)).
Definition lineage_is_empty (s : InMemoryLineageStore) : bool := (lineage_len s =? 0)%nat.

#[global] Instance in_memory_resolver : LineageResolver InMemoryLineageStore :=
  λ s vaid_id,
    match (s : gmap VaidId (option VaidId)) !! vaid_id with
    | Some (Some parent) => Parent parent
    | Some None => Root
    | None => Unknown
    end.

Definition in_memory_record (vaid_id : VaidId) (parent : option VaidId)
    : M InMemoryLineageStore Empty_set unit :=
  λ s, (Ok tt, <[vaid_id := parent]> (s : gmap VaidId (option VaidId))).

#[global] Instance in_memory_lineage : LineageStore InMemoryLineageStore := {|
  record := in_memory_record;
  try_record := try_record_default in_memory_record;
|}.

(** ** Specification of assembly *)

(** What a resolver says of a recorded id: its parent, if it has one. *)
Definition known_parent (r : ParentResolution) : option (option VaidId) :=
  match r with
  | Root => Some None
  | Parent p => Some (Some p)
  | Unknown => None
  end.

(** [up] is the ancestry above a document whose [parent_vaid] is [next],
    nearest first, every hop resolved, ending at a known root. *)
Inductive ancestors_above (res : VaidId → ParentResolution)
    : option VaidId → list VaidId → Prop :=
  | above_root : ancestors_above res None []
  | above_hop pid next up :
      known_parent (res pid) = Some next →
      ancestors_above res next up →
      ancestors_above res (Some pid) (pid :: up).

Lemma ancestors_above_unique res next up up' :
  ancestors_above res next up → ancestors_above res next up' → up = up'.
Proof.
  intros H. revert up'. induction H as [|pid next up Hp _ IH]; intros up' H'.
  - by inversion H'.
  - inversion H' as [|? next' up'' Hp' Hu]; subst. simplify_eq. by rewrite (IH up'').
Qed.

Section AssemblyFacts.
  Context {L : Type} `{LR : LineageResolver L}.
  Implicit Types (resolver : L) (chain : list VaidId).

(** The recursive calls of the loop, uniformly. *)
Lemma assemble_loop_S fuel resolver chain next :
  assemble_loop (S fuel) resolver chain next =
  match next with
  | None => Some (Complete (reverse chain))
  | Some pid =>
      if bool_decide (pid ∈ chain) || (MAX_LINEAGE_DEPTH <=? length chain)%nat then Some Incomplete
      else match known_parent (resolve_parent resolver pid) with
           | Some next' => assemble_loop fuel resolver (chain ++ [pid]) next'
           | None => Some Incomplete
           end
  end.
Proof. simpl. destruct next as [pid|]; [|done]. by destruct (resolve_parent resolver pid). Qed.

Lemma assemble_loop_total fuel resolver chain next :
  MAX_LINEAGE_DEPTH < fuel + length chain → length chain ≤ MAX_LINEAGE_DEPTH →
  is_Some (assemble_loop fuel resolver chain next).
Proof.
  revert chain next. induction fuel as [|fuel IH]; intros chain next Hf Hl; [lia|].
  rewrite assemble_loop_S. destruct next as [pid|]; [|by eauto].
  destruct (_ || _) eqn:E; [by eauto|]. bool_hyps.
  match goal with H : (_ <=? _)%nat = false |- _ => apply Nat.leb_gt in H end.
  destruct (known_parent _); [|by eauto].
  apply IH; rewrite length_app; simpl; lia.
Qed.

Lemma assemble_loop_spec fuel resolver chain next c :
  MAX_LINEAGE_DEPTH < fuel + length chain → length chain ≤ MAX_LINEAGE_DEPTH → NoDup chain →
  assemble_loop fuel resolver chain next = Some (Complete c) ↔
  ∃ up, ancestors_above (resolve_parent resolver) next up ∧ c = reverse (chain ++ up)
        ∧ NoDup (chain ++ up) ∧ length (chain ++ up) ≤ MAX_LINEAGE_DEPTH.
Proof.
  revert chain next. induction fuel as [|fuel IH]; intros chain next Hf Hl Hnd; [lia|].
  rewrite assemble_loop_S. destruct next as [pid|].
  - destruct (_ || _) eqn:E.
    + split; [done|]. intros (up & Ha & -> & Hnd' & Hlen). exfalso.
      inversion Ha as [|? next' up' Hp Hup]; subst.
      apply orb_true_iff in E as [E|E]; bool_hyps.
      * apply NoDup_app in Hnd' as (_ & Hnd' & _). apply (Hnd' pid E). left.
      * apply Nat.leb_le in E. rewrite length_app in Hlen. simpl in Hlen. lia.
    + bool_hyps. match goal with H : (_ <=? _)%nat = false |- _ => apply Nat.leb_gt in H end.
      destruct (known_parent (resolve_parent resolver pid)) as [next'|] eqn:Hk.
      * rewrite IH; [|rewrite length_app; simpl; lia|rewrite length_app; simpl; lia|].
        -- split.
           ++ intros (up & Ha & -> & Hnd' & Hlen). exists (pid :: up).
              rewrite <- app_assoc in *. split_and!; try done. by econstructor.
           ++ intros (up & Ha & -> & Hnd' & Hlen). inversion Ha; subst. simplify_eq.
              eexists. rewrite <- app_assoc. split_and!; done.
        -- apply NoDup_app. split_and!; [done| |apply NoDup_singleton].
           intros x Hx. rewrite list_elem_of_singleton. naive_solver.
      * split; [done|]. intros (up & Ha & _). inversion Ha; subst. simplify_eq.
  - split.
    + intros [= <-]. exists []. rewrite app_nil_r. split_and!; try done. constructor.
    + intros (up & Ha & -> & _). inversion Ha; subst. by rewrite app_nil_r.
Qed.

End AssemblyFacts.

(** Assembly sees a resolver through its answers only. *)
Lemma assemble_ext {L1 L2 : Type} `{LineageResolver L1} `{LineageResolver L2} (r1 : L1) (r2 : L2)
    (leaf : Vaid) :
  (∀ id, resolve_parent r1 id = resolve_parent r2 id) →
  assemble_lineage leaf r1 = assemble_lineage leaf r2.
Proof.
  intros Hr. unfold assemble_lineage.
  assert (∀ n c p, assemble_loop n r1 c p = assemble_loop n r2 c p) as ->; [|done].
  induction n as [|n IH]; intros c p; [done|]. cbn [assemble_loop].
  destruct p as [pid|]; [|done]. rewrite Hr. by repeat case_match.
Qed.

Lemma max_lineage_depth_pos : 1 ≤ MAX_LINEAGE_DEPTH.
Proof. unfold MAX_LINEAGE_DEPTH. lia. Qed.
Lemma max_lineage_depth_three : 3 ≤ MAX_LINEAGE_DEPTH.
Proof. unfold MAX_LINEAGE_DEPTH. lia. Qed.

#[global] Opaque MAX_LINEAGE_DEPTH.

(** ** Properties *)

Section Properties.
  Context {L : Type} `{LR : LineageResolver L}.

Lemma assemble_loop_result (leaf : Vaid) (resolver : L) :
  ∃ r, assemble_loop ASSEMBLE_FUEL resolver [vaid_id leaf] (parent_vaid leaf) = Some r
       ∧ assemble_lineage leaf resolver = r.
Proof.
  destruct (assemble_loop_total ASSEMBLE_FUEL resolver [vaid_id leaf] (parent_vaid leaf))
    as [r Hr].
  - unfold ASSEMBLE_FUEL. simpl. lia.
  - apply max_lineage_depth_pos.
  - exists r. split; [done|]. unfold assemble_lineage. by rewrite Hr.
Qed.

(** C16. Lineage assembly terminates on every resolver, a cyclic one included:
    the loop returns within one iteration more than the depth bound. *)
Theorem assemble_loop_terminates (leaf : Vaid) (resolver : L) :
  ∃ r, assemble_loop ASSEMBLE_FUEL resolver [vaid_id leaf] (parent_vaid leaf) = Some r
       ∧ assemble_lineage leaf resolver = r.
Proof. apply assemble_loop_result. Qed.

Lemma assemble_lineage_complete (leaf : Vaid) (resolver : L) c :
  assemble_lineage leaf resolver = Complete c ↔
  ∃ up, ancestors_above (resolve_parent resolver) (parent_vaid leaf) up
        ∧ c = reverse (vaid_id leaf :: up)
        ∧ NoDup (vaid_id leaf :: up) ∧ length (vaid_id leaf :: up) ≤ MAX_LINEAGE_DEPTH.
Proof.
  destruct (assemble_loop_result leaf resolver) as (r & Hr & ->).
  assert (r = Complete c ↔ assemble_loop ASSEMBLE_FUEL resolver [vaid_id leaf] (parent_vaid leaf)
                           = Some (Complete c)) as -> by (rewrite Hr; naive_solver).
  rewrite assemble_loop_spec; [done| | |apply NoDup_singleton].
  - unfold ASSEMBLE_FUEL. simpl. lia.
  - apply max_lineage_depth_pos.
Qed.

(** C15. Assembly is exact: it returns a complete lineage precisely when following
    the leaf's signed parent and then the resolver reaches a known root without
    repeating an id and within the depth bound, and the lineage is those ids,
    root first, leaf last; an unknown id, a cycle or a deeper chain is
    incomplete, never a shortened lineage. *)
Theorem assemble_lineage_spec (leaf : Vaid) (resolver : L) (r : LineageAssembly) :
  assemble_lineage leaf resolver = r ↔
  match r with
  | Complete c =>
      ∃ up, ancestors_above (resolve_parent resolver) (parent_vaid leaf) up
            ∧ c = reverse (vaid_id leaf :: up)
            ∧ NoDup (vaid_id leaf :: up) ∧ length (vaid_id leaf :: up) ≤ MAX_LINEAGE_DEPTH
  | Incomplete =>
      ∀ up, ancestors_above (resolve_parent resolver) (parent_vaid leaf) up →
            NoDup (vaid_id leaf :: up) → MAX_LINEAGE_DEPTH < length (vaid_id leaf :: up)
  end.
Proof.
  destruct r as [c|]; [apply assemble_lineage_complete|]. split.
  - intros Hi up Hup Hnd. destruct (decide (length (vaid_id leaf :: up) ≤ MAX_LINEAGE_DEPTH)); [|lia].
    assert (assemble_lineage leaf resolver = Complete (reverse (vaid_id leaf :: up))) as Hc
      by (apply assemble_lineage_complete; eauto).
    congruence.
  - intros Hno. destruct (assemble_lineage leaf resolver) as [c|] eqn:Hc; [|done].
    apply assemble_lineage_complete in Hc as (up & Hup & _ & Hnd & Hl).
    specialize (Hno up Hup Hnd). lia.
Qed.

Lemma assemble_root (leaf : Vaid) (resolver : L) :
  parent_vaid leaf = None → assemble_lineage leaf resolver = Complete [vaid_id leaf].
Proof.
  intros Hp. apply assemble_lineage_complete. exists []. rewrite Hp.
  split_and!; [constructor|done|apply NoDup_singleton|].
  apply max_lineage_depth_pos.
Qed.

End Properties.

(** ** The in-memory stores *)

Lemma in_memory_record_resolve (s : InMemoryLineageStore) (id : VaidId) (p : option VaidId) :
  ∃ s', try_record id p s = (Ok tt, s') ∧
    ∀ i, resolve_parent s' i =
         if decide (i = id) then match p with Some q => Parent q | None => Root end
         else resolve_parent s i.
Proof.
  eexists. split; [reflexivity|]. intros i. unfold resolve_parent, in_memory_resolver.
  rewrite lookup_insert. case_decide as H1; case_decide as H2; subst; try done.
Qed.

Lemma check_in_memory_spec (s : InMemoryRevocationList) (lineage : list VaidId) (st : RevocationStatus) :
  check_lineage s lineage = st ↔
  match st with
  | Unavailable => s = None
  | Revoked => ∃ set id, s = Some set ∧ id ∈ lineage ∧ id ∈ set
  | NotRevoked => ∃ set, s = Some set ∧ ∀ id, id ∈ lineage → id ∉ set
  end.
Proof.
  unfold check_lineage, in_memory_check. destruct s as [set|]; [|destruct st; naive_solver].
  destruct (existsb _ lineage) eqn:E.
  - apply existsb_Exists_true, Exists_exists in E as (id & Hin & Hset%bool_decide_eq_true).
    destruct st; naive_solver.
  - assert (∀ id, id ∈ lineage → id ∉ set) as Hno.
    { intros id Hin Hset. apply not_true_iff_false in E. apply E.
      apply existsb_Exists_true, Exists_exists. exists id. by rewrite bool_decide_eq_true. }
    destruct st; naive_solver.
Qed.
