(* ===== verification/Attenuation.v ===== *)
(** * The attenuation predicates

    The containment rules of [crates/vaid-mint/src/mint.rs]: scope, tenant,
    capabilities and expiry, shared by the mint and the chain verifier. *)

From S2P Require Import Prelude Json Externals Concrete Identity Scope Document.

(** The freshness allowance of a proof of possession, and the skew allowance of
    a consent. *)
Definition MINT_POP_FRESHNESS_SECS : Z := 300.

Inductive AttenuationReason : Type := Attenuated | ScopeEscalation | UnknownScopeKind.
#[global] Instance AttenuationReason_eq_dec : EqDecision AttenuationReason.
Proof. solve_decision. Defined.

Definition scope_attenuation_reason (parent_scope child_scope : list ScopeBoundaryEntry)
    : AttenuationReason :=
  if negb (boundary_is_evaluable parent_scope) || negb (boundary_is_evaluable child_scope) then
    UnknownScopeKind
  else
    let attenuates :=
      if is_empty child_scope then is_empty parent_scope
      else forallb (λ child,
             match entry_claimed_resource child with
             | Some resource => scope_contains parent_scope resource
             | None => false
             end) child_scope in
    if attenuates then Attenuated else ScopeEscalation.

Definition scope_attenuates_within (parent_scope child_scope : list ScopeBoundaryEntry) : bool :=
  bool_decide (scope_attenuation_reason parent_scope child_scope = Attenuated).

Definition scope_attenuates (parent : Vaid) (child_scope : list ScopeBoundaryEntry) : bool :=
  scope_attenuates_within (vd_scope_boundary parent) child_scope.

Definition tenant_attenuates (parent : Vaid) (child_trust_domain child_tenant : string) : bool :=
  bool_decide (vd_trust_domain parent = child_trust_domain)
  && bool_decide (tenant_as_str (vd_tenant_id parent) = child_tenant).

Definition caps_attenuate_within (parent_caps child_caps : list string) : bool :=
  forallb (λ c, caps_contain parent_caps c) child_caps.

Definition caps_attenuate (parent : Vaid) (child_caps : list string) : bool :=
  caps_attenuate_within (vd_capability_set parent) child_caps.

Definition expiry_attenuates_within {Ext : Externals} (parent_expires_at : string)
    (child_expires_at : option string) : bool :=
  match parse_rfc3339 parent_expires_at, child_expires_at ≫= parse_rfc3339 with
  | Some parent, Some child => bool_decide (child ≤ parent)%Z
  | _, _ => false
  end.

Definition expiry_attenuates {Ext : Externals} (parent : Vaid) (child_expires_at : option string) : bool :=
  expiry_attenuates_within (expires_at_as_presented parent) child_expires_at.

(** ** Lemmas *)

(** Containment of prefixes is transitive. *)
Lemma prefix_contains_trans (p q r : string) :
  prefix_contains p q = true → prefix_contains q r = true → prefix_contains p r = true.
Proof.
  rewrite !prefix_contains_within. unfold within_prefix.
  intros [->|[->|[(sep & t & u & Hs & -> & ->)|(sep & u & Hs & ->)]]] Hq; [by left|done| |].
  - right; right; left.
    destruct Hq as [Hq|[->|[(sep' & t' & u' & Hs' & _ & ->)|(sep' & u' & Hs' & ->)]]].
    + by destruct t.
    + eauto 6.
    + rewrite string_app_assoc. eauto 6.
    + rewrite string_app_assoc. eauto 6.
  - right; right; right.
    destruct Hq as [Hq|[->|[(sep' & t' & u' & Hs' & _ & ->)|(sep' & u' & Hs' & ->)]]].
    + destruct p; [|done]. by apply (f_equal String.length) in Hq.
    + eauto.
    + rewrite !string_app_assoc. eauto.
    + rewrite !string_app_assoc. eauto.
Qed.

Definition claims_within (P C : list ScopeBoundaryEntry) : Prop :=
  ∀ e c, e ∈ C → entry_claimed_resource e = Some c → scope_contains P c = true.

Lemma claims_within_forallb (P C : list ScopeBoundaryEntry) :
  boundary_is_evaluable C = true →
  forallb (λ child, match entry_claimed_resource child with
                    | Some resource => scope_contains P resource
                    | None => false
                    end) C = true ↔ claims_within P C.
Proof.
  intros HC. apply boundary_is_evaluable_spec in HC. rewrite Forall_forall in HC.
  rewrite forallb_Forall_true, Forall_forall. unfold claims_within. split.
  - intros Hf e c He Hc. specialize (Hf e He). simpl in Hf. by rewrite Hc in Hf.
  - intros Hall e He. destruct (HC e He) as [c Hc]. rewrite Hc. by apply (Hall e c).
Qed.

Lemma forallb_claims_false (P C : list ScopeBoundaryEntry) :
  boundary_is_evaluable C = true →
  forallb (λ child, match entry_claimed_resource child with
                    | Some resource => scope_contains P resource
                    | None => false
                    end) C = false →
  ∃ e r, e ∈ C ∧ entry_claimed_resource e = Some r
         ∧ scope_contains C r = true ∧ scope_contains P r = false.
Proof.
  intros HC Hf.
  assert (Exists (λ e, match entry_claimed_resource e with
                       | Some resource => scope_contains P resource
                       | None => false
                       end = false) C) as He.
  { clear HC. induction C as [|e C IH]; [done|]. cbn [forallb] in Hf.
    apply andb_false_iff in Hf as [Hf|Hf]; [by left | right; by apply IH]. }
  apply Exists_exists in He as (e & He & Hno).
  pose proof (proj1 (boundary_is_evaluable_spec C) HC) as Hev. rewrite Forall_forall in Hev.
  destruct (Hev e He) as [r Hr]. rewrite Hr in Hno. exists e, r. split_and!; try done.
  apply scope_contains_true. split; [done|]. right. exists e. split; [done|].
  apply entry_contains_prefix. exists r. by rewrite prefix_contains_refl.
Qed.

Lemma scope_attenuates_claims (P C : list ScopeBoundaryEntry) :
  scope_attenuates_within P C = true ↔
  boundary_is_evaluable P = true ∧ boundary_is_evaluable C = true
  ∧ (C = [] → P = []) ∧ claims_within P C.
Proof.
  unfold scope_attenuates_within, scope_attenuation_reason. rewrite bool_decide_eq_true.
  destruct (boundary_is_evaluable P) eqn:HP; [|naive_solver].
  destruct (boundary_is_evaluable C) eqn:HC; [|naive_solver].
  destruct C as [|e0 C].
  - destruct P as [|p P]; cbn.
    + split; [|done]. intros _. split_and!; try done.
    + split; [done|]. intros (_ & _ & Hn & _). by specialize (Hn eq_refl).
  - pose proof (claims_within_forallb P (e0 :: C) HC) as Hcl.
    cbn [is_empty negb orb]. destruct (forallb _ (e0 :: C)); naive_solver.
Qed.

Lemma claims_within_contains (P C : list ScopeBoundaryEntry) (r : string) :
  boundary_is_evaluable P = true → (C = [] → P = []) → claims_within P C →
  scope_contains C r = true → scope_contains P r = true.
Proof.
  intros HP Hnil Hcl (HC & [HCn|(e & He & Hec)])%scope_contains_true.
  { rewrite Hnil by done. done. }
  apply entry_contains_prefix in Hec as (c & Hc & Hcr).
  specialize (Hcl e c He Hc). apply scope_contains_true in Hcl as (_ & [->|(f & Hf & Hfc)]); [done|].
  apply entry_contains_prefix in Hfc as (p & Hp & Hpc).
  apply scope_contains_true. split; [done|]. right. exists f. split; [done|].
  apply entry_contains_prefix. exists p. split; [done|].
  symmetry. eapply prefix_contains_trans; by symmetry.
Qed.

Lemma contains_claims_within (P C : list ScopeBoundaryEntry) :
  boundary_is_evaluable C = true →
  (∀ r, scope_contains C r = true → scope_contains P r = true) → claims_within P C.
Proof.
  intros HC Hall e c He Hc. apply Hall, scope_contains_true. split; [done|].
  right. exists e. split; [done|]. apply entry_contains_prefix. exists c.
  by rewrite prefix_contains_refl.
Qed.

Lemma caps_attenuate_within_subset (P C : list string) :
  caps_attenuate_within P C = true ↔ C ⊆ P.
Proof.
  unfold caps_attenuate_within. rewrite forallb_Forall_true, Forall_forall.
  by setoid_rewrite caps_contain_spec.
Qed.

Lemma expiry_attenuates_within_spec {Ext : Externals} (p : string) (c : option string) :
  expiry_attenuates_within p c = true ↔
  ∃ tp s tc, parse_rfc3339 p = Some tp ∧ c = Some s ∧ parse_rfc3339 s = Some tc ∧ (tc ≤ tp)%Z.
Proof.
  unfold expiry_attenuates_within. split.
  - destruct (parse_rfc3339 p) as [tp|]; [|done]. destruct c as [t|]; [|done]. simpl.
    destruct (parse_rfc3339 t) as [tc|] eqn:Et; [|done]. intros Hle%bool_decide_eq_true. eauto 8.
  - intros (tp & t & tc & -> & -> & Ht & Hle). simpl. rewrite Ht. by apply bool_decide_eq_true.
Qed.

(** ** Properties *)

(** C14. Scope attenuation is containment of meaning: a child boundary attenuates
    a parent's exactly when both can be evaluated, an unrestricted (empty) child
    has an unrestricted parent, and every resource the child's boundary admits
    the parent's admits too. *)
Theorem scope_attenuates_semantic (P C : list ScopeBoundaryEntry) :
  scope_attenuates_within P C = true ↔
  boundary_is_evaluable P = true ∧ boundary_is_evaluable C = true
  ∧ (C = [] → P = [])
  ∧ (∀ r, scope_contains C r = true → scope_contains P r = true).
Proof.
  rewrite scope_attenuates_claims. split; intros (HP & HC & Hn & H); split_and!; try done.
  - intros r. by apply claims_within_contains.
  - by apply contains_claims_within.
Qed.

(** The three attenuation outcomes: unreadable whenever either side has an
    entry that cannot be evaluated; otherwise attenuated or an escalation,
    and an escalation is witnessed by an unrestricted child under a restricted
    parent or by a resource the child admits and the parent does not. *)
Theorem scope_attenuation_reason_spec (P C : list ScopeBoundaryEntry) (a : AttenuationReason) :
  scope_attenuation_reason P C = a ↔
  match a with
  | UnknownScopeKind => boundary_is_evaluable P = false ∨ boundary_is_evaluable C = false
  | Attenuated =>
      boundary_is_evaluable P = true ∧ boundary_is_evaluable C = true
      ∧ (C = [] → P = []) ∧ claims_within P C
  | ScopeEscalation =>
      boundary_is_evaluable P = true ∧ boundary_is_evaluable C = true
      ∧ (C = [] ∧ P ≠ []
         ∨ ∃ e r, e ∈ C ∧ entry_claimed_resource e = Some r
                  ∧ scope_contains C r = true ∧ scope_contains P r = false)
  end.
Proof.
  pose proof (scope_attenuates_claims P C) as Hatt.
  unfold scope_attenuates_within in Hatt. rewrite bool_decide_eq_true in Hatt.
  destruct a; [done| |].
  - unfold scope_attenuation_reason in *.
    destruct (boundary_is_evaluable P) eqn:HP; [|naive_solver].
    destruct (boundary_is_evaluable C) eqn:HC; [|naive_solver]. cbn [negb orb] in *.
    destruct C as [|e0 C].
    { destruct P as [|p P]; cbn; [|by split; eauto].
      split; [done|]. intros (_ & _ & [[_ ?]|(e & r & He & _)]); [done|by apply not_elem_of_nil in He]. }
    cbn [is_empty] in *. pose proof (claims_within_forallb P (e0 :: C) HC) as Hcl.
    destruct (forallb _ (e0 :: C)) eqn:Hf.
    + split; [done|]. intros (_ & _ & [[? _]|(e & r & He & Hr & _ & Hno)]); [done|].
      rewrite (proj1 Hcl eq_refl e r He Hr) in Hno. done.
    + split; [|done]. intros _. split_and!; [done..|]. right.
      by apply forallb_claims_false.
  - unfold scope_attenuation_reason in *.
    destruct (boundary_is_evaluable P) eqn:HP; [|naive_solver].
    destruct (boundary_is_evaluable C) eqn:HC; [|naive_solver]. cbn [negb orb] in *.
    destruct (if is_empty C then _ else _); naive_solver.
Qed.

Lemma scope_attenuates_trans (A B C : list ScopeBoundaryEntry) :
  scope_attenuates_within A B = true → scope_attenuates_within B C = true →
  scope_attenuates_within A C = true.
Proof.
  rewrite !scope_attenuates_claims. intros (HA & HB & HnB & HAB) (_ & HC & HnC & HBC).
  split_and!; [done..|by eauto|]. apply contains_claims_within; [done|]. intros r Hr.
  apply (claims_within_contains A B); [done..|]. by apply (claims_within_contains B C).
Qed.

Lemma scope_attenuates_refl (A : list ScopeBoundaryEntry) :
  boundary_is_evaluable A = true → scope_attenuates_within A A = true.
Proof.
  intros HA. apply scope_attenuates_claims. split_and!; [done..|].
  by apply contains_claims_within.
Qed.

Lemma expiry_attenuates_trans {Ext : Externals} (a b : string) (c : option string) :
  expiry_attenuates_within a (Some b) = true → expiry_attenuates_within b c = true →
  expiry_attenuates_within a c = true.
Proof.
  rewrite !expiry_attenuates_within_spec.
  intros (ta & s & tb & Ha & [= <-] & Hb & Hle) (tb' & s' & tc & Hb' & -> & Hc & Hle').
  simplify_eq. eauto 8 using Z.le_trans.
Qed.

(** Attenuation composes: authority that narrows at each of two delegations
    is narrower across both, for scope, capabilities and expiry, so no chain of
    individually attenuated hops can widen anything. *)
Theorem attenuation_transitive {Ext : Externals} (sa sb sc : list ScopeBoundaryEntry)
    (ca cb cc : list string) (ea eb : string) (ec : option string)
    (Hs1 : scope_attenuates_within sa sb = true) (Hs2 : scope_attenuates_within sb sc = true)
    (Hc1 : caps_attenuate_within ca cb = true) (Hc2 : caps_attenuate_within cb cc = true)
    (He1 : expiry_attenuates_within ea (Some eb) = true)
    (He2 : expiry_attenuates_within eb ec = true) :
  scope_attenuates_within sa sc = true
  ∧ caps_attenuate_within ca cc = true
  ∧ expiry_attenuates_within ea ec = true.
Proof.
  split_and!.
  - by eapply scope_attenuates_trans.
  - rewrite caps_attenuate_within_subset in *. set_solver.
  - by eapply expiry_attenuates_trans.
Qed.

Lemma attenuation_transitive_witness :
  scope_attenuates_within [entry_prefix "data"] [entry_prefix "data/eu/x"] = true
  ∧ caps_attenuate_within ["read"; "write"] [] = true
  ∧ @expiry_attenuates_within (concrete no_json) "0000-00-00T00:01:05Z"
      (Some "0000-00-00T00:00:05Z") = true.
Proof.
  apply (attenuation_transitive (Ext := concrete no_json) [entry_prefix "data"]
           [entry_prefix "data/eu"] [entry_prefix "data/eu/x"]
           ["read"; "write"] ["read"] [] "0000-00-00T00:01:05Z" "0000-00-00T00:00:06Z");
    vm_compute; reflexivity.
Defined.
