(* ===== verification/Verify.v ===== *)
(** * Public-key-only verification and the graded verdict

    [crates/vaid-mint/src/verify.rs].  The wall clock [is_expired] reads is the
    argument [now] of the standing functions. *)

From S2P Require Import Prelude Json Externals Concrete Identity Scope IssuerIdentity Document.
From S2P Require Import DupScan Revocation.

Module VaidVerdict.

Inductive t : Type :=
  | Valid | Unparseable | UnsupportedSigVersion | MalformedTrustDomain | IssuerMismatch
  | LineageInconsistent | Inauthentic | Expired | UnknownScopeKind | Revoked | Indeterminate.

#[global] Instance t_eq_dec : EqDecision t.
Proof. solve_decision. Defined.

Definition ALL : list t :=
  [Valid; Unparseable; UnsupportedSigVersion; MalformedTrustDomain; IssuerMismatch;
   LineageInconsistent; Inauthentic; Expired; UnknownScopeKind; Revoked; Indeterminate].

Definition is_valid (v : t) : bool := match v with Valid => true | _ => false end.

Definition code (v : t) : string :=
  match v with
  | Valid => "valid"
  | Unparseable => "unparseable"
  | UnsupportedSigVersion => "unsupported_sig_version"
  | MalformedTrustDomain => "malformed_trust_domain"
  | IssuerMismatch => "issuer_mismatch"
  | LineageInconsistent => "lineage_inconsistent"
  | Inauthentic => "inauthentic"
  | Expired => "expired"
  | UnknownScopeKind => "unknown_scope_kind"
  | Revoked => "revoked"
  | Indeterminate => "indeterminate"
  end.

Definition from_code (c : string) : option t :=
  if bool_decide (c = "valid") then Some Valid
  else if bool_decide (c = "unparseable") then Some Unparseable
  else if bool_decide (c = "unsupported_sig_version") then Some UnsupportedSigVersion
  else if bool_decide (c = "malformed_trust_domain") then Some MalformedTrustDomain
  else if bool_decide (c = "issuer_mismatch") then Some IssuerMismatch
  else if bool_decide (c = "lineage_inconsistent") then Some LineageInconsistent
  else if bool_decide (c = "inauthentic") then Some Inauthentic
  else if bool_decide (c = "expired") then Some Expired
  else if bool_decide (c = "unknown_scope_kind") then Some UnknownScopeKind
  else if bool_decide (c = "revoked") then Some Revoked
  else if bool_decide (c = "indeterminate") then Some Indeterminate
  else None.

(** The wire vocabulary is a bijection: a string names a verdict exactly when
    it is that verdict's code, and [ALL] lists every verdict once. *)
Theorem code_from_code (c : string) (v : t) :
  (from_code c = Some v ↔ code v = c) ∧ v ∈ ALL ∧ NoDup ALL.
Proof.
  split_and!.
  - split; [|intros <-; by destruct v].
    unfold from_code. repeat (case_bool_decide; [naive_solver|]). done.
  - unfold ALL. destruct v; set_solver.
  - by apply (bool_decide_unpack (NoDup ALL)).
Qed.

End VaidVerdict.

Notation VaidVerdict := VaidVerdict.t.

Section Verify.
  Context {Ext : Externals}.

Definition verify_lineage_hash (d : Vaid) : bool :=
  bool_decide (compute_lineage_hash (parent_vaid d) (agent_id d) = vd_lineage_hash d).

Definition verify_vaid_authenticity_graded (kernel_public_key : list byte) (d : Vaid)
    : VaidVerdict :=
  if bool_decide (sig_version d ≠ VAID_SIG_VERSION_V4) then VaidVerdict.UnsupportedSigVersion
  else if negb (is_valid_trust_domain (vd_trust_domain d)) then VaidVerdict.MalformedTrustDomain
  else if bool_decide (vd_kernel_key_thumbprint d ≠ kernel_key_thumbprint kernel_public_key) then
    VaidVerdict.IssuerMismatch
  else if negb (verify_lineage_hash d) then VaidVerdict.LineageInconsistent
  else if negb (ed25519_verify kernel_public_key (canonical_vaid_signing_bytes d)
                  (vd_kernel_signature d)) then
    VaidVerdict.Inauthentic
  else VaidVerdict.Valid.

Definition verify_vaid_authenticity (kernel_public_key : list byte) (d : Vaid) : bool :=
  VaidVerdict.is_valid (verify_vaid_authenticity_graded kernel_public_key d).

Definition verify_vaid_standing (now : Instant) (kernel_public_key : list byte) (d : Vaid)
    (revocation : RevocationStatus) : VaidVerdict :=
  let authenticity := verify_vaid_authenticity_graded kernel_public_key d in
  if negb (VaidVerdict.is_valid authenticity) then authenticity
  else if is_expired_at d now then VaidVerdict.Expired
  else if negb (boundary_is_evaluable (vd_scope_boundary d)) then VaidVerdict.UnknownScopeKind
  else match revocation with
       | NotRevoked => VaidVerdict.Valid
       | Revoked => VaidVerdict.Revoked
       | Unavailable => VaidVerdict.Indeterminate
       end.

  (** [serde_json::from_str::<Vaid>] *)
Definition vaid_from_str (document_json : string) : option Vaid :=
  r ← json_parse document_json; vaid_deserialize r.

Definition verify_vaid_standing_from_json (now : Instant) (kernel_public_key : list byte)
    (document_json : string) (revocation : RevocationStatus) : VaidVerdict :=
  if has_duplicate_member_names document_json then VaidVerdict.Unparseable
  else match vaid_from_str document_json with
       | Some d => verify_vaid_standing now kernel_public_key d revocation
       | None => VaidVerdict.Unparseable
       end.

Record ExpectedCaller : Type := mkExpectedCaller {
  ec_agent_id : option string;
  ec_agent_class : option string;
  ec_tenant_id : option string;
}.

Definition expected_caller_none : ExpectedCaller := mkExpectedCaller None None None.

Definition matches_caller (e : ExpectedCaller) (d : Vaid) : bool :=
  match ec_agent_id e with
  | Some expected => bool_decide (expected = agent_id_to_string (agent_id d))
  | None => true
  end
  && match ec_agent_class e with
     | Some expected => bool_decide (expected = class_as_str (vd_agent_class d))
     | None => true
     end
  && match ec_tenant_id e with
     | Some expected => bool_decide (expected = tenant_as_str (vd_tenant_id d))
     | None => true
     end.

Inductive CallerMismatchError : Type := CallerMismatch.

Definition verify_vaid_standing_bound (now : Instant) (kernel_public_key : list byte) (d : Vaid)
    (revocation : RevocationStatus) (expected : ExpectedCaller)
    : Outcome CallerMismatchError VaidVerdict :=
  let verdict := verify_vaid_standing now kernel_public_key d revocation in
  if VaidVerdict.is_valid verdict && negb (matches_caller expected d) then Err CallerMismatch
  else Ok verdict.

Definition verify_vaid_standing_bound_from_json (now : Instant) (kernel_public_key : list byte)
    (document_json : string) (revocation : RevocationStatus) (expected : ExpectedCaller)
    : Outcome CallerMismatchError VaidVerdict :=
  if has_duplicate_member_names document_json then Ok VaidVerdict.Unparseable
  else match vaid_from_str document_json with
       | Some d => verify_vaid_standing_bound now kernel_public_key d revocation expected
       | None => Ok VaidVerdict.Unparseable
       end.

  (** ** Specification *)

  (** The five facts behind an authentic document, in the order checked. *)
Record authentic (pk : list byte) (d : Vaid) : Prop := {
  auth_version : vd_sig_version d = VAID_SIG_VERSION_V4;
  auth_trust_domain : is_valid_trust_domain (vd_trust_domain d) = true;
  auth_thumbprint : vd_kernel_key_thumbprint d = kernel_key_thumbprint pk;
  auth_lineage : verify_lineage_hash d = true;
  auth_signature :
    ed25519_verify pk (canonical_vaid_signing_bytes d) (vd_kernel_signature d) = true;
}.

Lemma graded_valid pk d :
  verify_vaid_authenticity_graded pk d = VaidVerdict.Valid ↔ authentic pk d.
Proof.
  unfold verify_vaid_authenticity_graded, sig_version. split.
  - intros H. cases H. bool_hyps.
    repeat match goal with H : ¬ _ ≠ _ |- _ => apply dec_stable in H end. by split.
  - intros [H1 H2 H3 H4 H5]. rewrite !bool_decide_eq_false_2 by naive_solver.
    by rewrite H2, H4, H5.
Qed.

Lemma authenticity_true pk d : verify_vaid_authenticity pk d = true ↔ authentic pk d.
Proof.
  unfold verify_vaid_authenticity. rewrite <- graded_valid.
  by destruct (verify_vaid_authenticity_graded pk d).
Qed.

Lemma authentic_lineage_hash pk d :
  authentic pk d → compute_lineage_hash (parent_vaid d) (agent_id d) = vd_lineage_hash d.
Proof. intros [_ _ _ H%bool_decide_eq_true _]. done. Qed.

Lemma standing_valid now pk d rev :
  verify_vaid_standing now pk d rev = VaidVerdict.Valid ↔
  authentic pk d ∧ is_expired_at d now = false
  ∧ boundary_is_evaluable (vd_scope_boundary d) = true ∧ rev = NotRevoked.
Proof.
  unfold verify_vaid_standing. rewrite <- graded_valid.
  destruct (verify_vaid_authenticity_graded pk d), (is_expired_at d now),
    (boundary_is_evaluable _), rev; simpl; naive_solver.
Qed.

(** The graded authenticity verdict, every branch: each structural complaint
    is given exactly when it is the first of version, trust domain, key
    commitment, lineage hash and signature to fail, and no standing verdict is
    ever given. *)
Theorem graded_spec (pk : list byte) (d : Vaid) (v : VaidVerdict) :
  let version_ok := vd_sig_version d = VAID_SIG_VERSION_V4 in
  let domain_ok := is_valid_trust_domain (vd_trust_domain d) = true in
  let key_ok := vd_kernel_key_thumbprint d = kernel_key_thumbprint pk in
  let lineage_ok := compute_lineage_hash (parent_vaid d) (agent_id d) = vd_lineage_hash d in
  let signed := ed25519_verify pk (canonical_vaid_signing_bytes d) (vd_kernel_signature d) = true in
  verify_vaid_authenticity_graded pk d = v ↔
  match v with
  | VaidVerdict.Valid => version_ok ∧ domain_ok ∧ key_ok ∧ lineage_ok ∧ signed
  | VaidVerdict.UnsupportedSigVersion => ¬ version_ok
  | VaidVerdict.MalformedTrustDomain => version_ok ∧ ¬ domain_ok
  | VaidVerdict.IssuerMismatch => version_ok ∧ domain_ok ∧ ¬ key_ok
  | VaidVerdict.LineageInconsistent => version_ok ∧ domain_ok ∧ key_ok ∧ ¬ lineage_ok
  | VaidVerdict.Inauthentic => version_ok ∧ domain_ok ∧ key_ok ∧ lineage_ok ∧ ¬ signed
  | _ => False
  end.
Proof.
  unfold verify_vaid_authenticity_graded, verify_lineage_hash, sig_version. cbn zeta.
  repeat case_bool_decide; destruct (is_valid_trust_domain _), (ed25519_verify _ _ _), v; simpl;
    naive_solver.
Qed.

Lemma standing_cases (now : Instant) (pk : list byte) (d : Vaid) (rev : RevocationStatus)
    (v : VaidVerdict) :
  let live := is_expired_at d now = false in
  let evaluable := boundary_is_evaluable (vd_scope_boundary d) = true in
  verify_vaid_standing now pk d rev = v ↔
  match v with
  | VaidVerdict.Valid => authentic pk d ∧ live ∧ evaluable ∧ rev = NotRevoked
  | VaidVerdict.Expired => authentic pk d ∧ ¬ live
  | VaidVerdict.UnknownScopeKind => authentic pk d ∧ live ∧ ¬ evaluable
  | VaidVerdict.Revoked => authentic pk d ∧ live ∧ evaluable ∧ rev = Revoked
  | VaidVerdict.Indeterminate => authentic pk d ∧ live ∧ evaluable ∧ rev = Unavailable
  | VaidVerdict.Unparseable => False
  | _ => verify_vaid_authenticity_graded pk d = v
  end.
Proof.
  cbn zeta. pose proof (graded_valid pk d) as Hauth. unfold verify_vaid_standing.
  assert (∀ w, verify_vaid_authenticity_graded pk d = w →
    w ∉ [VaidVerdict.Unparseable; VaidVerdict.Expired; VaidVerdict.UnknownScopeKind;
         VaidVerdict.Revoked; VaidVerdict.Indeterminate]) as Hno.
  { intros w <-. unfold verify_vaid_authenticity_graded. repeat case_match;
      by vm_compute; set_solver. }
  specialize (Hno _ eq_refl). rewrite !not_elem_of_cons in Hno.
  destruct (decide (verify_vaid_authenticity_graded pk d = VaidVerdict.Valid)) as [E|E].
  - rewrite E in *.
    destruct (is_expired_at d now), (boundary_is_evaluable _), rev, v; naive_solver.
  - rewrite Hauth in E. destruct (verify_vaid_authenticity_graded pk d), v; naive_solver.
Qed.

(** C6. The standing verdict, every branch, with its order of precedence: an
    authenticity complaint is passed on and outranks everything; then expiry,
    then a boundary kind that is not recognised, then revocation.  In
    particular a document is valid exactly when it is authentic, unexpired,
    evaluable and known not to be revoked, an unavailable revocation answer is
    never valid, and a parsed document is never unparseable. *)
Theorem standing_spec (now : Instant) (pk : list byte) (d : Vaid) (rev : RevocationStatus)
    (v : VaidVerdict) :
  let live := is_expired_at d now = false in
  let evaluable := boundary_is_evaluable (vd_scope_boundary d) = true in
  verify_vaid_standing now pk d rev = v ↔
  match v with
  | VaidVerdict.Valid => authentic pk d ∧ live ∧ evaluable ∧ rev = NotRevoked
  | VaidVerdict.Expired => authentic pk d ∧ ¬ live
  | VaidVerdict.UnknownScopeKind => authentic pk d ∧ live ∧ ¬ evaluable
  | VaidVerdict.Revoked => authentic pk d ∧ live ∧ evaluable ∧ rev = Revoked
  | VaidVerdict.Indeterminate => authentic pk d ∧ live ∧ evaluable ∧ rev = Unavailable
  | VaidVerdict.Unparseable => False
  | _ => verify_vaid_authenticity_graded pk d = v
  end.
Proof. apply standing_cases. Qed.


(** Caller binding is checked last: a mismatch is an error exactly when the
    document is otherwise valid and some constrained field differs from the
    document's own, so it never masks a forged, expired or revoked document,
    and a bound success with the valid verdict means every constrained field
    is the document's. *)
Theorem standing_bound_spec (now : Instant) (pk : list byte) (d : Vaid) (rev : RevocationStatus)
    (e : ExpectedCaller) (r : Outcome CallerMismatchError VaidVerdict) :
  let bound :=
    (∀ a, ec_agent_id e = Some a → a = agent_id_to_string (agent_id d))
    ∧ (∀ c, ec_agent_class e = Some c → c = class_as_str (vd_agent_class d))
    ∧ (∀ t, ec_tenant_id e = Some t → t = tenant_as_str (vd_tenant_id d)) in
  verify_vaid_standing_bound now pk d rev e = r ↔
  match r with
  | Ok v => verify_vaid_standing now pk d rev = v ∧ (v = VaidVerdict.Valid → bound)
  | Err _ => verify_vaid_standing now pk d rev = VaidVerdict.Valid ∧ ¬ bound
  | Panicked => False
  end.
Proof.
  cbn zeta.
  assert (matches_caller e d = true ↔
    (∀ a, ec_agent_id e = Some a → a = agent_id_to_string (agent_id d))
    ∧ (∀ c, ec_agent_class e = Some c → c = class_as_str (vd_agent_class d))
    ∧ (∀ t, ec_tenant_id e = Some t → t = tenant_as_str (vd_tenant_id d))) as Hm.
  { unfold matches_caller. rewrite !andb_true_iff.
    destruct (ec_agent_id e), (ec_agent_class e), (ec_tenant_id e);
      rewrite ?bool_decide_eq_true; naive_solver. }
  revert Hm. set (Q := _ ∧ _ ∧ _). generalize Q. clear. intros Q Hm.
  unfold verify_vaid_standing_bound.
  destruct (verify_vaid_standing now pk d rev) eqn:Hv, (matches_caller e d), r as [w|[]|];
    simpl; naive_solver.
Qed.

(** Standing only decays: a document valid at some instant, with some
    revocation answer, was valid at every earlier instant with that answer, and
    once expired it stays expired whatever the revocation answer becomes. *)
Theorem standing_decays (t t' : Instant) (pk : list byte) (d : Vaid)
    (rev rev' : RevocationStatus) (Hle : (t ≤ t')%Z) :
  (verify_vaid_standing t' pk d rev = VaidVerdict.Valid →
   verify_vaid_standing t pk d rev = VaidVerdict.Valid)
  ∧ (verify_vaid_standing t pk d rev = VaidVerdict.Expired →
     verify_vaid_standing t' pk d rev' = VaidVerdict.Expired).
Proof.
  pose proof (is_expired_at_mono d t t' Hle) as Hmono. split.
  - rewrite !standing_valid. intros (Ha & He & Hb & ->). split_and!; try done.
    destruct (is_expired_at d t); [|done]. by rewrite Hmono in He.
  - unfold verify_vaid_standing.
    destruct (verify_vaid_authenticity_graded pk d) eqn:Hg; simpl; try done.
    destruct (is_expired_at d t); [by rewrite Hmono|]. repeat case_match; done.
Qed.

End Verify.


Lemma standing_decays_witness :
  let pk := ["001"%byte] in
  (@verify_vaid_standing (concrete no_json) 5%Z pk sample_doc NotRevoked = VaidVerdict.Valid →
   @verify_vaid_standing (concrete no_json) 3%Z pk sample_doc NotRevoked = VaidVerdict.Valid)
  ∧ (@verify_vaid_standing (concrete no_json) 3%Z pk sample_doc NotRevoked = VaidVerdict.Expired →
     @verify_vaid_standing (concrete no_json) 5%Z pk sample_doc Unavailable = VaidVerdict.Expired).
Proof. apply (standing_decays (Ext := concrete no_json) 3%Z 5%Z). lia. Defined.
