(* ===== verification/Attestation.v ===== *)
(** * Consent attestations

    [crates/vaid-mint/src/attestation.rs]. *)

From S2P Require Import Prelude Json Externals Concrete Identity Scope IssuerIdentity Document.
From S2P Require Import Attenuation.

Definition ATTESTATION_VERSION : Z := 1.

Record ConsentAttestation : Type := mkConsentAttestation {
  att_version : Z;
  att_parent_vaid : VaidId;
  att_child_vaid : VaidId;
  att_child_trust_domain : string;
  att_child_tenant_id : string;
  att_issued_at : Instant;
  att_expires_at : Instant;
  att_scope_boundary : list ScopeBoundaryEntry;
  att_capability_set : list string;
  att_trust_domain : string;
  att_kernel_key_thumbprint : string;
  att_signature : list byte;
}.

Definition att_new (parent_vaid child_vaid : VaidId) (child_trust_domain child_tenant_id : string)
    (issued_at expires_at : Instant) (scope_boundary : list ScopeBoundaryEntry)
    (capability_set : list string) (trust_domain kernel_key_thumbprint : string)
    : ConsentAttestation := {|
  att_version := ATTESTATION_VERSION;
  att_parent_vaid := parent_vaid;
  att_child_vaid := child_vaid;
  att_child_trust_domain := child_trust_domain;
  att_child_tenant_id := child_tenant_id;
  att_issued_at := issued_at;
  att_expires_at := expires_at;
  att_scope_boundary := scope_boundary;
  att_capability_set := capability_set;
  att_trust_domain := trust_domain;
  att_kernel_key_thumbprint := kernel_key_thumbprint;
  att_signature := [];
|}.

Definition att_with_signature (a : ConsentAttestation) (signature : list byte)
    : ConsentAttestation := {|
  att_version := att_version a;
  att_parent_vaid := att_parent_vaid a;
  att_child_vaid := att_child_vaid a;
  att_child_trust_domain := att_child_trust_domain a;
  att_child_tenant_id := att_child_tenant_id a;
  att_issued_at := att_issued_at a;
  att_expires_at := att_expires_at a;
  att_scope_boundary := att_scope_boundary a;
  att_capability_set := att_capability_set a;
  att_trust_domain := att_trust_domain a;
  att_kernel_key_thumbprint := att_kernel_key_thumbprint a;
  att_signature := signature;
|}.

Definition att_hop (a : ConsentAttestation) : VaidId * VaidId :=
  (att_parent_vaid a, att_child_vaid a).

(** ** The presented attestations, by hop *)

Definition AttestationBundle : Type := gmap (VaidId * VaidId) ConsentAttestation.

Definition attestation_bundle_new (attestations : list ConsentAttestation) : AttestationBundle :=
  foldl (λ m a, <[att_hop a := a]> m) ∅ attestations.
Definition attestation_bundle_empty : AttestationBundle := ∅.
Definition attestation_get (b : AttestationBundle) (parent_vaid child_vaid : VaidId)
    : option ConsentAttestation :=
  (b : gmap (VaidId * VaidId) ConsentAttestation) !! (parent_vaid, child_vaid).
Definition attestation_bundle_len (b : AttestationBundle) : nat :=
  size (b : gmap (VaidId * VaidId) ConsentAttestation).
Definition attestation_bundle_is_empty (b : AttestationBundle) : bool :=
  (attestation_bundle_len b =? 0)%nat.

Section Attestation.
  Context {Ext : Externals}.

  (** [None]: the subtraction of the skew allowance overflowed (a panic). *)
Definition is_current (a : ConsentAttestation) (now : Instant) : option bool :=
  if bool_decide (att_expires_at a ≤ att_issued_at a)%Z then Some false
  else if bool_decide (att_expires_at a < now)%Z then Some false
  else earliest ← dt_add (att_issued_at a) (- (MINT_POP_FRESHNESS_SECS * NANOS))%Z;
       Some (bool_decide (earliest ≤ now)%Z).

Definition att_members (a : ConsentAttestation) : list (string * Json) :=
  [("att_version", JNumber (PosInt (att_version a)));
   ("parent_vaid", ser_vaid_id (att_parent_vaid a));
   ("child_vaid", ser_vaid_id (att_child_vaid a));
   ("child_trust_domain", JString (att_child_trust_domain a));
   ("child_tenant_id", JString (att_child_tenant_id a));
   ("issued_at", JString (dt_serialize (att_issued_at a)));
   ("expires_at", JString (dt_serialize (att_expires_at a)));
   ("scope_boundary", ser_boundary (att_scope_boundary a));
   ("capability_set", ser_strings (att_capability_set a));
   ("trust_domain", JString (att_trust_domain a));
   ("kernel_key_thumbprint", JString (att_kernel_key_thumbprint a));
   ("signature", ser_bytes (att_signature a))].

Definition att_to_value (a : ConsentAttestation) : Json := JObject (list_to_map (att_members a)).

Definition canonical_attestation_signing_bytes (a : ConsentAttestation) : list byte :=
  sha256 (serde_jcs_to_vec (object_insert "signature" JNull (att_to_value a))).

Definition verify_attestation_authenticity (kernel_public_key : list byte)
    (a : ConsentAttestation) : bool :=
  if bool_decide (att_version a ≠ ATTESTATION_VERSION) then false
  else if negb (is_valid_trust_domain (att_trust_domain a)) then false
  else if bool_decide (att_kernel_key_thumbprint a ≠ kernel_key_thumbprint kernel_public_key) then
    false
  else ed25519_verify kernel_public_key (canonical_attestation_signing_bytes a) (att_signature a).

  (** ** Lemmas *)

Lemma att_value_with_signature (a : ConsentAttestation) (s : list byte) :
  object_insert "signature" JNull (att_to_value (att_with_signature a s))
  = object_insert "signature" JNull (att_to_value a).
Proof. reflexivity. Qed.

Lemma canonical_att_with_signature (a : ConsentAttestation) (s : list byte) :
  canonical_attestation_signing_bytes (att_with_signature a s)
  = canonical_attestation_signing_bytes a.
Proof.
  unfold canonical_attestation_signing_bytes. by rewrite att_value_with_signature.
Qed.

Lemma attestation_authentic_spec (pk : list byte) (a : ConsentAttestation) :
  verify_attestation_authenticity pk a = true ↔
  att_version a = ATTESTATION_VERSION
  ∧ is_valid_trust_domain (att_trust_domain a) = true
  ∧ att_kernel_key_thumbprint a = kernel_key_thumbprint pk
  ∧ ed25519_verify pk (canonical_attestation_signing_bytes a) (att_signature a) = true.
Proof.
  unfold verify_attestation_authenticity.
  repeat case_bool_decide; destruct (is_valid_trust_domain _); simpl; naive_solver.
Qed.

Lemma attestation_bundle_lookup (l : list ConsentAttestation) (p c : VaidId) :
  attestation_get (attestation_bundle_new l) p c = last (filter (λ a, att_hop a = (p, c)) l).
Proof.
  unfold attestation_get, attestation_bundle_new. revert p c. 
  induction l as [|a l IH] using rev_ind; intros p c; [done|].
  rewrite foldl_app, filter_app. cbn [foldl]. rewrite filter_cons, filter_nil.
  case_decide as Ha; [rewrite last_snoc, Ha; apply lookup_insert_eq|].
  rewrite app_nil_r, <- IH. by apply lookup_insert_ne.
Qed.

(** A consent attestation is found only for the hop it names: whatever was
    presented, the bundle answers a hop with the last attestation presented
    for exactly that parent and child, so one minted for another delegation is
    inert. *)
Theorem attestation_lookup_by_hop (l : list ConsentAttestation) (p c : VaidId) :
  attestation_get (attestation_bundle_new l) p c
    = last (filter (λ a, att_hop a = (p, c)) l)
  ∧ ∀ a, attestation_get (attestation_bundle_new l) p c = Some a →
         a ∈ l ∧ att_parent_vaid a = p ∧ att_child_vaid a = c.
Proof.
  split; [apply attestation_bundle_lookup|]. intros a. rewrite attestation_bundle_lookup.
  intros Ha%last_Some_elem_of. apply list_elem_of_filter in Ha as [[= <- <-] Ha]. done.
Qed.

(** The validity window of a consent: an instant is inside it exactly when
    the window is not empty, has not ended (no grace), and starts at most the
    skew allowance later; the subtraction does not overflow for a start between
    the years 0000 and 9999 (less that allowance at the very beginning). *)
Theorem is_current_spec {Laws : ChronoLaws} (a : ConsentAttestation) (now : Instant)
    (Hyear : four_digit_year (att_issued_at a))
    (Hyear' : four_digit_year (att_issued_at a - MINT_POP_FRESHNESS_SECS * NANOS)%Z) :
  ∃ b, is_current a now = Some b ∧
  (b = true ↔
     (att_issued_at a < att_expires_at a)%Z
     ∧ (att_issued_at a - MINT_POP_FRESHNESS_SECS * NANOS ≤ now ≤ att_expires_at a)%Z).
Proof.
  unfold is_current. rewrite dt_add_four_digit_year; [|done|by rewrite Z.add_opp_r]. simpl.
  repeat case_bool_decide; eexists; (split; [reflexivity|]).
  all: rewrite ?bool_decide_eq_true; split; intros; try done; lia.
Qed.

End Attestation.

Lemma is_current_spec_witness :
  let a := att_new (VaidId_from_uuid 1%N) (VaidId_from_uuid 2%N) "c.example" "t"
             (1000 * NANOS)%Z (2000 * NANOS)%Z [] [] "p.example" "k" in
  ∃ b, @is_current (concrete no_json) a (700 * NANOS)%Z = Some b ∧
    (b = true ↔ (att_issued_at a < att_expires_at a)%Z
       ∧ (att_issued_at a - MINT_POP_FRESHNESS_SECS * NANOS ≤ 700 * NANOS ≤ att_expires_at a)%Z).
Proof.
  apply (is_current_spec (Ext := concrete no_json));
    unfold four_digit_year, MINT_POP_FRESHNESS_SECS, NANOS; simpl; lia.
Defined.
