(* ===== verification/Chain.v ===== *)
(** * Delegation-chain verification

    [crates/vaid-mint/src/chain.rs].  The clock [verify_chain] and
    [verify_chain_with] read is their argument [now]. *)

From S2P Require Import Prelude Json Externals Concrete Identity Scope IssuerIdentity Document.
From S2P Require Import DupScan Revocation Attenuation Verify Attestation.

Module ChainVerification.

Inductive t : Type :=
  | Attenuated | Inauthentic | Unverifiable | NotAttenuated | Expired | ConsentExpired.

#[global] Instance t_eq_dec : EqDecision t.
Proof. solve_decision. Defined.

Definition is_attenuated (v : t) : bool := match v with Attenuated => true | _ => false end.

End ChainVerification.

Notation ChainVerification := ChainVerification.t.

(** Which kernel keys a verifier accepts, by thumbprint. *)
Class KernelKeyResolver (K : Type) := resolve_key : K → string → option (list byte).

Section Chain.
  Context {Ext : Externals}.

  (** ** The presented documents *)

Definition PresentedBundle : Type := gmap VaidId Vaid.

Definition presented_bundle_new (documents : list Vaid) : PresentedBundle :=
  foldl (λ m d, <[vaid_id d := d]> m) ∅ documents.
Definition presented_bundle_empty : PresentedBundle := ∅.
Definition presented_get (b : PresentedBundle) (id : VaidId) : option Vaid :=
  (b : gmap VaidId Vaid) !! id.
Definition presented_bundle_len (b : PresentedBundle) : nat := size (b : gmap VaidId Vaid).
Definition presented_bundle_is_empty (b : PresentedBundle) : bool :=
  (presented_bundle_len b =? 0)%nat.

#[global] Instance presented_resolver : LineageResolver PresentedBundle :=
  λ b id,
    match presented_get b id with
    | None => Unknown
    | Some doc =>
        match parent_vaid doc with
        | None => Root
        | Some parent => Parent parent
        end
    end.

  (** ** Accepted kernel keys *)

Record SingleKernelKey : Type := mkSingleKernelKey {
  sk_thumbprint : string;
  sk_public_key : list byte;
}.

Definition single_kernel_key_new (public_key : list byte) : SingleKernelKey :=
  mkSingleKernelKey (kernel_key_thumbprint public_key) public_key.

#[global] Instance single_key_resolver : KernelKeyResolver SingleKernelKey :=
  λ k thumbprint,
    if bool_decide (thumbprint = sk_thumbprint k) then Some (sk_public_key k) else None.

Definition KernelKeyMap : Type := gmap string (list byte).

Definition kernel_key_map_new (public_keys : list (list byte)) : KernelKeyMap :=
  foldl (λ m k, <[kernel_key_thumbprint k := k]> m) ∅ public_keys.
Definition kernel_key_map_len (m : KernelKeyMap) : nat := size (m : gmap string (list byte)).
Definition kernel_key_map_is_empty (m : KernelKeyMap) : bool := (kernel_key_map_len m =? 0)%nat.

#[global] Instance key_map_resolver : KernelKeyResolver KernelKeyMap :=
  λ m thumbprint, (m : gmap string (list byte)) !! thumbprint.

  (** ** The procedure *)

Definition authenticate {K} `{KernelKeyResolver K} (keys : K) (doc : Vaid) : bool :=
  match resolve_key keys (vd_kernel_key_thumbprint doc) with
  | None => false
  | Some key => verify_vaid_authenticity key doc
  end.

  (** The ids of the lineage back to documents: the leaf itself is matched first. *)
Definition chain_documents (leaf : Vaid) (bundle : PresentedBundle) (ids : list VaidId)
    : option (list Vaid) :=
  mapM (λ id, if bool_decide (id = vaid_id leaf) then Some leaf else presented_get bundle id) ids.

  (** The body of the hop loop; [Err v] is its early [return v]. *)
Definition check_hop {K} `{KernelKeyResolver K} (keys : K) (attestations : AttestationBundle)
    (now : Instant) (parent child : Vaid) : Outcome ChainVerification unit :=
  let same_key :=
    bool_decide (vd_kernel_key_thumbprint parent = vd_kernel_key_thumbprint child) in
  if same_key
     && negb (tenant_attenuates parent (vd_trust_domain child) (tenant_as_str (vd_tenant_id child)))
  then Err ChainVerification.NotAttenuated
  else if negb (scope_attenuates parent (vd_scope_boundary child)) then
    Err ChainVerification.NotAttenuated
  else if negb (caps_attenuate parent (vd_capability_set child)) then
    Err ChainVerification.NotAttenuated
  else if negb (expiry_attenuates parent (Some (expires_at_as_presented child))) then
    Err ChainVerification.NotAttenuated
  else if same_key then Ok tt
  else
    match attestation_get attestations (vaid_id parent) (vaid_id child) with
    | None => Err ChainVerification.Inauthentic
    | Some attestation =>
        if bool_decide (att_kernel_key_thumbprint attestation ≠ vd_kernel_key_thumbprint parent)
           || bool_decide (att_trust_domain attestation ≠ vd_trust_domain parent)
        then Err ChainVerification.Inauthentic
        else if bool_decide (att_child_trust_domain attestation ≠ vd_trust_domain child)
           || bool_decide (att_child_tenant_id attestation ≠ tenant_as_str (vd_tenant_id child))
        then Err ChainVerification.NotAttenuated
        else
          match resolve_key keys (att_kernel_key_thumbprint attestation) with
          | None => Err ChainVerification.Inauthentic
          | Some key =>
              if negb (verify_attestation_authenticity key attestation) then
                Err ChainVerification.Inauthentic
              else
                match is_current attestation now with
                | None => Panicked
                | Some current =>
                    if negb current then Err ChainVerification.ConsentExpired
                    else if negb (scope_attenuates_within (att_scope_boundary attestation)
                                    (vd_scope_boundary child))
                         || negb (caps_attenuate_within (att_capability_set attestation)
                                    (vd_capability_set child))
                    then Err ChainVerification.NotAttenuated
                    else if negb (scope_attenuates parent (att_scope_boundary attestation))
                         || negb (caps_attenuate parent (att_capability_set attestation))
                    then Err ChainVerification.NotAttenuated
                    else Ok tt
                end
          end
    end.

  (** [for pair in chain_docs.windows(2)] *)
Fixpoint check_hops {K} `{KernelKeyResolver K} (keys : K) (attestations : AttestationBundle)
    (now : Instant) (chain_docs : list Vaid) : Outcome ChainVerification unit :=
  match chain_docs with
  | parent :: ((child :: _) as rest) =>
      match check_hop keys attestations now parent child with
      | Ok _ => check_hops keys attestations now rest
      | stop => stop
      end
  | _ => Ok tt
  end.

Definition verify_chain_at {K} `{KernelKeyResolver K} (keys : K) (leaf : Vaid)
    (bundle : PresentedBundle) (attestations : AttestationBundle) (now : Instant)
    : Outcome Empty_set ChainVerification :=
  if negb (authenticate keys leaf) then Ok ChainVerification.Inauthentic
  else if negb (forallb (authenticate keys) (map snd (map_to_list (bundle : gmap VaidId Vaid)))) then
    Ok ChainVerification.Inauthentic
  else
    match assemble_lineage leaf bundle with
    | Incomplete => Ok ChainVerification.Unverifiable
    | Complete chain_ids =>
        match chain_documents leaf bundle chain_ids with
        | None => Ok ChainVerification.Unverifiable
        | Some chain_docs =>
            if existsb (λ ancestor, is_expired_at ancestor now)
                 (take (length chain_docs - 1) chain_docs)
            then Ok ChainVerification.Expired
            else
              match check_hops keys attestations now chain_docs with
              | Ok _ => Ok ChainVerification.Attenuated
              | Err v => Ok v
              | Panicked => Panicked
              end
        end
    end.

Definition verify_chain_with {K} `{KernelKeyResolver K} (now : Instant) (keys : K) (leaf : Vaid)
    (bundle : PresentedBundle) (attestations : AttestationBundle) :=
  verify_chain_at keys leaf bundle attestations now.

Definition verify_chain (now : Instant) (kernel_public_key : list byte) (leaf : Vaid)
    (bundle : PresentedBundle) : Outcome Empty_set ChainVerification :=
  verify_chain_with now (single_kernel_key_new kernel_public_key) leaf bundle
    attestation_bundle_empty.

  (** ** Specification *)

  (** The parent's issuer consented to this delegation, and the child stays
      within the consent, which stays within the parent. *)
Definition consented {K} `{KernelKeyResolver K} (keys : K) (attestations : AttestationBundle)
    (now : Instant) (parent child : Vaid) : Prop :=
  ∃ a key,
    attestation_get attestations (vaid_id parent) (vaid_id child) = Some a
    ∧ att_kernel_key_thumbprint a = vd_kernel_key_thumbprint parent
    ∧ att_trust_domain a = vd_trust_domain parent
    ∧ att_child_trust_domain a = vd_trust_domain child
    ∧ att_child_tenant_id a = tenant_as_str (vd_tenant_id child)
    ∧ resolve_key keys (att_kernel_key_thumbprint a) = Some key
    ∧ verify_attestation_authenticity key a = true
    ∧ is_current a now = Some true
    ∧ scope_attenuates_within (att_scope_boundary a) (vd_scope_boundary child) = true
    ∧ caps_attenuate_within (att_capability_set a) (vd_capability_set child) = true
    ∧ scope_attenuates parent (att_scope_boundary a) = true
    ∧ caps_attenuate parent (att_capability_set a) = true.

Record hop_ok {K} `{KernelKeyResolver K} (keys : K) (attestations : AttestationBundle)
    (now : Instant) (parent child : Vaid) : Prop := {
  hop_scope : scope_attenuates parent (vd_scope_boundary child) = true;
  hop_caps : caps_attenuate parent (vd_capability_set child) = true;
  hop_expiry : expiry_attenuates parent (Some (vd_expires_at child)) = true;
  hop_same_key :
    vd_kernel_key_thumbprint parent = vd_kernel_key_thumbprint child →
    vd_trust_domain parent = vd_trust_domain child
    ∧ vd_tenant_id parent = vd_tenant_id child;
  hop_cross_key :
    vd_kernel_key_thumbprint parent ≠ vd_kernel_key_thumbprint child →
    consented keys attestations now parent child;
}.

  (** The documents from a document up to a root, nearest first, each the one
      presented under the signed parent id below it. *)
Inductive ancestor_docs (bundle : PresentedBundle) : Vaid → list Vaid → Prop :=
  | docs_root d : parent_vaid d = None → ancestor_docs bundle d []
  | docs_hop d pid p up :
      parent_vaid d = Some pid → presented_get bundle pid = Some p →
      ancestor_docs bundle p up → ancestor_docs bundle d (p :: up).

  (** Every two neighbours, child first. *)
Fixpoint hops_ok {K} `{KernelKeyResolver K} (keys : K) (attestations : AttestationBundle)
    (now : Instant) (child : Vaid) (up : list Vaid) : Prop :=
  match up with
  | [] => True
  | parent :: up' =>
      hop_ok keys attestations now parent child ∧ hops_ok keys attestations now parent up'
  end.

  (** A bundle files every document under its own id. *)
Definition bundle_wf (bundle : PresentedBundle) : Prop :=
  ∀ id d, presented_get bundle id = Some d → vaid_id d = id.

Lemma presented_bundle_new_wf (documents : list Vaid) : bundle_wf (presented_bundle_new documents).
Proof.
  unfold bundle_wf, presented_get, presented_bundle_new.
  induction documents as [|d documents IH] using rev_ind; intros id d'; [done|].
  rewrite foldl_app. cbn [foldl]. rewrite lookup_insert_Some. naive_solver.
Qed.

Lemma bundle_forallb (f : Vaid → bool) (bundle : PresentedBundle) :
  forallb f (map snd (map_to_list (bundle : gmap VaidId Vaid))) = true ↔
  ∀ id d, presented_get bundle id = Some d → f d = true.
Proof.
  rewrite forallb_Forall_true, Forall_forall. unfold presented_get. split.
  - intros Hall id d Hd. apply Hall, list_elem_of_fmap.
    exists (id, d). split; [done|]. by apply elem_of_map_to_list.
  - intros Hall d Hd. apply list_elem_of_fmap in Hd as ([id d'] & -> & Hin).
    apply elem_of_map_to_list in Hin. by apply (Hall id).
Qed.

Lemma ancestor_docs_ids bundle d ids :
  bundle_wf bundle →
  ancestors_above (resolve_parent bundle) (parent_vaid d) ids ↔
  ∃ docs, ancestor_docs bundle d docs ∧ ids = map vaid_id docs.
Proof.
  intros Hwf. split.
  - intros H. remember (parent_vaid d) as next eqn:Hn. revert d Hn.
    induction H as [|pid next up Hp _ IH]; intros d Hn; [exists []; split; [by constructor|done]|].
    unfold resolve_parent, presented_resolver in Hp.
    destruct (presented_get bundle pid) as [p|] eqn:Hget; [|done].
    destruct (IH p) as (docs & Hdocs & ->); [by destruct (parent_vaid p); naive_solver|].
    exists (p :: docs). split; [by econstructor|]. simpl. by rewrite (Hwf _ _ Hget).
  - intros (docs & H & ->). induction H as [d Hn|d pid p up Hn Hget _ IH]; rewrite Hn;
      [constructor|].
    simpl. rewrite (Hwf _ _ Hget). econstructor; [|done].
    unfold resolve_parent, presented_resolver. rewrite Hget. by destruct (parent_vaid p).
Qed.

Lemma chain_documents_reverse bundle leaf docs :
  ancestor_docs bundle leaf docs → bundle_wf bundle → NoDup (map vaid_id (leaf :: docs)) →
  chain_documents leaf bundle (reverse (map vaid_id (leaf :: docs))) = Some (reverse (leaf :: docs)).
Proof.
  intros Hdocs Hwf Hnd. apply mapM_Some, Forall2_reverse. simpl in Hnd |- *.
  apply NoDup_cons in Hnd as [Hleaf _]. constructor; [by rewrite bool_decide_eq_true_2|].
  apply Forall2_fmap_l, Forall_Forall2_diag, Forall_forall. intros p Hp. unfold compose. cbv beta.
  rewrite bool_decide_eq_false_2.
  - clear Hleaf. induction Hdocs as [|d pid q up _ Hget _ IH]; [by apply not_elem_of_nil in Hp|].
    apply elem_of_cons in Hp as [->|Hp]; [by rewrite (Hwf _ _ Hget)|by apply IH].
  - intros Heq. apply Hleaf. rewrite <- Heq. by apply list_elem_of_fmap_2.
Qed.

Section Hops.
  Context {K : Type} `{KR : KernelKeyResolver K} (keys : K) (attestations : AttestationBundle)
    (now : Instant).

Lemma check_hop_ok parent child :
  check_hop keys attestations now parent child = Ok tt ↔
  hop_ok keys attestations now parent child.
Proof.
  unfold check_hop. split.
  - intros H. cases H; bool_hyps; repeat match goal with
      | H : _ && _ = false |- _ => apply andb_false_iff in H
      | H : ¬ _ ≠ _ |- _ => apply dec_stable in H
      end.
    + split; try done. intros _. destruct E as [?|?]; [done|]. bool_hyps.
      unfold tenant_attenuates in *. bool_hyps. split; [done|].
      by destruct (vd_tenant_id parent), (vd_tenant_id child); simpl in *; subst.
    + split; try done. intros _. subst. eexists _, _. split_and!; eassumption.
  - intros [Hs Hc He Hsame Hcross].
    unfold expires_at_as_presented. rewrite Hs, Hc, He. simpl. case_bool_decide as Hk; simpl.
    + destruct (Hsame Hk) as [Htd Hten]. unfold tenant_attenuates.
      rewrite Htd, Hten. rewrite !bool_decide_eq_true_2 by done. done.
    + destruct (Hcross Hk) as (a & key & -> & Ha1 & Ha2 & Ha3 & Ha4 & -> & -> & -> & -> & -> & -> & ->).
      rewrite !bool_decide_eq_false_2 by naive_solver. done.
Qed.

Lemma check_hops_snoc l parent child :
  check_hops keys attestations now (l ++ [parent; child]) = Ok tt ↔
  check_hops keys attestations now (l ++ [parent]) = Ok tt ∧
  hop_ok keys attestations now parent child.
Proof.
  rewrite <- check_hop_ok. induction l as [|x l IH].
  - simpl. destruct (check_hop _ _ _ parent child) as [[]| |]; naive_solver.
  - destruct l as [|y l]; simpl in *.
    + destruct (check_hop _ _ _ x parent) as [[]| |]; naive_solver.
    + destruct (check_hop _ _ _ x y) as [[]| |]; naive_solver.
Qed.

Lemma check_hops_reverse leaf docs :
  check_hops keys attestations now (reverse (leaf :: docs)) = Ok tt ↔
  hops_ok keys attestations now leaf docs.
Proof.
  revert leaf. induction docs as [|p up IH]; intros leaf; [done|].
  rewrite !reverse_cons, <- app_assoc. simpl app. rewrite check_hops_snoc.
  rewrite <- reverse_cons, IH. simpl. naive_solver.
Qed.

(** What the hop loop can return early. *)
Definition hop_verdict (v : ChainVerification) : Prop :=
  v = ChainVerification.Inauthentic ∨ v = ChainVerification.NotAttenuated
  ∨ v = ChainVerification.ConsentExpired.

Lemma check_hops_err l v : check_hops keys attestations now l = Err v → hop_verdict v.
Proof.
  unfold hop_verdict. induction l as [|p [|c l] IH]; [done..|]. cbn [check_hops].
  destruct (check_hop keys attestations now p c) as [?|w|] eqn:E; [done| |done].
  intros [= <-]. unfold check_hop in E. cases E; eauto.
Qed.

(** The declarative reading of a verified chain: who is on it and what holds of
    them. *)
Record chain_ok (leaf : Vaid) (bundle : PresentedBundle) (docs : list Vaid) : Prop := {
  ck_leaf : authenticate keys leaf = true;
  ck_bundle : ∀ id d, presented_get bundle id = Some d → authenticate keys d = true;
  ck_docs : ancestor_docs bundle leaf docs;
  ck_acyclic : NoDup (map vaid_id (leaf :: docs));
  ck_depth : length (leaf :: docs) ≤ MAX_LINEAGE_DEPTH;
  ck_live : Forall (λ d, is_expired_at d now = false) docs;
  ck_hops : hops_ok keys attestations now leaf docs;
}.

Lemma expired_ancestor_none (leaf : Vaid) (docs : list Vaid) :
  existsb (λ d, is_expired_at d now)
    (take (length (reverse (leaf :: docs)) - 1) (reverse (leaf :: docs))) = false ↔
  Forall (λ d, is_expired_at d now = false) docs.
Proof.
  rewrite length_reverse, reverse_cons. simpl. rewrite Nat.sub_0_r.
  rewrite take_app_length' by by rewrite length_reverse.
  rewrite <- not_true_iff_false, existsb_Exists_true.
  rewrite <- Forall_reverse. rewrite Forall_forall, Exists_exists.
  setoid_rewrite <- not_true_iff_false. naive_solver.
Qed.

(** An authentic, acyclic ancestry: what is left is expiry and the hops. *)
Lemma verify_chain_at_lineage leaf bundle docs :
  bundle_wf bundle → authenticate keys leaf = true →
  (∀ id d, presented_get bundle id = Some d → authenticate keys d = true) →
  ancestor_docs bundle leaf docs → NoDup (map vaid_id (leaf :: docs)) →
  length (leaf :: docs) ≤ MAX_LINEAGE_DEPTH →
  verify_chain_at keys leaf bundle attestations now =
    if bool_decide (Forall (λ d, is_expired_at d now = false) docs) then
      match check_hops keys attestations now (reverse (leaf :: docs)) with
      | Ok _ => Ok ChainVerification.Attenuated
      | Err v => Ok v
      | Panicked => Panicked
      end
    else Ok ChainVerification.Expired.
Proof.
  intros Hwf Hl Hb Hd Hnd Hlen. unfold verify_chain_at.
  rewrite Hl, (proj2 (bundle_forallb _ _) Hb). simpl negb. cbn iota.
  assert (assemble_lineage leaf bundle = Complete (reverse (map vaid_id (leaf :: docs)))) as ->.
  { apply assemble_lineage_complete. exists (map vaid_id docs). split_and!; try done.
    - apply ancestor_docs_ids; [done|]. eauto.
    - simpl in *. by rewrite length_map. }
  rewrite chain_documents_reverse by done. case_bool_decide as Hlive.
  - by rewrite (proj2 (expired_ancestor_none leaf docs)).
  - destruct (existsb _ _) eqn:E; [done|]. by apply expired_ancestor_none in E.
Qed.

Lemma verify_chain_at_attenuated leaf bundle :
  bundle_wf bundle →
  verify_chain_at keys leaf bundle attestations now = Ok ChainVerification.Attenuated ↔
  ∃ docs, chain_ok leaf bundle docs.
Proof.
  intros Hwf. split.
  - unfold verify_chain_at. intros H. cases H; bool_hyps.
    2: { match goal with H : check_hops _ _ _ _ = Err _ |- _ =>
           apply check_hops_err in H as [|[|]]; done end. }
    match goal with H : assemble_lineage _ _ = Complete _ |- _ =>
      apply assemble_lineage_complete in H as (ids & Hids & -> & Hnd & Hlen) end.
    apply ancestor_docs_ids in Hids as (docs & Hdocs & ->); [|done].
    change (vaid_id leaf :: map vaid_id docs) with (map vaid_id (leaf :: docs)) in *.
    rewrite chain_documents_reverse in * by done. simplify_eq. exists docs. split; try done.
    + by apply bundle_forallb.
    + by rewrite length_map in Hlen.
    + by apply (expired_ancestor_none leaf).
    + apply check_hops_reverse. by destruct a.
  - intros (docs & [Hl Hb Hd Hnd Hlen Hlive Hhops]).
    rewrite (verify_chain_at_lineage leaf bundle docs) by done.
    rewrite bool_decide_eq_true_2 by done. by rewrite (proj2 (check_hops_reverse leaf docs)).
Qed.

(** ** Consequences of a verified chain *)

Lemma hops_ok_adjacent leaf docs l1 child parent l2 :
  hops_ok keys attestations now leaf docs → leaf :: docs = l1 ++ child :: parent :: l2 →
  hop_ok keys attestations now parent child.
Proof.
  revert leaf l1. induction docs as [|p up IH]; intros leaf l1 Hok Heq.
  - apply (f_equal length) in Heq. rewrite length_app in Heq. simpl in Heq. lia.
  - destruct Hok as [Hp Hok]. destruct l1 as [|x l1]; simpl in Heq; simplify_eq; [done|].
    by eapply IH.
Qed.

(** Authority at the leaf is contained in the authority of every ancestor. *)
Record contained_in (ancestor leaf : Vaid) : Prop := {
  ct_scope : scope_attenuates ancestor (vd_scope_boundary leaf) = true;
  ct_caps : caps_attenuate ancestor (vd_capability_set leaf) = true;
  ct_expiry : expiry_attenuates ancestor (Some (vd_expires_at leaf)) = true;
}.

Lemma contained_in_trans a b c : contained_in a b → contained_in b c → contained_in a c.
Proof.
  intros [Hs Hc He] [Hs' Hc' He']. unfold scope_attenuates, expiry_attenuates in *. split.
  - by eapply scope_attenuates_trans.
  - unfold caps_attenuate in *. rewrite caps_attenuate_within_subset in *. set_solver.
  - by eapply expiry_attenuates_trans.
Qed.

Lemma hop_contained parent child :
  hop_ok keys attestations now parent child → contained_in parent child.
Proof. by intros [? ? ? _ _]. Qed.

Lemma hops_contained leaf docs :
  hops_ok keys attestations now leaf docs → Forall (λ d, contained_in d leaf) docs.
Proof.
  revert leaf. induction docs as [|p up IH]; intros leaf; [constructor|].
  intros [Hp Hok]. pose proof (hop_contained _ _ Hp) as Hc. constructor; [done|].
  apply IH in Hok. eapply Forall_impl; [exact Hok|]. intros d Hd. exact (contained_in_trans _ _ _ Hd Hc).
Qed.

Lemma contained_in_meaning ancestor leaf :
  contained_in ancestor leaf →
  (∀ r, is_in_scope leaf r = true → is_in_scope ancestor r = true)
  ∧ (∀ c, has_capability leaf c = true → has_capability ancestor c = true)
  ∧ ∃ ta tl, expires_at ancestor = Some ta ∧ expires_at leaf = Some tl ∧ (tl ≤ ta)%Z.
Proof.
  intros [Hs Hc He]. unfold scope_attenuates, caps_attenuate, expiry_attenuates in *.
  apply scope_attenuates_claims in Hs as (HP & HC & Hn & Hcl).
  rewrite caps_attenuate_within_subset in Hc.
  apply expiry_attenuates_within_spec in He as (ta & s & tl & Ha & [= <-] & Hl & Hle).
  split_and!.
  - intros r. by apply claims_within_contains.
  - intros c. unfold has_capability. rewrite !caps_contain_spec. set_solver.
  - unfold expires_at, expires_at_as_presented in *. eauto.
Qed.

(** C4. A chain is reported attenuated exactly when it is: the leaf and every
    presented document authenticate, following signed parent ids through the
    presented documents reaches a root without repetition and within the depth
    bound, no ancestor has lapsed at the instant, and every hop contains the
    next, keeps the tenant within one kernel key and carries the parent
    issuer's consent where it crosses keys. *)
Theorem verify_chain_at_spec (leaf : Vaid) (documents : list Vaid) :
  verify_chain_at keys leaf (presented_bundle_new documents) attestations now
    = Ok ChainVerification.Attenuated ↔
  ∃ docs, chain_ok leaf (presented_bundle_new documents) docs.
Proof. apply verify_chain_at_attenuated, presented_bundle_new_wf. Qed.

(** C3. End-to-end attenuation: in a verified chain the leaf holds nothing any
    ancestor, up to the root, does not hold: each resource in the leaf's scope is
    in the ancestor's, each capability is the ancestor's, the leaf expires no
    later, and the ancestor itself is live at the instant. *)
Theorem verified_chain_contained (leaf : Vaid) (documents : list Vaid)
    (Hver : verify_chain_at keys leaf (presented_bundle_new documents) attestations now
            = Ok ChainVerification.Attenuated) :
  ∃ docs, ancestor_docs (presented_bundle_new documents) leaf docs ∧
  ∀ ancestor, ancestor ∈ docs →
    is_expired_at ancestor now = false
    ∧ (∀ r, is_in_scope leaf r = true → is_in_scope ancestor r = true)
    ∧ (∀ c, has_capability leaf c = true → has_capability ancestor c = true)
    ∧ ∃ ta tl, expires_at ancestor = Some ta ∧ expires_at leaf = Some tl ∧ (tl ≤ ta)%Z.
Proof.
  apply verify_chain_at_attenuated in Hver as (docs & Hok); [|apply presented_bundle_new_wf].
  exists docs. split; [apply Hok|]. intros ancestor Hin.
  pose proof (ck_live _ _ _ Hok) as Hlive. rewrite Forall_forall in Hlive.
  pose proof (hops_contained _ _ (ck_hops _ _ _ Hok)) as Hcon. rewrite Forall_forall in Hcon.
  split; [by apply Hlive|]. by apply contained_in_meaning, Hcon.
Qed.

(** Chain verification fails closed: one document that does not
    authenticate, the leaf or any presented one, on the chain or not, makes the
    verdict inauthentic; and with every document authentic, an ancestry that
    does not assemble is unverifiable, never attenuated. *)
Theorem verify_chain_fails_closed (leaf : Vaid) (documents : list Vaid) :
  let bundle := presented_bundle_new documents in
  let authentic_all := authenticate keys leaf = true
    ∧ ∀ id d, presented_get bundle id = Some d → authenticate keys d = true in
  (¬ authentic_all →
   verify_chain_at keys leaf bundle attestations now = Ok ChainVerification.Inauthentic)
  ∧ (authentic_all → assemble_lineage leaf bundle = Incomplete →
     verify_chain_at keys leaf bundle attestations now = Ok ChainVerification.Unverifiable).
Proof.
  cbn zeta. rewrite <- bundle_forallb. unfold verify_chain_at. split.
  - intros Hno. destruct (authenticate keys leaf); [|done]. simpl.
    destruct (forallb _ _); naive_solver.
  - intros [-> ->] ->. done.
Qed.

(** C5. No crossing without consent: in a verified chain, where a child was signed
    under another kernel key than its parent, there is a presented attestation
    for exactly that parent and child, for the trust domain and tenant the
    child claims, whose signature verifies under an accepted key that the
    parent document commits to, that is current, and that bounds the child's
    authority. *)
Theorem crossing_needs_consent (leaf : Vaid) (documents docs l1 l2 : list Vaid)
    (child parent : Vaid)
    (Hver : verify_chain_at keys leaf (presented_bundle_new documents) attestations now
            = Ok ChainVerification.Attenuated)
    (Hdocs : ancestor_docs (presented_bundle_new documents) leaf docs)
    (Hadj : leaf :: docs = l1 ++ child :: parent :: l2)
    (Hcross : vd_kernel_key_thumbprint parent ≠ vd_kernel_key_thumbprint child) :
  ∃ a key,
    attestation_get attestations (vaid_id parent) (vaid_id child) = Some a
    ∧ resolve_key keys (vd_kernel_key_thumbprint parent) = Some key
    ∧ kernel_key_thumbprint key = vd_kernel_key_thumbprint parent
    ∧ ed25519_verify key (canonical_attestation_signing_bytes a) (att_signature a) = true
    ∧ att_child_trust_domain a = vd_trust_domain child
    ∧ att_child_tenant_id a = tenant_as_str (vd_tenant_id child)
    ∧ is_current a now = Some true
    ∧ (∀ r, is_in_scope child r = true → scope_contains (att_scope_boundary a) r = true)
    ∧ vd_capability_set child ⊆ att_capability_set a.
Proof.
  apply verify_chain_at_attenuated in Hver as (docs' & Hok); [|apply presented_bundle_new_wf].
  assert (docs' = docs) as ->.
  { apply ck_docs in Hok. clear Hadj Hcross. revert docs' Hok.
    induction Hdocs as [|d pid p up Hn Hget _ IH]; intros docs' Hok; inversion Hok; simplify_eq;
      [done|]. f_equal. by apply IH. }
  destruct (hop_cross_key _ _ _ _ _ (hops_ok_adjacent _ _ _ _ _ _ (ck_hops _ _ _ Hok) Hadj) Hcross)
    as (a & key & Hget & Hthumb & _ & Htd & Hten & Hkey & Hauth & Hcur & Hsc & Hcaps & _).
  apply attestation_authentic_spec in Hauth as (_ & _ & Hkt & Hsig).
  apply scope_attenuates_claims in Hsc as (HP & _ & Hn & Hcl).
  rewrite caps_attenuate_within_subset in Hcaps. rewrite Hthumb in *.
  exists a, key. split_and!; try done. intros r. by apply claims_within_contains.
Qed.

End Hops.

(** ** A single kernel key *)

Lemma single_key_authenticate (pk : list byte) (d : Vaid) :
  authenticate (single_kernel_key_new pk) d = true ↔ authentic pk d.
Proof.
  unfold authenticate, resolve_key, single_key_resolver. simpl.
  case_bool_decide as Hk; [apply authenticity_true|].
  split; [done|]. intros Ha. by destruct (Hk (auth_thumbprint _ _ Ha)).
Qed.

Lemma ancestor_docs_presented bundle leaf docs d :
  ancestor_docs bundle leaf docs → d ∈ docs → ∃ id, presented_get bundle id = Some d.
Proof.
  induction 1 as [|leaf pid p up _ Hget _ IH]; [by intros ?%not_elem_of_nil|].
  rewrite elem_of_cons. intros [->|Hin]; eauto.
Qed.

Lemma hops_same_tenant {K} `{KernelKeyResolver K} (keys : K) attestations now thumb leaf docs :
  hops_ok keys attestations now leaf docs →
  Forall (λ d, vd_kernel_key_thumbprint d = thumb) (leaf :: docs) →
  Forall (λ d, vd_trust_domain d = vd_trust_domain leaf ∧ vd_tenant_id d = vd_tenant_id leaf) docs.
Proof.
  revert leaf. induction docs as [|p up IH]; intros leaf; [constructor|].
  intros [Hp Hok] Hth. apply Forall_cons in Hth as [Hl Hth]. pose proof Hth as Hth'.
  apply Forall_cons in Hth as [Hpt _].
  destruct (hop_same_key _ _ _ _ _ Hp) as [Htd Hten]; [congruence|].
  constructor; [done|]. eapply Forall_impl; [by apply (IH p)|].
  intros d [? ?]. split; congruence.
Qed.

(** Under a single kernel key a verified chain never leaves its tenant: every
    document on it is authentic under that key, names that key, and has the
    leaf's trust domain and tenant. *)
Theorem verify_chain_one_tenant (now : Instant) (pk : list byte) (leaf : Vaid)
    (documents : list Vaid)
    (Hver : verify_chain now pk leaf (presented_bundle_new documents)
            = Ok ChainVerification.Attenuated) :
  ∃ docs, ancestor_docs (presented_bundle_new documents) leaf docs ∧
  ∀ d, d ∈ leaf :: docs →
    authentic pk d
    ∧ vd_trust_domain d = vd_trust_domain leaf
    ∧ vd_tenant_id d = vd_tenant_id leaf.
Proof.
  unfold verify_chain, verify_chain_with in Hver.
  apply verify_chain_at_attenuated in Hver as (docs & Hok); [|apply presented_bundle_new_wf].
  exists docs. split; [apply Hok|].
  assert (Forall (authentic pk) (leaf :: docs)) as Hauth.
  { apply Forall_forall. intros d. rewrite elem_of_cons. intros [->|Hd].
    - apply single_key_authenticate, Hok.
    - destruct (ancestor_docs_presented _ _ _ _ (ck_docs _ _ _ _ _ _ Hok) Hd) as [id Hid].
      by apply single_key_authenticate, (ck_bundle _ _ _ _ _ _ Hok id). }
  assert (Forall (λ d, vd_kernel_key_thumbprint d = kernel_key_thumbprint pk) (leaf :: docs))
    as Hth by (eapply Forall_impl; [exact Hauth|]; apply auth_thumbprint).
  pose proof (hops_same_tenant _ _ _ _ _ _ (ck_hops _ _ _ _ _ _ Hok) Hth) as Hten.
  rewrite Forall_forall in Hauth, Hten. intros d Hd. split; [by apply Hauth|].
  apply elem_of_cons in Hd as [->|Hd]; [done|]. by apply Hten.
Qed.

(** A single-key chain that verifies at some instant verifies at every earlier
    one: time only removes authority, so a verdict can be replayed at the
    instant of a past decision. *)
Theorem verify_chain_antitone (now now' : Instant) (pk : list byte) (leaf : Vaid)
    (documents : list Vaid) (Hle : (now ≤ now')%Z)
    (Hver : verify_chain now' pk leaf (presented_bundle_new documents)
            = Ok ChainVerification.Attenuated) :
  verify_chain now pk leaf (presented_bundle_new documents) = Ok ChainVerification.Attenuated.
Proof.
  unfold verify_chain, verify_chain_with in *.
  apply verify_chain_at_attenuated in Hver as (docs & Hok); [|apply presented_bundle_new_wf].
  apply verify_chain_at_attenuated; [apply presented_bundle_new_wf|].
  exists docs. destruct Hok as [Hl Hb Hd Hnd Hlen Hlive Hhops]. split; try done.
  - eapply Forall_impl; [exact Hlive|]. intros d Hx. cbv beta in Hx |- *. destruct (is_expired_at d now) eqn:E; [|done].
    by rewrite (is_expired_at_mono d now now') in Hx.
  - clear Hl Hb Hd Hnd Hlen Hlive. revert leaf Hhops.
    induction docs as [|p up IH]; intros leaf; [done|]. intros [Hp Hok]. split; [|by apply IH].
    destruct Hp as [? ? ? ? Hcross]. split; try done. intros Hk.
    by destruct (Hcross Hk) as (a & key & Hget & _).
Qed.

End Chain.

(** ** Witnesses: three documents of one issuer, and one of another *)

Module ChainSamples.

#[local] Instance samples : Externals := concrete no_json.

Definition kernel : list byte := string_bytes "kernel-a".
Definition other_kernel : list byte := string_bytes "kernel-b".
Definition second (n : Z) : Instant := (n * NANOS)%Z.

Definition document (kp : list byte) (domain : string) (id : Uuid) (parent : option Uuid)
    (scope caps : list string) (expires : Z) : Vaid :=
  let d := with_lineage (AgentId_from_uuid id) (mkAgentClass "worker") "1" (mkTenantId "acme")
             (second 0) (second expires) [] [] (VaidId_from_uuid <$> parent)
             (map entry_prefix scope)
             (compute_lineage_hash (VaidId_from_uuid <$> parent) (AgentId_from_uuid id))
             caps domain (kernel_key_thumbprint (kp_public_key (kp : KeyPair))) in
  with_kernel_signature d (kp_sign (kp : KeyPair) (canonical_vaid_signing_bytes d)).

Definition root := document kernel "a.example" 1%N None ["data"] ["read"; "write"] 300.
Definition middle := document kernel "a.example" 2%N (Some 1%N) ["data/eu"] ["read"] 200.
Definition leaf := document kernel "a.example" 3%N (Some 2%N) ["data/eu/x"] [] 100.
Definition foreign := document other_kernel "b.example" 4%N (Some 1%N) ["data/us"] ["read"] 100.

Definition consent : ConsentAttestation :=
  let a := att_new (VaidId_from_uuid 1%N) (VaidId_from_uuid 4%N) "b.example" "acme"
             (second 0) (second 90) [entry_prefix "data/us"] ["read"] "a.example"
             (kernel_key_thumbprint kernel) in
  att_with_signature a (kp_sign (kernel : KeyPair) (canonical_attestation_signing_bytes a)).

Definition both_keys : KernelKeyMap := kernel_key_map_new [kernel; other_kernel].

Lemma verified_chain_contained_witness :
  ∃ docs, ancestor_docs (presented_bundle_new [root; middle]) leaf docs ∧
  ∀ ancestor, ancestor ∈ docs →
    is_expired_at ancestor (second 150) = false
    ∧ (∀ r, is_in_scope leaf r = true → is_in_scope ancestor r = true)
    ∧ (∀ c, has_capability leaf c = true → has_capability ancestor c = true)
    ∧ ∃ ta tl, expires_at ancestor = Some ta ∧ expires_at leaf = Some tl ∧ (tl ≤ ta)%Z.
Proof.
  apply (verified_chain_contained both_keys attestation_bundle_empty (second 150)).
  vm_compute. reflexivity.
Defined.

Lemma crossing_needs_consent_witness :
  ∃ a key,
    attestation_get (attestation_bundle_new [consent]) (vaid_id root) (vaid_id foreign) = Some a
    ∧ resolve_key both_keys (vd_kernel_key_thumbprint root) = Some key
    ∧ kernel_key_thumbprint key = vd_kernel_key_thumbprint root
    ∧ ed25519_verify key (canonical_attestation_signing_bytes a) (att_signature a) = true
    ∧ att_child_trust_domain a = vd_trust_domain foreign
    ∧ att_child_tenant_id a = tenant_as_str (vd_tenant_id foreign)
    ∧ is_current a (second 50) = Some true
    ∧ (∀ r, is_in_scope foreign r = true → scope_contains (att_scope_boundary a) r = true)
    ∧ vd_capability_set foreign ⊆ att_capability_set a.
Proof.
  apply (crossing_needs_consent both_keys (attestation_bundle_new [consent]) (second 50)
           foreign [root] [root] [] []).
  - vm_compute. reflexivity.
  - apply (docs_hop _ _ (VaidId_from_uuid 1%N)); [reflexivity..|]. by apply docs_root.
  - reflexivity.
  - vm_compute. discriminate.
Defined.

Lemma verify_chain_one_tenant_witness :
  ∃ docs, ancestor_docs (presented_bundle_new [root; middle]) leaf docs ∧
  ∀ d, d ∈ leaf :: docs →
    authentic kernel d ∧ vd_trust_domain d = vd_trust_domain leaf
    ∧ vd_tenant_id d = vd_tenant_id leaf.
Proof.
  apply (verify_chain_one_tenant (second 150)). vm_compute. reflexivity.
Defined.

Lemma verify_chain_antitone_witness :
  verify_chain (second 120) kernel leaf (presented_bundle_new [root; middle])
    = Ok ChainVerification.Attenuated.
Proof.
  apply (verify_chain_antitone (second 120) (second 150)).
  - vm_compute. discriminate.
  - vm_compute. reflexivity.
Defined.

End ChainSamples.
