(* ===== verification/World.v ===== *)
(** * The ambient effects: the wall clock and the random source

    Reads are answered by streams that nothing is assumed of: the clock may
    jump either way between reads, the random source may repeat or fail. *)

From S2P Require Import Prelude Json Externals Concrete Identity.

Record World : Type := mkWorld {
  w_clock : nat → Instant;
  w_clock_reads : nat;
  w_uuids : nat → Uuid;
  w_uuid_reads : nat;
  (** [SecureRandom]: the bytes of a fill or of a generated key, or a failure *)
  w_random : nat → option (list byte);
  w_random_reads : nat;
}.

(** [Utc::now()]. *)
Definition utc_now {E} : M World E Instant := λ w,
  (Ok (w_clock w (w_clock_reads w)),
   mkWorld (w_clock w) (S (w_clock_reads w)) (w_uuids w) (w_uuid_reads w)
     (w_random w) (w_random_reads w)).

(** The world after one reading of the clock: what it will answer is as before. *)
Definition after_clock (w : World) : World :=
  mkWorld (w_clock w) (S (w_clock_reads w)) (w_uuids w) (w_uuid_reads w)
    (w_random w) (w_random_reads w).

(** [Uuid::new_v4()]. *)
Definition uuid_new_v4 {E} : M World E Uuid := λ w,
  (Ok (w_uuids w (w_uuid_reads w)),
   mkWorld (w_clock w) (w_clock_reads w) (w_uuids w) (S (w_uuid_reads w))
     (w_random w) (w_random_reads w)).

Definition random_bytes {E} : M World E (option (list byte)) := λ w,
  (Ok (w_random w (w_random_reads w)),
   mkWorld (w_clock w) (w_clock_reads w) (w_uuids w) (w_uuid_reads w)
     (w_random w) (S (w_random_reads w))).

(** [VaidId::new()], [AgentId::new()]. *)
Definition VaidId_new {E} : M World E VaidId :=
  let! u := uuid_new_v4 in mret (VaidId_from_uuid u).
Definition AgentId_new {E} : M World E AgentId :=
  let! u := uuid_new_v4 in mret (AgentId_from_uuid u).

(** ** Reasoning about the monad *)

Lemma mbindM_ok {S E A B} (m : M S E A) (f : A → M S E B) s b s' :
  mbindM m f s = (Ok b, s') ↔ ∃ a s1, m s = (Ok a, s1) ∧ f a s1 = (Ok b, s').
Proof. unfold mbindM. destruct (m s) as [[a|e|] s1]; naive_solver. Qed.

Lemma mbindM_err {S E A B} (m : M S E A) (f : A → M S E B) s e s' :
  mbindM m f s = (Err e, s') ↔
  m s = (Err e, s') ∨ ∃ a s1, m s = (Ok a, s1) ∧ f a s1 = (Err e, s').
Proof. unfold mbindM. destruct (m s) as [[a|e'|] s1]; naive_solver. Qed.

(** Run a computation on a component of the state. *)
Definition zoom {S T E A} (get : S → T) (set : T → S → S) (m : M T E A) : M S E A := λ s,
  let '(r, t) := m (get s) in (r, set t s).

(** Invert a successful run, step by step. *)
Ltac run_ok H :=
  match type of H with
  | mbindM _ _ _ = (Ok _, _) => apply mbindM_ok in H as (? & ? & ? & H)
  end.
