(* ===== verification/Pop.v ===== *)
(** * Proof of possession: the signing primitive and what is signed with it

    [crates/vaid-pop/src] ([vaid_pop.rs], [request_auth.rs],
    [request_completion.rs], [ports.rs]) and the payload types of
    [crates/vaid-mint/src/mint_types.rs]. *)

From S2P Require Import Prelude Json Externals Concrete Identity Scope Document.

(** What [serde_json::to_value] makes of a payload: the class is the [Serialize]
    bound of the three functions. *)
Class Serialize (T : Type) := to_value : T → Json.

(** ** The payload types *)

Record RequestAuthPayload : Type := {
  ra_vaid_id : VaidId;
  ra_method : string;
  ra_path : string;
  ra_body_sha256 : string;
  ra_tenant_id : string;
  ra_timestamp : Instant;
  ra_client_nonce : string;
}.

Inductive AssuranceTier : Type := SelfReported | CounterSigned | ThirdPartyAttested.
#[global] Instance AssuranceTier_eq_dec : EqDecision AssuranceTier.
Proof. solve_decision. Defined.

(** [#[serde(rename_all = "camelCase")]] on the variants. *)
Definition tier_name (t : AssuranceTier) : string :=
  match t with
  | SelfReported => "selfReported"
  | CounterSigned => "counterSigned"
  | ThirdPartyAttested => "thirdPartyAttested"
  end.

Record CompletionRecord : Type := {
  cr_vaid_id : VaidId;
  cr_request_digest_sha256 : string;
  cr_tenant_id : string;
  cr_status : string;
  cr_result_sha256 : string;
  cr_completed_at : Instant;
  cr_signer_vaid_id : VaidId;
  cr_assurance_tier : AssuranceTier;
  cr_record_nonce : string;
}.

Record MintPopPayload : Type := mkMintPopPayload {
  mp_public_key_der : list byte;
  mp_tenant_id : string;
  mp_agent_class : string;
  mp_version : string;
  mp_parent_vaid : option VaidId;
  mp_scope_boundary : list ScopeBoundaryEntry;
  mp_capability_set : list string;
  mp_nonce : string;
  mp_issued_at : Instant;
}.

Record VaidSeed : Type := mkVaidSeed {
  seed_agent_class : string;
  seed_version : string;
  seed_tenant_id : string;
  seed_parent_vaid : option VaidId;
  seed_scope_boundary : list ScopeBoundaryEntry;
  seed_capability_set : list string;
  seed_public_key_der : option (list byte);
}.

Record MintPop : Type := mkMintPop {
  pop_nonce : string;
  pop_issued_at : Instant;
  pop_signature : list byte;
}.

Record MintVaidRequest : Type := mkMintVaidRequest {
  req_seed : VaidSeed;
  req_pop : option MintPop;
}.

Record MintVaidResponse : Type := mkMintVaidResponse {
  resp_vaid : Vaid;
  expiry_bounded_by_parent : bool;
  resp_parent_expires_at : option string;
}.

Definition pop_payload (seed : VaidSeed) (public_key_der : list byte) (nonce : string)
    (issued_at : Instant) : MintPopPayload := {|
  mp_public_key_der := public_key_der;
  mp_tenant_id := seed_tenant_id seed;
  mp_agent_class := seed_agent_class seed;
  mp_version := seed_version seed;
  mp_parent_vaid := seed_parent_vaid seed;
  mp_scope_boundary := seed_scope_boundary seed;
  mp_capability_set := seed_capability_set seed;
  mp_nonce := nonce;
  mp_issued_at := issued_at;
|}.

(** ** Principals *)

Definition OPERATOR_TENANT_ID : string := "synthera-control-plane".
Definition CONTROL_PLANE_CAPABILITY : string := "synthera:control-plane".

Definition HEADER_VAID : string := "x-synthera-vaid".
Definition HEADER_TIMESTAMP : string := "x-synthera-timestamp".
Definition HEADER_NONCE : string := "x-synthera-nonce".
Definition HEADER_SIGNATURE : string := "x-synthera-signature".

Record Principal : Type := mkPrincipal {
  principal_vaid_id : VaidId;
  principal_tenant_id : TenantId;
}.

Definition is_operator (p : Principal) : bool :=
  bool_decide (tenant_as_str (principal_tenant_id p) = OPERATOR_TENANT_ID).

(** The operator's key in external custody. *)
Record OperatorSigningError : Type := mkOperatorSigningError { operator_error_message : string }.

Class OperatorSigningPort (P : Type) := {
  port_sign : list byte → M P OperatorSigningError (list byte);
  port_public_key : M P OperatorSigningError (list byte);
}.

Section Pop.
  Context {Ext : Externals}.

  (** ** The primitive *)

Definition canonical_request_signing_bytes {T} `{Serialize T} (payload : T) : list byte :=
  sha256 (serde_jcs_to_vec (to_value payload)).

Definition sign_payload {T} `{Serialize T} (payload : T) (key_pair : KeyPair) : list byte :=
  kp_sign key_pair (canonical_request_signing_bytes payload).

Definition verify_signed_payload {T} `{Serialize T} (payload : T) (public_key_der signature : list byte)
    : bool :=
  ed25519_verify public_key_der (canonical_request_signing_bytes payload) signature.

Definition ser_option_vaid_id (o : option VaidId) : Json :=
  match o with Some v => ser_vaid_id v | None => JNull end.

Definition request_members (p : RequestAuthPayload) : list (string * Json) :=
  [("vaidId", ser_vaid_id (ra_vaid_id p));
   ("method", JString (ra_method p));
   ("path", JString (ra_path p));
   ("bodySha256", JString (ra_body_sha256 p));
   ("tenantId", JString (ra_tenant_id p));
   ("timestamp", JString (dt_serialize (ra_timestamp p)));
   ("clientNonce", JString (ra_client_nonce p))].

#[global] Instance request_serialize : Serialize RequestAuthPayload :=
  λ p, JObject (list_to_map (request_members p)).

Definition completion_members (c : CompletionRecord) : list (string * Json) :=
  [("vaidId", ser_vaid_id (cr_vaid_id c));
   ("requestDigestSha256", JString (cr_request_digest_sha256 c));
   ("tenantId", JString (cr_tenant_id c));
   ("status", JString (cr_status c));
   ("resultSha256", JString (cr_result_sha256 c));
   ("completedAt", JString (dt_serialize (cr_completed_at c)));
   ("signerVaidId", ser_vaid_id (cr_signer_vaid_id c));
   ("assuranceTier", JString (tier_name (cr_assurance_tier c)));
   ("recordNonce", JString (cr_record_nonce c))].

#[global] Instance completion_serialize : Serialize CompletionRecord :=
  λ c, JObject (list_to_map (completion_members c)).

Definition mint_pop_members (p : MintPopPayload) : list (string * Json) :=
  [("publicKeyDer", ser_bytes (mp_public_key_der p));
   ("tenantId", JString (mp_tenant_id p));
   ("agentClass", JString (mp_agent_class p));
   ("version", JString (mp_version p));
   ("parentVaid", ser_option_vaid_id (mp_parent_vaid p));
   ("scopeBoundary", ser_boundary (mp_scope_boundary p));
   ("capabilitySet", ser_strings (mp_capability_set p));
   ("nonce", JString (mp_nonce p));
   ("issuedAt", JString (dt_serialize (mp_issued_at p)))].

#[global] Instance mint_pop_serialize : Serialize MintPopPayload :=
  λ p, JObject (list_to_map (mint_pop_members p)).

  (** ** Lemmas *)

  (** An object determines the value of each member it was built from. *)
Lemma object_members_eq (l l' : list (string * Json)) (k : string) (v v' : Json) :
  JObject (list_to_map l) = JObject (list_to_map l') →
  (list_to_map l : gmap string Json) !! k = Some v →
  (list_to_map l' : gmap string Json) !! k = Some v' → v = v'.
Proof. intros ->%(inj JObject) Hv Hv'. congruence. Qed.

Lemma vaid_id_to_string_inj `{!UuidLaws} v w :
  vaid_id_to_string v = vaid_id_to_string w → v = w.
Proof.
  destruct v as [u], w as [u']. unfold vaid_id_to_string. simpl. intros Hs.
  f_equal. apply (inj Some). by rewrite <- !uuid_parse_to_string, Hs.
Qed.

Lemma ser_vaid_id_inj `{!UuidLaws} v w : ser_vaid_id v = ser_vaid_id w → v = w.
Proof. intros [= Hs]. by apply vaid_id_to_string_inj. Qed.

Lemma ser_option_vaid_id_inj `{!UuidLaws} o o' :
  ser_option_vaid_id o = ser_option_vaid_id o' → o = o'.
Proof.
  destruct o, o'; simpl; try done. intros Hs. f_equal. by apply ser_vaid_id_inj.
Qed.

Ltac same_member k H :=
  let E := fresh "E" in
  pose proof (object_members_eq _ _ k _ _ H eq_refl eq_refl) as E.

  (** ** Properties *)

(** The mint proof of possession signs everything the mint acts on: two
    payloads with the same canonical object agree on the registered key, the
    tenant, class, version, parent, boundary, capabilities and nonce, and on
    the instant as rendered. *)
Theorem mint_pop_payload_injective `{!UuidLaws} (p q : MintPopPayload)
    (Heq : to_value p = to_value q) :
  mp_public_key_der p = mp_public_key_der q
  ∧ mp_tenant_id p = mp_tenant_id q
  ∧ mp_agent_class p = mp_agent_class q
  ∧ mp_version p = mp_version q
  ∧ mp_parent_vaid p = mp_parent_vaid q
  ∧ mp_scope_boundary p = mp_scope_boundary q
  ∧ mp_capability_set p = mp_capability_set q
  ∧ mp_nonce p = mp_nonce q
  ∧ dt_serialize (mp_issued_at p) = dt_serialize (mp_issued_at q).
Proof.
  unfold to_value, mint_pop_serialize in Heq.
  same_member "publicKeyDer" Heq. same_member "tenantId" Heq. same_member "agentClass" Heq.
  same_member "version" Heq. same_member "parentVaid" Heq. same_member "scopeBoundary" Heq.
  same_member "capabilitySet" Heq. same_member "nonce" Heq. same_member "issuedAt" Heq.
  split_and!; try (by apply (inj JString)).
  - by apply (inj ser_bytes).
  - by apply ser_option_vaid_id_inj.
  - by apply (inj ser_boundary).
  - by apply (inj ser_strings).
Qed.

(** A completion record and a request payload are never the same signed
    object, and neither is a mint proof: a signature made for one purpose does
    not verify as another unless the digest collides. *)
Theorem payload_kinds_disjoint (r : RequestAuthPayload) (c : CompletionRecord)
    (m : MintPopPayload) :
  to_value r ≠ to_value c ∧ to_value r ≠ to_value m ∧ to_value c ≠ to_value m.
Proof.
  split_and!; intros H%(inj JObject).
  - by apply (f_equal (λ x : gmap string Json, x !! "method")) in H.
  - by apply (f_equal (λ x : gmap string Json, x !! "method")) in H.
  - by apply (f_equal (λ x : gmap string Json, x !! "status")) in H.
Qed.

Lemma verify_sign_payload {T} `{Serialize T} `{!CryptoLaws} (payload : T) (kp : KeyPair) :
  verify_signed_payload payload (kp_public_key kp) (sign_payload payload kp) = true.
Proof. apply ed25519_verify_sign. Qed.

End Pop.

(** ** Witness *)

Module PopSamples.

Definition payload : MintPopPayload :=
  mkMintPopPayload ["007"%byte] "acme" "worker" "1" None [entry_prefix "data"] ["read"] "n1" 0%Z.

(** The instant is signed as rendered: ten thousand years of this calendar later
    renders the same in this instance. *)
Definition payload' : MintPopPayload :=
  mkMintPopPayload ["007"%byte] "acme" "worker" "1" None [entry_prefix "data"] ["read"] "n1"
    100000000000000000000000%Z.

Lemma mint_pop_payload_injective_witness :
  mp_public_key_der payload = mp_public_key_der payload'
  ∧ mp_tenant_id payload = mp_tenant_id payload'
  ∧ mp_agent_class payload = mp_agent_class payload'
  ∧ mp_version payload = mp_version payload'
  ∧ mp_parent_vaid payload = mp_parent_vaid payload'
  ∧ mp_scope_boundary payload = mp_scope_boundary payload'
  ∧ mp_capability_set payload = mp_capability_set payload'
  ∧ mp_nonce payload = mp_nonce payload'
  ∧ @dt_serialize (@ext_chrono (concrete no_json)) (mp_issued_at payload)
    = @dt_serialize (@ext_chrono (concrete no_json)) (mp_issued_at payload').
Proof.
  apply (mint_pop_payload_injective (Ext := concrete no_json)). vm_compute. reflexivity.
Defined.

End PopSamples.
