(* ===== verification/Wire.v ===== *)
(** * The wire forms of requests, responses, payloads and attestations

    The derived [Serialize] and [Deserialize] of the types of
    [crates/vaid-mint/src/mint_types.rs], of [ConsentAttestation]
    ([attestation.rs]) and of the signed payloads of [crates/vaid-pop/src].
    A derived struct is read from an object, unknown members ignored and a
    repeated one refused, or from the array of its fields in order. *)

From S2P Require Import Prelude Json Externals Concrete Identity Scope IssuerIdentity Document.
From S2P Require Import DupScan Revocation Attenuation Verify Attestation Pop.

(** ** Derived structs *)

(** What an absent field becomes: an error; a value when a member is absent from
    an object (an [Option]); a value in either form ([#[serde(default)]]). *)
Inductive Absence (A : Type) : Type :=
  | Required
  | AbsentMember (a : A)
  | Defaulted (a : A).
Arguments Required {A}.
Arguments AbsentMember {A} a.
Arguments Defaulted {A} a.

(** The [i]-th field, named [k]. *)
Definition de_field {A} (r : RawJson) (i : nat) (k : string) (f : RawJson → option A)
    (absent : Absence A) : option A :=
  match r with
  | RObject l =>
      match absent with
      | Required => de_required k f l
      | AbsentMember a | Defaulted a => de_default k f a l
      end
  | RArray l =>
      match l !! i with
      | Some v => f v
      | None => match absent with Defaulted a => Some a | _ => None end
      end
  | _ => None
  end.

(** A struct of [n] fields: a longer array is an error. *)
Definition de_struct {A} (n : nat) (r : RawJson) (fields : option A) : option A :=
  match r with
  | RArray l => if (n <? length l)%nat then None else fields
  | RObject _ => fields
  | _ => None
  end.

Definition de_bool (r : RawJson) : option bool :=
  match r with RBool b => Some b | _ => None end.

Section Wire.
  Context {Ext : Externals}.

Definition de_instant (r : RawJson) : option Instant := s ← de_string r; dt_deserialize s.
Definition ser_option {A} (g : A → Json) (o : option A) : Json :=
  match o with Some a => g a | None => JNull end.

  (** ** Mint requests and responses *)

Definition seed_members (s : VaidSeed) : list (string * Json) :=
  [("agentClass", JString (seed_agent_class s));
   ("version", JString (seed_version s));
   ("tenantId", JString (seed_tenant_id s));
   ("parentVaid", ser_option ser_vaid_id (seed_parent_vaid s));
   ("scopeBoundary", ser_boundary (seed_scope_boundary s));
   ("capabilitySet", ser_strings (seed_capability_set s));
   ("publicKeyDer", ser_option ser_bytes (seed_public_key_der s))].

Definition seed_to_value (s : VaidSeed) : Json := JObject (list_to_map (seed_members s)).

Definition seed_deserialize (r : RawJson) : option VaidSeed :=
  de_struct 7 r (
    agent_class ← de_field r 0 "agentClass" de_string Required;
    version ← de_field r 1 "version" de_string Required;
    tenant_id ← de_field r 2 "tenantId" de_string Required;
    parent_vaid ← de_field r 3 "parentVaid" (de_option de_vaid_id) (Defaulted None);
    scope_boundary ← de_field r 4 "scopeBoundary" (de_vec entry_deserialize) (Defaulted []);
    capability_set ← de_field r 5 "capabilitySet" (de_vec de_string) (Defaulted []);
    public_key_der ← de_field r 6 "publicKeyDer" (de_option (de_vec de_byte)) (Defaulted None);
    Some (mkVaidSeed agent_class version tenant_id parent_vaid scope_boundary capability_set
            public_key_der)).

Definition pop_members (p : MintPop) : list (string * Json) :=
  [("nonce", JString (pop_nonce p));
   ("issuedAt", JString (dt_serialize (pop_issued_at p)));
   ("signature", ser_bytes (pop_signature p))].

Definition pop_to_value (p : MintPop) : Json := JObject (list_to_map (pop_members p)).

Definition pop_deserialize (r : RawJson) : option MintPop :=
  de_struct 3 r (
    nonce ← de_field r 0 "nonce" de_string Required;
    issued_at ← de_field r 1 "issuedAt" de_instant Required;
    signature ← de_field r 2 "signature" (de_vec de_byte) Required;
    Some (mkMintPop nonce issued_at signature)).

Definition mint_request_members (q : MintVaidRequest) : list (string * Json) :=
  [("seed", seed_to_value (req_seed q)); ("pop", ser_option pop_to_value (req_pop q))].

Definition mint_request_to_value (q : MintVaidRequest) : Json :=
  JObject (list_to_map (mint_request_members q)).

Definition mint_request_deserialize (r : RawJson) : option MintVaidRequest :=
  de_struct 2 r (
    seed ← de_field r 0 "seed" seed_deserialize Required;
    pop ← de_field r 1 "pop" (de_option pop_deserialize) (Defaulted None);
    Some (mkMintVaidRequest seed pop)).

Definition mint_response_members (q : MintVaidResponse) : list (string * Json) :=
  [("vaid", vaid_to_value (resp_vaid q));
   ("expiryBoundedByParent", JBool (expiry_bounded_by_parent q));
   ("parentExpiresAt", ser_option JString (resp_parent_expires_at q))].

Definition mint_response_to_value (q : MintVaidResponse) : Json :=
  JObject (list_to_map (mint_response_members q)).

Definition mint_response_deserialize (r : RawJson) : option MintVaidResponse :=
  de_struct 3 r (
    vaid ← de_field r 0 "vaid" vaid_deserialize Required;
    bounded ← de_field r 1 "expiryBoundedByParent" de_bool Required;
    parent_expires_at ← de_field r 2 "parentExpiresAt" (de_option de_string) (AbsentMember None);
    Some (mkMintVaidResponse vaid bounded parent_expires_at)).

  (** ** Signed payloads *)

Definition mint_pop_deserialize (r : RawJson) : option MintPopPayload :=
  de_struct 9 r (
    public_key_der ← de_field r 0 "publicKeyDer" (de_vec de_byte) Required;
    tenant_id ← de_field r 1 "tenantId" de_string Required;
    agent_class ← de_field r 2 "agentClass" de_string Required;
    version ← de_field r 3 "version" de_string Required;
    parent_vaid ← de_field r 4 "parentVaid" (de_option de_vaid_id) (AbsentMember None);
    scope_boundary ← de_field r 5 "scopeBoundary" (de_vec entry_deserialize) Required;
    capability_set ← de_field r 6 "capabilitySet" (de_vec de_string) Required;
    nonce ← de_field r 7 "nonce" de_string Required;
    issued_at ← de_field r 8 "issuedAt" de_instant Required;
    Some (mkMintPopPayload public_key_der tenant_id agent_class version parent_vaid
            scope_boundary capability_set nonce issued_at)).

Definition request_deserialize (r : RawJson) : option RequestAuthPayload :=
  de_struct 7 r (
    vaid_id ← de_field r 0 "vaidId" de_vaid_id Required;
    method ← de_field r 1 "method" de_string Required;
    path ← de_field r 2 "path" de_string Required;
    body_sha256 ← de_field r 3 "bodySha256" de_string Required;
    tenant_id ← de_field r 4 "tenantId" de_string Required;
    timestamp ← de_field r 5 "timestamp" de_instant Required;
    client_nonce ← de_field r 6 "clientNonce" de_string Required;
    Some (Build_RequestAuthPayload vaid_id method path body_sha256 tenant_id timestamp
            client_nonce)).

Definition tier_of_name (s : string) : option AssuranceTier :=
  if bool_decide (s = tier_name SelfReported) then Some SelfReported
  else if bool_decide (s = tier_name CounterSigned) then Some CounterSigned
  else if bool_decide (s = tier_name ThirdPartyAttested) then Some ThirdPartyAttested
  else None.

(** A unit variant: its name, or an object of its name and [null]. *)
Definition tier_deserialize (r : RawJson) : option AssuranceTier :=
  match r with
  | RString s => tier_of_name s
  | RObject [(s, RNull)] => tier_of_name s
  | _ => None
  end.

Definition completion_deserialize (r : RawJson) : option CompletionRecord :=
  de_struct 9 r (
    vaid_id ← de_field r 0 "vaidId" de_vaid_id Required;
    request_digest ← de_field r 1 "requestDigestSha256" de_string Required;
    tenant_id ← de_field r 2 "tenantId" de_string Required;
    status ← de_field r 3 "status" de_string Required;
    result_sha256 ← de_field r 4 "resultSha256" de_string Required;
    completed_at ← de_field r 5 "completedAt" de_instant Required;
    signer_vaid_id ← de_field r 6 "signerVaidId" de_vaid_id Required;
    assurance_tier ← de_field r 7 "assuranceTier" tier_deserialize Required;
    record_nonce ← de_field r 8 "recordNonce" de_string Required;
    Some (Build_CompletionRecord vaid_id request_digest tenant_id status result_sha256
            completed_at signer_vaid_id assurance_tier record_nonce)).

  (** ** Consent attestations *)

Definition att_deserialize (r : RawJson) : option ConsentAttestation :=
  de_struct 12 r (
    att_version ← de_field r 0 "att_version" de_u8 Required;
    parent_vaid ← de_field r 1 "parent_vaid" de_vaid_id Required;
    child_vaid ← de_field r 2 "child_vaid" de_vaid_id Required;
    child_trust_domain ← de_field r 3 "child_trust_domain" de_string Required;
    child_tenant_id ← de_field r 4 "child_tenant_id" de_string Required;
    issued_at ← de_field r 5 "issued_at" de_instant Required;
    expires_at ← de_field r 6 "expires_at" de_instant Required;
    scope_boundary ← de_field r 7 "scope_boundary" (de_vec entry_deserialize) Required;
    capability_set ← de_field r 8 "capability_set" (de_vec de_string) Required;
    trust_domain ← de_field r 9 "trust_domain" de_string Required;
    kernel_key_thumbprint ← de_field r 10 "kernel_key_thumbprint" de_string Required;
    signature ← de_field r 11 "signature" (de_vec de_byte) Required;
    Some (mkConsentAttestation att_version parent_vaid child_vaid child_trust_domain
            child_tenant_id issued_at expires_at scope_boundary capability_set trust_domain
            kernel_key_thumbprint signature)).

  (** ** Lemmas: reading back what was written *)

Lemma de_field_object {A} i k (f : RawJson → option A) absent (m : gmap string Json) v a :
  m !! k = Some v → f (raw_of_value v) = Some a →
  de_field (raw_of_value (JObject m)) i k f absent = Some a.
Proof.
  rewrite raw_of_value_object. intros Hm Hf. unfold de_field, de_required, de_default, de_member.
  rewrite member_raw_object, Hm, Hf. by destruct absent.
Qed.

Lemma de_required_object {A} k (f : RawJson → option A) (m : gmap string Json) v a :
  m !! k = Some v → f (raw_of_value v) = Some a → de_required k f (raw_object m) = Some a.
Proof.
  intros Hm Hf. unfold de_required, de_member. by rewrite member_raw_object, Hm, Hf.
Qed.

Lemma de_option_raw {A} (f : RawJson → option A) (g : A → Json) (o : option A) :
  (∀ a, o = Some a → f (raw_of_value (g a)) = Some a ∧ g a ≠ JNull) →
  de_option f (raw_of_value (ser_option g o)) = Some o.
Proof.
  destruct o as [a|]; [|done]. intros Ha. destruct (Ha a eq_refl) as [Hf Hnull]. simpl.
  unfold de_option. destruct (g a); simpl in *; by rewrite ?Hf.
Qed.

Lemma de_vaid_id_raw `{!UuidLaws} v : de_vaid_id (raw_of_value (ser_vaid_id v)) = Some v.
Proof.
  destruct v as [u]. unfold de_vaid_id, ser_vaid_id, vaid_id_to_string. simpl.
  by rewrite uuid_parse_to_string.
Qed.

Lemma de_instant_raw `{!ChronoLaws} t :
  four_digit_year t → de_instant (raw_of_value (JString (dt_serialize t))) = Some t.
Proof. intros Ht. unfold de_instant. simpl. by apply dt_deserialize_serialize. Qed.

  (** An entry that passed the shape gate. *)
Definition entry_wf (e : ScopeBoundaryEntry) : Prop :=
  validate_scope_entry (entry_kind e) (entry_value e) = None.

Lemma entry_raw_object e :
  raw_of_value (entry_serialize e)
  = RObject [("kind", RString (entry_kind e)); ("value", raw_of_value (entry_value e))]
  ∨ raw_of_value (entry_serialize e)
  = RObject [("value", raw_of_value (entry_value e)); ("kind", RString (entry_kind e))].
Proof. by destruct e; (left; reflexivity) || (right; reflexivity). Qed.

Lemma entry_deserialize_raw e :
  entry_wf e → entry_deserialize (raw_of_value (entry_serialize e)) = Some e.
Proof.
  intros He. destruct (entry_raw_object e) as [-> | ->]; unfold entry_deserialize; simpl;
    rewrite value_of_raw_of_value, He; by destruct e.
Qed.

Lemma de_boundary_raw b :
  Forall entry_wf b → de_vec entry_deserialize (raw_of_value (ser_boundary b)) = Some b.
Proof.
  intros Hb. apply de_vec_raw. intros e He. apply entry_deserialize_raw.
  by eapply Forall_forall in Hb.
Qed.

Lemma de_struct_object {A} n (m : gmap string Json) (fields : option A) :
  de_struct n (raw_of_value (JObject m)) fields = fields.
Proof. reflexivity. Qed.

Lemma de_field_bind {A B} i k (f : RawJson → option A) absent (m : gmap string Json) v a
    (K : A → option B) y :
  m !! k = Some v → f (raw_of_value v) = Some a → K a = y →
  (x ← de_field (raw_of_value (JObject m)) i k f absent; K x) = y.
Proof. intros Hm Hf <-. by rewrite (de_field_object _ _ _ _ _ _ _ Hm Hf). Qed.

Lemma de_required_bind {A B} k (f : RawJson → option A) (m : gmap string Json) v a
    (K : A → option B) y :
  m !! k = Some v → f (raw_of_value v) = Some a → K a = y →
  (x ← de_required k f (raw_object m); K x) = y.
Proof. intros Hm Hf <-. by rewrite (de_required_object _ _ _ _ _ Hm Hf). Qed.

  (** What the fields of a type must satisfy for its text to denote it. *)
Record seed_wf (s : VaidSeed) : Prop := {
  sw_scope : Forall entry_wf (seed_scope_boundary s);
}.

Record request_wf (q : MintVaidRequest) : Prop := {
  rw_scope : Forall entry_wf (seed_scope_boundary (req_seed q));
  rw_issued p : req_pop q = Some p → four_digit_year (pop_issued_at p);
}.

Record att_wf (a : ConsentAttestation) : Prop := {
  aw_version : (0 ≤ att_version a ≤ 255)%Z;
  aw_issued : four_digit_year (att_issued_at a);
  aw_expires : four_digit_year (att_expires_at a);
  aw_scope : Forall entry_wf (att_scope_boundary a);
}.

#[local] Hint Resolve de_vaid_id_raw de_instant_raw de_boundary_raw de_bytes_raw de_strings_raw : wire.

Ltac read_field :=
  eapply de_field_bind; [reflexivity | cbn [snd]; solve [eauto with wire | reflexivity] |].

  (** ** Properties *)

Lemma seed_raw `{!UuidLaws} s :
  Forall entry_wf (seed_scope_boundary s) → seed_deserialize (raw_of_value (seed_to_value s)) = Some s.
Proof.
  intros Hs. unfold seed_deserialize, seed_to_value. rewrite de_struct_object.
  do 3 read_field.
  eapply de_field_bind; [reflexivity|apply de_option_raw; by eauto using de_vaid_id_raw|].
  do 2 read_field.
  eapply de_field_bind; [reflexivity|apply de_option_raw; by eauto using de_bytes_raw|].
  by destruct s.
Qed.

Lemma pop_raw `{!ChronoLaws} p :
  four_digit_year (pop_issued_at p) → pop_deserialize (raw_of_value (pop_to_value p)) = Some p.
Proof.
  intros Hp. unfold pop_deserialize, pop_to_value. rewrite de_struct_object.
  do 3 read_field. by destruct p.
Qed.

Lemma mint_request_raw `{!UuidLaws, !ChronoLaws} q :
  request_wf q → mint_request_deserialize (raw_of_value (mint_request_to_value q)) = Some q.
Proof.
  intros [Hs Hp]. unfold mint_request_deserialize, mint_request_to_value. rewrite de_struct_object.
  eapply de_field_bind; [reflexivity|by apply seed_raw|].
  eapply de_field_bind; [reflexivity|apply de_option_raw; eauto using pop_raw|].
  by destruct q.
Qed.

Lemma att_raw `{!UuidLaws, !ChronoLaws} a :
  att_wf a → att_deserialize (raw_of_value (att_to_value a)) = Some a.
Proof.
  intros [Hv Hi He Hs]. unfold att_deserialize, att_to_value. rewrite de_struct_object.
  eapply de_field_bind; [reflexivity|simpl; by rewrite bool_decide_eq_true_2|].
  do 11 read_field. by destruct a.
Qed.

Lemma request_raw `{!UuidLaws, !ChronoLaws} p :
  four_digit_year (ra_timestamp p) → request_deserialize (raw_of_value (to_value p)) = Some p.
Proof.
  intros Ht. unfold request_deserialize, to_value, request_serialize. rewrite de_struct_object.
  do 7 read_field. by destruct p.
Qed.

Lemma completion_raw `{!UuidLaws, !ChronoLaws} c :
  four_digit_year (cr_completed_at c) → completion_deserialize (raw_of_value (to_value c)) = Some c.
Proof.
  intros Ht. unfold completion_deserialize, to_value, completion_serialize. rewrite de_struct_object.
  do 7 read_field.
  eapply (de_field_bind _ _ _ _ _ _ (cr_assurance_tier c));
    [reflexivity|by destruct (cr_assurance_tier c)|].
  read_field. by destruct c.
Qed.

Lemma mint_pop_raw `{!UuidLaws, !ChronoLaws} p :
  four_digit_year (mp_issued_at p) → Forall entry_wf (mp_scope_boundary p) →
  mint_pop_deserialize (raw_of_value (to_value p)) = Some p.
Proof.
  intros Ht Hs. unfold mint_pop_deserialize, to_value, mint_pop_serialize. rewrite de_struct_object.
  do 4 read_field.
  eapply (de_field_bind _ _ _ _ _ _ (mp_parent_vaid p)); [reflexivity|apply (de_option_raw _ ser_vaid_id); by eauto using de_vaid_id_raw|].
  do 4 read_field. by destruct p.
Qed.

  (** ** The document itself *)

  (** Reading a named member of a serialized document. *)
Lemma de_known_bind {A B} k (f : RawJson → option A) d v a (K : A → option B) y :
  vaid_wf d → k ∈ KNOWN_FIELDS → known_value d k = Some v → f (raw_of_value v) = Some a →
  K a = y →
  (x ← de_required k f (raw_object (vd_unknown_fields d ∪ list_to_map (vaid_members d))); K x) = y.
Proof.
  intros Hwf Hk Hv Hf Hy. eapply de_required_bind; [|exact Hf|exact Hy].
  by rewrite vaid_to_value_known.
Qed.

Lemma pu_raw_value p : pu_wf p → pu_deserialize (raw_of_value (pu_serialize p)) = Some p.
Proof. destruct p as [s u]. unfold pu_wf, pu_deserialize. simpl. by intros ->. Qed.

Lemma de_parent_raw d :
  vaid_wf d →
  de_default "parent_vaid" deserialize_present None
    (raw_object (vd_unknown_fields d ∪ list_to_map (vaid_members d))) = Some (vd_parent_vaid d).
Proof.
  intros Hwf. unfold de_default, de_member. rewrite member_raw_object, vaid_to_value_known
    by (done || (unfold KNOWN_FIELDS; set_solver)).
  rewrite known_value_parent. destruct (vd_parent_vaid d) as [[u|]|] eqn:Hp; [|done..]. simpl.
  pose proof (pu_raw_value u (wf_parent d Hwf u Hp)) as Hu. simpl in Hu.
  unfold deserialize_present, de_option. by rewrite Hu.
Qed.

Lemma de_version_raw d :
  vaid_wf d →
  de_default "sig_version" de_u8 0%Z
    (raw_object (vd_unknown_fields d ∪ list_to_map (vaid_members d))) = Some (vd_sig_version d).
Proof.
  intros Hwf. unfold de_default, de_member. rewrite member_raw_object, vaid_to_value_known
    by (done || (unfold KNOWN_FIELDS; set_solver)).
  destruct (known_value_fields d) as [-> _]. simpl.
  rewrite bool_decide_eq_true_2 by apply Hwf. done.
Qed.

  (** The members that are not named are the document's own. *)
Lemma unknown_raw d :
  vaid_wf d →
  raw_members (unknown_members (raw_object (vd_unknown_fields d ∪ list_to_map (vaid_members d))))
  = vd_unknown_fields d.
Proof.
  intros Hwf. apply map_eq. intros k. rewrite unknown_members_lookup.
  case_decide as Hk; [by rewrite (wf_unknown d Hwf k Hk)|].
  rewrite raw_members_lookup, member_raw_object, lookup_union, vaid_members_keys by done.
  rewrite (right_id_L None _). destruct (vd_unknown_fields d !! k); [|done].
  simpl. by rewrite value_of_raw_of_value.
Qed.

Ltac read_known Hwf F :=
  eapply (de_known_bind _ _ _ _ _ _ _ Hwf);
    [decided | apply F
    |solve [eauto using de_bytes_raw, de_strings_raw, de_boundary_raw, pu_raw_value, wf_vaid_id,
              wf_agent_id | reflexivity] |].

Lemma vaid_raw d :
  vaid_wf d → Forall entry_wf (vd_scope_boundary d) →
  vaid_deserialize (raw_of_value (vaid_to_value d)) = Some d.
Proof.
  intros Hwf Hs. unfold vaid_to_value. rewrite raw_of_value_object. unfold vaid_deserialize.
  pose proof (known_value_fields d) as F. rewrite (de_version_raw d Hwf).
  cbn [mbind option_bind].
  do 9 read_known Hwf F. rewrite (de_parent_raw d Hwf).
  cbn [mbind option_bind]. do 5 read_known Hwf F.
  rewrite (unknown_raw d Hwf). by destruct d as [? ? ? [] ? [] ? ? ? ? ? ? ? ? ? ? ?].
Qed.

Lemma mint_response_raw q :
  vaid_wf (resp_vaid q) → Forall entry_wf (vd_scope_boundary (resp_vaid q)) →
  mint_response_deserialize (raw_of_value (mint_response_to_value q)) = Some q.
Proof.
  intros Hwf Hs. unfold mint_response_deserialize, mint_response_to_value. rewrite de_struct_object.
  eapply de_field_bind; [reflexivity|by apply vaid_raw|]. read_field.
  eapply de_field_bind; [reflexivity|apply (de_option_raw _ JString); naive_solver|].
  by destruct q.
Qed.

  (** ** Properties *)

(** The mint's exchange survives the wire: a request whose entries have the
    shape of S.8 and whose proof is dated within the years 0000 to 9999, and a
    response holding a well-formed document, are each read back, from the JSON
    their serialization writes, as what was sent; absent parents, keys and
    proofs included. *)
Theorem mint_exchange_roundtrip `{!UuidLaws, !ChronoLaws} (q : MintVaidRequest) (p : MintVaidResponse)
    (Hq : request_wf q) (Hwf : vaid_wf (resp_vaid p))
    (Hs : Forall entry_wf (vd_scope_boundary (resp_vaid p))) :
  mint_request_deserialize (raw_of_value (mint_request_to_value q)) = Some q
  ∧ mint_response_deserialize (raw_of_value (mint_response_to_value p)) = Some p.
Proof. split; [by apply mint_request_raw|by apply mint_response_raw]. Qed.

(** A document a mint writes is the document a verifier reads: every text
    that parses to the serialization of a well-formed document, and repeats no
    member name, gets over text exactly the verdict the document itself gets,
    for every key, instant and revocation answer. *)
Theorem written_document_verdict (d : Vaid) (text : string) (now : Instant) (pk : list byte)
    (rev : RevocationStatus) (Hwf : vaid_wf d) (Hs : Forall entry_wf (vd_scope_boundary d))
    (Htext : json_parse text = Some (raw_of_value (vaid_to_value d)))
    (Hdup : has_duplicate_member_names text = false) :
  verify_vaid_standing_from_json now pk text rev = verify_vaid_standing now pk d rev.
Proof.
  unfold verify_vaid_standing_from_json, vaid_from_str. rewrite Hdup, Htext.
  cbn [mbind option_bind]. by rewrite vaid_raw.
Qed.

  (** The fields of an attestation. *)
Definition ATTESTATION_FIELDS : list string :=
  ["att_version"; "parent_vaid"; "child_vaid"; "child_trust_domain"; "child_tenant_id";
   "issued_at"; "expires_at"; "scope_boundary"; "capability_set"; "trust_domain";
   "kernel_key_thumbprint"; "signature"].

Lemma member_app_unknown (l : list (string * RawJson)) (k k' : string) (v : RawJson) :
  k ≠ k' → member k (l ++ [(k', v)]) = member k l.
Proof.
  intros Hk. induction l as [|[k1 v1] l IH]; simpl.
  - by rewrite bool_decide_eq_false_2.
  - by rewrite IH.
Qed.

Lemma de_field_unknown {A} i k (f : RawJson → option A) absent l k' v :
  k ∈ ATTESTATION_FIELDS → k' ∉ ATTESTATION_FIELDS →
  de_field (RObject (l ++ [(k', v)])) i k f absent = de_field (RObject l) i k f absent.
Proof.
  intros Hk Hk'. unfold de_field, de_required, de_default, de_member.
  rewrite member_app_unknown; [done|]. by intros ->.
Qed.

(** C37. An attestation is re-projected before it is verified: it survives the
    wire, but a presented attestation with a member of any other name and value
    is read as the one without it, so that member is outside the digest and the
    signature stands whatever it says (a VAID document signs such members). *)
Theorem attestation_wire `{!UuidLaws, !ChronoLaws} (a : ConsentAttestation) (Ha : att_wf a) :
  att_deserialize (raw_of_value (att_to_value a)) = Some a
  ∧ (∀ l k v, k ∉ ATTESTATION_FIELDS →
     att_deserialize (RObject (l ++ [(k, v)])) = att_deserialize (RObject l))
  ∧ ∀ k v, k ∉ ATTESTATION_FIELDS →
     ∃ l, RObject l = raw_of_value (att_to_value a)
          ∧ att_deserialize (RObject (l ++ [(k, v)])) = Some a.
Proof.
  assert (∀ l k v, k ∉ ATTESTATION_FIELDS →
     att_deserialize (RObject (l ++ [(k, v)])) = att_deserialize (RObject l)) as Hunk.
  { intros l k v Hk. unfold att_deserialize, de_struct.
    rewrite !(λ A i key f absent H, @de_field_unknown A i key f absent l k v H Hk)
      by (unfold ATTESTATION_FIELDS; set_solver). done. }
  pose proof (att_raw a Ha) as Hraw. split_and!; [done..|]. intros k v Hk.
  exists (raw_object (list_to_map (att_members a))). split; [done|]. rewrite Hunk by done. exact Hraw.
Qed.

End Wire.

(** ** Witnesses *)

Module WireSamples.

#[local] Instance samples : Externals := concrete no_json.

Definition request : MintVaidRequest :=
  mkMintVaidRequest
    (mkVaidSeed "worker" "1" "acme" (Some (VaidId_from_uuid 5%N))
       [entry_prefix "data"; mkEntry "amount" (JNumber (PosInt 10))] ["read"] (Some ["007"%byte]))
    (Some (mkMintPop "n1" 50%Z ["001"%byte])).

Definition response : MintVaidResponse := mkMintVaidResponse sample_doc true (Some "soon").

Lemma sample_doc_wf : vaid_wf sample_doc.
Proof. apply (sample_wf []). Qed.

Lemma mint_exchange_roundtrip_witness :
  mint_request_deserialize (raw_of_value (mint_request_to_value request)) = Some request
  ∧ mint_response_deserialize (raw_of_value (mint_response_to_value response)) = Some response.
Proof.
  apply mint_exchange_roundtrip.
  - split; [by repeat constructor|]. intros p Hp.
    change (Some (mkMintPop "n1" 50%Z ["001"%byte]) = Some p) in Hp. injection Hp as <-.
    unfold four_digit_year, NANOS. simpl. lia.
  - apply sample_doc_wf.
  - by repeat constructor.
Defined.

(** One text, parsed as the sample document's members. *)
Definition sample_text : string := "{}".
Definition one_text : string → option RawJson := λ s,
  if bool_decide (s = sample_text) then Some (raw_of_value (vaid_to_value sample_doc)) else None.

Lemma written_document_verdict_witness :
  @verify_vaid_standing_from_json (concrete one_text) 0%Z [] sample_text NotRevoked
  = @verify_vaid_standing (concrete one_text) 0%Z [] sample_doc NotRevoked.
Proof.
  apply (written_document_verdict (Ext := concrete one_text)); [|by repeat constructor|done..].
  apply (vaid_deserialize_wf (RObject sample_members)). vm_compute. reflexivity.
Defined.

Definition consent : ConsentAttestation :=
  att_new (VaidId_from_uuid 1%N) (VaidId_from_uuid 4%N) "b.example" "acme" 0%Z 90%Z
    [entry_prefix "data"] ["read"] "a.example" "t".

Lemma attestation_wire_witness :
  ∃ l, RObject l = raw_of_value (att_to_value consent)
       ∧ att_deserialize (RObject (l ++ [("x_note", RBool true)])) = Some consent.
Proof.
  apply (attestation_wire consent).
  - split; [simpl; unfold ATTESTATION_VERSION; lia|..]; try (by repeat constructor);
      unfold four_digit_year, NANOS; simpl; lia.
  - unfold ATTESTATION_FIELDS. set_solver.
Defined.

End WireSamples.
