(* ===== verification/Vectors.v ===== *)
(** * What the two conformance runners share

    [crates/vaid-mint/src/bin/conformance.rs] and
    [crates/vaid-pop/src/bin/conformance.rs]: reading a vector's JSON value,
    hexadecimal text, the error type, loops that stop at the first error, and
    the enumeration rule.  A [ConformanceError] carries its message, cut where
    the text of a parser's error or of a [Debug] form would follow. *)

From Stdlib Require Import Sorting.Sorted.
From S2P Require Import Prelude Json Externals.

(** ** Decidable equality of JSON values *)

#[global] Instance Number_eq_dec : EqDecision Number.
Proof. solve_decision. Defined.

#[global] Instance RawJson_eq_dec : EqDecision RawJson.
Proof.
  refine (fix go (x y : RawJson) : Decision (x = y) :=
    match x, y with
    | RNull, RNull => left eq_refl
    | RBool a, RBool b => cast_if (decide (a = b))
    | RNumber a, RNumber b => cast_if (decide (a = b))
    | RString a, RString b => cast_if (decide (a = b))
    | RArray a, RArray b => cast_if (@list_eq_dec _ go a b)
    | RObject a, RObject b => cast_if (@list_eq_dec _ (@prod_eq_dec _ _ _ go) a b)
    | _, _ => right _
    end); clear go; abstract congruence.
Defined.

(** A value is what it presents. *)
#[global] Instance raw_of_value_inj : Inj (=) (=) raw_of_value.
Proof. intros a b H. by rewrite <- (value_of_raw_of_value a), <- (value_of_raw_of_value b), H. Qed.

#[global] Instance Json_eq_dec : EqDecision Json.
Proof.
  refine (λ a b, cast_if (decide (raw_of_value a = raw_of_value b))).
  - abstract by apply (inj raw_of_value).
  - abstract congruence.
Defined.

(** ** Reading a value *)

(** [v[k]]: [null] when there is no such member. *)
Definition index (v : Json) (k : string) : Json :=
  match v with JObject m => default JNull (m !! k) | _ => JNull end.
(** [v.get(k)] *)
Definition get (v : Json) (k : string) : option Json :=
  match v with JObject m => m !! k | _ => None end.
Definition as_array (v : Json) : option (list Json) :=
  match v with JArray l => Some l | _ => None end.
Definition as_bool (v : Json) : option bool :=
  match v with JBool b => Some b | _ => None end.
Definition as_u64 (v : Json) : option Z :=
  match v with JNumber (PosInt n) => Some n | _ => None end.
Definition as_i64 (v : Json) : option Z :=
  match v with
  | JNumber (PosInt n) => if bool_decide (n ≤ I64_MAX)%Z then Some n else None
  | JNumber (NegInt n) => Some n
  | _ => None
  end.
(** [v.as_str().unwrap_or_default()] *)
Definition str_of (v : Json) : string := default "" (as_str v).

(** ** Outcomes *)

Record ConformanceError : Type := mkConformanceError { conformance_message : string }.

Definition obind {E A B} (o : Outcome E A) (f : A → Outcome E B) : Outcome E B :=
  match o with Ok a => f a | Err e => Err e | Panicked => Panicked end.
Notation "'let?' x ':=' o 'in' k" := (obind o (λ x, k))
  (at level 10, x binder, o at level 100, k at level 200,
   format "'[' 'let?'  x  ':='  o  'in'  '/' k ']'") : vaid_scope.
Notation "o ';;?' k" := (obind o (λ _, k))
  (at level 100, k at level 200, right associativity) : vaid_scope.

Definition Check : Type := Outcome ConformanceError unit.
Definition err {A} (message : string) : Outcome ConformanceError A := Err (mkConformanceError message).
(** [.ok_or(..)], [.map_err(..)] *)
Definition or_err {A} (o : option A) (message : string) : Outcome ConformanceError A :=
  match o with Some a => Ok a | None => err message end.

(** A [for] loop with an accumulator and an early return. *)
Fixpoint ofold {E A B} (f : B → A → Outcome E B) (l : list A) (b : B) : Outcome E B :=
  match l with
  | [] => Ok b
  | x :: l' => let? b' := f b x in ofold f l' b'
  end.

(** ** Hexadecimal text *)

Definition hex_value (a : ascii) : option N :=
  let n := N_of_ascii a in
  if bool_decide (48 ≤ n ∧ n ≤ 57)%N then Some (n - 48)%N
  else if bool_decide (97 ≤ n ∧ n ≤ 102)%N then Some (n - 87)%N
  else if bool_decide (65 ≤ n ∧ n ≤ 70)%N then Some (n - 55)%N
  else None.

(** [u8::from_str_radix(pair, 16)] of two bytes: a leading plus sign is read. *)
Definition hex_pair (a b : ascii) : option byte :=
  if bool_decide (a = "+"%char) then y ← hex_value b; Byte.of_N y
  else x ← hex_value a; y ← hex_value b; Byte.of_N (16 * x + y).

(** A byte that continues a UTF-8 character: no slice begins there. *)
Definition is_continuation (a : ascii) : bool :=
  bool_decide (128 ≤ N_of_ascii a < 192)%N.
Definition at_boundary (s : string) : bool :=
  match s with String a _ => negb (is_continuation a) | EmptyString => true end.

(** [(0..s.len()).step_by(2).map(|i| u8::from_str_radix(&s[i..i + 2], 16))]:
    slicing panics past the end and inside a character. *)
Fixpoint hex_pairs {E} (s : string) : Outcome E (list (option byte)) :=
  match s with
  | EmptyString => Ok []
  | String a (String b s') =>
      if negb (is_continuation a) && at_boundary s' then
        let? rest := hex_pairs s' in Ok (hex_pair a b :: rest)
      else Panicked
  | String _ EmptyString => Panicked
  end.

Definition newline : string := char_string "010"%char.

(** Both runners' [assert_hex]; they differ in [blocker]. *)
Definition assert_hex (blocker label got want : string) : Check :=
  if bool_decide (got ≠ want) then
    err (label +:+ " diverged from the frozen vector" +:+ blocker +:+ newline
         +:+ "  got    = " +:+ got +:+ newline +:+ "  vector = " +:+ want)
  else Ok tt.

(** ** Sorting *)

Fixpoint insert_sorted {A} (le : A → A → bool) (x : A) (l : list A) : list A :=
  match l with
  | [] => [x]
  | y :: l' => if le x y then x :: l else y :: insert_sorted le x l'
  end.
Definition sort_by {A} (le : A → A → bool) (l : list A) : list A :=
  foldr (insert_sorted le) [] l.

(** The order of a report: by name, then by digest, bytewise. *)
Definition line_le (p q : string * string) : bool :=
  match String.compare p.1 q.1 with
  | Lt => true
  | Gt => false
  | Eq => String.leb p.2 q.2
  end.

(** ** The enumeration rule of [run] *)

Definition names {A} (l : list (string * A)) : gset string := list_to_set l.*1.

(** The members of a [BTreeSet], in order, joined by commas. *)
Definition listed (s : gset string) : string := join ", " (sort_by String.leb (elements s)).

Definition check_names {A B} (embedded : list (string * A)) (known : list (string * B)) : Check :=
  if bool_decide (names embedded = ∅) then
    err "no conformance vectors are embedded in this build — the crate was built without tests/vectors/, so this binary can vouch for nothing"
  else if bool_decide (names embedded ∖ names known ≠ ∅) then
    err ("vector(s) ship in this crate but no firewall check covers them: "
         +:+ listed (names embedded ∖ names known)
         +:+ " — add a checker to VECTOR_CHECKS. A shipped-but-unchecked vector makes a PASS mean less than it appears to.")
  else if bool_decide (names known ∖ names embedded ≠ ∅) then
    err ("firewall expects vector(s) that are not in this crate: "
         +:+ listed (names known ∖ names embedded)
         +:+ " — the packaging dropped them, or the check is stale.")
  else Ok tt.

(** [.iter().find(|(n, _)| n == name)] *)
Fixpoint find_check {A} (name : string) (l : list (string * A)) : option A :=
  match l with
  | [] => None
  | (n, f) :: l' => if bool_decide (n = name) then Some f else find_check name l'
  end.

(** ** Lemmas *)

Lemma obind_ok {E A B} (o : Outcome E A) (f : A → Outcome E B) b :
  obind o f = Ok b ↔ ∃ a, o = Ok a ∧ f a = Ok b.
Proof. destruct o; simpl; naive_solver. Qed.

(** Invert a successful check, step by step. *)
Ltac ok_inv H :=
  match type of H with
  | obind _ _ = Ok _ => apply obind_ok in H as (? & ? & H)
  end.

Lemma or_err_ok {A} (o : option A) msg a : or_err o msg = Ok a ↔ o = Some a.
Proof. destruct o; simpl; naive_solver. Qed.

Lemma assert_hex_ok blocker label got want u :
  assert_hex blocker label got want = Ok u ↔ got = want.
Proof. unfold assert_hex. destruct u. case_bool_decide; naive_solver. Qed.

(** A loop that ends well keeps what each of its rounds keeps. *)
Lemma ofold_ok_ind {E A B} (P : list A → B → Prop) (f : B → A → Outcome E B) l b b' :
  ofold f l b = Ok b' → P [] b →
  (∀ done x b1 b2, P done b1 → f b1 x = Ok b2 → P (done ++ [x]) b2) → P l b'.
Proof.
  intros Hl H0 Hstep. cut (∀ done l b, P done b → ofold f l b = Ok b' → P (done ++ l) b').
  { intros H. exact (H [] l b H0 Hl). }
  clear l b Hl H0. intros done l. revert done. induction l as [|x l IH]; intros done b Hb H; simpl in H.
  - injection H as <-. by rewrite app_nil_r.
  - ok_inv H. rewrite cons_middle, app_assoc. eapply IH; [|exact H]. eauto.
Qed.

Lemma size_ge_2 (X : gset string) : 2 ≤ size X → ∃ x y, x ≠ y ∧ x ∈ X ∧ y ∈ X.
Proof.
  unfold size, set_size. simpl. pose proof (NoDup_elements X) as Hnd.
  pose proof (λ x, elem_of_elements X x) as Hel.
  destruct (elements X) as [|x [|y l]]; simpl; [lia..|]. intros _. exists x, y.
  apply NoDup_cons in Hnd as [Hx _]. split_and!; [|apply Hel; by left|apply Hel; right; by left].
  intros ->. apply Hx. by left.
Qed.

Lemma names_elem {A} (l : list (string * A)) n : n ∈ names l ↔ n ∈ l.*1.
Proof. unfold names. apply elem_of_list_to_set. Qed.

Lemma check_names_ok {A B} (embedded : list (string * A)) (known : list (string * B)) u :
  check_names embedded known = Ok u ↔ embedded ≠ [] ∧ names embedded = names known.
Proof.
  unfold check_names. destruct u.
  assert (names embedded = ∅ ↔ embedded = []) as Hemp.
  { split; [|by intros ->]. destruct embedded as [|[n x] l]; [done|].
    unfold names. simpl. set_solver. }
  case_bool_decide as H1; [split; [done|]; intros [Hne _]; by destruct Hne; apply Hemp|].
  case_bool_decide as H2; [split; [done|]; intros [_ Heq]; destruct H2; rewrite Heq; set_solver|].
  case_bool_decide as H3; [split; [done|]; intros [_ Heq]; destruct H3; rewrite Heq; set_solver|].
  split; [|done]. intros _. split; [by intros ?; apply H1, Hemp|].
  apply (anti_symm (⊆)); apply empty_difference_subseteq; by rewrite ?H2, ?H3.
Qed.

Lemma find_check_some {A} name (l : list (string * A)) :
  name ∈ l.*1 → ∃ f, find_check name l = Some f ∧ (name, f) ∈ l.
Proof.
  induction l as [|[n f] l IH]; simpl; [by intros ?%not_elem_of_nil|].
  case_bool_decide as Hn; [subst; intros _; exists f; split; [done|by left]|].
  intros [->|Hin]%elem_of_cons; [done|]. destruct (IH Hin) as (g & Hg & Hl).
  exists g. split; [done|by right].
Qed.

Lemma insert_sorted_perm {A} (le : A → A → bool) x l : insert_sorted le x l ≡ₚ x :: l.
Proof.
  induction l as [|y l IH]; simpl; [done|]. destruct (le x y); [done|].
  rewrite IH. by constructor.
Qed.

Lemma sort_by_perm {A} (le : A → A → bool) l : sort_by le l ≡ₚ l.
Proof. induction l as [|x l IH]; simpl; [done|]. by rewrite insert_sorted_perm, IH. Qed.

Lemma insert_sorted_sorted {A} (le : A → A → bool) x l :
  (∀ x y, le x y = false → le y x = true) →
  Sorted (λ p q, le p q = true) l → Sorted (λ p q, le p q = true) (insert_sorted le x l).
Proof.
  intros Htotal. induction l as [|y l IH]; intros Hs; simpl; [by repeat constructor|].
  destruct (le x y) eqn:Hxy; [by constructor; [|constructor]|].
  inversion Hs as [|? ? Hl Hhd]; subst. constructor; [by apply IH|].
  destruct l as [|z l]; simpl; [constructor; by apply Htotal|].
  destruct (le x z); constructor; [by apply Htotal|]. by inversion Hhd.
Qed.

Lemma sort_by_sorted {A} (le : A → A → bool) l :
  (∀ x y, le x y = false → le y x = true) → Sorted (λ p q, le p q = true) (sort_by le l).
Proof.
  intros Htotal. induction l as [|x l IH]; simpl; [constructor|]. by apply insert_sorted_sorted.
Qed.

Lemma line_le_total x y : line_le x y = false → line_le y x = true.
Proof.
  unfold line_le, String.leb. rewrite (String.compare_antisym x.1 y.1), (String.compare_antisym x.2 y.2).
  by destruct (String.compare y.1 x.1), (String.compare y.2 x.2).
Qed.

(** The enumeration, and what [find] then finds. *)
Lemma check_names_find {A B} (embedded : list (string * A)) (known : list (string * B)) u n x :
  check_names embedded known = Ok u → (n, x) ∈ embedded → is_Some (find_check n known).
Proof.
  intros [_ Hn]%check_names_ok Hin.
  destruct (find_check_some n known) as (f & Hf & _); [|by eexists].
  apply names_elem. rewrite <- Hn. apply names_elem. by apply (list_elem_of_fmap_2' fst _ (n, x)).
Qed.
