(* ===== verification/Firewall.v ===== *)
(** * The mint's conformance firewall

    [crates/vaid-mint/src/bin/conformance.rs]: the checks of the nine vectors
    and [run].  The embedded vectors are an argument (the build embeds the
    files), and so is the clock: the standing cases of the verdict vector read
    it, one reading a case.  [main] only prints [run]'s answer. *)

From stdpp Require Import pretty.
From Stdlib Require Import Sorting.Sorted.
From S2P Require Import Prelude Json Externals Concrete Identity Scope IssuerIdentity Document.
From S2P Require Import DupScan Revocation Attenuation Verify Attestation Chain Pop Wire Vectors.

Section Firewall.
  Context {Ext : Externals}.

#[local] Notation assert_hex := (assert_hex "").

  (** [filter_map(..ok())]: what is not hexadecimal is skipped. *)
Definition unhex (s : string) : Outcome ConformanceError (list byte) :=
  let? pairs := hex_pairs s in Ok (omap id pairs).

Definition unhex_at (v : Json) : Outcome ConformanceError (list byte) := unhex (str_of v).

Definition doc_from (value : Json) : Outcome ConformanceError Vaid :=
  or_err (vaid_deserialize (raw_of_value value)) "vector document is not a valid VAID: ".

Definition key_of (seed : list byte) (message : string) : Outcome ConformanceError KeyPair :=
  or_err (kp_from_seed_unchecked seed) message.

  (** ** Vectors of bytes *)

Definition check_mint (v : Json) : Check :=
  let? unsigned := doc_from (index v "input") in
  let digest := canonical_vaid_signing_bytes unsigned in
  assert_hex "Rust document digest" (to_hex digest) (str_of (index v "digest_sha256_hex")) ;;?
  let? seed := unhex_at (index (index v "ed25519") "kernel_private_key_seed_hex") in
  let? kp := key_of seed "vector kernel seed is not a valid Ed25519 seed: " in
  assert_hex "Rust kernel public key" (to_hex (kp_public_key kp))
    (str_of (index (index v "ed25519") "kernel_public_key_hex")) ;;?
  assert_hex "Rust kernel signature" (to_hex (kp_sign kp digest))
    (str_of (index (index v "ed25519") "signature_hex")) ;;?
  assert_hex "Rust lineage_hash"
    (compute_lineage_hash (parent_vaid unsigned) (agent_id unsigned)) (vd_lineage_hash unsigned) ;;?
  if bool_decide (vaid_id_to_string (vaid_id unsigned) ≠ agent_id_to_string (agent_id unsigned))
  then err "vaid_id MUST equal agent_id"
  else
    let? signature := unhex_at (index (index v "ed25519") "signature_hex") in
    let signed := with_kernel_signature unsigned signature in
    if negb (verify_vaid_authenticity (kp_public_key kp) signed) then
      err "the frozen document must verify under the frozen kernel public key"
    else Ok tt.

Definition check_mint_pop (v : Json) : Check :=
  let? seed := unhex_at (index (index v "ed25519") "private_key_seed_hex") in
  let? kp := key_of seed "vector PoP seed is not a valid Ed25519 seed: " in
  assert_hex "Rust mint-PoP public key" (to_hex (kp_public_key kp))
    (str_of (index (index v "ed25519") "public_key_hex")) ;;?
  let? digest := unhex_at (index v "digest_sha256_hex") in
  assert_hex "Rust mint-PoP signature" (to_hex (kp_sign kp digest))
    (str_of (index (index v "ed25519") "signature_hex")) ;;?
  if bool_decide (get (index v "input") "parentVaid" ≠ Some JNull) then
    err "parentVaid must be a PRESENT JSON null in this vector — encoding.md E.7"
  else Ok tt.

Definition check_attestation (v : Json) : Check :=
  let? unsigned := or_err (att_deserialize (raw_of_value (index v "attestation")))
    "vector attestation does not deserialize: " in
  let digest := canonical_attestation_signing_bytes unsigned in
  assert_hex "Rust attestation digest" (to_hex digest) (str_of (index v "digest_sha256_hex")) ;;?
  let? seed := unhex_at (index (index v "ed25519") "kernel_private_key_seed_hex") in
  let? kp := key_of seed "attestation seed is not a valid Ed25519 seed: " in
  assert_hex "Rust attestation signature" (to_hex (kp_sign kp digest))
    (str_of (index v "signature_hex")) ;;?
  assert_hex "attestation kernel_key_thumbprint" (kernel_key_thumbprint (kp_public_key kp))
    (att_kernel_key_thumbprint unsigned) ;;?
  let? signature := unhex_at (index v "signature_hex") in
  if negb (verify_attestation_authenticity (kp_public_key kp) (att_with_signature unsigned signature))
  then err "the frozen attestation must verify as authentic under the frozen key"
  else Ok tt.

  (** ** Chain vectors *)

Definition verdict_name (verdict : ChainVerification) : string :=
  match verdict with
  | ChainVerification.Attenuated => "attenuated"
  | ChainVerification.Inauthentic => "inauthentic"
  | ChainVerification.Unverifiable => "unverifiable"
  | ChainVerification.NotAttenuated => "not_attenuated"
  | ChainVerification.Expired => "expired"
  | ChainVerification.ConsentExpired => "consent_expired"
  end.

Definition instant_of (value : Json) : option Instant :=
  text ← as_str value; dt_parse_from_rfc3339 text.

  (** The body of the loop over a chain's entries: the document, its digest and
      its signature, re-derived. *)
Definition chain_entry (kp : KeyPair) (digest_label signature_label message : string)
    (docs : list Vaid) (entry : Json) : Outcome ConformanceError (list Vaid) :=
  let? unsigned := or_err (vaid_deserialize (raw_of_value (index entry "document"))) message in
  let digest := canonical_vaid_signing_bytes unsigned in
  assert_hex digest_label (to_hex digest) (str_of (index entry "digest_sha256_hex")) ;;?
  assert_hex signature_label (to_hex (kp_sign kp digest)) (str_of (index entry "signature_hex")) ;;?
  let? signature := unhex_at (index entry "signature_hex") in
  Ok (docs ++ [with_kernel_signature unsigned signature]).

Definition role_of (entry : Json) : string := default "?" (as_str (index entry "_role")).

  (** [verify_chain_at] under the vector's one key, which may panic. *)
Definition verdict_of (kp : KeyPair) (leaf : Vaid) (docs : list Vaid) (instant : Instant)
    : Outcome ConformanceError string :=
  match verify_chain_at (single_kernel_key_new (kp_public_key kp)) leaf
          (presented_bundle_new docs) attestation_bundle_empty instant with
  | Ok verdict => Ok (verdict_name verdict)
  | Err e => match e with end
  | Panicked => Panicked
  end.

Definition remove_comment (v : Json) : Json :=
  match v with JObject m => JObject (delete "_comment" m) | _ => v end.

Definition check_chain (v : Json) : Check :=
  let? seed := unhex_at (index (index v "ed25519") "kernel_private_key_seed_hex") in
  let? kp := key_of seed "chain vector seed is not a valid Ed25519 seed: " in
  let? entries := or_err (as_array (index v "chain")) "chain vector has no `chain` array" in
  let? docs := ofold (λ docs entry,
      let role := role_of entry in
      chain_entry kp ("chain hop " +:+ role +:+ " digest") ("chain hop " +:+ role +:+ " signature")
        "vector document is not a valid VAID: " docs entry) entries [] in
  let expected := remove_comment (index v "expected") in
  let contract := JObject (list_to_map [("chain", index v "chain"); ("expected", expected)]) in
  assert_hex "chain contract digest" (to_hex (sha256 (serde_jcs_to_vec contract)))
    (str_of (index v "digest_sha256_hex")) ;;?
  let? leaf := or_err (last docs) "chain vector is empty" in
  let? instant := or_err (instant_of (index (index v "expected") "verification_instant"))
    "chain vector states no verification_instant" in
  let? actual := verdict_of kp leaf docs instant in
  let want := str_of (index (index v "expected") "verification") in
  if bool_decide (actual ≠ want) then
    err ("chain verdict '" +:+ actual +:+ "' != frozen '" +:+ want
         +:+ "' — the installed verifier disagrees with the frozen walk")
  else Ok tt.

Definition array_or_empty (v : Json) : list Json := default [] (as_array v).

Definition containment_case (_ : unit) (case : Json) : Check :=
  let name := default "<unnamed>" (as_str (index case "name")) in
  let permitted := expiry_attenuates_within (str_of (index case "parent_expires_at"))
                     (as_str (index case "child_expires_at")) in
  let want := bool_decide (str_of (index case "expected") = "permitted") in
  if bool_decide (permitted ≠ want) then
    err ("expiry containment '" +:+ name +:+ "': expected " +:+ str_of (index case "expected")
         +:+ ", got " +:+ (if permitted then "permitted" else "refused"))
  else Ok tt.

  (** One case of the chain-expiry vector; the state is [saw_positive_chain]. *)
Definition expiry_case (v : Json) (saw_positive_chain : bool) (case : Json)
    : Outcome ConformanceError bool :=
  let name := default "<unnamed>" (as_str (index case "name")) in
  let? seed := unhex_at (index (index v "ed25519") "kernel_private_key_seed_hex") in
  let? kp := key_of seed "vector seed is not a usable Ed25519 seed: " in
  let? docs := ofold (λ docs entry,
      let label := name +:+ " / " +:+ role_of entry in
      chain_entry kp (label +:+ " digest") (label +:+ " signature")
        (label +:+ ": does not deserialize: ") docs entry)
    (array_or_empty (index case "chain")) [] in
  let? leaf := or_err (last docs) (name +:+ ": empty chain") in
  let? instant := or_err (instant_of (index case "verification_instant"))
    (name +:+ ": no verification_instant") in
  let? actual := verdict_of kp leaf docs instant in
  let want := str_of (index case "expected_verification") in
  if bool_decide (actual ≠ want) then
    err ("chain verdict '" +:+ actual +:+ "' != frozen '" +:+ want +:+ "' for '" +:+ name
         +:+ "' — the installed verifier disagrees with the frozen expiry rule")
  else Ok (saw_positive_chain || bool_decide (want = "attenuated")).

Definition check_chain_expiry (v : Json) : Check :=
  let containment := array_or_empty (index v "expiry_containment") in
  ofold containment_case containment tt ;;?
  let cases := array_or_empty (index v "cases") in
  if is_empty cases then err "chain_expiry vector has no cases"
  else
    let saw_positive_containment :=
      existsb (λ case, bool_decide (as_str (index case "expected") = Some "permitted"))
        containment in
    let? saw_positive_chain := ofold (expiry_case v) cases false in
    if negb saw_positive_chain then err "chain_expiry_v1 carries no positive control"
    else if negb saw_positive_containment then
      err "chain_expiry_v1 carries no positive containment control"
    else Ok tt.

  (** ** Predicate vectors *)

Definition boundary_of (v : Json) : option (list ScopeBoundaryEntry) :=
  arr ← as_array v; mapM (λ e, entry_deserialize (raw_of_value e)) arr.

  (** [match v[k].as_array() { Some(c) if !c.is_empty() => c, _ => return err(..) }] *)
Definition some_cases (v : Json) (message : string) : Outcome ConformanceError (list Json) :=
  match as_array v with
  | Some (c :: cs) => Ok (c :: cs)
  | _ => err message
  end.

Record ScopeTally : Type := mkScopeTally {
  positives : nat;
  negatives : nat;
  disagreements : nat;
}.

  (** What a bare prefix match answers. *)
Definition bare_prefix (boundary : list ScopeBoundaryEntry) (resource : string) : bool :=
  existsb (λ e, match entry_claimed_resource e with
                | Some p => starts_with p resource
                | None => false
                end) boundary.

Definition scope_case (t : ScopeTally) (case : Json) : Outcome ConformanceError ScopeTally :=
  let? boundary := or_err (boundary_of (index case "boundary"))
    "scope case boundary is not well formed: " in
  let resource := str_of (index case "resource") in
  let? expected := or_err (as_bool (index case "expected"))
    "scope case has no boolean `expected`" in
  let got := scope_contains boundary resource in
  if bool_decide (got ≠ expected) then err "scope containment mismatch: boundary="
  else
    let old := bare_prefix boundary resource in
    Ok (mkScopeTally
          (if expected then S (positives t) else positives t)
          (if expected then negatives t else S (negatives t))
          (if negb (is_empty boundary) && bool_decide (old ≠ expected) then S (disagreements t)
           else disagreements t)).

Definition check_scope (v : Json) : Check :=
  let? cases := some_cases (index v "cases") "scope vector carries no cases" in
  let? t := ofold scope_case cases (mkScopeTally 0 0 0) in
  if (positives t =? 0)%nat || (negatives t =? 0)%nat then
    err "scope vector must exercise both outcomes"
  else if (disagreements t <? 5)%nat then
    err ("scope vector must pin the sibling-capture regression class; only "
         +:+ pretty (disagreements t) +:+ " case(s) disagree with bare prefix matching")
  else
    let declared := map char_string SCOPE_SEPARATORS in
    let frozen := default [] (map str_of <$> as_array (index (index v "rule") "separators")) in
    if bool_decide (declared ≠ frozen) then err "separator set mismatch: implementation "
    else Ok tt.

  (** [n.as_u64().unwrap_or(0) as u8]: the low byte. *)
Definition low_byte (n : Json) : byte := default "000"%byte (byte_of_Z (default 0 (as_u64 n) mod 256)%Z).
Definition sig_of (doc : Json) : list byte :=
  default [] (map low_byte <$> as_array (index doc "kernel_signature")).

Definition round_case (pk : list byte) (_ : unit) (case : Json) : Check :=
  let doc := index case "document" in
  let? expected := or_err (as_bool (index case "expected_valid"))
    "roundtrip case has no boolean `expected_valid`" in
  let? parsed := or_err (vaid_deserialize (raw_of_value doc))
    "roundtrip case document does not deserialize: " in
  if bool_decide (vaid_to_value parsed ≠ doc) then err "roundtrip case "
  else
    let got := ed25519_verify pk (canonical_vaid_signing_bytes parsed) (sig_of doc) in
    if bool_decide (got ≠ expected) then err "roundtrip case " else Ok tt.

  (** The document an implementation that drops extension members would digest. *)
Definition drop_extensions (doc : Json) : Json :=
  match doc with
  | JObject m =>
      JObject (<["kernel_signature" := JNull]>
                 (filter (λ kv, starts_with "x_" kv.1 = false) m))
  | _ => doc
  end.

Definition dropping_verdict (pk : list byte) (doc : Json) : bool :=
  ed25519_verify pk (sha256 (serde_jcs_to_vec (drop_extensions doc))) (sig_of doc).

  (** [(false_negative, false_accept)] *)
Definition dropping_case (pk : list byte) (s : bool * bool) (case : Json) : bool * bool :=
  let doc := index case "document" in
  let expected := default false (as_bool (index case "expected_valid")) in
  if bool_decide (dropping_verdict pk doc ≠ expected) then
    if expected then (true, s.2) else (s.1, true)
  else s.

Definition check_roundtrip (v : Json) : Check :=
  let? cases := some_cases (index v "cases") "roundtrip vector carries no cases" in
  let? pk := unhex_at (index (index v "ed25519") "kernel_public_key_hex") in
  ofold (round_case pk) cases tt ;;?
  let '(false_negative, false_accept) := foldl (dropping_case pk) (false, false) cases in
  if negb false_negative || negb false_accept then
    err "the roundtrip vector no longer catches a dropping implementation in both directions -- its discriminating power has been weakened"
  else Ok tt.

Definition attenuation_code (reason : AttenuationReason) : string :=
  match reason with
  | Attenuated => "attenuated"
  | ScopeEscalation => "scope_escalation"
  | UnknownScopeKind => "unknown_scope_kind"
  end.

Record VerdictTally : Type := mkVerdictTally {
  standing_positives : nat;
  attenuation_positives : nat;
  standing_negatives : nat;
  attenuation_negatives : nat;
  refusal_reasons : gset string;
  exercised : gset string;
}.

Definition no_verdicts : VerdictTally := mkVerdictTally 0 0 0 0 ∅ ∅.

Definition tally (t : VerdictTally) (is_standing valid : bool) (reason expected_reason : string)
    : VerdictTally :=
  let count (b : bool) (n : nat) := if b then S n else n in
  mkVerdictTally
    (count (valid && is_standing) (standing_positives t))
    (count (valid && negb is_standing) (attenuation_positives t))
    (count (negb valid && is_standing) (standing_negatives t))
    (count (negb valid && negb is_standing) (attenuation_negatives t))
    (if valid then refusal_reasons t else {[reason]} ∪ refusal_reasons t)
    ({[expected_reason]} ∪ exercised t).

Definition revocation_of (case : Json) : option RevocationStatus :=
  match as_str (index case "revocation") with
  | Some "not_revoked" => Some NotRevoked
  | Some "revoked" => Some Revoked
  | Some "unavailable" => Some Unavailable
  | _ => None
  end.

  (** The reason and the boolean a case's surface answers; [now] is the reading
      a standing case makes. *)
Definition verdict_case_result (pk : list byte) (now : Instant) (case : Json)
    : Outcome ConformanceError (string * bool) :=
  match as_str (index case "surface") with
  | Some "standing" =>
      let? text := or_err (as_str (index case "document_json")) "standing case " in
      let? rev := or_err (revocation_of case) "standing case " in
      let verdict := verify_vaid_standing_from_json now pk text rev in
      Ok (VaidVerdict.code verdict, VaidVerdict.is_valid verdict)
  | Some "attenuation" =>
      let? parent := or_err (boundary_of (index case "parent_scope")) "attenuation case " in
      let? child := or_err (boundary_of (index case "child_scope")) "attenuation case " in
      let reason := scope_attenuation_reason parent child in
      let ok := scope_attenuates_within parent child in
      if bool_decide (ok ≠ bool_decide (reason = Attenuated)) then err "attenuation case "
      else Ok (attenuation_code reason, ok)
  | _ => err "verdict case "
  end.

Definition verdict_case (pk : list byte) (clock : nat → Instant) (s : nat * VerdictTally)
    (case : Json) : Outcome ConformanceError (nat * VerdictTally) :=
  let? expected_reason := or_err (as_str (index case "expected_reason")) "verdict case " in
  let? expected_valid := or_err (as_bool (index case "expected_valid")) "verdict case " in
  let? result := verdict_case_result pk (clock s.1) case in
  let '(reason, valid) := result in
  if bool_decide (reason ≠ expected_reason) then err "verdict case "
  else if bool_decide (valid ≠ expected_valid) then err "verdict case "
  else
    let is_standing := bool_decide (index case "surface" = JString "standing") in
    Ok (S s.1, tally s.2 is_standing expected_valid reason expected_reason).

Definition string_set (v : Json) : gset string :=
  list_to_set (map str_of (array_or_empty v)).

Definition check_verdict (clock : nat → Instant) (v : Json) : Check :=
  let? cases := some_cases (index v "cases") "verdict vector carries no cases" in
  let? pk := unhex_at (index (index v "ed25519") "kernel_public_key_hex") in
  let? s := ofold (verdict_case pk clock) cases (0, no_verdicts) in
  let t := s.2 in
  if (standing_positives t =? 0)%nat || (attenuation_positives t =? 0)%nat then
    err "the verdict vector has lost a positive control (standing and attenuation each need one) — an implementation that refused every input would pass it"
  else if (standing_negatives t =? 0)%nat || (attenuation_negatives t =? 0)%nat then
    err "the verdict vector has lost a negative case on one of its surfaces — an implementation that accepted every input would pass it"
  else if (size (refusal_reasons t) <? 2)%nat then
    err "every refusing case expects the same reason ("
  else
    let declared := string_set (index (index v "reasons") "standing") in
    let implemented : gset string := list_to_set (map VaidVerdict.code VaidVerdict.ALL) in
    if bool_decide (declared ≠ implemented) then
      err ("the verdict vector's standing vocabulary and this build's VaidVerdict disagree"
           +:+ newline +:+ "  only in the vector:         ")
    else
      let all_declared := declared ∪ string_set (index (index v "reasons") "attenuation") in
      if bool_decide (all_declared ∖ exercised t ≠ ∅) then
        err "reason(s) declared by the vector but exercised by no case: "
      else Ok tt.

Definition containment_reason (boundary : list ScopeBoundaryEntry) (got : bool) : string :=
  if negb (boundary_is_evaluable boundary) then "unknown_scope_kind"
  else if got then "contained" else "not_contained".

Definition kinds_containment_case (_ : unit) (case : Json) : Check :=
  let? boundary := or_err (boundary_of (index case "boundary")) "containment case " in
  let resource := str_of (index case "resource") in
  let? expected := or_err (as_bool (index case "expected")) "containment case " in
  let got := scope_contains boundary resource in
  if bool_decide (got ≠ expected) then err "containment case "
  else if bool_decide (containment_reason boundary got ≠ str_of (index case "expected_reason"))
  then err "containment case "
  else Ok tt.

Definition kinds_attenuation_case (_ : unit) (case : Json) : Check :=
  let? parent := or_err (boundary_of (index case "parent_scope")) "attenuation case " in
  let? child := or_err (boundary_of (index case "child_scope")) "attenuation case " in
  let reason := scope_attenuation_reason parent child in
  let ok := scope_attenuates_within parent child in
  if bool_decide (ok ≠ bool_decide (reason = Attenuated)) then err "attenuation case "
  else
    let expected_valid := default false (as_bool (index case "expected_valid")) in
    let expected_reason := str_of (index case "expected_reason") in
    if bool_decide (ok ≠ expected_valid) || bool_decide (attenuation_code reason ≠ expected_reason)
    then err "attenuation case "
    else Ok tt.

  (** The state is [parsed_controls]. *)
Definition shape_case (parsed_controls : nat) (case : Json) : Outcome ConformanceError nat :=
  let? text := or_err (as_str (index case "boundary_json")) "shape case " in
  let? raw := or_err (json_parse text) "shape case " in
  let got_reason :=
    match boundary_of (value_of_raw raw) with Some _ => "parsed" | None => "unparseable" end in
  if bool_decide (got_reason ≠ str_of (index case "expected_reason")) then err "shape case "
  else Ok (if bool_decide (got_reason = "parsed") then S parsed_controls else parsed_controls).

Definition check_scope_kinds (v : Json) : Check :=
  let? kinds := or_err (as_array (index (index v "rule") "kinds"))
    "scope-kinds vector declares no `rule.kinds`" in
  let declared : gset string := list_to_set (omap as_str kinds) in
  let built : gset string := list_to_set RECOGNISED_SCOPE_KINDS in
  if bool_decide (declared ≠ built) then
    err "recognised scope kinds disagree: vector declares "
  else
    let? a := some_cases (index v "containment_cases")
      "scope-kinds vector carries no containment_cases" in
    ofold kinds_containment_case a tt ;;?
    let? b := some_cases (index v "attenuation_cases")
      "scope-kinds vector carries no attenuation_cases" in
    ofold kinds_attenuation_case b tt ;;?
    let? c := some_cases (index v "shape_cases") "scope-kinds vector carries no shape_cases" in
    let? parsed_controls := ofold shape_case c 0 in
    if (parsed_controls <? 2)%nat then
      err "the shape surface needs at least two positive controls, one of them an              unrecognised kind — without them, refusing every boundary passes every case"
    else Ok tt.

  (** ** The table and the run *)

Definition VECTOR_CHECKS (clock : nat → Instant) : list (string * (Json → Check)) :=
  [("mint_v1.json", check_mint);
   ("mint_pop_v1.json", check_mint_pop);
   ("chain_v1.json", check_chain);
   ("chain_expiry_v1.json", check_chain_expiry);
   ("attestation_v1.json", check_attestation);
   ("scope_v1.json", check_scope);
   ("roundtrip_v1.json", check_roundtrip);
   ("verdict_v1.json", check_verdict clock);
   ("scope_kinds_v1.json", check_scope_kinds)].

  (** What the report says of a vector: its digest, or how many cases it has. *)
Definition report_digest (value : Json) : string :=
  match as_str (index value "digest_sha256_hex") with
  | Some digest => digest
  | None =>
      let counted :=
        sum_list (map length (omap (λ k, as_array (index value k))
          ["cases"; "containment_cases"; "attenuation_cases"; "shape_cases"])) in
      if (0 <? counted)%nat then pretty counted +:+ " case(s) — predicate vector, no digest"
      else "(no digest)"
  end.

  (** One embedded vector. [None] of [find] is the [expect]. *)
Definition run_vector (checks : list (string * (Json → Check))) (checked : list (string * string))
    (vector : string * string) : Outcome ConformanceError (list (string * string)) :=
  let? raw := or_err (json_parse vector.2) (vector.1 +:+ " is not valid JSON: ") in
  let value := value_of_raw raw in
  match find_check vector.1 checks with
  | None => Panicked
  | Some check => check value ;;? Ok (checked ++ [(vector.1, report_digest value)])
  end.

Definition run (clock : nat → Instant) (EMBEDDED_VECTORS : list (string * string))
    : Outcome ConformanceError (list (string * string)) :=
  check_names EMBEDDED_VECTORS (VECTOR_CHECKS clock) ;;?
  let? checked := ofold (run_vector (VECTOR_CHECKS clock)) EMBEDDED_VECTORS [] in
  Ok (sort_by line_le checked).

  (** ** Lemmas *)

Lemma some_cases_ok v message l : some_cases v message = Ok l ↔ as_array v = Some l ∧ l ≠ [].
Proof. unfold some_cases. destruct (as_array v) as [[|c cs]|]; naive_solver. Qed.

  (** A vector that passes, and its line of the report. *)
Definition vector_passes (checks : list (string * (Json → Check))) (vector : string * string) : Prop :=
  ∃ raw check, json_parse vector.2 = Some raw ∧ find_check vector.1 checks = Some check
  ∧ check (value_of_raw raw) = Ok tt.

Definition report_line (vector : string * string) : string * string :=
  (vector.1, match json_parse vector.2 with
             | Some raw => report_digest (value_of_raw raw)
             | None => ""
             end).

Lemma run_vector_ok checks checked vector r :
  run_vector checks checked vector = Ok r ↔
  vector_passes checks vector ∧ r = checked ++ [report_line vector].
Proof.
  unfold run_vector, vector_passes, report_line.
  destruct (json_parse vector.2) as [raw|]; simpl; [|naive_solver].
  destruct (find_check vector.1 checks) as [check|]; [|naive_solver].
  destruct (check (value_of_raw raw)) as [[]|e|] eqn:Hc; simpl; naive_solver congruence.
Qed.

Lemma run_vectors_ok checks l checked r :
  ofold (run_vector checks) l checked = Ok r ↔
  Forall (vector_passes checks) l ∧ r = checked ++ map report_line l.
Proof.
  revert checked. induction l as [|x l IH]; intros checked; simpl.
  - rewrite app_nil_r. naive_solver.
  - rewrite obind_ok, Forall_cons. setoid_rewrite run_vector_ok. setoid_rewrite IH. split.
    + intros (a & [Hx ->] & Hl & ->). by rewrite <- app_assoc.
    + intros [[Hx Hl] ->]. eexists. split; [done|]. by rewrite <- app_assoc.
Qed.

  (** ** Properties *)

(** A pass vouches for every vector that shipped and for nothing else: the
    firewall passes exactly when something is embedded, the embedded names are
    the names it has checks for, and every embedded vector parses and passes the
    check of its name; the report then has one line for each, in order. *)
Theorem run_spec (clock : nat → Instant) (vectors : list (string * string))
    (lines : list (string * string)) :
  run clock vectors = Ok lines ↔
  vectors ≠ [] ∧ names vectors = names (VECTOR_CHECKS clock)
  ∧ Forall (vector_passes (VECTOR_CHECKS clock)) vectors
  ∧ lines = sort_by line_le (map report_line vectors).
Proof.
  unfold run. rewrite obind_ok. setoid_rewrite check_names_ok. setoid_rewrite obind_ok.
  setoid_rewrite run_vectors_ok. simpl. naive_solver.
Qed.

  (** A case of the verdict vector on a surface, whose answer is the frozen one. *)
Definition answered (pk : list byte) (clock : nat → Instant) (cases : list Json)
    (standing valid : bool) (reason : string) : Prop :=
  ∃ i case, cases !! i = Some case
  ∧ bool_decide (index case "surface" = JString "standing") = standing
  ∧ verdict_case_result pk (clock i) case = Ok (reason, valid)
  ∧ as_str (index case "expected_reason") = Some reason
  ∧ as_bool (index case "expected_valid") = Some valid.

Lemma answered_snoc pk clock cases x s b r :
  answered pk clock cases s b r → answered pk clock (cases ++ [x]) s b r.
Proof.
  intros (i & case & Hi & H). exists i, case. split; [|done]. by apply lookup_app_l_Some.
Qed.

  (** What the tally of a run records. *)
Record tallied (pk : list byte) (clock : nat → Instant) (cases : list Json)
    (s : nat * VerdictTally) : Prop := {
  ta_count : s.1 = length cases;
  ta_agree i case : cases !! i = Some case → ∃ st b r, answered pk clock cases st b r
    ∧ verdict_case_result pk (clock i) case = Ok (r, b)
    ∧ as_str (index case "expected_reason") = Some r
    ∧ as_bool (index case "expected_valid") = Some b;
  ta_sp : standing_positives s.2 ≠ 0 → ∃ r, answered pk clock cases true true r;
  ta_ap : attenuation_positives s.2 ≠ 0 → ∃ r, answered pk clock cases false true r;
  ta_sn : standing_negatives s.2 ≠ 0 → ∃ r, answered pk clock cases true false r;
  ta_an : attenuation_negatives s.2 ≠ 0 → ∃ r, answered pk clock cases false false r;
  ta_refusal r : r ∈ refusal_reasons s.2 → ∃ st, answered pk clock cases st false r;
  ta_exercised r : r ∈ exercised s.2 → ∃ st b, answered pk clock cases st b r;
}.

Lemma verdict_case_ok pk clock s case s' :
  verdict_case pk clock s case = Ok s' →
  ∃ reason valid, verdict_case_result pk (clock s.1) case = Ok (reason, valid)
  ∧ as_str (index case "expected_reason") = Some reason
  ∧ as_bool (index case "expected_valid") = Some valid
  ∧ s' = (S s.1, tally s.2 (bool_decide (index case "surface" = JString "standing"))
                   valid reason reason).
Proof.
  unfold verdict_case. intros H. ok_inv H. ok_inv H. ok_inv H.
  repeat match goal with E : or_err _ _ = Ok _ |- _ => apply or_err_ok in E end.
  match goal with E : verdict_case_result _ _ _ = Ok ?p |- _ => destruct p as [reason valid] end.
  case_bool_decide as E1; [done|]. case_bool_decide as E2; [done|].
  subst. injection H as <-. eauto 8.
Qed.

  (** A counter of the tally: unchanged, or stepped by the new case. *)
Ltac counted Hold Hsnoc Hnew valid st :=
  let H := fresh in let r := fresh in let Ha := fresh in
  intros H; destruct valid, st; simpl in H;
  first [by eexists; apply Hnew | destruct (Hold H) as [r Ha]; exists r; by apply Hsnoc].

Lemma tallied_step pk clock cases s case s' :
  tallied pk clock cases s → verdict_case pk clock s case = Ok s' →
  tallied pk clock (cases ++ [case]) s'.
Proof.
  intros [Hn Hag Hsp Hap Hsn Han Href Hex]
    (reason & valid & Hres & Hr & Hv & ->)%verdict_case_ok.
  rewrite Hn in Hres.
  assert (answered pk clock (cases ++ [case])
            (bool_decide (index case "surface" = JString "standing")) valid reason) as Hnew.
  { exists (length cases), case. split_and!; try done. by apply list_lookup_middle. }
  revert Hnew. generalize (bool_decide (index case "surface" = JString "standing")). intros st Hnew.
  pose proof (answered_snoc pk clock cases case) as Hsnoc.
  split; simpl.
  - by rewrite Hn, length_app, Nat.add_1_r.
  - intros i c [Hi|[Hlen Hi]]%lookup_app_Some.
    + destruct (Hag i c Hi) as (st' & b & r & Ha & ?). exists st', b, r. split; [by apply Hsnoc|done].
    + apply list_lookup_singleton_Some in Hi as [Hi ->].
      assert (i = length cases) as -> by lia. exists st, valid, reason. done.
  - counted Hsp Hsnoc Hnew valid st.
  - counted Hap Hsnoc Hnew valid st.
  - counted Hsn Hsnoc Hnew valid st.
  - counted Han Hsnoc Hnew valid st.
  - intros r Hin. assert ((r = reason ∧ valid = false) ∨ r ∈ refusal_reasons s.2) as [[-> ->]|Hold]
      by (destruct valid; set_solver); [by exists st|].
    destruct (Href r Hold) as [st' Ha]. exists st'. by apply Hsnoc.
  - intros r [->%elem_of_singleton|Hin]%elem_of_union; [by exists st, valid|].
    destruct (Hex r Hin) as (st' & b & Ha). exists st', b. by apply Hsnoc.
Qed.

Lemma verdict_cases_tallied pk clock cases s :
  ofold (verdict_case pk clock) cases (0, no_verdicts) = Ok s → tallied pk clock cases s.
Proof.
  intros H. apply (ofold_ok_ind (tallied pk clock) _ _ _ _ H); [|by intros; eapply tallied_step].
  split; simpl; try done; intros r; set_solver.
Qed.

Lemma elem_of_ALL v : v ∈ VaidVerdict.ALL.
Proof. destruct v; decided. Qed.

  (** Only one of the two surfaces' reasons is shared. *)
Lemma shared_reason verdict reason :
  VaidVerdict.code verdict = attenuation_code reason → verdict = VaidVerdict.UnknownScopeKind.
Proof. by destruct verdict, reason. Qed.

Lemma attenuation_result pk now case r b :
  verdict_case_result pk now case = Ok (r, b) → index case "surface" ≠ JString "standing" →
  ∃ reason, r = attenuation_code reason.
Proof.
  unfold verdict_case_result. destruct (index case "surface"); try done. simpl. intros H Hs.
  repeat case_match; try done; simplify_eq; try (by destruct Hs).
  ok_inv H. ok_inv H. case_bool_decide; [done|]. simplify_eq. eauto.
Qed.

Lemma answered_attenuation pk clock cases b r :
  answered pk clock cases false b r → ∃ reason, r = attenuation_code reason.
Proof.
  intros (i & case & _ & Hst & Hres & _). apply bool_decide_eq_false in Hst.
  by eapply attenuation_result.
Qed.

(** C28. The verdict vector keeps its teeth: when its check passes, this build
    answers every case, under the vector's own key, with the frozen reason and
    boolean; each surface accepts
    something and refuses something; two refusals differ in reason; every verdict
    of the standing vocabulary but one is returned by some standing case, and the
    one the surfaces share, the unknown scope kind, by a case of either. *)
Theorem check_verdict_teeth (clock : nat → Instant) (v : Json)
    (Hpass : check_verdict clock v = Ok tt) :
  ∃ cases pk, as_array (index v "cases") = Some cases
  ∧ unhex_at (index (index v "ed25519") "kernel_public_key_hex") = Ok pk
  ∧ (∀ i case, cases !! i = Some case → ∃ reason valid,
       verdict_case_result pk (clock i) case = Ok (reason, valid)
       ∧ as_str (index case "expected_reason") = Some reason
       ∧ as_bool (index case "expected_valid") = Some valid)
  ∧ (∀ standing valid, ∃ reason, answered pk clock cases standing valid reason)
  ∧ (∃ s s' r r', r ≠ r' ∧ answered pk clock cases s false r ∧ answered pk clock cases s' false r')
  ∧ (∀ verdict, ∃ standing valid,
       answered pk clock cases standing valid (VaidVerdict.code verdict)
       ∧ (verdict ≠ VaidVerdict.UnknownScopeKind → standing = true)).
Proof.
  unfold check_verdict in Hpass. ok_inv Hpass. ok_inv Hpass. ok_inv Hpass.
  repeat match goal with
  | H : some_cases _ _ = Ok ?l |- _ => apply some_cases_ok in H as [Hcases _]; rename l into cases
  | H : ofold _ _ _ = Ok ?t |- _ => apply verdict_cases_tallied in H as Ht; clear H; rename t into s
  | H : unhex_at _ = Ok ?k |- _ => rename H into Hpk; rename k into pk
  end.
  destruct Ht as [_ Hag Hsp Hap Hsn Han Href Hex].
  destruct (_ || _) eqn:E1 in Hpass; [done|]. destruct (_ || _) eqn:E2 in Hpass; [done|].
  destruct (_ <? _)%nat eqn:E3 in Hpass; [done|]. cbv zeta in Hpass.
  case_bool_decide as E4; [done|]. case_bool_decide as E5; [done|].
  apply orb_false_iff in E1 as [E11%Nat.eqb_neq E12%Nat.eqb_neq].
  apply orb_false_iff in E2 as [E21%Nat.eqb_neq E22%Nat.eqb_neq].
  apply Nat.ltb_ge in E3. exists cases, pk. split_and!; [done|exact Hpk|..].
  - intros i case Hi. destruct (Hag i case Hi) as (_ & b & r & _ & H). by exists r, b.
  - intros [] []; auto.
  - destruct (size_ge_2 _ E3) as (r & r' & Hne & Hr & Hr').
    destruct (Href r Hr) as [st Ha], (Href r' Hr') as [st' Ha']. by exists st, st', r, r'.
  - intros verdict. destruct (Hex (VaidVerdict.code verdict)) as (st & b & Ha).
    { assert (VaidVerdict.code verdict ∈ string_set (index (index v "reasons") "standing")) as Hd.
      { rewrite E4. apply elem_of_list_to_set, list_elem_of_fmap_2, elem_of_ALL. }
      destruct (decide (VaidVerdict.code verdict ∈ exercised s.2)) as [|Hn]; [done|].
      assert (VaidVerdict.code verdict ∈ (∅ : gset string)) as []%not_elem_of_empty.
      rewrite <- E5. apply elem_of_difference. split; [|done]. by apply elem_of_union_l. }
    exists st, b. split; [done|]. intros Hne. destruct st; [done|].
    destruct (answered_attenuation _ _ _ _ _ Ha) as [reason Hr].
    by destruct Hne; eapply shared_reason.
Qed.

  (** A case on which the frozen answer is not that of a bare prefix match. *)
Definition disagrees (case : Json) : bool :=
  match boundary_of (index case "boundary"), as_bool (index case "expected") with
  | Some b, Some e => negb (is_empty b) && bool_decide (bare_prefix b (str_of (index case "resource")) ≠ e)
  | _, _ => false
  end.

Definition scope_answer (case : Json) (answer : bool) : Prop :=
  ∃ b, boundary_of (index case "boundary") = Some b
  ∧ as_bool (index case "expected") = Some answer
  ∧ scope_contains b (str_of (index case "resource")) = answer.

Lemma scope_case_ok t case t' :
  scope_case t case = Ok t' →
  ∃ answer, scope_answer case answer
  ∧ positives t' = (if answer then S (positives t) else positives t)
  ∧ negatives t' = (if answer then negatives t else S (negatives t))
  ∧ disagreements t' = if disagrees case then S (disagreements t) else disagreements t.
Proof.
  unfold scope_case, scope_answer, disagrees. intros H. ok_inv H. ok_inv H.
  repeat match goal with E : or_err _ _ = Ok _ |- _ => apply or_err_ok in E; rewrite E end.
  case_bool_decide as E1; [done|]. injection H as <-. simpl. eauto 8.
Qed.

Record scope_tallied (cases : list Json) (t : ScopeTally) : Prop := {
  st_all : Forall (λ case, ∃ answer, scope_answer case answer) cases;
  st_pos : positives t ≠ 0 → Exists (λ case, scope_answer case true) cases;
  st_neg : negatives t ≠ 0 → Exists (λ case, scope_answer case false) cases;
  st_dis : disagreements t = length (List.filter disagrees cases);
}.

Lemma scope_tallied_step cases t case t' :
  scope_tallied cases t → scope_case t case = Ok t' → scope_tallied (cases ++ [case]) t'.
Proof.
  intros [Hall Hpos Hneg Hdis] (answer & Ha & Hp & Hn & Hd)%scope_case_ok. split.
  - apply Forall_app. split; [done|]. repeat constructor. by exists answer.
  - rewrite Hp, Exists_app. destruct answer; [by right; constructor|]. intros H. left. by apply Hpos.
  - rewrite Hn, Exists_app. destruct answer; [|by right; constructor]. intros H. left. by apply Hneg.
  - rewrite Hd, List.filter_app, length_app, <- Hdis. simpl. destruct (disagrees case); simpl; lia.
Qed.

(** The scope vector keeps its teeth: when its check passes, the matcher
    answers every case as frozen, both answers occur, the separators are the
    matcher's, and on at least five cases a bare prefix match is wrong. *)
Theorem check_scope_teeth (v : Json) (Hpass : check_scope v = Ok tt) :
  ∃ cases, as_array (index v "cases") = Some cases
  ∧ Forall (λ case, ∃ answer, scope_answer case answer) cases
  ∧ Exists (λ case, scope_answer case true) cases
  ∧ Exists (λ case, scope_answer case false) cases
  ∧ 5 ≤ length (List.filter disagrees cases)
  ∧ map str_of <$> as_array (index (index v "rule") "separators")
    = Some (map char_string SCOPE_SEPARATORS).
Proof.
  unfold check_scope in Hpass. ok_inv Hpass. ok_inv Hpass.
  repeat match goal with
  | H : some_cases _ _ = Ok ?l |- _ => apply some_cases_ok in H as [Hcases _]; rename l into cases
  | H : ofold _ _ _ = Ok ?t |- _ =>
      apply (ofold_ok_ind scope_tallied) in H;
        [destruct H as [Hall Hpos Hneg Hdis]|by split|by intros; eapply scope_tallied_step]
  end.
  destruct (_ || _) eqn:E1 in Hpass; [done|]. destruct (_ <? _)%nat eqn:E2 in Hpass; [done|].
  cbv zeta in Hpass. case_bool_decide as E3; [done|].
  apply orb_false_iff in E1 as [E11%Nat.eqb_neq E12%Nat.eqb_neq]. apply Nat.ltb_ge in E2.
  exists cases. split_and!; auto; [by rewrite <- Hdis|].
  destruct (as_array (index (index v "rule") "separators")) as [l|]; [|done].
  simpl in *. by rewrite E3.
Qed.

  (** ** The round-trip vector *)

Lemma low_byte_ser b : low_byte (ser_byte b) = b.
Proof.
  unfold low_byte, ser_byte. simpl. pose proof (byte_Z_bounds b).
  rewrite Z.mod_small by lia. by rewrite byte_of_Z_byte.
Qed.

  (** The signature the check reads is the document's. *)
Lemma sig_of_document d : vaid_wf d → sig_of (vaid_to_value d) = vd_kernel_signature d.
Proof.
  intros Hwf. unfold sig_of, vaid_to_value, index. rewrite vaid_to_value_known by (done || decided).
  destruct (known_value_fields d) as (_ & _ & _ & _ & _ & _ & _ & _ & _ & -> & _). simpl.
  rewrite map_map. rewrite <- (map_id (vd_kernel_signature d)) at 2.
  apply map_ext. apply low_byte_ser.
Qed.

  (** A case that is reproduced, and whose signature verifies as frozen. *)
Definition round_answer (pk : list byte) (case : Json) (answer : bool) : Prop :=
  ∃ d, vaid_deserialize (raw_of_value (index case "document")) = Some d
  ∧ vaid_to_value d = index case "document"
  ∧ as_bool (index case "expected_valid") = Some answer
  ∧ ed25519_verify pk (canonical_vaid_signing_bytes d) (vd_kernel_signature d) = answer.

Lemma round_case_ok pk case u :
  round_case pk u case = Ok tt → ∃ answer, round_answer pk case answer.
Proof.
  unfold round_case, round_answer. intros H. ok_inv H. ok_inv H.
  repeat match goal with E : or_err _ _ = Ok _ |- _ => apply or_err_ok in E end.
  case_bool_decide as E1; [done|]. case_bool_decide as E2; [done|].
  match goal with E : vaid_deserialize _ = Some ?d |- _ => pose proof (deserialized_wf _ _ E) as Hwf;
    rewrite <- E1, (sig_of_document d Hwf) in E2 end. eauto 8.
Qed.

Lemma dropping_cases_spec pk cases :
  let s := foldl (dropping_case pk) (false, false) cases in
  (s.1 = true → Exists (λ case, as_bool (index case "expected_valid") = Some true
                              ∧ dropping_verdict pk (index case "document") = false) cases)
  ∧ (s.2 = true → Exists (λ case, as_bool (index case "expected_valid") ≠ Some true
                                ∧ dropping_verdict pk (index case "document") = true) cases).
Proof.
  induction cases as [|case cases IH] using rev_ind; [done|]. rewrite foldl_app. cbn [foldl].
  rewrite !Exists_app. destruct (foldl _ _ cases) as [fn fa]. simpl in IH. destruct IH as [IH1 IH2].
  unfold dropping_case. cbv zeta. case_bool_decide as Hd; [|simpl; by split; intros H; left; auto].
  destruct (as_bool (index case "expected_valid")) as [[]|] eqn:He; simpl in *;
    apply not_eq_sym, not_true_iff_false in Hd || apply not_eq_sym, not_false_iff_true in Hd || idtac.
  all: split; intros H; try (by left; auto); right; constructor; split; try done; try congruence.
  all: by destruct (dropping_verdict _ _).
Qed.

(** C30. The round-trip vector keeps its teeth: when its check passes, every
    case's document is reproduced by deserializing and serializing it and its own
    signature verifies under the vector's own key exactly when frozen so, while an implementation that drops
    extension members refuses a valid document of the vector and accepts a
    tampered one. *)
Theorem check_roundtrip_teeth (v : Json) (Hpass : check_roundtrip v = Ok tt) :
  ∃ cases pk, as_array (index v "cases") = Some cases
  ∧ unhex_at (index (index v "ed25519") "kernel_public_key_hex") = Ok pk
  ∧ Forall (λ case, ∃ answer, round_answer pk case answer) cases
  ∧ Exists (λ case, round_answer pk case true
                    ∧ dropping_verdict pk (index case "document") = false) cases
  ∧ Exists (λ case, round_answer pk case false
                    ∧ dropping_verdict pk (index case "document") = true) cases.
Proof.
  unfold check_roundtrip in Hpass. ok_inv Hpass. ok_inv Hpass. ok_inv Hpass.
  match goal with H : some_cases _ _ = Ok ?l |- _ =>
    apply some_cases_ok in H as [Hcases _]; rename l into cases end.
  match goal with H : unhex_at _ = Ok ?k |- _ => rename H into Hpk; rename k into pk end.
  match goal with H : ofold _ _ _ = Ok ?u |- _ => destruct u;
    apply (ofold_ok_ind (λ l _, Forall (λ case, ∃ answer, round_answer pk case answer) l)) in H as Hall;
    [|done|intros dn case [] [] Hd Hc; apply Forall_app; split; [done|];
      constructor; [by eapply round_case_ok|done]] end.
  pose proof (dropping_cases_spec pk cases) as Hdrop. cbv zeta in Hdrop.
  destruct (foldl _ _ cases) as [fn fa]. simpl in *. destruct fn, fa; try done.
  destruct Hdrop as [Hfn Hfa]. specialize (Hfn eq_refl). specialize (Hfa eq_refl).
  exists cases, pk. split_and!; [done..| |].
  - apply Exists_exists in Hfn as (case & Hin & He & Hd). apply Exists_exists. exists case.
    split; [done|]. split; [|done]. rewrite Forall_forall in Hall.
    destruct (Hall case Hin) as (answer & d & Hde & Hval & Hexp & Hver). exists d.
    assert (answer = true) as -> by congruence. done.
  - apply Exists_exists in Hfa as (case & Hin & He & Hd). apply Exists_exists. exists case.
    split; [done|]. split; [|done]. rewrite Forall_forall in Hall.
    destruct (Hall case Hin) as (answer & d & Hde & Hval & Hexp & Hver). exists d.
    assert (answer = false) as -> by (destruct answer; congruence). done.
Qed.

  (** ** Hexadecimal and the chain vector *)

Lemma to_hex_boundary l : at_boundary (to_hex l) = true.
Proof. destruct l as [|b l]; [done|]. by destruct b. Qed.

Lemma hex_pairs_to_hex {E} l : hex_pairs (to_hex l) = Ok (E := E) (map Some l).
Proof.
  induction l as [|b l IH]; [done|]. simpl to_hex. unfold hex_pairs; fold (@hex_pairs E).
  pose proof (to_hex_boundary l) as Hb. destruct b; simpl; by rewrite Hb, IH.
Qed.

(** Hexadecimal text is read back: what [to_hex] writes, [unhex] reads. *)
Theorem unhex_to_hex (l : list byte) : unhex (to_hex l) = Ok l.
Proof.
  unfold unhex. rewrite hex_pairs_to_hex. cbn [obind]. f_equal.
  induction l as [|b l IH]; [done|]. change (b :: omap id (map Some l) = b :: l). by rewrite IH.
Qed.

  (** A frozen entry re-derived: its document, signed under the vector's key. *)
Definition entry_pinned (kp : KeyPair) (entry : Json) (d : Vaid) : Prop :=
  ∃ unsigned, vaid_deserialize (raw_of_value (index entry "document")) = Some unsigned
  ∧ d = with_kernel_signature unsigned (kp_sign kp (canonical_vaid_signing_bytes unsigned))
  ∧ str_of (index entry "digest_sha256_hex") = to_hex (canonical_vaid_signing_bytes unsigned)
  ∧ str_of (index entry "signature_hex") = to_hex (vd_kernel_signature d).

Lemma chain_entry_ok kp l1 l2 msg docs entry docs' :
  chain_entry kp l1 l2 msg docs entry = Ok docs' →
  ∃ d, docs' = docs ++ [d] ∧ entry_pinned kp entry d.
Proof.
  unfold chain_entry, entry_pinned. intros H. ok_inv H. cbv zeta in H. ok_inv H. ok_inv H. ok_inv H.
  repeat match goal with
  | E : or_err _ _ = Ok _ |- _ => apply or_err_ok in E
  | E : assert_hex _ _ _ = Ok _ |- _ => apply assert_hex_ok in E
  end.
  match goal with E : to_hex (kp_sign _ _) = _, U : unhex_at _ = Ok ?x |- _ =>
    unfold unhex_at in U; rewrite <- E, unhex_to_hex in U; injection U as <- end.
  injection H as <-. eexists. split; [reflexivity|]. eexists. split_and!; [done|reflexivity|done..].
Qed.

Lemma chain_entries_ok kp (l1 l2 msg : Json → string) entries docs :
  ofold (λ docs entry, chain_entry kp (l1 entry) (l2 entry) (msg entry) docs entry) entries []
  = Ok docs → Forall2 (entry_pinned kp) entries docs.
Proof.
  intros H. apply (ofold_ok_ind (Forall2 (entry_pinned kp)) _ _ _ _ H); [constructor|].
  intros dn x b1 b2 Hd (d & -> & Hp)%chain_entry_ok. apply Forall2_app; [done|]. by repeat constructor.
Qed.

Lemma entries_verify `{!CryptoLaws} kp entries docs :
  Forall2 (entry_pinned kp) entries docs →
  Forall (λ d, ed25519_verify (kp_public_key kp) (canonical_vaid_signing_bytes d)
                 (vd_kernel_signature d) = true) docs.
Proof.
  induction 1 as [|entry d es ds (u & Hu & -> & _) _ IH]; constructor; [|done].
  rewrite canonical_with_signature by by eapply deserialized_wf. apply ed25519_verify_sign.
Qed.

(** The chain vector pins the walk: when its check passes, every entry is
    re-derived under the vector's key and its signature verifies under that key,
    and the verifier's verdict on the last document, with all of them presented,
    at the instant the vector states, is the frozen one. *)
Theorem check_chain_pins `{!CryptoLaws} (v : Json) (Hpass : check_chain v = Ok tt) :
  ∃ kp entries docs leaf instant verdict,
  as_array (index v "chain") = Some entries ∧ Forall2 (entry_pinned kp) entries docs
  ∧ Forall (λ d, ed25519_verify (kp_public_key kp) (canonical_vaid_signing_bytes d)
                   (vd_kernel_signature d) = true) docs
  ∧ last docs = Some leaf
  ∧ instant_of (index (index v "expected") "verification_instant") = Some instant
  ∧ verify_chain_at (single_kernel_key_new (kp_public_key kp)) leaf (presented_bundle_new docs)
      attestation_bundle_empty instant = Ok verdict
  ∧ verdict_name verdict = str_of (index (index v "expected") "verification").
Proof.
  unfold check_chain in Hpass. do 4 ok_inv Hpass. cbv zeta in Hpass. do 4 ok_inv Hpass.
  case_bool_decide as Hwant; [done|].
  repeat match goal with E : or_err _ _ = Ok _ |- _ => apply or_err_ok in E end.
  match goal with E : ofold _ _ _ = Ok ?docs |- _ =>
    apply (chain_entries_ok _ (λ e, "chain hop " +:+ role_of e +:+ " digest")
             (λ e, "chain hop " +:+ role_of e +:+ " signature")
             (λ _, "vector document is not a valid VAID: ")) in E as Hdocs end.
  match goal with E : verdict_of _ _ _ _ = Ok _ |- _ => unfold verdict_of in E;
    destruct (verify_chain_at _ _ _ _ _) as [verdict|[]|] eqn:Hver in E; [|done];
    injection E as <- end.
  eexists _, _, _, _, _, verdict. split_and!; [eassumption|exact Hdocs| |eassumption..|exact Hwant].
  by eapply entries_verify.
Qed.

End Firewall.

(** ** Witnesses: small vectors that pass *)

Module FirewallSamples.

Definition passes {E A} (o : Outcome E A) : bool := match o with Ok _ => true | _ => false end.

Lemma passes_ok {E} (o : Outcome E unit) : passes o = true → o = Ok tt.
Proof. by destruct o as [[]| |]. Qed.

Definition object (l : list (string * Json)) : Json := JObject (list_to_map l).
Definition entry (p : string) : Json := entry_serialize (entry_prefix p).

(** *** A scope vector: five siblings and one resource inside *)

Definition scope_sample_case (boundary resource : string) (expected : bool) : Json :=
  object [("boundary", JArray [entry boundary]); ("resource", JString resource);
          ("expected", JBool expected)].

Definition scope_vector : Json :=
  object [("cases", JArray
    [scope_sample_case "data" "data/eu" true; scope_sample_case "data" "data-eu" false;
     scope_sample_case "data" "database" false; scope_sample_case "a.b" "a.bc" false;
     scope_sample_case "a" "ab" false; scope_sample_case "x/y" "x/yz" false]);
    ("rule", object [("separators", JArray [JString "/"; JString "."])])].

Lemma check_scope_teeth_witness :
  ∃ cases, as_array (index scope_vector "cases") = Some cases
  ∧ 5 ≤ length (List.filter disagrees cases).
Proof.
  destruct (check_scope_teeth scope_vector) as (cases & Hc & _ & _ & _ & Hd & _).
  - apply passes_ok. vm_compute. reflexivity.
  - exists cases. split; assumption.
Defined.

(** *** Documents of one kernel key *)

Definition kernel : list byte := replicate 32 "107"%byte.
Definition document (version : Z) (domain hash : string) (scope : list ScopeBoundaryEntry)
    (expires : Z) (key : list byte) : Vaid :=
  let d := @with_lineage (concrete no_json) (AgentId_from_uuid 1%N) (mkAgentClass "worker") "1"
             (mkTenantId "acme") 0%Z (expires * NANOS)%Z [] [] None scope
             hash [] domain (@kernel_key_thumbprint (concrete no_json) key) in
  let v := mkVaid version (vd_vaid_id d) (vd_agent_id d) (vd_agent_class d) (vd_version d)
             (vd_tenant_id d) (vd_issued_at d) (vd_expires_at d) (vd_public_key_der d) []
             (vd_parent_vaid d) (vd_scope_boundary d) (vd_lineage_hash d) (vd_capability_set d)
             (vd_trust_domain d) (vd_kernel_key_thumbprint d) ∅ in
  with_kernel_signature v (kernel ++ @canonical_vaid_signing_bytes (concrete no_json) v).

Definition good_hash : string :=
  @compute_lineage_hash (concrete no_json) None (AgentId_from_uuid 1%N).
Definition good : Vaid := document 4 "a.example" good_hash [] 100 kernel.

(** *** A round-trip vector: an extension signed, and one added after signing *)

Definition extended (d : Vaid) : Vaid :=
  mkVaid (vd_sig_version d) (vd_vaid_id d) (vd_agent_id d) (vd_agent_class d) (vd_version d)
    (vd_tenant_id d) (vd_issued_at d) (vd_expires_at d) (vd_public_key_der d)
    (vd_kernel_signature d) (vd_parent_vaid d) (vd_scope_boundary d) (vd_lineage_hash d)
    (vd_capability_set d) (vd_trust_domain d) (vd_kernel_key_thumbprint d)
    {["x_note" := JBool true]}.

Definition tampered : Vaid := extended good.
Definition signed_extension : Vaid :=
  with_kernel_signature tampered (kernel ++ @canonical_vaid_signing_bytes (concrete no_json) tampered).

Definition round_sample_case (d : Vaid) (expected : bool) : Json :=
  object [("document", vaid_to_value d); ("expected_valid", JBool expected)].

Definition round_vector : Json :=
  object [("cases", JArray [round_sample_case signed_extension true;
                            round_sample_case tampered false]);
          ("ed25519", object [("kernel_public_key_hex", JString (to_hex kernel))])].

Lemma check_roundtrip_teeth_witness :
  ∃ cases pk, as_array (index round_vector "cases") = Some cases
  ∧ Exists (λ case, @dropping_verdict (concrete no_json) pk (index case "document") = true) cases.
Proof.
  destruct (@check_roundtrip_teeth (concrete no_json) round_vector)
    as (cases & pk & Hc & _ & _ & _ & Hd).
  - apply passes_ok. vm_compute. reflexivity.
  - exists cases, pk. split; [assumption|]. eapply Exists_impl; [exact Hd|]. intros case [_ H]. exact H.
Defined.

(** *** A chain vector: a root alone *)

Definition chain_entries : Json :=
  JArray [object
    [("_role", JString "root"); ("document", vaid_to_value (with_kernel_signature good []));
     ("digest_sha256_hex",
      JString (to_hex (@canonical_vaid_signing_bytes (concrete no_json) good)));
     ("signature_hex", JString (to_hex (vd_kernel_signature good)))]].

Definition chain_expected : Json :=
  object [("verification", JString "attenuated");
          ("verification_instant", JString (e6_print 10%Z))].

Definition chain_vector : Json :=
  object [("chain", chain_entries); ("expected", chain_expected);
          ("ed25519", object [("kernel_private_key_seed_hex", JString (to_hex kernel))]);
          ("digest_sha256_hex", JString (to_hex (json_bytes
             (object [("chain", chain_entries); ("expected", chain_expected)]))))].

Lemma check_chain_pins_witness :
  ∃ (kp : @KeyPair (@ext_crypto (concrete no_json))) docs leaf instant verdict,
  last docs = Some leaf
  ∧ @verify_chain_at (concrete no_json) _ _ (@single_kernel_key_new (concrete no_json) kp) leaf
      (presented_bundle_new docs) attestation_bundle_empty instant = Ok verdict
  ∧ verdict_name verdict = str_of (index chain_expected "verification").
Proof.
  destruct (@check_chain_pins (concrete no_json) _ chain_vector)
    as (kp & entries & docs & leaf & instant & verdict & _ & _ & _ & Hl & _ & Hv & Hn).
  - apply passes_ok. vm_compute. reflexivity.
  - exists kp, docs, leaf, instant, verdict. split; [exact Hl|]. split; [exact Hv|exact Hn].
Defined.

(** *** A verdict vector with no standing case of an unknown scope kind *)

Definition standing_documents : list (string * Vaid) :=
  [("valid", good);
   ("unsupported_sig_version", document 3 "a.example" good_hash [] 100 kernel);
   ("malformed_trust_domain", document 4 "A" good_hash [] 100 kernel);
   ("issuer_mismatch", document 4 "a.example" good_hash [] 100 (string_bytes "other"));
   ("lineage_inconsistent", document 4 "a.example" "00" [] 100 kernel);
   ("inauthentic", with_kernel_signature good []);
   ("expired", document 4 "a.example" good_hash [] (-100) kernel)].

Definition texts : string → option RawJson := λ s,
  d ← find_check s standing_documents; Some (raw_of_value (vaid_to_value d)).

Definition standing_case (name text revocation : string) : Json :=
  object [("surface", JString "standing"); ("document_json", JString text);
          ("revocation", JString revocation); ("expected_reason", JString name);
          ("expected_valid", JBool (bool_decide (name = "valid")))].

Definition attenuation_case (name : string) (parent child : list ScopeBoundaryEntry) : Json :=
  object [("surface", JString "attenuation"); ("parent_scope", ser_boundary parent);
          ("child_scope", ser_boundary child); ("expected_reason", JString name);
          ("expected_valid", JBool (bool_decide (name = "attenuated")))].

Definition verdict_sample_cases : list Json :=
  map (λ p, standing_case p.1 p.1 "not_revoked") standing_documents
  ++ [standing_case "unparseable" "nothing" "not_revoked";
      standing_case "revoked" "valid" "revoked";
      standing_case "indeterminate" "valid" "unavailable";
      attenuation_case "attenuated" [entry_prefix "a"] [entry_prefix "a/b"];
      attenuation_case "scope_escalation" [entry_prefix "a"] [entry_prefix "c"];
      attenuation_case "unknown_scope_kind" [mkEntry "amount" JNull] []].

Definition verdict_vector : Json :=
  object [("cases", JArray verdict_sample_cases);
          ("ed25519", object [("kernel_public_key_hex", JString (to_hex kernel))]);
          ("reasons", object
             [("standing", JArray (map (λ v, JString (VaidVerdict.code v)) VaidVerdict.ALL));
              ("attenuation", JArray (map JString
                 ["attenuated"; "scope_escalation"; "unknown_scope_kind"]))])].

Lemma verdict_vector_passes :
  @check_verdict (concrete texts) (λ _, 0%Z) verdict_vector = Ok tt.
Proof. apply passes_ok. vm_compute. reflexivity. Qed.

Lemma check_verdict_teeth_witness :
  ∃ cases pk, as_array (index verdict_vector "cases") = Some cases
  ∧ ∀ verdict, ∃ standing valid,
      @answered (concrete texts) pk (λ _, 0%Z) cases standing valid (VaidVerdict.code verdict).
Proof.
  destruct (@check_verdict_teeth (concrete texts) (λ _, 0%Z) verdict_vector verdict_vector_passes)
    as (cases & pk & Hc & _ & _ & _ & _ & Hall).
  exists cases, pk. split; [assumption|]. intros verdict.
  destruct (Hall verdict) as (s & b & Ha & _). exists s, b. exact Ha.
Defined.

(** The one verdict the check lets go unexercised: a vector passes although no
    standing case expects an unknown scope kind, because an attenuation case's
    reason of the same spelling is counted for it. *)
Theorem verdict_vector_gap :
  ∃ parse clock v cases, @check_verdict (concrete parse) clock v = Ok tt
  ∧ as_array (index v "cases") = Some cases
  ∧ Forall (λ case, index case "surface" = JString "standing" →
              as_str (index case "expected_reason")
              ≠ Some (VaidVerdict.code VaidVerdict.UnknownScopeKind)) cases.
Proof.
  exists texts, (λ _, 0%Z), verdict_vector, verdict_sample_cases.
  split; [exact verdict_vector_passes|]. split; [reflexivity|].
  unfold verdict_sample_cases. simpl. repeat constructor; by intros.
Qed.

End FirewallSamples.
