(* ===== verification/PopFirewall.v ===== *)
(** * The proof-of-possession crate's conformance firewall

    [crates/vaid-pop/src/bin/conformance.rs]: the four checks of its two vectors
    and [run].  The embedded vectors are an argument. *)

From stdpp Require Import pretty.
From Stdlib Require Import Sorting.Sorted.
From S2P Require Import Prelude Json Externals Concrete Identity Scope IssuerIdentity Document.
From S2P Require Import Pop Wire Vectors.

Section PopFirewall.
  Context {Ext : Externals}.

#[local] Notation assert_hex := (assert_hex " — BLOCKER").

  (** [.expect(..)]: what is not hexadecimal is a panic. *)
Definition unhex (s : string) : Outcome ConformanceError (list byte) :=
  let? pairs := hex_pairs s in
  match mapM id pairs with Some bytes => Ok bytes | None => Panicked end.

Definition parse (label json : string) : Outcome ConformanceError Json :=
  let? raw := or_err (json_parse json) (label +:+ " vector does not parse — BLOCKER: ") in
  Ok (value_of_raw raw).

Definition seed_keypair (v : Json) : Outcome ConformanceError KeyPair :=
  let? text := or_err (as_str (index (index v "ed25519") "private_key_seed_hex"))
    "vector missing ed25519 seed — BLOCKER" in
  let? seed := unhex text in
  or_err (kp_from_seed_unchecked seed) "frozen seed is not a valid key — BLOCKER: ".

Definition check_operator_digest (v : Json) : Check :=
  let? payload := or_err (request_deserialize (raw_of_value (index v "input")))
    "vector input does not deserialize into a real RequestAuthPayload — BLOCKER: " in
  let digest := canonical_request_signing_bytes payload in
  if bool_decide (length digest ≠ 32) then
    err ("digest is " +:+ pretty (length digest) +:+ " bytes, expected 32 — BLOCKER")
  else
    assert_hex "operator canonical digest" (to_hex digest) (str_of (index v "digest_sha256_hex")).

Definition check_operator_signature (v : Json) : Check :=
  let? kp := seed_keypair v in
  assert_hex "operator public key" (to_hex (kp_public_key kp))
    (str_of (index (index v "ed25519") "public_key_hex")) ;;?
  let? payload := or_err (request_deserialize (raw_of_value (index v "input")))
    "vector input invalid — BLOCKER: " in
  let digest := canonical_request_signing_bytes payload in
  assert_hex "operator signature" (to_hex (kp_sign kp digest))
    (str_of (index (index v "ed25519") "signature_hex")).

Definition check_completion (v : Json) : Check :=
  let? rec := or_err (completion_deserialize (raw_of_value (index v "input")))
    "vector input does not deserialize into a real CompletionRecord — BLOCKER: " in
  let digest := canonical_request_signing_bytes rec in
  assert_hex "completion digest" (to_hex digest) (str_of (index v "digest_sha256_hex")) ;;?
  let? kp := seed_keypair v in
  assert_hex "completion signature" (to_hex (kp_sign kp digest))
    (str_of (index (index v "ed25519") "signature_hex")).

Definition check_assurance_tiers (v : Json) : Check :=
  let? strings := or_err (as_array (index v "assurance_tier_strings"))
    "vector missing assurance_tier_strings — BLOCKER" in
  let frozen := map str_of strings in
  let serialized := map tier_name [SelfReported; CounterSigned; ThirdPartyAttested] in
  if bool_decide (serialized ≠ frozen) then
    err ("AssuranceTier strings diverged from the frozen vector — BLOCKER" +:+ newline
         +:+ "  got    = ")
  else Ok tt.

Definition VECTOR_CHECKS : list (string * list (Json → Check)) :=
  [("operator_pop_v1.json", [check_operator_digest; check_operator_signature]);
   ("completion_v1.json", [check_completion; check_assurance_tiers])].

Definition run_vector (checked : list (string * string)) (vector : string * string)
    : Outcome ConformanceError (list (string * string)) :=
  let? value := parse vector.1 vector.2 in
  match find_check vector.1 VECTOR_CHECKS with
  | None => Panicked
  | Some checks =>
      ofold (λ _ (check : Json → Check), check value) checks tt ;;?
      Ok (checked ++ [(vector.1,
            default "(no digest)" (as_str (index value "digest_sha256_hex")))])
  end.

Definition run (EMBEDDED_VECTORS : list (string * string))
    : Outcome ConformanceError (list (string * string)) :=
  check_names EMBEDDED_VECTORS VECTOR_CHECKS ;;?
  let? checked := ofold run_vector EMBEDDED_VECTORS [] in
  Ok (sort_by line_le checked).

  (** ** Lemmas *)

Definition report_line (vector : string * string) (value : Json) : string * string :=
  (vector.1, default "(no digest)" (as_str (index value "digest_sha256_hex"))).

Definition vector_passes (vector : string * string) (line : string * string) : Prop :=
  ∃ value checks, parse vector.1 vector.2 = Ok value
  ∧ find_check vector.1 VECTOR_CHECKS = Some checks
  ∧ Forall (λ check : Json → Check, check value = Ok tt) checks
  ∧ line = report_line vector value.

Lemma checks_ok (value : Json) (checks : list (Json → Check)) :
  ofold (λ _ (check : Json → Check), check value) checks tt = Ok tt ↔
  Forall (λ check : Json → Check, check value = Ok tt) checks.
Proof.
  induction checks as [|check checks IH]; simpl; [by split|].
  rewrite Forall_cons, obind_ok, <- IH. split; [intros ([] & ? & ?)|intros []]; eauto.
Qed.

Lemma pop_run_vector_ok checked vector r :
  run_vector checked vector = Ok r ↔ ∃ line, vector_passes vector line ∧ r = checked ++ [line].
Proof.
  unfold run_vector, vector_passes. destruct (parse _ _) as [value|e|]; cbn [obind]; [|naive_solver..].
  destruct (find_check vector.1 VECTOR_CHECKS) as [checks|];
    [|split; [done|]; by intros (line & (v & c & _ & [=] & _) & _)].
  rewrite obind_ok. split.
  - intros ([] & Hc%checks_ok & [= <-]). eauto 10.
  - intros (line & (v & c & [= <-] & [= <-] & Hc%checks_ok & ->) & ->). by exists tt.
Qed.

Lemma pop_run_vectors_ok l checked r :
  ofold run_vector l checked = Ok r ↔
  ∃ lines, Forall2 vector_passes l lines ∧ r = checked ++ lines.
Proof.
  revert checked. induction l as [|x l IH]; intros checked; simpl.
  - split; [intros [= <-]; exists []; by rewrite app_nil_r|].
    intros (lines & ->%Forall2_nil_inv_l & ->). by rewrite app_nil_r.
  - rewrite obind_ok. setoid_rewrite pop_run_vector_ok. setoid_rewrite IH. split.
    + intros (a & (line & Hx & ->) & lines & Hl & ->). exists (line :: lines).
      split; [by constructor|]. by rewrite <- app_assoc.
    + intros (lines & (line & ls & Hx & Hl & ->)%Forall2_cons_inv_l & ->).
      eexists. split; [by eauto|]. exists ls. split; [done|]. by rewrite <- app_assoc.
Qed.

  (** What a passing vector pins: the value [T] it carries, its digest, and
      under the frozen key its public half and its signature. *)
Record pinned {T} `{Serialize T} (f : RawJson → option T) (v : Json) (payload : T)
    (kp : KeyPair) : Prop := {
  pi_seed : seed_keypair v = Ok kp;
  pi_payload : f (raw_of_value (index v "input")) = Some payload;
  pi_digest : str_of (index v "digest_sha256_hex") = to_hex (canonical_request_signing_bytes payload);
  pi_signature :
    str_of (index (index v "ed25519") "signature_hex") = to_hex (sign_payload payload kp);
}.

Lemma check_operator_pinned v :
  check_operator_digest v = Ok tt → check_operator_signature v = Ok tt →
  ∃ p kp, pinned request_deserialize v p kp
  ∧ length (canonical_request_signing_bytes p) = 32
  ∧ str_of (index (index v "ed25519") "public_key_hex") = to_hex (kp_public_key kp).
Proof.
  unfold check_operator_digest, check_operator_signature. intros Hd Hs.
  ok_inv Hd. cbv zeta in Hd. case_bool_decide as Hlen; [done|]. apply assert_hex_ok in Hd.
  ok_inv Hs. ok_inv Hs. ok_inv Hs. apply assert_hex_ok in Hs.
  repeat match goal with
  | E : or_err _ _ = Ok _ |- _ => apply or_err_ok in E
  | E : assert_hex _ _ _ = Ok _ |- _ => apply assert_hex_ok in E
  end. simplify_eq. eexists _, _. split_and!; [split|..]; done.
Qed.

Lemma check_completion_pinned v :
  check_completion v = Ok tt → ∃ c kp, pinned completion_deserialize v c kp.
Proof.
  unfold check_completion. intros Hd. ok_inv Hd. cbv zeta in Hd. ok_inv Hd. ok_inv Hd.
  apply assert_hex_ok in Hd.
  repeat match goal with
  | E : or_err _ _ = Ok _ |- _ => apply or_err_ok in E
  | E : assert_hex _ _ _ = Ok _ |- _ => apply assert_hex_ok in E
  end. eexists _, _. by split.
Qed.

Lemma assurance_tiers_pinned v :
  check_assurance_tiers v = Ok tt →
  map str_of <$> as_array (index v "assurance_tier_strings")
  = Some (map tier_name [SelfReported; CounterSigned; ThirdPartyAttested]).
Proof.
  unfold check_assurance_tiers. intros H. ok_inv H.
  match goal with E : or_err _ _ = Ok _ |- _ => apply or_err_ok in E; rewrite E end.
  cbv zeta in H. case_bool_decide as Hs; [done|]. simpl. by rewrite <- Hs.
Qed.

  (** ** Properties *)

  (** The vector of that name shipped, and its value. *)
Definition shipped (vectors : list (string * string)) (name : string) (v : Json) : Prop :=
  ∃ json, (name, json) ∈ vectors ∧ parse name json = Ok v.

Lemma passing_vector vectors lines name :
  Forall2 vector_passes vectors lines → names vectors = names VECTOR_CHECKS →
  name ∈ VECTOR_CHECKS.*1 →
  ∃ v checks, shipped vectors name v ∧ find_check name VECTOR_CHECKS = Some checks
              ∧ Forall (λ check : Json → Check, check v = Ok tt) checks.
Proof.
  intros Hall Hn Hin. apply names_elem in Hin. rewrite <- Hn in Hin. apply names_elem in Hin.
  apply list_elem_of_fmap in Hin as ([n json] & -> & Hin).
  apply list_elem_of_lookup in Hin as [i Hi].
  destruct (Forall2_lookup_l _ _ _ _ _ Hall Hi) as (line & _ & v & checks & Hp & Hf & Hc & _).
  exists v, checks. split; [|done]. exists json. split; [by eapply list_elem_of_lookup_2|done].
Qed.

(** C31. A pass of the signing primitive's firewall means what it says: both
    vectors shipped and nothing else; the request and the completion record they
    freeze are read into the real types, this build's digest of each is the
    frozen one, the key made from the vector's seed has the frozen public half,
    signs it with the frozen signature, and that verifies; the tier names are the frozen ones in order; and the report has
    one line for each vector. *)
Theorem pop_firewall_pass `{!CryptoLaws} (vectors lines : list (string * string))
    (Hrun : run vectors = Ok lines) :
  names vectors = names VECTOR_CHECKS ∧ length lines = length vectors
  ∧ (∃ v p kp, shipped vectors "operator_pop_v1.json" v ∧ pinned request_deserialize v p kp
       ∧ str_of (index (index v "ed25519") "public_key_hex") = to_hex (kp_public_key kp)
       ∧ verify_signed_payload p (kp_public_key kp) (sign_payload p kp) = true)
  ∧ (∃ v c kp, shipped vectors "completion_v1.json" v ∧ pinned completion_deserialize v c kp
       ∧ verify_signed_payload c (kp_public_key kp) (sign_payload c kp) = true
       ∧ map str_of <$> as_array (index v "assurance_tier_strings")
         = Some (map tier_name [SelfReported; CounterSigned; ThirdPartyAttested])).
Proof.
  unfold run in Hrun. ok_inv Hrun. ok_inv Hrun. injection Hrun as <-.
  match goal with H : check_names _ _ = Ok _ |- _ => apply check_names_ok in H as [_ Hn] end.
  match goal with H : ofold _ _ _ = Ok _ |- _ => apply pop_run_vectors_ok in H as (ls & Hall & ->) end.
  split_and!; [done| | |].
  - rewrite sort_by_perm. symmetry. by eapply Forall2_length.
  - destruct (passing_vector _ _ "operator_pop_v1.json" Hall Hn) as (v & checks & Hs & Hf & Hc);
      [by left|]. injection Hf as <-.
    apply Forall_cons in Hc as [Hd Hc]. apply Forall_cons in Hc as [Hsig _].
    destruct (check_operator_pinned v Hd Hsig) as (p & kp & Hp & _ & Hpub). exists v, p, kp.
    split_and!; [done..|]. apply verify_sign_payload.
  - destruct (passing_vector _ _ "completion_v1.json" Hall Hn) as (v & checks & Hs & Hf & Hc);
      [by right; left|]. injection Hf as <-.
    apply Forall_cons in Hc as [Hd Hc]. apply Forall_cons in Hc as [Ht _].
    destruct (check_completion_pinned v Hd) as (c & kp & Hp). exists v, c, kp.
    split_and!; [done..|apply verify_sign_payload|by apply assurance_tiers_pinned].
Qed.

End PopFirewall.

(** ** Witness: two small vectors *)

Module PopFirewallSamples.

(** The digest cut to 32 bytes, and a table of texts. *)
Definition with_digest (parse : string → option RawJson) : Externals :=
  let e := concrete parse in {|
  ext_uuid := @ext_uuid e;
  ext_chrono := @ext_chrono e;
  ext_crypto := {|
    sha256 m := take 32 (m ++ replicate 32 "000"%byte);
    ed25519_verify pk m s := bool_decide (s = pk ++ m);
    KeyPair := list byte;
    kp_public_key kp := kp;
    kp_sign kp m := kp ++ m;
    kp_from_pkcs8 b := Some b;
    kp_from_seed_unchecked b := Some b;
  |};
  ext_codec := @ext_codec e;
|}.

#[local] Instance digest_laws parse : @CryptoLaws (@ext_crypto (with_digest parse)).
Proof. split. intros kp m. simpl. by apply bool_decide_eq_true. Qed.

Definition object (l : list (string * Json)) : Json := JObject (list_to_map l).
Definition key : list byte := string_bytes "k".

Definition payload : RequestAuthPayload :=
  Build_RequestAuthPayload (VaidId_from_uuid 1%N) "GET" "/a" "00" "acme" 0%Z "n1".
Definition completion : CompletionRecord :=
  Build_CompletionRecord (VaidId_from_uuid 1%N) "00" "acme" "succeeded" "00" 0%Z
    (VaidId_from_uuid 1%N) SelfReported "n2".

Definition vector {T} (ser : T → Json) (x : T) : Json :=
  let digest := take 32 (json_bytes (ser x) ++ replicate 32 "000"%byte) in
  object [("input", ser x); ("digest_sha256_hex", JString (to_hex digest));
          ("ed25519", object [("private_key_seed_hex", JString (to_hex key));
                              ("public_key_hex", JString (to_hex key));
                              ("signature_hex", JString (to_hex (key ++ digest)))]);
          ("assurance_tier_strings", JArray (map JString
             ["selfReported"; "counterSigned"; "thirdPartyAttested"]))].

Definition texts : string → option RawJson := λ s,
  if bool_decide (s = "request") then
    Some (raw_of_value (vector (@to_value _ (@request_serialize (concrete no_json))) payload))
  else if bool_decide (s = "completion") then
    Some (raw_of_value (vector (@to_value _ (@completion_serialize (concrete no_json))) completion))
  else None.

Definition shipped_vectors : list (string * string) :=
  [("operator_pop_v1.json", "request"); ("completion_v1.json", "completion")].

Definition report : list (string * string) :=
  match @run (with_digest texts) shipped_vectors with Ok lines => lines | _ => [] end.

Lemma vectors_pass : @run (with_digest texts) shipped_vectors = Ok report.
Proof.
  unfold report.
  assert (match @run (with_digest texts) shipped_vectors with Ok _ => true | _ => false end = true)
    as H by (vm_compute; reflexivity).
  destruct (run shipped_vectors); [reflexivity|discriminate H..].
Qed.

Lemma pop_firewall_pass_witness : names shipped_vectors = names (@VECTOR_CHECKS (with_digest texts))
  ∧ length report = length shipped_vectors.
Proof.
  destruct (@pop_firewall_pass (with_digest texts) (digest_laws texts) shipped_vectors report
    vectors_pass) as (Hn & Hl & _).
  split; assumption.
Defined.

End PopFirewallSamples.
