(* ===== verification/Packaging.v ===== *)
(** * The packaged firewalls: from the files that ship to the exit code

    [crates/vaid-mint/build.rs], [crates/vaid-pop/build.rs]: the enumeration of
    [tests/vectors/] at build time into the table [EMBEDDED_VECTORS]; and [main]
    of the two conformance binaries, which runs the table and exits.  What a
    directory lists and what [include_str!] reads of a path are parameters. *)

From stdpp Require Import pretty.
From S2P Require Import Prelude Json Externals Concrete Identity Scope IssuerIdentity Document.
From S2P Require Import DupScan Revocation Attenuation Verify Attestation Chain Pop Wire Vectors.
From S2P Require Import Firewall PopFirewall.

(** ** The build script *)

(** An entry of a directory: its name (lossily) as text, and its path. *)
Record DirEntry : Type := mkDirEntry { entry_name : string; entry_path : string }.

(** What a build sees: the entries of [tests/vectors/], [None] where the
    directory cannot be read and where an entry cannot; the text of a path, [None]
    where it cannot be embedded. *)
Record CrateFiles : Type := mkCrateFiles {
  read_dir : option (list (option DirEntry));
  include_str : string → option string;
}.

(** [s.ends_with(p)] *)
Fixpoint ends_with (p s : string) : bool :=
  bool_decide (s = p) || match s with String _ s' => ends_with p s' | EmptyString => false end.

Definition is_json_name (name : string) : bool := ends_with ".json" name.

Definition insert_entry (vectors : gmap string string) (entry : option DirEntry) : gmap string string :=
  match entry with
  | Some e => if is_json_name (entry_name e) then <[entry_name e := entry_path e]> vectors else vectors
  | None => vectors
  end.

Definition collect_vectors (dir : option (list (option DirEntry))) : gmap string string :=
  match dir with
  | Some entries => foldl insert_entry ∅ entries
  | None => ∅
  end.

(** A [BTreeMap] is walked by name. *)
Definition in_order (vectors : gmap string string) : list (string * string) :=
  sort_by line_le (map_to_list vectors).

Definition GENERATED_HEADER : string := join newline
  ["// @generated by build.rs — do not edit."; "//";
   "// Every `.json` under `tests/vectors/` at build time, embedded by value.";
   "// Empty means the crate shipped without its vectors; the firewall treats";
   "// that as a BLOCKER rather than as nothing to check.";
   "pub static EMBEDDED_VECTORS: &[(&str, &str)] = &["; ""].

(** The Rust text written; [debug] is the [Debug] form of a string. *)
Definition generated (debug : string → string) (vectors : gmap string string) : string :=
  GENERATED_HEADER
  +:+ String.concat "" (map (λ np, "    (" +:+ debug np.1 +:+ ", include_str!(" +:+ debug np.2 +:+ ")),"
                                    +:+ newline) (in_order vectors))
  +:+ "];" +:+ newline.

(** The table that text declares; [None] when a file cannot be embedded, so the
    crate does not compile. *)
Definition embedded_vectors (files : CrateFiles) : option (list (string * string)) :=
  mapM (λ np, text ← include_str files np.2; Some (np.1, text)) (in_order (collect_vectors (read_dir files))).

(** ** [main] of a conformance binary *)

Inductive ExitCode : Type := SUCCESS | FAILURE.

#[global] Instance ExitCode_eq_dec : EqDecision ExitCode.
Proof. solve_decision. Defined.

(** What a run leaves: its exit code and what it wrote to each stream. *)
Record Exit : Type := mkExit { exit_code : ExitCode; stdout : list string; stderr : list string }.

(** The characters of a text in UTF-8. *)
Fixpoint char_count (s : string) : nat :=
  match s with
  | EmptyString => 0
  | String a s' => (if is_continuation a then 0 else 1) + char_count s'
  end.

Fixpoint spaces (n : nat) : string :=
  match n with O => "" | S n' => String " " (spaces n') end.

(** [{name:22}] *)
Definition padded (width : nat) (s : string) : string := s +:+ spaces (width - char_count s).

Definition report (line : string * string) : string := "  " +:+ padded 22 line.1 +:+ " " +:+ line.2.

(** Both binaries' [main]; they differ in the banner and in what is installed. *)
Definition firewall_main (firewall installed : string)
    (result : Outcome ConformanceError (list (string * string))) : Outcome Empty_set Exit :=
  match result with
  | Err e => Ok (mkExit FAILURE []
      ["CROSS-LANGUAGE " +:+ firewall +:+ " FIREWALL: MISMATCH — BLOCKER" +:+ newline
       +:+ conformance_message e])
  | Ok checked => Ok (mkExit SUCCESS
      (("CROSS-LANGUAGE " +:+ firewall +:+ " FIREWALL: PASS — installed " +:+ installed +:+ " == "
        +:+ pretty (length checked) +:+ " frozen vector(s), byte-for-byte") :: map report checked) [])
  | Panicked => Panicked
  end.

(** ** What is embedded *)

(** The entries the enumeration takes. *)
Definition json_entries (dir : option (list (option DirEntry))) : list DirEntry :=
  filter (λ e, is_json_name (entry_name e) = true) (omap id (default [] dir)).

Definition entry_pair (e : DirEntry) : string * string := (entry_name e, entry_path e).

Lemma collected_lookup entries name path :
  NoDup (map entry_name (json_entries (Some entries))) →
  collect_vectors (Some entries) !! name = Some path ↔
  (name, path) ∈ map entry_pair (json_entries (Some entries)).
Proof.
  unfold collect_vectors, json_entries. cbn [default from_option id].
  induction entries as [|x entries IH] using rev_ind; [intros _; split; [done|]; by intros ?%elem_of_nil|].
  rewrite foldl_app, omap_app, filter_app, !map_app. cbn [foldl].
  destruct x as [e|]; [|cbn; rewrite !app_nil_r; exact IH].
  unfold insert_entry at 1. cbn [omap list_omap id]. rewrite filter_cons.
  destruct (is_json_name (entry_name e)) eqn:He; [rewrite decide_True by done|by
    rewrite decide_False by done; cbn; rewrite !app_nil_r]. cbn.
  intros (Hnd & Hnot & _)%NoDup_app. specialize (IH Hnd). rewrite elem_of_app, list_elem_of_singleton.
  destruct (decide (name = entry_name e)) as [->|Hne].
  - rewrite lookup_insert_eq. split; [intros [= <-]; by right|].
    intros [Hin|[= ->]]; [|done]. exfalso. apply (Hnot (entry_name e)); [|by left].
    apply list_elem_of_fmap in Hin as (e' & [= Hn Hp] & Hin). rewrite Hn.
    by apply (list_elem_of_fmap_2 entry_name).
  - rewrite lookup_insert_ne, IH by done. split; [by left|].
    intros [?|[= ? ?]]; [done|congruence].
Qed.

Lemma collected_dir dir name path :
  NoDup (map entry_name (json_entries dir)) →
  collect_vectors dir !! name = Some path ↔ (name, path) ∈ map entry_pair (json_entries dir).
Proof.
  destruct dir as [entries|]; [apply collected_lookup|]. intros _. split; [done|].
  by intros ?%elem_of_nil.
Qed.

Lemma in_order_elem vectors name path : (name, path) ∈ in_order vectors ↔ vectors !! name = Some path.
Proof. unfold in_order. rewrite sort_by_perm. apply elem_of_map_to_list. Qed.

Lemma embedded_all files vectors e :
  embedded_vectors files = Some vectors → NoDup (map entry_name (json_entries (read_dir files))) →
  e ∈ json_entries (read_dir files) →
  ∃ text, include_str files (entry_path e) = Some text ∧ (entry_name e, text) ∈ vectors.
Proof.
  intros Hv%mapM_Some Hnd He.
  assert ((entry_name e, entry_path e) ∈ in_order (collect_vectors (read_dir files))) as Hin
    by (apply in_order_elem, collected_dir; [done|]; by apply (list_elem_of_fmap_2 entry_pair)).
  apply list_elem_of_lookup in Hin as [i Hi].
  destruct (Forall2_lookup_l _ _ _ _ _ Hv Hi) as (nt & Hnt & (t & Ht & [= <-])%bind_Some).
  exists t. split; [done|]. by eapply list_elem_of_lookup_2.
Qed.

(** A table entry is a file of the directory, and the other way around. *)
Lemma embedded_elem files vectors name text :
  embedded_vectors files = Some vectors → NoDup (map entry_name (json_entries (read_dir files))) →
  (name, text) ∈ vectors ↔
  ∃ e, e ∈ json_entries (read_dir files) ∧ entry_name e = name
       ∧ include_str files (entry_path e) = Some text.
Proof.
  intros Hv Hnd. split.
  - intros Hin. apply mapM_Some in Hv. apply list_elem_of_lookup in Hin as [i Hi].
    destruct (Forall2_lookup_r _ _ _ _ _ Hv Hi) as ([n p] & Hp & (t & Ht & [= -> ->])%bind_Some).
    apply list_elem_of_lookup_2, in_order_elem, collected_dir, list_elem_of_fmap in Hp
      as (e & [= -> ->] & He); [|done]. eauto.
  - intros (e & He & <- & Ht). destruct (embedded_all _ _ e Hv Hnd He) as (t & Ht' & Hin).
    by simplify_eq.
Qed.

Lemma in_order_perm files :
  NoDup (map entry_name (json_entries (read_dir files))) →
  in_order (collect_vectors (read_dir files)) ≡ₚ map entry_pair (json_entries (read_dir files)).
Proof.
  intros Hnd. apply NoDup_Permutation.
  - unfold in_order. rewrite sort_by_perm. apply NoDup_map_to_list.
  - apply (NoDup_fmap_1 fst). rewrite <- list_fmap_compose. exact Hnd.
  - intros [name path]. rewrite in_order_elem. by apply collected_dir.
Qed.

Lemma embedded_length files vectors :
  embedded_vectors files = Some vectors → NoDup (map entry_name (json_entries (read_dir files))) →
  length vectors = length (json_entries (read_dir files)).
Proof.
  intros Hv%mapM_Some%Forall2_length Hnd. by rewrite <- Hv, in_order_perm, length_map.
Qed.

Lemma embedded_names files vectors :
  embedded_vectors files = Some vectors → NoDup (map entry_name (json_entries (read_dir files))) →
  names vectors = list_to_set (map entry_name (json_entries (read_dir files))).
Proof.
  intros Hv Hnd. apply set_eq. intros n. rewrite names_elem, elem_of_list_to_set, !list_elem_of_fmap. split.
  - intros ([n' t] & -> & (e & He & <- & _)%(embedded_elem files vectors)); [|done..]. eauto.
  - intros (e & -> & He). destruct (embedded_all files vectors e) as (t & _ & Hin); [done..|].
    by exists (entry_name e, t).
Qed.

Lemma known_nonempty {A} (x : string * A) l : names (x :: l) ≠ ∅.
Proof.
  intros Hemp. assert (x.1 ∈ names (x :: l)) as Hin by (apply names_elem; by left).
  rewrite Hemp in Hin. by apply elem_of_empty in Hin.
Qed.

(** What a packaged firewall vouches for. *)
Record vouches (files : CrateFiles) (known : gset string) (passes : string * string → Prop)
    (main : list (string * string) → Outcome Empty_set Exit) : Prop := {
  vo_success vectors :
    embedded_vectors files = Some vectors →
    (∃ out, main vectors = Ok out ∧ exit_code out = SUCCESS) ↔
    list_to_set (map entry_name (json_entries (read_dir files))) = known
    ∧ Forall (λ e, ∃ text, include_str files (entry_path e) = Some text
                           ∧ passes (entry_name e, text)) (json_entries (read_dir files));
  vo_report vectors out :
    embedded_vectors files = Some vectors → main vectors = Ok out → exit_code out = SUCCESS →
    stderr out = [] ∧ length (stdout out) = S (length (json_entries (read_dir files)));
  vo_unreadable :
    read_dir files = None →
    embedded_vectors files = Some [] ∧ ∃ out, main [] = Ok out ∧ exit_code out = FAILURE;
}.

(** A binary whose run passes exactly for non-empty tables of the known names, each
    passing, with a line for each, and errs on the empty one. *)
Lemma firewall_vouches files known passes run firewall installed :
  NoDup (map entry_name (json_entries (read_dir files))) → known ≠ ∅ →
  (∀ vectors, (∃ lines, run vectors = Ok lines) ↔ names vectors = known ∧ Forall passes vectors) →
  (∀ vectors lines, run vectors = Ok lines → length lines = length vectors) →
  (∃ e, run [] = Err e) →
  vouches files known passes (λ vectors, firewall_main firewall installed (run vectors)).
Proof.
  intros Hnd Hknown Hrun Hlines [e He].
  assert (∀ vectors out, firewall_main firewall installed (run vectors) = Ok out →
    exit_code out = SUCCESS → ∃ lines, run vectors = Ok lines ∧ stderr out = []
      ∧ length (stdout out) = S (length lines)) as Hmain.
  { intros vectors out Ho Hs. destruct (run vectors) as [lines|e'|]; cbn in Ho; simplify_eq.
    exists lines. split_and!; [done..|]. cbn. by rewrite length_map. }
  split.
  - intros vectors Hv. rewrite <- (embedded_names files vectors) by done. transitivity
      (∃ lines, run vectors = Ok lines).
    + split; [intros (out & Ho & Hs); destruct (Hmain _ _ Ho Hs) as (l & Hl & _); eauto|].
      intros [lines ->]. by eexists.
    + rewrite Hrun. apply and_iff_compat_l. rewrite !Forall_forall. split.
      * intros Hall en Hen. destruct (embedded_all files vectors en) as (t & Ht & Hin); [done..|]. eauto.
      * intros Hall [n t] (en & Hen & <- & Ht)%(embedded_elem files vectors); [|done..].
        destruct (Hall en Hen) as (t' & Ht' & Hp). by simplify_eq.
  - intros vectors out Hv Ho Hs. destruct (Hmain _ _ Ho Hs) as (l & Hl & Herr & Hlen).
    split; [done|]. by rewrite Hlen, (Hlines _ _ Hl), (embedded_length files vectors).
  - intros Hnone. unfold embedded_vectors. rewrite Hnone. split; [done|].
    rewrite He. by eexists.
Qed.

Lemma Forall_choose {A B} (P : A → B → Prop) l : Forall (λ x, ∃ y, P x y) l ↔ ∃ k, Forall2 P l k.
Proof.
  split.
  - induction 1 as [|x l [y Hy] _ [k Hk]]; [by exists []|]. exists (y :: k). by constructor.
  - intros [k Hk]. induction Hk; constructor; eauto.
Qed.

Section Packaging.
  Context {Ext : Externals}.

Definition mint_firewall_main (clock : nat → Instant) (EMBEDDED_VECTORS : list (string * string))
    : Outcome Empty_set Exit :=
  firewall_main "MINT" "mint" (Firewall.run clock EMBEDDED_VECTORS).

Definition pop_firewall_main (EMBEDDED_VECTORS : list (string * string)) : Outcome Empty_set Exit :=
  firewall_main "PoP" "signer" (PopFirewall.run EMBEDDED_VECTORS).

Lemma pop_run_ok vectors lines :
  PopFirewall.run vectors = Ok lines ↔
  vectors ≠ [] ∧ names vectors = names PopFirewall.VECTOR_CHECKS
  ∧ ∃ ls, Forall2 PopFirewall.vector_passes vectors ls ∧ lines = sort_by line_le ls.
Proof.
  unfold PopFirewall.run. rewrite obind_ok. setoid_rewrite check_names_ok. setoid_rewrite obind_ok.
  setoid_rewrite pop_run_vectors_ok. simpl. naive_solver.
Qed.

  (** ** Properties *)

(** C29. From the files that ship to the exit code, for both crates: when the
    build embeds the vectors of a directory (of distinct names), the binary
    exits with success exactly when the [.json] files of that directory are the
    ones it has a check for and each parses and passes its check; it then prints
    a line for each and nothing on the error stream.  A directory that cannot
    be read does not fail the build, and the binary refuses. *)
Theorem packaged_firewalls (files : CrateFiles) (clock : nat → Instant)
    (Hnames : NoDup (map entry_name (json_entries (read_dir files)))) :
  vouches files (names (Firewall.VECTOR_CHECKS clock))
    (Firewall.vector_passes (Firewall.VECTOR_CHECKS clock)) (mint_firewall_main clock)
  ∧ vouches files (names PopFirewall.VECTOR_CHECKS)
      (λ vector, ∃ line, PopFirewall.vector_passes vector line) pop_firewall_main.
Proof.
  split; apply firewall_vouches; try done; try by eexists.
  - intros vectors. setoid_rewrite run_spec. split; [naive_solver|]. intros [Hn Hp]. eexists.
    split_and!; [|done..]. intros ->. exact (known_nonempty _ _ (eq_sym Hn)).
  - intros vectors lines (_ & _ & _ & ->)%run_spec. by rewrite sort_by_perm, length_map.
  - intros vectors. setoid_rewrite pop_run_ok. rewrite Forall_choose. split; [naive_solver|].
    intros [Hn [ls Hls]]. eexists. split_and!; [|done|by exists ls].
    intros ->. exact (known_nonempty _ _ (eq_sym Hn)).
  - intros vectors lines (_ & _ & ls & Hls & ->)%pop_run_ok. rewrite sort_by_perm.
    symmetry. by eapply Forall2_length.
Qed.

End Packaging.

(** ** Witness: a directory of two vectors, a note and an unreadable entry *)

Module PackagingSamples.
Import PopFirewallSamples.

#[local] Existing Instance digest_laws.

Definition crate_files : CrateFiles := {|
  read_dir := Some [Some (mkDirEntry "operator_pop_v1.json" "/v/operator_pop_v1.json"); None;
                    Some (mkDirEntry "README.md" "/v/README.md");
                    Some (mkDirEntry "completion_v1.json" "/v/completion_v1.json")];
  include_str path :=
    if bool_decide (path = "/v/operator_pop_v1.json") then Some "request"
    else if bool_decide (path = "/v/completion_v1.json") then Some "completion" else None;
|}.

Definition table : list (string * string) :=
  [("completion_v1.json", "completion"); ("operator_pop_v1.json", "request")].

Lemma packaged_firewalls_witness :
  embedded_vectors crate_files = Some table
  ∧ Forall (λ e, ∃ text, include_str crate_files (entry_path e) = Some text
      ∧ ∃ line, @PopFirewall.vector_passes (with_digest texts) (entry_name e, text) line)
      (json_entries (read_dir crate_files))
  ∧ ∃ out, @mint_firewall_main (with_digest texts) (λ _, 0%Z) table = Ok out ∧ exit_code out = FAILURE.
Proof.
  assert (NoDup (map entry_name (json_entries (read_dir crate_files)))) as Hnd by decided.
  destruct (@packaged_firewalls (with_digest texts) crate_files (λ _, 0%Z) Hnd) as [Hmint Hpop].
  split; [vm_compute; reflexivity|split].
  - refine (proj2 (proj1 (@vo_success _ _ _ _ Hpop table _) _)).
    + vm_compute. reflexivity.
    + eexists. split; [vm_compute; reflexivity|reflexivity].
  - eexists. split; [vm_compute; reflexivity|reflexivity].
Defined.

End PackagingSamples.
