(* ===== verification/Harness.v ===== *)
(** * The interoperability harness

    [crates/vaid-mint/examples/aat_interop_harness.rs]: a caller of the public
    verifiers.  For a vector of another token format it builds native documents
    that mirror the vector's scenario and records what the verifiers say:
    PERMIT, DENY, or SKIP for a scenario this credential cannot express.
    Fresh identifiers and the clock are the world's; [now.timestamp()] is a
    number of seconds within the range of instants, so adding a few hours to it
    does not overflow.  Reading and writing the files is left out. *)

From S2P Require Import Prelude Json Externals Concrete Identity Scope IssuerIdentity Document.
From S2P Require Import DupScan Revocation Attenuation Verify Attestation Chain World Wire Vectors.

Definition TRUST_DOMAIN : string := "aat-harness.example.test".
Definition TRUST_DOMAIN_2 : string := "aat-harness-second.example.test".
Definition TENANT : string := "aat-harness-tenant".

(** A name that is written as it is: no character of it is escaped. *)
Definition plain_name (k : string) : Prop :=
  string_forallb (λ a, bool_decide (a ≠ DQUOTE ∧ a ≠ BACKSLASH) && (32 <=? nat_of_ascii a)%nat) k
  = true.

(** An object is written as a JSON object: its members in order, their plain
    names as they are. *)
Class JsonTextLaws `{Codec} : Prop := {
  json_object_text l :
    Forall (λ kv, plain_name kv.1) l →
    ∃ m body, serde_json_to_string l = String "{" body ∧ members_text m body
              ∧ map fst m = map fst l;
}.

Section Harness.
  Context {Ext : Externals}.

Definition Run (A : Type) : Type := M World Empty_set A.

  (** [.expect(..)] *)
Definition expect {A} (o : option A) : Run A :=
  match o with Some a => mret a | None => mpanic end.

  (** ** Kernels and documents *)

Record Kernel : Type := mkKernel {
  k_kp : KeyPair;
  k_public_key : list byte;
  k_thumbprint : string;
}.

Definition kernel_from_seed (b : byte) : Run Kernel :=
  let! kp := expect (kp_from_seed_unchecked (replicate 32 b)) in
  let public_key := kp_public_key kp in
  mret (mkKernel kp public_key (kernel_key_thumbprint public_key)).
Definition kernel_new : Run Kernel := kernel_from_seed "081"%byte.

Definition kernel_sign (k : Kernel) (bytes : list byte) : list byte := kp_sign (k_kp k) bytes.

Definition ts (secs : Z) : Run Instant := expect (dt_timestamp_opt secs).
  (** [t.timestamp()] *)
Definition timestamp (t : Instant) : Z := (t / NANOS)%Z.

Definition build_doc_ex (kernel : Kernel) (parent : option Vaid) (issued_at expires_at : Instant)
    (capability_set : list string) (scope_boundary : list ScopeBoundaryEntry)
    (trust_domain : string) : Run Vaid :=
  let! agent_id := AgentId_new in
  let parent_vaid_id := vaid_id <$> parent in
  let lineage_hash := compute_lineage_hash parent_vaid_id agent_id in
  let unsigned := with_lineage agent_id (mkAgentClass "aat-harness-agent") "1.0.0"
    (mkTenantId TENANT) issued_at expires_at (replicate 32 "000"%byte) [] parent_vaid_id
    scope_boundary lineage_hash capability_set trust_domain (k_thumbprint kernel) in
  let sig := kernel_sign kernel (canonical_vaid_signing_bytes unsigned) in
  mret (with_kernel_signature unsigned sig).

Definition build_doc (kernel : Kernel) (parent : option Vaid) (issued_at expires_at : Instant)
    (capability_set : list string) : Run Vaid :=
  build_doc_ex kernel parent issued_at expires_at capability_set [] TRUST_DOMAIN.

  (** [build_doc(kernel, parent, ts(now.timestamp() + from), ts(now.timestamp() + until), ..)] *)
Definition doc_at (kernel : Kernel) (parent : option Vaid) (now : Instant) (from until : Z)
    (capability_set : list string) : Run Vaid :=
  let! issued_at := ts (timestamp now + from) in
  let! expires_at := ts (timestamp now + until) in
  build_doc kernel parent issued_at expires_at capability_set.

Definition doc_at_ex (kernel : Kernel) (parent : option Vaid) (now : Instant) (from until : Z)
    (capability_set : list string) (scope_boundary : list ScopeBoundaryEntry)
    (trust_domain : string) : Run Vaid :=
  let! issued_at := ts (timestamp now + from) in
  let! expires_at := ts (timestamp now + until) in
  build_doc_ex kernel parent issued_at expires_at capability_set scope_boundary trust_domain.

  (** ** Trusted issuers, each bound to one domain *)

Definition TrustedIssuerMap : Type := gmap string (list byte * string).

Definition trusted_issuer_map_new (entries : list (Kernel * string)) : TrustedIssuerMap :=
  foldl (λ m e, <[k_thumbprint e.1 := (k_public_key e.1, e.2)]> m) ∅ entries.

Definition trust_domain_for (m : TrustedIssuerMap) (thumbprint : string) : option string :=
  snd <$> (m : gmap string (list byte * string)) !! thumbprint.

Definition binds (m : TrustedIssuerMap) (doc : Vaid) : bool :=
  bool_decide (trust_domain_for m (vd_kernel_key_thumbprint doc) = Some (vd_trust_domain doc)).

Definition as_key_map (m : TrustedIssuerMap) : KernelKeyMap :=
  kernel_key_map_new (map (λ kv, kv.2.1) (map_to_list (m : gmap string (list byte * string)))).

  (** ** Verdicts *)

Record ResultEntry : Type := mkResultEntry { re_verdict : string; re_reason : option string }.

Definition permit : ResultEntry := mkResultEntry "PERMIT" None.
Definition deny : ResultEntry := mkResultEntry "DENY" None.
Definition skip (reason : string) : ResultEntry := mkResultEntry "SKIP" (Some reason).

Definition chain_verdict (kernel : Kernel) (leaf : Vaid) (ancestors : list Vaid) (now : Instant)
    (tool : string) : Run ResultEntry :=
  let bundle := presented_bundle_new ancestors in
  let keys := single_kernel_key_new (k_public_key kernel) in
  let! verification := mliftO (verify_chain_at keys leaf bundle attestation_bundle_empty now) in
  let attenuated :=
    match verification with ChainVerification.Attenuated => true | _ => false end in
  let leaf_live := negb (is_expired_at leaf now) in
  let authorized := has_capability leaf tool in
  mret (if attenuated && leaf_live && authorized then permit else deny).

Definition chain_verdict_with_binding (trust : TrustedIssuerMap) (leaf : Vaid)
    (ancestors : list Vaid) (now : Instant) (tool : string) : Run ResultEntry :=
  if negb (binds trust leaf) || existsb (λ a, negb (binds trust a)) ancestors then mret deny
  else
    let bundle := presented_bundle_new ancestors in
    let keys := as_key_map trust in
    let! verification := mliftO (verify_chain_at keys leaf bundle attestation_bundle_empty now) in
    let attenuated :=
      match verification with ChainVerification.Attenuated => true | _ => false end in
    let leaf_live := negb (is_expired_at leaf now) in
    let authorized := has_capability leaf tool in
    mret (if attenuated && leaf_live && authorized then permit else deny).

  (** ** The scenarios that are chains: the leaf, and its ancestors as presented *)

Definition Presentation : Type := Vaid * list Vaid.

Definition chain_1 (kernel : Kernel) (now : Instant) (tool : string) : Run Presentation :=
  let! root := doc_at kernel None now (-300) 3600 [tool] in
  mret (root, []).

Definition chain_3 (kernel : Kernel) (now : Instant) (tool : string) : Run Presentation :=
  let! root := doc_at kernel None now (-600) 7200 [tool; "search_index"] in
  let! mid := doc_at kernel (Some root) now (-300) 3600 [tool] in
  let! leaf := doc_at kernel (Some mid) now (-60) 1800 [tool] in
  mret (leaf, [root; mid]).

Definition chain_5 (kernel : Kernel) (now : Instant) (tool : string) : Run Presentation :=
  let! root := doc_at kernel None now (-7200) (-3600) [tool] in
  mret (root, []).

Definition chain_9_3 (kernel : Kernel) (now : Instant) (tool : string) : Run Presentation :=
  let! root := doc_at kernel None now (-600) 3600 [tool; "other_tool"] in
  let! leaf := doc_at kernel (Some root) now (-60) 1800 ["other_tool"] in
  mret (leaf, [root]).

Definition chain_9_4 (kernel : Kernel) (now : Instant) (tool : string) : Run Presentation :=
  let! root := doc_at kernel None now (-600) 7200 [tool] in
  let! mid := doc_at kernel (Some root) now (-300) 3600 [tool] in
  mret (mid, [root]).

Definition chain_9_6 (kernel : Kernel) (now : Instant) : Run Presentation :=
  let! root := doc_at kernel None now (-600) 3600 ["read_file"; "search_index"] in
  let! leaf := doc_at kernel (Some root) now (-60) 1800 ["read_file"] in
  mret (leaf, [root]).

Definition chain_13 (kernel : Kernel) (now : Instant) (tool : string) : Run Presentation :=
  let! root := doc_at kernel None now (-600) 1800 [tool] in
  let! leaf := doc_at kernel (Some root) now (-60) 3600 [tool] in
  mret (leaf, [root]).

Definition chain_13_c (kernel : Kernel) (now : Instant) (tool : string) : Run Presentation :=
  let! root := doc_at kernel None now (-600) 3600 [tool] in
  let! leaf := doc_at kernel (Some root) now (-300) (-60) [tool] in
  mret (leaf, [root]).

  (** [tampered_sig[0] ^= 0x01], which panics on an empty signature. *)
Definition flip_first_bit (sig : list byte) : option (list byte) :=
  match sig with
  | [] => None
  | b :: rest => flipped ← byte_of_Z (Z.lxor (byte_Z b) 1); Some (flipped :: rest)
  end.

Definition chain_14 (kernel : Kernel) (now : Instant) (tool : string) : Run Presentation :=
  let! root := doc_at kernel None now (-300) 3600 [tool] in
  let! tampered_sig := expect (flip_first_bit (vd_kernel_signature root)) in
  mret (with_kernel_signature root tampered_sig, []).

Definition chain_14_c (untrusted_kernel : Kernel) (now : Instant) (tool : string)
    : Run Presentation :=
  let! root := doc_at untrusted_kernel None now (-300) 3600 [tool] in
  mret (root, []).

Definition chain_11 (kernel : Kernel) (now : Instant) (tool : string) : Run Presentation :=
  let! root := doc_at_ex kernel None now (-600) 3600 [tool] [entry_prefix "data.allowed"]
                 TRUST_DOMAIN in
  let! leaf := doc_at_ex kernel (Some root) now (-60) 1800 [tool] [entry_prefix "data."]
                 TRUST_DOMAIN in
  mret (leaf, [root]).

Definition chain_11_b (kernel : Kernel) (now : Instant) (tool : string) : Run Presentation :=
  let! root := doc_at kernel None now (-600) 3600 ["other_tool"] in
  let! leaf := doc_at kernel (Some root) now (-60) 1800 [tool] in
  mret (leaf, [root]).

Definition chain_19_15 (kernel : Kernel) (now : Instant) (tool : string) : Run Presentation :=
  let! root := doc_at_ex kernel None now (-600) 3600 [tool] [entry_prefix "data.allowed"]
                 TRUST_DOMAIN in
  let! leaf := doc_at_ex kernel (Some root) now (-60) 1800 [tool] [] TRUST_DOMAIN in
  mret (leaf, [root]).

Definition chain_26_1 (kernel : Kernel) (now : Instant) : Run Presentation :=
  let! root := doc_at kernel None now (-600) 3600 ["other_tool"] in
  let! leaf := doc_at kernel (Some root) now (-60) 1800 ["other_tool"] in
  mret (leaf, [root]).

  (** [value["x_harness_unrecognized_claim"] = json!(..)], read back and signed. *)
Definition chain_27_1 (kernel : Kernel) (now : Instant) (tool : string) : Run Presentation :=
  let! unsigned := doc_at kernel None now (-300) 3600 [tool] in
  let value := object_insert "x_harness_unrecognized_claim"
                 (JString "ignored-by-a-conforming-verifier") (vaid_to_value unsigned) in
  let! with_unknown := expect (vaid_deserialize (raw_of_value value)) in
  let sig := kernel_sign kernel (canonical_vaid_signing_bytes with_unknown) in
  mret (with_kernel_signature with_unknown sig, []).

Definition chain_21_22 (kernel2 : Kernel) (now : Instant) (tool : string) : Run Presentation :=
  let! root := doc_at_ex kernel2 None now (-300) 3600 [tool] [] TRUST_DOMAIN in
  mret (root, []).

Definition chain_21_23 (kernel2 : Kernel) (now : Instant) (tool : string) : Run Presentation :=
  let! root := doc_at_ex kernel2 None now (-300) 3600 [tool] [] TRUST_DOMAIN_2 in
  mret (root, []).

  (** ** The scenarios judged by the standing of one document *)

  (** [serde_json::to_string(&doc)]: the flattened map last, in key order. *)
Definition vaid_to_string (d : Vaid) : string :=
  serde_json_to_string
    (vaid_members d
     ++ sort_by (λ p q, String.leb p.1 q.1) (map_to_list (vd_unknown_fields d))).

  (** [&s[..s.len() - 1]] of a text that ends in an ASCII character. *)
Fixpoint without_last (s : string) : string :=
  match s with
  | EmptyString | String _ EmptyString => EmptyString
  | String a s' => String a (without_last s')
  end.

Definition DQUOTE_TEXT : string := char_string DQUOTE.

  (** [format!("{}, \"tenant_id\":\"{}\"}}", &good_json[..good_json.len() - 1], TENANT)] *)
Definition splice_tenant (good_json : string) : string :=
  without_last good_json +:+ ", " +:+ DQUOTE_TEXT +:+ "tenant_id" +:+ DQUOTE_TEXT +:+ ":"
  +:+ DQUOTE_TEXT +:+ TENANT +:+ DQUOTE_TEXT +:+ "}".

Definition vector_23_4 (kernel : Kernel) (now : Instant) (tool : string) : Run ResultEntry :=
  let! root := doc_at kernel None now (-300) 3600 [tool] in
  let good_json := vaid_to_string root in
  if negb (ends_with_char "}" good_json) then mpanic
  else
    let tampered_json := splice_tenant good_json in
    let! wall_clock := utc_now in
    let verdict :=
      verify_vaid_standing_from_json wall_clock (k_public_key kernel) tampered_json NotRevoked in
    mret (if VaidVerdict.is_valid verdict then permit else deny).

Definition vector_8_3 (kernel : Kernel) (now : Instant) (tool : string) : Run ResultEntry :=
  let! unknown_kind_entry :=
    match entry_new "future-constraint-kind-v99" (JString "whatever-value") with
    | Ok e => mret e
    | _ => mpanic
    end in
  let! leaf := doc_at_ex kernel None now (-300) 3600 [tool] [unknown_kind_entry] TRUST_DOMAIN in
  let verdict :=
    let authenticity := verify_vaid_authenticity_graded (k_public_key kernel) leaf in
    if negb (VaidVerdict.is_valid authenticity) then authenticity
    else if is_expired_at leaf now then VaidVerdict.Expired
    else if negb (boundary_is_evaluable (vd_scope_boundary leaf)) then VaidVerdict.UnknownScopeKind
    else VaidVerdict.Valid in
  if bool_decide (verdict = VaidVerdict.UnknownScopeKind) then mret deny else mpanic.

  (** ** The reasons a scenario is skipped *)

Definition skip_9 : ResultEntry :=
  skip ("closed-world per-argument constraint evaluation / duplicate JSON member in "
    +:+ "invocation args: VAID's authorization surface is flat capability-string containment "
    +:+ "(Vaid::has_capability) and prefix scope matching; it does not evaluate a tool call's "
    +:+ "arguments against a per-argument constraint map, so this scenario has no VAID check "
    +:+ "to exercise").

Definition skip_13 : ResultEntry :=
  skip ("iat-ordering / MAX_IAT_SKEW / zero-lifetime (exp == iat) invariants (AAT steps "
    +:+ "4j-4l): VAID's verify_chain_at consults only expires_at attenuation between hops, "
    +:+ "never issued_at ordering or a freshness-skew bound at verify time, so this specific "
    +:+ "numeric invariant has no VAID check behind it").

Definition skip_14 : ResultEntry :=
  skip ("JOSE header rule (alg:none rejection, header-supplied jwk ignored): VAID's wire "
    +:+ "format carries no JOSE header at all (signature-scheme is the `sig_version` field, "
    +:+ "inside the signed document), so there is no header for a VAID verifier to read or "
    +:+ "reject").

Definition skip_23_2 : ResultEntry :=
  skip ("MAX_TOKEN_SIZE / MAX_CHAIN_SIZE byte-size limits: VAID defines no analogous size cap "
    +:+ "anywhere in its verification surface (grep of vaid-mint/src finds no such constant), "
    +:+ "so this is not a check VAID can run").

Definition skip_23 : ResultEntry :=
  skip ("unrecognised J.23 sub-vector").

Definition skip_27 : ResultEntry :=
  skip ("non-JCS-canonical byte attack, same-holder-key derivation, aud array/mismatch, or "
    +:+ "JOSE-header JWK member shape: each is a property of the JWS/JOSE wire encoding or "
    +:+ "the holder-of-key PoP chain that VAID's native chain/document model does not carry "
    +:+ "at all").

Definition skip_2 : ResultEntry :=
  skip ("duplicate-jti cycle detection over a presented chain (AAT step 2c): VAID's "
    +:+ "PresentedBundle dedupes a repeated vaid_id by last-write-wins rather than rejecting "
    +:+ "the reuse outright, and its real cycle detection (inside assemble_lineage) only "
    +:+ "fires on an actual parent-pointer cycle, which this scenario (two sibling entries "
    +:+ "sharing one identifier) does not construct; translating it would fabricate a "
    +:+ "rejection VAID's real API does not perform").

Definition skip_4 : ResultEntry :=
  skip ("holder-of-key per-hop signing / par_hash binding: AAT's chain is signed hop-by-hop "
    +:+ "by the PREVIOUS hop's own holder key (cnf.jwk), with par_hash binding a hop to a "
    +:+ "specific parent presentation. VAID's entire chain is signed by one issuer's kernel "
    +:+ "key, and bare vaid-mint's KernelKeyResolver selects by key thumbprint only, with no "
    +:+ "cross-check against which trust anchor's key verified -- that binding is "
    +:+ "deliberately out-of-band for vaid-mint and lives in the a2a/adk/jwt-bridge "
    +:+ "integration layers instead (GHSA-hfjh-v2x2-r58v, already fixed; see J.21.22/J.21.23 "
    +:+ "above, which this harness DOES translate using that binding). VAID still has no "
    +:+ "per-hop distinct-signer check or par_hash concept, so the rest of this group's "
    +:+ "scenarios remain unrepresentable").

Definition skip_6 : ResultEntry :=
  skip ("per-invocation, audience-bound PoP: VAID DOES have per-request proof of possession "
    +:+ "-- vaid-client signs every request into the four x-synthera-* headers (auth.rs). "
    +:+ "What this pass did not do is translate AAT's invocation-time PoP presentation (a "
    +:+ "fresh signature over the current holder's cnf key and an enforcement-point audience, "
    +:+ "bound to the specific tool call) into that model. This is a gap in this pass's "
    +:+ "translation, not an absence of the underlying mechanism in VAID").

Definition skip_7 : ResultEntry :=
  skip ("JOSE header well-formedness (typ/alg/jwk parameters): VAID's wire format carries no "
    +:+ "JOSE header").

Definition skip_8 : ResultEntry :=
  skip ("per-argument constraint-map structure, including the empty-parent-map / "
    +:+ "constraint-key-introduction invariant (step 4p2): VAID's capability_set is a flat "
    +:+ "list of opaque strings and scope_boundary is prefix matching over a single resource "
    +:+ "string; neither carries a keyed map of per-argument constraints a derived token can "
    +:+ "narrow or introduce. (J.8.3 and J.8.5 are handled above via the unknown-scope-kind "
    +:+ "verdict, which is a real VAID analogue for "
    +:+ DQUOTE_TEXT
    +:+ "unrecognised constraint_type"
    +:+ DQUOTE_TEXT
    +:+ "; the rest of this group is per-argument constraint evaluation VAID does not perform "
    +:+ "at all.)").

Definition skip_10 : ResultEntry :=
  skip ("del_depth/del_max_depth consistency between hops (AAT I2): Vaid carries no "
    +:+ "del_depth/del_max_depth field at all. VAID's only depth concept, "
    +:+ "validate_max_delegation_depth, is MINT-TIME issuer policy (how deep an issuer will "
    +:+ "mint), never re-derived or re-checked from a presented chain's claims at verify time").

Definition skip_11 : ResultEntry :=
  skip ("AAT check-predicate algebra (all/any/one_of/not_one_of/exact, and the S4.5 "
    +:+ "subsumption table over them): VAID has no constraint-predicate language at all. "
    +:+ "Containment is tested only by flat capability-string membership and resource-prefix "
    +:+ "matching, which cannot express set-algebra widening/narrowing over named constraint "
    +:+ "values. (J.11, J.11.b, J.19.11, J.19.15 and J.26.1 are handled above: each is an "
    +:+ "instance of plain scope/capability widening or non-membership, which VAID DOES have "
    +:+ "a check for, even though it has none of AAT's richer predicate kinds.)").

Definition skip_22 : ResultEntry :=
  skip ("optional/unnamed invocation arguments: part of AAT's per-argument constraint "
    +:+ "evaluation against a tool call, which VAID does not perform (see group 8/9's reason)").

Definition skip_24 : ResultEntry :=
  skip ("number-admissibility / type rules on a JWS claim (e.g. jti not a string): VAID's "
    +:+ "documents are typed Rust structs deserialized by serde directly from the presented "
    +:+ "JSON; a vector here constructs raw JWS claim bytes this harness does not parse, "
    +:+ "since it builds native Vaid documents rather than an AAT JWS parser").

Definition skip_25 : ResultEntry :=
  skip ("authorization_details entries of a type other than attenuating_agent_token, or "
    +:+ "more/fewer than one such entry: VAID's document has no 'entries' or 'type' concept "
    +:+ "at all -- capability_set is the sole, singular grant list").

  (** ** The translation of a vector *)

Record Harness : Type := mkHarness {
  h_kernel : Kernel;
  h_untrusted_kernel : Kernel;
  h_kernel2 : Kernel;
  h_trust_map : TrustedIssuerMap;
}.

Definition harness_new : Run Harness :=
  let! kernel := kernel_new in
  let! untrusted_kernel := kernel_from_seed "082"%byte in
  let! kernel2 := kernel_from_seed "083"%byte in
  let trust_map := trusted_issuer_map_new [(kernel, TRUST_DOMAIN); (kernel2, TRUST_DOMAIN_2)] in
  mret (mkHarness kernel untrusted_kernel kernel2 trust_map).

  (** The arms that end in [chain_verdict(&kernel, ..)]. *)
Definition chain_scenario (h : Harness) (group id tool : string) (now : Instant)
    : option (Run Presentation) :=
  let kernel := h_kernel h in
  let arm (g i : string) := bool_decide (group = g) && bool_decide (id = i) in
  if bool_decide (group = "1") then Some (chain_1 kernel now tool)
  else if bool_decide (group = "3") then Some (chain_3 kernel now tool)
  else if bool_decide (group = "5") then Some (chain_5 kernel now tool)
  else if arm "9" "J.9.3" then Some (chain_9_3 kernel now tool)
  else if arm "9" "J.9.4" then Some (chain_9_4 kernel now tool)
  else if arm "9" "J.9.6" then Some (chain_9_6 kernel now)
  else if arm "13" "J.13" then Some (chain_13 kernel now tool)
  else if arm "13" "J.13.c" then Some (chain_13_c kernel now tool)
  else if arm "14" "J.14" then Some (chain_14 kernel now tool)
  else if arm "14" "J.14.c" then Some (chain_14_c (h_untrusted_kernel h) now tool)
  else if arm "27" "J.27.1" then Some (chain_27_1 kernel now tool)
  else if arm "11" "J.11" || arm "19" "J.19.11" then Some (chain_11 kernel now tool)
  else if arm "11" "J.11.b" then Some (chain_11_b kernel now tool)
  else if arm "19" "J.19.15" then Some (chain_19_15 kernel now tool)
  else if arm "26" "J.26.1" then Some (chain_26_1 kernel now)
  else None.

  (** The other arms that run a verifier. *)
Definition other_scenario (h : Harness) (group id tool : string) (now : Instant)
    : option (Run ResultEntry) :=
  let kernel := h_kernel h in
  let arm (g i : string) := bool_decide (group = g) && bool_decide (id = i) in
  let bound (chain : Run Presentation) :=
    let! p := chain in chain_verdict_with_binding (h_trust_map h) p.1 p.2 now tool in
  if arm "23" "J.23.1" then Some (mret deny)
  else if arm "23" "J.23.4" then Some (vector_23_4 kernel now tool)
  else if arm "21" "J.21.22" then Some (bound (chain_21_22 (h_kernel2 h) now tool))
  else if arm "21" "J.21.23" then Some (bound (chain_21_23 (h_kernel2 h) now tool))
  else if arm "8" "J.8.3" || arm "8" "J.8.5" then Some (vector_8_3 kernel now tool)
  else None.

  (** The arms that skip. *)
Definition skipped (group id : string) : ResultEntry :=
  let any (gs : list string) := bool_decide (group ∈ gs) in
  if any ["9"] then skip_9
  else if any ["13"] then skip_13
  else if any ["14"] then skip_14
  else if any ["23"] && bool_decide (id ∈ ["J.23.2"; "J.23.3"]) then skip_23_2
  else if any ["23"] then skip_23
  else if any ["27"] then skip_27
  else if any ["2"] then skip_2
  else if any ["4"; "20"; "21"; "12"] then skip_4
  else if any ["6"] then skip_6
  else if any ["7"] then skip_7
  else if any ["8"] then skip_8
  else if any ["10"] then skip_10
  else if any ["11"; "15"; "16"; "17"; "18"; "19"; "26"] then skip_11
  else if any ["22"] then skip_22
  else if any ["24"] then skip_24
  else if any ["25"] then skip_25
  else skip ("group " +:+ group +:+ ": unclassified by this harness; treated as "
             +:+ "unrepresentable in VAID's native chain/document model pending a specific "
             +:+ "mapping").

  (** [match (group, id) { .. }]: the arms of the three functions above are
      disjoint, so their order among them does not matter. *)
Definition translate (h : Harness) (group id tool : string) (now : Instant) : Run ResultEntry :=
  match chain_scenario h group id tool now with
  | Some chain => let! p := chain in chain_verdict (h_kernel h) p.1 p.2 now tool
  | None =>
      match other_scenario h group id tool now with
      | Some run => run
      | None => mret (skipped group id)
      end
  end.

  (** One vector of the suite: its id and the entry recorded for it. *)
Definition run_one (h : Harness) (results : gmap string ResultEntry) (v : Json)
    : Run (gmap string ResultEntry) :=
  let! id := expect (as_str (index v "id")) in
  let! group := expect (split_on "." id !! 1) in
  let tool := default "read_file" (as_str (index v "tool")) in
  let! now := ts (default 1704067500%Z (as_i64 (index v "now"))) in
  let! entry := translate h group id tool now in
  mret (<[id := entry]> results).

Fixpoint run_all (h : Harness) (vectors : list Json) (results : gmap string ResultEntry)
    : Run (gmap string ResultEntry) :=
  match vectors with
  | [] => mret results
  | v :: vectors' => let! results' := run_one h results v in run_all h vectors' results'
  end.

Definition main_results (suite : Json) : Run (gmap string ResultEntry) :=
  let! vectors := expect (as_array (index suite "vectors")) in
  let! h := harness_new in
  run_all h vectors ∅.

  (** [results.values().filter(|r| r.verdict == verdict).count()] *)
Definition count_verdict (verdict : string) (results : gmap string ResultEntry) : nat :=
  length (filter (λ kv, re_verdict kv.2 = verdict) (map_to_list results)).

End Harness.
