(* ===== verification/HarnessVerdicts.v ===== *)
(** * What the harness's verdicts mean

    Of [Harness]: what each scenario builds, what the verifiers answer to it,
    what PERMIT grants, and that a suite is run to its end. *)

From S2P Require Import Prelude Json Externals Concrete Identity Scope IssuerIdentity Document.
From S2P Require Import DupScan Revocation Attenuation Verify Attestation Chain World Wire Vectors.
From S2P Require Import Harness.

Section HarnessVerdicts.
  Context {Ext : Externals}.

  (** ** What the builders build *)

#[local] Open Scope Z_scope.

Section Laws.
  Context `{!UuidLaws} `{!ChronoLaws} `{!CryptoLaws}.

  (** A whole second far enough inside the four-digit years. *)
Definition harness_second (n : Z) : Prop := (-62167212000 ≤ n ≤ 253402293599)%Z.

  (** A kernel made from a seed. *)
Definition kernel_ok (k : Kernel) : Prop :=
  k_public_key k = kp_public_key (k_kp k)
  ∧ k_thumbprint k = kernel_key_thumbprint (k_public_key k).

Definition next_uuid (w : World) : World :=
  mkWorld (w_clock w) (w_clock_reads w) (w_uuids w) (S (w_uuid_reads w)) (w_random w)
    (w_random_reads w).

  (** The document built [from] to [until] around the second [n]. *)
Definition harness_doc (k : Kernel) (parent : option Vaid) (n from until : Z) (caps : list string)
    (scope : list ScopeBoundaryEntry) (domain : string) (u : Uuid) : Vaid :=
  let unsigned := with_lineage (AgentId_from_uuid u) (mkAgentClass "aat-harness-agent") "1.0.0"
    (mkTenantId TENANT) ((n + from) * NANOS)%Z ((n + until) * NANOS)%Z (replicate 32 "000"%byte) []
    (vaid_id <$> parent) scope (compute_lineage_hash (vaid_id <$> parent) (AgentId_from_uuid u))
    caps domain (k_thumbprint k) in
  with_kernel_signature unsigned (kernel_sign k (canonical_vaid_signing_bytes unsigned)).

Definition hour_apart (d : Z) : Prop := (-7200 ≤ d ≤ 7200)%Z.

Lemma ts_run n d w :
  harness_second n → hour_apart d →
  ts (timestamp (n * NANOS) + d) w = (Ok ((n + d) * NANOS)%Z, w).
Proof.
  intros Hn Hd. unfold ts, timestamp. rewrite Z.div_mul by (by unfold NANOS).
  rewrite dt_timestamp_opt_spec; [done|].
  unfold harness_second, hour_apart, four_digit_year, NANOS in *. lia.
Qed.

Lemma doc_at_ex_run k parent n from until caps scope domain w :
  harness_second n → hour_apart from → hour_apart until →
  doc_at_ex k parent (n * NANOS) from until caps scope domain w
  = (Ok (harness_doc k parent n from until caps scope domain (w_uuids w (w_uuid_reads w))),
     next_uuid w).
Proof. intros Hn Hf Hu. unfold doc_at_ex, mbindM. by rewrite !ts_run. Qed.

Lemma doc_at_run k parent n from until caps w :
  harness_second n → hour_apart from → hour_apart until →
  doc_at k parent (n * NANOS) from until caps w
  = (Ok (harness_doc k parent n from until caps [] TRUST_DOMAIN (w_uuids w (w_uuid_reads w))),
     next_uuid w).
Proof. intros Hn Hf Hu. unfold doc_at, mbindM. by rewrite !ts_run. Qed.

Section Doc.
  Context (k : Kernel) (parent : option Vaid) (n from until : Z) (caps : list string)
    (scope : list ScopeBoundaryEntry) (domain : string) (u : Uuid).
  Context (Hk : kernel_ok k) (Hn : harness_second n) (Hu : hour_apart until).
  Local Notation d := (harness_doc k parent n from until caps scope domain u).

Lemma harness_doc_parent : parent_vaid d = vaid_id <$> parent.
Proof. by destruct parent. Qed.

Lemma harness_doc_expires : parse_rfc3339 (vd_expires_at d) = Some ((n + until) * NANOS)%Z.
Proof.
  apply parse_format_whole; [|by apply Z.mod_mul].
  unfold harness_second, hour_apart, four_digit_year, NANOS in *. lia.
Qed.

Lemma harness_doc_expired : is_expired_at d (n * NANOS) = bool_decide (until < 0)%Z.
Proof.
  unfold is_expired_at, expires_at. rewrite harness_doc_expires. apply bool_decide_ext.
  unfold NANOS. lia.
Qed.

Lemma harness_doc_wf : vaid_wf d.
Proof. destruct (with_lineage_wf (AgentId_from_uuid u) (mkAgentClass "") "" (mkTenantId "") 0%Z 0%Z [] []
  (vaid_id <$> parent) [] "" [] "" ""). by split. Qed.

Lemma harness_doc_authentic :
  is_valid_trust_domain domain = true → authentic (k_public_key k) d.
Proof.
  intros Hd. destruct Hk as [Hpk Ht]. split; try done.
  - unfold verify_lineage_hash. apply bool_decide_eq_true. by rewrite harness_doc_parent.
  - unfold harness_doc at 1. rewrite canonical_with_signature by apply with_lineage_wf.
    rewrite Hpk. apply ed25519_verify_sign.
Qed.

End Doc.

Lemma harness_domain : is_valid_trust_domain TRUST_DOMAIN = true.
Proof. reflexivity. Qed.
Lemma harness_domain_2 : is_valid_trust_domain TRUST_DOMAIN_2 = true.
Proof. reflexivity. Qed.

  (** ** What the verifier says of them *)

Section Hop.
  Context (k : Kernel) (n : Z) (Hn : harness_second n).

  (** A hop between two documents of one kernel and domain. *)
Lemma harness_hop {K} `{KernelKeyResolver K} (keys : K) attestations now p fp up cp sp dom u
    fc uc cc sc u' (Hp : hour_apart up) (Hc : hour_apart uc) :
  let parent := harness_doc k p n fp up cp sp dom u in
  check_hop keys attestations now parent (harness_doc k (Some parent) n fc uc cc sc dom u')
  = if scope_attenuates_within sp sc && caps_attenuate_within cp cc && bool_decide (uc ≤ up)
    then Ok tt else Err ChainVerification.NotAttenuated.
Proof.
  intros parent. unfold check_hop. rewrite bool_decide_eq_true_2 by done.
  unfold tenant_attenuates. rewrite !bool_decide_eq_true_2 by done. cbn [andb negb].
  change (scope_attenuates parent _) with (scope_attenuates_within sp sc).
  change (caps_attenuate parent _) with (caps_attenuate_within cp cc).
  assert (expiry_attenuates parent (Some (expires_at_as_presented
            (harness_doc k (Some parent) n fc uc cc sc dom u'))) = bool_decide (uc ≤ up)) as ->.
  { unfold expiry_attenuates, expiry_attenuates_within, expires_at_as_presented. cbn [mbind option_bind].
    unfold parent. rewrite !harness_doc_expires by done. apply bool_decide_ext. unfold NANOS. lia. }
  by destruct (scope_attenuates_within sp sc), (caps_attenuate_within cp cc), (bool_decide _).
Qed.

Context (Hk : kernel_ok k) (dom : string) (Hdom : is_valid_trust_domain dom = true).

Lemma harness_authenticate p from until caps scope u :
  authenticate (single_kernel_key_new (k_public_key k))
    (harness_doc k p n from until caps scope dom u) = true.
Proof. by apply single_key_authenticate, harness_doc_authentic. Qed.

Local Notation verify leaf ancestors :=
  (verify_chain_at (single_kernel_key_new (k_public_key k)) leaf (presented_bundle_new ancestors)
     attestation_bundle_empty (n * NANOS)).

Lemma verify_alone from until caps scope u :
  verify (harness_doc k None n from until caps scope dom u) [] = Ok ChainVerification.Attenuated.
Proof.
  rewrite (verify_chain_at_lineage _ _ _ _ _ []); try done.
  - apply harness_authenticate.
  - by constructor.
  - apply NoDup_singleton.
  - pose proof max_lineage_depth_three. simpl. lia.
Qed.

Lemma verify_pair from until caps scope u from' until' caps' scope' u'
    (Hu : hour_apart until) (Hu' : hour_apart until') (Hne : u ≠ u') :
  let root := harness_doc k None n from until caps scope dom u in
  verify (harness_doc k (Some root) n from' until' caps' scope' dom u') [root]
  = if bool_decide (until < 0) then Ok ChainVerification.Expired
    else if scope_attenuates_within scope scope' && caps_attenuate_within caps caps'
            && bool_decide (until' ≤ until)
    then Ok ChainVerification.Attenuated else Ok ChainVerification.NotAttenuated.
Proof.
  intros root.
  rewrite (verify_chain_at_lineage _ _ _ _ _ [root]).
  - rewrite (bool_decide_ext _ (¬ until < 0)).
    2: { rewrite Forall_singleton. unfold root. rewrite harness_doc_expired by done.
         by rewrite bool_decide_eq_false. }
    rewrite reverse_cons, reverse_singleton. simpl app. cbn [check_hops].
    unfold root. rewrite harness_hop by done.
    rewrite bool_decide_not. destruct (bool_decide (until < 0)); [done|]. by destruct (_ && _ && _).
  - apply presented_bundle_new_wf.
  - apply harness_authenticate.
  - intros id d. unfold presented_get, presented_bundle_new. cbn [foldl].
    rewrite lookup_insert_Some. intros [[_ <-]|[_ ?]]; [apply harness_authenticate|done].
  - eapply docs_hop; [reflexivity| |by constructor].
    unfold presented_get, presented_bundle_new. cbn [foldl]. apply (lookup_insert_eq (M := gmap VaidId)).
  - simpl. apply NoDup_cons. split; [|apply NoDup_singleton].
    rewrite list_elem_of_singleton. intros [=]. by destruct Hne.
  - pose proof max_lineage_depth_three. simpl. lia.
Qed.

Lemma verify_three f1 u1 c1 s1 i1 f2 u2 c2 s2 i2 f3 u3 c3 s3 i3
    (Hu1 : 0 ≤ u1 ≤ 7200) (Hu2 : 0 ≤ u2 ≤ u1) (Hu3 : hour_apart u3) (Hu32 : u3 ≤ u2)
    (Hnd : NoDup [i1; i2; i3])
    (Hs : scope_attenuates_within s1 s2 = true) (Hs' : scope_attenuates_within s2 s3 = true)
    (Hc : caps_attenuate_within c1 c2 = true) (Hc' : caps_attenuate_within c2 c3 = true) :
  let root := harness_doc k None n f1 u1 c1 s1 dom i1 in
  let mid := harness_doc k (Some root) n f2 u2 c2 s2 dom i2 in
  verify (harness_doc k (Some mid) n f3 u3 c3 s3 dom i3) [root; mid]
  = Ok ChainVerification.Attenuated.
Proof.
  intros root mid. apply NoDup_cons in Hnd as [Hi1 [Hi2 _]%NoDup_cons].
  rewrite !not_elem_of_cons in Hi1. rewrite list_elem_of_singleton in Hi2. destruct_and! Hi1.
  assert (hour_apart u1 ∧ hour_apart u2) as [? ?] by (unfold hour_apart; lia).
  rewrite (verify_chain_at_lineage _ _ _ _ _ [mid; root]).
  - rewrite bool_decide_eq_true_2.
    2: { repeat constructor; unfold mid, root; rewrite harness_doc_expired by done;
         apply bool_decide_eq_false; lia. }
    rewrite !reverse_cons, reverse_nil. simpl app. cbn [check_hops].
    unfold mid, root. rewrite !harness_hop by done.
    rewrite Hs, Hs', Hc, Hc', !bool_decide_eq_true_2 by lia. done.
  - apply presented_bundle_new_wf.
  - apply harness_authenticate.
  - intros id d. unfold presented_get, presented_bundle_new. cbn [foldl].
    rewrite !lookup_insert_Some. intros [[_ <-]|[_ [[_ <-]|[_ ?]]]]; [apply harness_authenticate..|done].
  - eapply docs_hop; [reflexivity| |eapply docs_hop; [reflexivity| |by constructor]];
      unfold presented_get, presented_bundle_new; cbn [foldl].
    + apply (lookup_insert_eq (M := gmap VaidId)).
    + etrans; [apply (lookup_insert_ne (M := gmap VaidId)); intros [=]; congruence|].
      apply (lookup_insert_eq (M := gmap VaidId)).
  - simpl. repeat (apply NoDup_cons; split); rewrite ?not_elem_of_cons; split_and?;
      try apply not_elem_of_nil; try apply NoDup_nil_2; try (intros [=]; congruence).
  - pose proof max_lineage_depth_three. simpl. lia.
Qed.

End Hop.

  (** ** Each scenario has the one fault it is about *)

  (** Why a presentation is refused: the chain, the leaf's expiry, or the tool. *)
Inductive Fault : Type :=
  | Broken (v : ChainVerification)
  | Lapsed
  | ToolNotHeld.

#[local] Instance Fault_eq_dec : EqDecision Fault.
Proof. solve_decision. Defined.

  (** The presentation has the fault [f], and no other. *)
Definition only_fault (k : Kernel) (now : Instant) (tool : string) (f : option Fault)
    (p : Presentation) : Prop :=
  verify_chain_at (single_kernel_key_new (k_public_key k)) p.1 (presented_bundle_new p.2)
    attestation_bundle_empty now
  = Ok (match f with Some (Broken v) => v | _ => ChainVerification.Attenuated end)
  ∧ is_expired_at p.1 now = bool_decide (f = Some Lapsed)
  ∧ has_capability p.1 tool = bool_decide (f ≠ Some ToolNotHeld).

Definition presents (k : Kernel) (now : Instant) (tool : string) (f : option Fault)
    (r : Outcome Empty_set Presentation * World) : Prop :=
  ∃ p w, r = (Ok p, w) ∧ only_fault k now tool f p.

  (** What a presentation with at most one fault is answered. *)
Lemma only_fault_verdict k now tool f p w :
  only_fault k now tool f p → (∀ v, f = Some (Broken v) → v ≠ ChainVerification.Attenuated) →
  chain_verdict k p.1 p.2 now tool w
  = (Ok (if bool_decide (f = None) then permit else deny), w).
Proof.
  intros (Hv & Hx & Ht) Hf. unfold chain_verdict, mbindM, mliftO. rewrite Hv, Hx, Ht.
  destruct f as [[v| |]|]; try done. by destruct v; try by destruct (Hf _ eq_refl).
Qed.

Section Scenarios.
  Context (k : Kernel) (n : Z) (Hk : kernel_ok k) (Hn : harness_second n).
  Context (w : World) (Hw : Inj (=) (=) (w_uuids w)).
  Local Notation now := (n * NANOS).

Lemma fresh i j : i ≠ j → w_uuids w i ≠ w_uuids w j.
Proof. intros Hne Heq. apply Hne, Hw, Heq. Qed.

Lemma fresh_three i : NoDup [w_uuids w i; w_uuids w (S i); w_uuids w (S (S i))].
Proof.
  repeat (apply NoDup_cons; split); rewrite ?not_elem_of_cons; split_and?;
    try apply not_elem_of_nil; try apply NoDup_nil_2; apply fresh; lia.
Qed.

Lemma held tool caps : tool ∈ caps → caps_contain caps tool = true.
Proof. apply caps_contain_spec. Qed.
Lemma not_held tool caps : tool ∉ caps → caps_contain caps tool = false.
Proof. rewrite <- caps_contain_spec. by destruct (caps_contain _ _). Qed.

Ltac run_docs :=
  unfold mbindM;
  repeat (first [rewrite doc_at_run by (done || (unfold hour_apart; lia))
                |rewrite doc_at_ex_run by (done || (unfold hour_apart; lia))]; cbn beta iota).
Ltac capability :=
  first [apply held | apply not_held]; set_solver.
Ltac present :=
  run_docs; eexists _, _; split; [reflexivity|]; unfold only_fault; cbn [fst snd]; split; [|split];
  [|by rewrite harness_doc_expired by (done || (unfold hour_apart; lia))|try capability].
Ltac pair :=
  cbn [fst snd]; rewrite verify_pair by
    (done || apply harness_domain || (unfold hour_apart; lia) || (apply fresh; simpl; lia)).

Ltac narrowed :=
  rewrite (proj2 (caps_attenuate_within_subset _ _)) by set_solver; reflexivity.

Lemma chain_1_fault tool : presents k now tool None (chain_1 k now tool w).
Proof. unfold chain_1. present. by apply verify_alone. Qed.

Lemma chain_5_fault tool : presents k now tool (Some Lapsed) (chain_5 k now tool w).
Proof. unfold chain_5. present. by apply verify_alone. Qed.

Lemma chain_3_fault tool : presents k now tool None (chain_3 k now tool w).
Proof.
  unfold chain_3. present. apply verify_three; try done; try (unfold hour_apart; lia).
  - apply fresh_three.
  - apply caps_attenuate_within_subset. set_solver.
  - apply caps_attenuate_within_subset. set_solver.
Qed.

  (** The fault of a scenario that grants something else in the tool's place,
      unless the tool is that. *)
Definition unless_granted (tool granted : string) (f : Fault) : option Fault :=
  if bool_decide (tool = granted) then None else Some f.

Lemma chain_9_3_fault tool :
  presents k now tool (unless_granted tool "other_tool" ToolNotHeld) (chain_9_3 k now tool w).
Proof. unfold chain_9_3, unless_granted. case_bool_decide; present; pair; narrowed. Qed.

Lemma chain_9_4_fault tool : presents k now tool None (chain_9_4 k now tool w).
Proof. unfold chain_9_4. present. pair; narrowed. Qed.

Lemma chain_9_6_fault tool :
  presents k now tool (unless_granted tool "read_file" ToolNotHeld) (chain_9_6 k now w).
Proof. unfold chain_9_6, unless_granted. case_bool_decide; present; pair; narrowed. Qed.

Lemma chain_13_fault tool :
  presents k now tool (Some (Broken ChainVerification.NotAttenuated)) (chain_13 k now tool w).
Proof. unfold chain_13. present. pair; by rewrite andb_false_r. Qed.

Lemma chain_13_c_fault tool : presents k now tool (Some Lapsed) (chain_13_c k now tool w).
Proof. unfold chain_13_c. present. pair; narrowed. Qed.

Lemma chain_11_fault tool :
  presents k now tool (Some (Broken ChainVerification.NotAttenuated)) (chain_11 k now tool w).
Proof. unfold chain_11. present. pair. reflexivity. Qed.

Lemma chain_11_b_fault tool :
  presents k now tool (unless_granted tool "other_tool" (Broken ChainVerification.NotAttenuated))
    (chain_11_b k now tool w).
Proof.
  unfold chain_11_b, unless_granted. case_bool_decide; present; pair; [narrowed|].
  unfold caps_attenuate_within. cbn [forallb]. by rewrite not_held by set_solver.
Qed.

Lemma chain_19_15_fault tool :
  presents k now tool (Some (Broken ChainVerification.NotAttenuated)) (chain_19_15 k now tool w).
Proof. unfold chain_19_15. present. pair. reflexivity. Qed.

Lemma chain_26_1_fault tool :
  presents k now tool (unless_granted tool "other_tool" ToolNotHeld) (chain_26_1 k now w).
Proof. unfold chain_26_1, unless_granted. case_bool_decide; present; pair; narrowed. Qed.

  (** What is asked of the signature scheme for the vector of the tampered
      signature: one is not empty, and no longer verifies with its first bit
      flipped. *)
Definition flip_detected (kernel : Kernel) : Prop :=
  ∀ m, ∃ sig, flip_first_bit (kernel_sign kernel m) = Some sig
              ∧ ed25519_verify (k_public_key kernel) m sig = false.

Lemma chain_14_fault tool :
  flip_detected k →
  presents k now tool (Some (Broken ChainVerification.Inauthentic)) (chain_14 k now tool w).
Proof.
  intros Hflip. unfold chain_14. run_docs. set (d := harness_doc _ _ _ _ _ _ _ _ _).
  assert (∃ sig, flip_first_bit (vd_kernel_signature d) = Some sig
          ∧ ed25519_verify (k_public_key k)
              (canonical_vaid_signing_bytes (with_kernel_signature d sig)) sig = false)
    as (sig & Hsig & Hv).
  { destruct (Hflip (canonical_vaid_signing_bytes d)) as (sig & Hs & Hv). exists sig.
    rewrite (canonical_with_signature d sig) by apply harness_doc_wf. split; [|done].
    rewrite <- Hs. unfold d at 1, harness_doc at 1. cbn [vd_kernel_signature with_kernel_signature].
    by do 2 f_equal. }
  rewrite Hsig. cbn [expect]. unfold mret. eexists _, _. split; [reflexivity|].
  unfold only_fault. cbn [fst snd]. split; [|split].
  - assert (authenticate (single_kernel_key_new (k_public_key k)) (with_kernel_signature d sig)
            = false) as Ha.
    { apply not_true_iff_false. intros Ha%single_key_authenticate.
      apply authenticity_true in Ha. pose proof (proj1 (authenticity_true _ _) Ha) as [_ _ _ _ Hs].
      simpl in Hs. congruence. }
    unfold verify_chain_at. by rewrite Ha.
  - change (is_expired_at d now = false). unfold d.
    by rewrite harness_doc_expired by (done || (unfold hour_apart; lia)).
  - capability.
Qed.

Lemma chain_14_c_fault k' tool :
  k_thumbprint k' ≠ kernel_key_thumbprint (k_public_key k) →
  presents k now tool (Some (Broken ChainVerification.Inauthentic)) (chain_14_c k' now tool w).
Proof.
  intros Ht. unfold chain_14_c. present. unfold verify_chain_at, authenticate, resolve_key,
    single_key_resolver. simpl. by rewrite bool_decide_eq_false_2.
Qed.

  (** The same document with one more member. *)
Definition with_member (d : Vaid) (key : string) (v : Json) : Vaid :=
  mkVaid (vd_sig_version d) (vd_vaid_id d) (vd_agent_id d) (vd_agent_class d) (vd_version d)
    (vd_tenant_id d) (vd_issued_at d) (vd_expires_at d) (vd_public_key_der d)
    (vd_kernel_signature d) (vd_parent_vaid d) (vd_scope_boundary d) (vd_lineage_hash d)
    (vd_capability_set d) (vd_trust_domain d) (vd_kernel_key_thumbprint d)
    (<[key := v]> (vd_unknown_fields d)).

Lemma with_member_value d key v :
  object_insert key v (vaid_to_value d) = vaid_to_value (with_member d key v).
Proof. unfold vaid_to_value. simpl. by rewrite <- insert_union_l. Qed.

Lemma with_member_wf d key v : vaid_wf d → key ∉ KNOWN_FIELDS → vaid_wf (with_member d key v).
Proof.
  intros [? ? ? Hu ?] Hkey. split; try done. intros k' Hk'. simpl.
  rewrite lookup_insert_ne by (intros ->; done). by apply Hu.
Qed.

Lemma chain_27_1_fault tool : presents k now tool None (chain_27_1 k now tool w).
Proof.
  clear Hw. unfold chain_27_1. run_docs. rewrite with_member_value.
  set (d := harness_doc _ _ _ _ _ _ _ _ _).
  assert (vaid_wf (with_member d "x_harness_unrecognized_claim"
            (JString "ignored-by-a-conforming-verifier"))) as Hwf.
  { apply with_member_wf; [apply harness_doc_wf|by apply (bool_decide_unpack (_ ∉ _))]. }
  rewrite (vaid_raw _ Hwf) by done. cbn [expect]. unfold mret.
  eexists _, _. split; [reflexivity|]. unfold only_fault. cbn [fst snd].
  set (d' := with_kernel_signature _ _).
  assert (authentic (k_public_key k) d') as Ha.
  { assert (authentic (k_public_key k) d) as [Hv Hd Ht Hl _]
      by by apply harness_doc_authentic.
    split; try done. unfold d'. rewrite canonical_with_signature by done.
    destruct Hk as [-> _]. apply ed25519_verify_sign. }
  split; [|split].
  - rewrite (verify_chain_at_lineage _ _ _ _ _ []); try done.
    + by apply single_key_authenticate.
    + by constructor.
    + apply NoDup_singleton.
    + pose proof max_lineage_depth_three. simpl. lia.
  - change (is_expired_at d now = false). unfold d.
    by rewrite harness_doc_expired by (done || (unfold hour_apart; lia)).
  - capability.
Qed.

End Scenarios.

Lemma kernel_from_seed_ok b w k w' : kernel_from_seed b w = (Ok k, w') → kernel_ok k ∧ w' = w.
Proof.
  unfold kernel_from_seed, expect, mbindM, mret, mpanic.
  destruct (kp_from_seed_unchecked _); [|done]. intros [= <- <-]. done.
Qed.

Lemma harness_new_ok w h w' :
  harness_new w = (Ok h, w') →
  kernel_ok (h_kernel h) ∧ kernel_ok (h_untrusted_kernel h) ∧ kernel_ok (h_kernel2 h)
  ∧ h_trust_map h
    = trusted_issuer_map_new [(h_kernel h, TRUST_DOMAIN); (h_kernel2 h, TRUST_DOMAIN_2)]
  ∧ w' = w.
Proof.
  unfold harness_new, kernel_new. intros Hr. do 3 run_ok Hr. injection Hr as <- <-.
  repeat match goal with Hf : kernel_from_seed _ _ = _ |- _ =>
    apply kernel_from_seed_ok in Hf as [? ->] end. done.
Qed.

  (** What four scenarios grant in the place of the tool they are asked for. *)
Definition substitute (id : string) : option string :=
  if bool_decide (id = "J.9.6") then Some "read_file"
  else if bool_decide (id ∈ ["J.9.3"; "J.11.b"; "J.26.1"]) then Some "other_tool"
  else None.

  (** The fault each chain scenario is about, for a tool: none where the tool is
      the substitute. *)
Definition intended (group id tool : string) : option Fault :=
  if bool_decide (group = "5" ∨ id = "J.13.c") then Some Lapsed
  else if bool_decide (substitute id = Some tool) then None
  else if bool_decide (id ∈ ["J.9.3"; "J.9.6"; "J.26.1"]) then Some ToolNotHeld
  else if bool_decide (id ∈ ["J.13"; "J.11"; "J.19.11"; "J.11.b"; "J.19.15"]) then
    Some (Broken ChainVerification.NotAttenuated)
  else if bool_decide (id ∈ ["J.14"; "J.14.c"]) then Some (Broken ChainVerification.Inauthentic)
  else None.

Lemma intended_not_attenuated group id tool v :
  intended group id tool = Some (Broken v) → v ≠ ChainVerification.Attenuated.
Proof. unfold intended. repeat case_bool_decide; congruence. Qed.

Lemma intended_root group id tool :
  group ∈ ["1"; "3"] → split_on "." id !! 1%nat = Some group → intended group id tool = None.
Proof.
  intros Hg Hid. unfold intended. rewrite bool_decide_eq_false_2.
  - case_bool_decide; [done|].
    repeat (case_bool_decide; [exfalso|]); [..|done];
      rewrite ?elem_of_cons, ?elem_of_nil in *; destruct_or!; subst; try done;
      vm_compute in Hid; congruence.
  - rewrite !elem_of_cons, elem_of_nil in Hg. intros [->| ->]; [by destruct_or! Hg|].
    vm_compute in Hid. destruct_or! Hg; congruence.
Qed.

  (** The scenarios of one substitute, by evaluation. *)
Lemma intended_substituted group id tool granted f :
  group ≠ "5" → id ≠ "J.13.c" → substitute id = Some granted → intended group id "" = Some f →
  intended group id tool = unless_granted tool granted f.
Proof.
  intros Hg Hid Hs. unfold intended, unless_granted. rewrite Hs.
  rewrite bool_decide_eq_false_2 by tauto. rewrite bool_decide_eq_false_2.
  - intros <-. rewrite (bool_decide_ext (Some granted = Some tool) (tool = granted)); [done|].
    naive_solver.
  - unfold substitute in Hs. repeat case_bool_decide; congruence.
Qed.

  (** ** Properties *)

(** C27. Every chain vector is about one thing: with usable keys, a signature
    scheme that notices a flipped bit, fresh identifiers and an instant in
    range, for every scenario and every tool, the documents presented are
    refused for the fault the vector names (a broken chain with its verdict, a
    lapsed leaf, or a tool not held) and pass the other two tests, so the entry
    recorded is DENY exactly when there is a fault.  Four scenarios grant
    something else in the place of the tool; asked for just that, they have no
    fault and are answered PERMIT. *)
Theorem chain_vectors_one_fault (hs : Harness) (n : Z) (w0 w : World) (group id tool : string)
    (chain : Run Presentation)
    (Hnew : harness_new w0 = (Ok hs, w))
    (Huntrusted : k_thumbprint (h_untrusted_kernel hs) ≠ k_thumbprint (h_kernel hs))
    (Hflip : flip_detected (h_kernel hs))
    (Hfresh : Inj (=) (=) (w_uuids w)) (Hn : harness_second n)
    (Hgroup : split_on "." id !! 1%nat = Some group)
    (Hchain : chain_scenario hs group id tool (n * NANOS) = Some chain) :
  presents (h_kernel hs) (n * NANOS) tool (intended group id tool) (chain w)
  ∧ ∃ w', translate hs group id tool (n * NANOS) w
          = (Ok (if bool_decide (intended group id tool = None) then permit else deny), w').
Proof.
  apply harness_new_ok in Hnew as (Hk & _ & _ & _ & <-). pose proof Hk as [_ Ht].
  assert (presents (h_kernel hs) (n * NANOS) tool (intended group id tool) (chain w)) as Hp.
  { unfold chain_scenario in Hchain. cbv zeta in Hchain.
    repeat match type of Hchain with
    | (if ?b then _ else _) = _ => destruct b eqn:?; [injection Hchain as <-|]
    end; bool_hyps; [..|done].
    all: repeat match goal with
      | Hb : _ || _ = true |- _ => apply orb_true_iff in Hb as [Hb|Hb]; bool_hyps
      end; simplify_eq.
    { rewrite intended_root by (done || set_solver). by apply chain_1_fault. }
    { rewrite intended_root by (done || set_solver). by apply chain_3_fault. }
    { unfold intended. rewrite bool_decide_eq_true_2 by by left. by apply chain_5_fault. }
    { erewrite intended_substituted by done. by apply chain_9_3_fault. }
    { by apply chain_9_4_fault. }
    { erewrite intended_substituted by done. by apply chain_9_6_fault. }
    { by apply chain_13_fault. }
    { by apply chain_13_c_fault. }
    { by apply chain_14_fault. }
    { apply chain_14_c_fault; try done. by rewrite <- Ht. }
    { by apply chain_27_1_fault. }
    { by apply chain_11_fault. }
    { by apply chain_11_fault. }
    { erewrite intended_substituted by done. by apply chain_11_b_fault. }
    { by apply chain_19_15_fault. }
    { erewrite intended_substituted by done. by apply chain_26_1_fault. } }
  split; [done|]. destruct Hp as (p & w' & Hrun & Hfault). exists w'. unfold translate.
  rewrite Hchain. unfold mbindM. rewrite Hrun. apply only_fault_verdict; [done|].
  apply intended_not_attenuated.
Qed.

  (** ** The scenarios judged by one document *)

Lemma without_last_app s a : without_last (s +:+ char_string a) = s.
Proof.
  induction s as [|c s IH]; [done|]. simpl. rewrite IH. by destruct s.
Qed.

#[local] Opaque quoted.

Lemma members_text_spliced m body k v :
  members_text m body → m ≠ [] → string_body k → string_body v →
  ∃ b, body = b +:+ char_string "}"
  ∧ members_text (m ++ [(k, Leaf)])
      (b +:+ ", " +:+ quoted k +:+ ":" +:+ quoted v +:+ "}").
Proof.
  intros Hm Hne Hk Hv.
  assert (members_text [(k, Leaf)] (" " +:+ quoted k +:+ "" +:+ String ":"
            ("" +:+ quoted v +:+ "" +:+ "}"))) as Hlast.
  { apply members_last; try done. by apply text_string. }
  induction Hm as [w Hw|w k' w1 w2 t s w3 ? ? ? ? ? ?|w k' w1 w2 t s w3 m' l s' ? ? ? ? ? ? Hm' IH].
  - done.
  - exists (w +:+ quoted k' +:+ w1 +:+ String ":" (w2 +:+ s +:+ w3)). split.
    + by rewrite !string_app_assoc; simpl; rewrite !string_app_assoc.
    + rewrite !string_app_assoc. simpl. rewrite !string_app_assoc.
      by apply (members_cons w k' w1 w2 t s w3 (k, Leaf) []).
  - destruct IH as (b & -> & Hb); [done|].
    exists (w +:+ quoted k' +:+ w1 +:+ String ":" (w2 +:+ s +:+ w3 +:+ String "," b)). split.
    + by rewrite !string_app_assoc; simpl; rewrite !string_app_assoc.
    + rewrite !string_app_assoc. simpl. rewrite !string_app_assoc.
      apply (members_cons w k' w1 w2 t s w3 m' (l ++ [(k, Leaf)])); done.
Qed.

#[local] Transparent quoted.

Lemma vaid_members_plain d : Forall (λ kv : string * Json, plain_name kv.1) (vaid_members d).
Proof. unfold vaid_members. destruct (vd_parent_vaid d) as [p|]; repeat constructor. Qed.

Lemma vaid_members_tenant d : "tenant_id" ∈ map fst (vaid_members d).
Proof. unfold vaid_members. do 5 right. left. Qed.

  (** A text with the tenant named twice is refused before it is parsed. *)
Lemma spliced_unparseable `{!JsonTextLaws} now pk d rev :
  vd_unknown_fields d = ∅ →
  ends_with_char "}" (vaid_to_string d) = true
  ∧ verify_vaid_standing_from_json now pk (splice_tenant (vaid_to_string d)) rev
    = VaidVerdict.Unparseable.
Proof.
  intros Hu. unfold vaid_to_string. rewrite Hu, map_to_list_empty, app_nil_r.
  destruct (json_object_text (vaid_members d) (vaid_members_plain d)) as (m & body & -> & Hm & Hf).
  assert (m ≠ []) as Hne.
  { intros ->. pose proof (vaid_members_tenant d) as Ht. rewrite <- Hf in Ht.
    by apply elem_of_nil in Ht. }
  assert (string_body "tenant_id" ∧ string_body TENANT) as [Hk Hv]
    by (split; unfold TENANT; repeat constructor; discriminate).
  destruct (members_text_spliced m body "tenant_id" TENANT Hm Hne Hk Hv) as (b & -> & Hb).
  split; [by apply (ends_with_char_app "}" (String "{" b))|].
  unfold verify_vaid_standing_from_json, splice_tenant.
  change (String "{" (b +:+ char_string "}")) with (String "{" b +:+ char_string "}").
  rewrite (without_last_app (String "{" b) "}").
  apply text_object, has_duplicate_value in Hb. change DQUOTE_TEXT with (char_string DQUOTE).
  match goal with |- context [has_duplicate_member_names ?t] =>
    assert (has_duplicate_member_names t = repeats (Members (m ++ [("tenant_id", Leaf)])))
      as -> by exact Hb end.
  rewrite repeats_members, members_repeat_spec, bool_decide_eq_false_2; [done|].
  intros [Hnd _]. rewrite map_app in Hnd. apply NoDup_app in Hnd as (_ & Hnd & _).
  apply (Hnd "tenant_id"); [|by left]. rewrite Hf. apply vaid_members_tenant.
Qed.

  (** ** Keys bound to domains *)

Lemma kernel_key_map_lookup ks t k :
  (∀ k1 k2, k1 ∈ ks → k2 ∈ ks → kernel_key_thumbprint k1 = kernel_key_thumbprint k2 → k1 = k2) →
  (kernel_key_map_new ks : gmap string (list byte)) !! t = Some k ↔ k ∈ ks ∧ kernel_key_thumbprint k = t.
Proof.
  unfold kernel_key_map_new. induction ks as [|k0 ks IH] using rev_ind; intros Hinj; [set_solver|].
  rewrite foldl_app. cbn [foldl]. rewrite lookup_insert_Some.
  rewrite IH by (intros k1 k2 H1' H2' Heq; apply Hinj; rewrite ?elem_of_app; auto).
  rewrite elem_of_app, list_elem_of_singleton. split.
  - intros [[<- <-]|[_ [? ?]]]; auto.
  - intros [[Hin|Hin] <-]; [|subst; by left].
    destruct (decide (kernel_key_thumbprint k0 = kernel_key_thumbprint k)) as [E|E]; [|by right].
    left. split; [done|]. apply Hinj; rewrite ?elem_of_app, ?list_elem_of_singleton; auto.
Qed.

  (** Every key filed under its own thumbprint. *)
Definition trust_wf (m : TrustedIssuerMap) : Prop :=
  ∀ t e, (m : gmap string (list byte * string)) !! t = Some e → kernel_key_thumbprint e.1 = t.

Lemma as_key_map_lookup (m : TrustedIssuerMap) t k :
  trust_wf m → (as_key_map m : gmap string (list byte)) !! t = Some k ↔
  fst <$> (m : gmap string (list byte * string)) !! t = Some k.
Proof.
  intros Hwf. unfold as_key_map.
  assert (∀ x, x ∈ map (λ kv : string * (list byte * string), kv.2.1) (map_to_list m) ↔
               ∃ dom, (m : gmap string (list byte * string)) !! kernel_key_thumbprint x = Some (x, dom))
    as Hin.
  { intros x. rewrite list_elem_of_fmap. split.
    - intros ([t' [x' dom]] & -> & Hm%elem_of_map_to_list). simpl. exists dom.
      pose proof (Hwf _ _ Hm) as Ht. simpl in Ht. by rewrite Ht.
    - intros (dom & Hm). exists (kernel_key_thumbprint x, (x, dom)). split; [done|].
      by apply elem_of_map_to_list. }
  rewrite kernel_key_map_lookup.
  - rewrite Hin. split.
    + intros [(dom & Hm) <-]. by rewrite Hm.
    + intros ([x dom] & Hm & [= ->])%fmap_Some.
      pose proof (Hwf _ _ Hm) as Ht. simpl in Ht. rewrite Ht. eauto.
  - intros k1 k2 [d1 Hk1]%Hin [d2 Hk2]%Hin Heq. rewrite Heq, Hk2 in Hk1. congruence.
Qed.

Lemma trusted_issuer_lookup entries t e :
  (trusted_issuer_map_new entries : gmap string (list byte * string)) !! t = Some e →
  ∃ k, (k, e.2) ∈ entries ∧ k_thumbprint k = t ∧ k_public_key k = e.1.
Proof.
  unfold trusted_issuer_map_new. induction entries as [|[k0 dom0] entries IH] using rev_ind; [done|].
  rewrite foldl_app. cbn [foldl]. rewrite lookup_insert_Some. simpl. intros [[<- <-]|[_ Hl]].
  - exists k0. set_solver.
  - destruct (IH Hl) as (k & Hk & ?). exists k. set_solver.
Qed.

Lemma trusted_issuer_wf entries :
  Forall (λ e, kernel_ok e.1) entries → trust_wf (trusted_issuer_map_new entries).
Proof.
  intros Hall t e He. apply trusted_issuer_lookup in He as (k & Hin & <- & <-).
  rewrite Forall_forall in Hall. destruct (Hall _ Hin) as [_ Ht]. symmetry. exact Ht.
Qed.

  (** The answer of the scenarios that are not chains under one key. *)
Definition intended_other (id : string) : option ResultEntry :=
  if bool_decide (id ∈ ["J.23.1"; "J.23.4"; "J.21.22"; "J.8.3"; "J.8.5"]) then Some deny
  else if bool_decide (id = "J.21.23") then Some permit
  else None.

Section Others.
  Context `{!JsonTextLaws} (n : Z) (Hn : harness_second n) (w : World).
  Local Notation now := (n * NANOS).

Lemma vector_23_4_denied k tool : ∃ w', vector_23_4 k now tool w = (Ok deny, w').
Proof.
  unfold vector_23_4, mbindM. rewrite doc_at_run by (done || (unfold hour_apart; lia)).
  set (d := harness_doc _ _ _ _ _ _ _ _ _).
  destruct (spliced_unparseable 0%Z
              (k_public_key k) d NotRevoked) as [He _]; [done|].
  rewrite He. cbn [negb utc_now].
  by rewrite (proj2 (spliced_unparseable _ (k_public_key k) d NotRevoked eq_refl)); eexists.
Qed.

Lemma vector_8_3_denied k tool :
  kernel_ok k → ∃ w', vector_8_3 k now tool w = (Ok deny, w').
Proof.
  intros Hk. unfold vector_8_3, mbindM.
  assert (entry_new "future-constraint-kind-v99" (JString "whatever-value")
          = Ok (mkEntry "future-constraint-kind-v99" (JString "whatever-value"))) as -> by done.
  unfold mret at 1. rewrite doc_at_ex_run by (done || (unfold hour_apart; lia)).
  set (d := harness_doc _ _ _ _ _ _ _ _ _). exists (next_uuid w).
  assert (verify_vaid_authenticity_graded (k_public_key k) d = VaidVerdict.Valid) as ->.
  { apply graded_valid. by apply harness_doc_authentic. }
  assert (is_expired_at d now = false) as ->; [|done].
  apply harness_doc_expired; [done|unfold hour_apart; lia].
Qed.

Lemma chain_21_22_denied entries k tool :
  trust_domain_for (trusted_issuer_map_new entries) (k_thumbprint k) = Some TRUST_DOMAIN_2 →
  ∃ w', (let! p := chain_21_22 k now tool in
         chain_verdict_with_binding (trusted_issuer_map_new entries) p.1 p.2 now tool) w
        = (Ok deny, w').
Proof.
  intros Ht. unfold chain_21_22, mbindM.
  rewrite doc_at_ex_run by (done || (unfold hour_apart; lia)). exists (next_uuid w).
  set (d := harness_doc _ _ _ _ _ _ _ _ _).
  unfold mret at 1, chain_verdict_with_binding, binds. cbn [fst snd].
  change (vd_kernel_key_thumbprint d) with (k_thumbprint k). by rewrite Ht.
Qed.

Lemma chain_21_23_permitted entries k tool :
  Forall (λ e, kernel_ok e.1) entries → kernel_ok k →
  (trusted_issuer_map_new entries : gmap string (list byte * string)) !! k_thumbprint k
  = Some (k_public_key k, TRUST_DOMAIN_2) →
  ∃ w', (let! p := chain_21_23 k now tool in
         chain_verdict_with_binding (trusted_issuer_map_new entries) p.1 p.2 now tool) w
        = (Ok permit, w').
Proof.
  intros Hall Hk Ht. unfold chain_21_23, mbindM.
  rewrite doc_at_ex_run by (done || (unfold hour_apart; lia)). exists (next_uuid w).
  set (d := harness_doc _ _ _ _ _ _ _ _ _).
  unfold mret at 1, chain_verdict_with_binding, binds. cbn [fst snd existsb orb].
  assert (trust_domain_for (trusted_issuer_map_new entries) (vd_kernel_key_thumbprint d)
          = Some (vd_trust_domain d)) as Hb.
  { unfold trust_domain_for. change (vd_kernel_key_thumbprint d) with (k_thumbprint k).
    by rewrite Ht. }
  rewrite (bool_decide_eq_true_2 _ Hb). cbn [negb orb]. unfold mbindM, mliftO.
  rewrite (verify_chain_at_lineage _ _ _ _ _ []); try done.
  - assert (is_expired_at d now = false) as ->.
    { apply harness_doc_expired; [done|unfold hour_apart; lia]. }
    assert (has_capability d tool = true) as -> by (apply held; set_solver). reflexivity.
  - unfold authenticate, resolve_key, key_map_resolver.
    change (vd_kernel_key_thumbprint d) with (k_thumbprint k).
    rewrite (proj2 (as_key_map_lookup _ (k_thumbprint k) (k_public_key k)
                      (trusted_issuer_wf entries Hall))) by by rewrite Ht.
    apply authenticity_true. by apply harness_doc_authentic.
  - by constructor.
  - apply NoDup_singleton.
  - pose proof max_lineage_depth_three. simpl. lia.
Qed.

End Others.

(** The vectors judged otherwise: no credential, a member name spelled
    twice in an otherwise valid text, a trusted key used for another issuer's
    domain, and a boundary entry of an unrecognised kind are DENY; a second
    trusted issuer in its own domain is PERMIT. *)
Theorem other_vectors `{!JsonTextLaws} (hs : Harness) (n : Z) (w0 w : World)
    (group id tool : string) (e : ResultEntry)
    (Hnew : harness_new w0 = (Ok hs, w)) (Hn : harness_second n)
    (Hgroup : split_on "." id !! 1%nat = Some group) (He : intended_other id = Some e) :
  ∃ w', translate hs group id tool (n * NANOS) w = (Ok e, w').
Proof.
  apply harness_new_ok in Hnew as (Hk & _ & Hk2 & Hm & <-).
  assert (id ∈ ["J.23.1"; "J.23.4"; "J.21.22"; "J.8.3"; "J.8.5"; "J.21.23"]) as Hid.
  { unfold intended_other in He. repeat case_bool_decide; set_solver. }
  assert ((trusted_issuer_map_new [(h_kernel hs, TRUST_DOMAIN); (h_kernel2 hs, TRUST_DOMAIN_2)]
             : gmap string (list byte * string)) !! k_thumbprint (h_kernel2 hs) = Some (k_public_key (h_kernel2 hs), TRUST_DOMAIN_2))
    as Hl by apply (lookup_insert_eq (M := gmap string)).
  rewrite !elem_of_cons, elem_of_nil in Hid.
  destruct_or! Hid; subst id; vm_compute in Hgroup; injection Hgroup as <-;
    vm_compute in He; injection He as <-; unfold translate; simpl; rewrite ?Hm.
  - by eexists.
  - by apply vector_23_4_denied.
  - apply chain_21_22_denied; [done|]. unfold trust_domain_for. by rewrite Hl.
  - by apply vector_8_3_denied.
  - by apply vector_8_3_denied.
  - apply chain_21_23_permitted; [done|by rewrite !Forall_cons|done..].
Qed.

  (** ** What PERMIT means *)

  (** The leaf is live and holds the tool: so does every ancestor. *)
Lemma chain_granted {K} `{KernelKeyResolver K} (keys : K) attestations now leaf bundle docs tool :
  chain_ok keys attestations now leaf bundle docs →
  is_expired_at leaf now = false → has_capability leaf tool = true →
  Forall (λ d, is_expired_at d now = false ∧ has_capability d tool = true) (leaf :: docs).
Proof.
  intros [_ _ _ _ _ Hlive Hhops] Hl Ht. constructor; [done|].
  apply hops_contained in Hhops. rewrite Forall_forall in *. intros d Hd.
  split; [by apply Hlive|]. by apply (contained_in_meaning _ _ (Hhops d Hd)).
Qed.

Lemma verdict_permit (attenuated live authorized : bool) (w w' : World) :
  @mret World Empty_set _ (if attenuated && live && authorized then permit else deny) w
  = (Ok permit, w') ↔ attenuated = true ∧ live = true ∧ authorized = true ∧ w' = w.
Proof. unfold mret. destruct attenuated, live, authorized; naive_solver. Qed.

(** PERMIT is a grant at every level: the harness answers it exactly when
    the chain verifies under the kernel's key, the leaf is live and holds the
    tool, and then every document from the leaf to the root is authentic under
    that key, live at the instant, and holds the tool. *)
Theorem permit_is_granted (k : Kernel) (leaf : Vaid) (ancestors : list Vaid) (now : Instant)
    (tool : string) (w w' : World) :
  (chain_verdict k leaf ancestors now tool w = (Ok permit, w') ↔
   verify_chain_at (single_kernel_key_new (k_public_key k)) leaf (presented_bundle_new ancestors)
     attestation_bundle_empty now = Ok ChainVerification.Attenuated
   ∧ is_expired_at leaf now = false ∧ has_capability leaf tool = true ∧ w' = w)
  ∧ (chain_verdict k leaf ancestors now tool w = (Ok permit, w') →
     ∃ docs, ancestor_docs (presented_bundle_new ancestors) leaf docs
     ∧ Forall (λ d, authentic (k_public_key k) d ∧ is_expired_at d now = false
                    ∧ has_capability d tool = true) (leaf :: docs)).
Proof.
  set (keys := single_kernel_key_new (k_public_key k)).
  assert (chain_verdict k leaf ancestors now tool w = (Ok permit, w') ↔
   verify_chain_at keys leaf (presented_bundle_new ancestors) attestation_bundle_empty now
   = Ok ChainVerification.Attenuated
   ∧ is_expired_at leaf now = false ∧ has_capability leaf tool = true ∧ w' = w) as Hiff.
  { unfold chain_verdict, mbindM, mliftO. fold keys.
    destruct (verify_chain_at _ _ _ _ _) as [v|[]|]; [|naive_solver].
    rewrite verdict_permit, negb_true_iff. destruct v; naive_solver. }
  split; [exact Hiff|]. rewrite Hiff.
  intros ((docs & Hok)%verify_chain_at_attenuated & Hl & Ht & _); [|apply presented_bundle_new_wf].
  exists docs. split; [apply Hok|]. pose proof (chain_granted _ _ _ _ _ _ _ Hok Hl Ht) as Hall.
  destruct Hok as [Hleaf Hbundle Hdocs _ _ _ _].
  rewrite Forall_forall in *. intros d Hd. split; [|by apply Hall].
  apply single_key_authenticate. apply elem_of_cons in Hd as [->|Hd]; [done|].
  destruct (ancestor_docs_presented _ _ _ _ Hdocs Hd) as [id Hget]. by eapply Hbundle.
Qed.

  (** Without consents no hop crosses keys: one key and one domain throughout. *)
Lemma unconsented_one_key {K} `{KernelKeyResolver K} (keys : K) now leaf docs :
  hops_ok keys attestation_bundle_empty now leaf docs →
  Forall (λ d, vd_kernel_key_thumbprint d = vd_kernel_key_thumbprint leaf
               ∧ vd_trust_domain d = vd_trust_domain leaf) docs.
Proof.
  revert leaf. induction docs as [|p up IH]; intros leaf; [constructor|].
  intros [[_ _ _ Hsame Hcross] Hok].
  destruct (decide (vd_kernel_key_thumbprint p = vd_kernel_key_thumbprint leaf)) as [E|E].
  - destruct (Hsame E) as [Hd _]. constructor; [done|].
    eapply Forall_impl; [by apply IH|]. simpl. intros d [-> ->]. done.
  - destruct (Hcross E) as (a & key & Ha & _). by compute in Ha.
Qed.

(** C26. No trusted issuer speaks for another's domain: a PERMIT under a map of
    trusted issuers means that one of them, under the domain it is bound to,
    signed every document of the chain, each of which claims that domain, is
    live at the instant and holds the tool. *)
Theorem permit_is_bound (entries : list (Kernel * string)) (leaf : Vaid) (ancestors : list Vaid)
    (now : Instant) (tool : string) (w w' : World)
    (Hentries : Forall (λ e, kernel_ok e.1) entries)
    (Hpermit : chain_verdict_with_binding (trusted_issuer_map_new entries) leaf ancestors now tool w
               = (Ok permit, w')) :
  ∃ docs k domain, ancestor_docs (presented_bundle_new ancestors) leaf docs
  ∧ (k, domain) ∈ entries
  ∧ Forall (λ d, authentic (k_public_key k) d ∧ vd_trust_domain d = domain
                 ∧ is_expired_at d now = false ∧ has_capability d tool = true) (leaf :: docs).
Proof.
  set (m := trusted_issuer_map_new entries) in *.
  unfold chain_verdict_with_binding in Hpermit.
  destruct (binds m leaf) eqn:Hb; [|done]. simpl in Hpermit.
  destruct (existsb _ ancestors); [done|]. unfold mbindM, mliftO in Hpermit.
  destruct (verify_chain_at _ _ _ _ _) as [v|[]|] eqn:Hv; [|done].
  apply verdict_permit in Hpermit as (Ha & Hl%negb_true_iff & Ht & ->).
  assert (v = ChainVerification.Attenuated) as -> by (by destruct v).
  apply verify_chain_at_attenuated in Hv as (docs & Hok); [|apply presented_bundle_new_wf].
  apply bool_decide_eq_true in Hb. unfold trust_domain_for in Hb.
  apply fmap_Some in Hb as ([pk domain] & Hm & Hdom). simpl in Hdom. subst domain.
  destruct (trusted_issuer_lookup _ _ _ Hm) as (k & Hin & Hth & Hpk). simpl in Hin, Hpk.
  exists docs, k, (vd_trust_domain leaf). split; [apply Hok|]. split; [done|].
  pose proof (chain_granted _ _ _ _ _ _ _ Hok Hl Ht) as Hall.
  destruct Hok as [Hleaf Hbundle Hdocs _ _ _ Hhops]. apply unconsented_one_key in Hhops.
  assert (∀ d, authenticate (as_key_map m) d = true →
               vd_kernel_key_thumbprint d = vd_kernel_key_thumbprint leaf →
               authentic (k_public_key k) d) as Hauth.
  { intros d Hd Hdt. unfold authenticate, resolve_key, key_map_resolver in Hd. rewrite Hdt in Hd.
    rewrite (proj2 (as_key_map_lookup m _ pk (trusted_issuer_wf entries Hentries))) in Hd
      by by rewrite Hm.
    rewrite Hpk. by apply authenticity_true. }
  rewrite Forall_forall in *. intros d Hd. pose proof (Hall d Hd) as [Hdl Hdt].
  apply elem_of_cons in Hd as [->|Hd]; [by split_and!; [apply Hauth|..]|].
  destruct (ancestor_docs_presented _ _ _ _ Hdocs Hd) as [id Hget].
  destruct (Hhops d Hd) as [Hk Hd']. split_and!; [|done..]. apply Hauth; [|done]. by eapply Hbundle.
Qed.

  (** ** Every suite gets its results *)

Definition returns {A} (m : Run A) (w : World) : Prop := ∃ a w', m w = (Ok a, w').

Lemma returns_bind {A B} (m : Run A) (f : A → Run B) w :
  returns m w → (∀ a w', returns (f a) w') → returns (mbindM m f) w.
Proof. intros (a & w' & Hm) Hf. unfold returns, mbindM. rewrite Hm. apply Hf. Qed.

Lemma returns_mret {A} (a : A) w : returns (mret a) w.
Proof. by eexists _, _. Qed.

(** Without consents there is no window to compute, so no panic. *)
Lemma check_hop_total {K} `{KernelKeyResolver K} (keys : K) now p d :
  check_hop keys attestation_bundle_empty now p d ≠ Panicked.
Proof.
  unfold check_hop. assert (attestation_get attestation_bundle_empty (vaid_id p) (vaid_id d) = None)
    as -> by reflexivity. by repeat case_match.
Qed.

Lemma check_hops_total {K} `{KernelKeyResolver K} (keys : K) now l :
  check_hops keys attestation_bundle_empty now l ≠ Panicked.
Proof.
  induction l as [|p [|d l] IH]; [done..|]. cbn [check_hops].
  pose proof (check_hop_total keys now p d). by destruct (check_hop keys _ now p d).
Qed.

Lemma verify_chain_returns {K} `{KernelKeyResolver K} (keys : K) leaf bundle now w :
  returns (mliftO (verify_chain_at keys leaf bundle attestation_bundle_empty now)) w.
Proof.
  enough (verify_chain_at keys leaf bundle attestation_bundle_empty now ≠ Panicked) as Hv.
  { unfold returns, mliftO. destruct (verify_chain_at _ _ _ _ _) as [v|[]|]; eauto; done. }
  unfold verify_chain_at. pose proof (check_hops_total keys now) as Hh.
  repeat case_match; try done. by destruct (Hh _ ltac:(eassumption)).
Qed.

Lemma chain_verdict_returns k leaf ancestors now tool w :
  returns (chain_verdict k leaf ancestors now tool) w.
Proof. apply returns_bind; [apply verify_chain_returns|intros; apply returns_mret]. Qed.

Lemma bound_verdict_returns m leaf ancestors now tool w :
  returns (chain_verdict_with_binding m leaf ancestors now tool) w.
Proof.
  unfold chain_verdict_with_binding. destruct (_ || _); [apply returns_mret|].
  apply returns_bind; [apply verify_chain_returns|intros; apply returns_mret].
Qed.

Section Total.
  Context `{!JsonTextLaws} (n : Z) (Hn : harness_second n).
  Local Notation now := (n * NANOS).

Lemma doc_at_ex_returns k parent from until caps scope domain w :
  hour_apart from → hour_apart until →
  returns (doc_at_ex k parent now from until caps scope domain) w.
Proof. intros Hf Hu. unfold returns. rewrite doc_at_ex_run by done. eauto. Qed.

Lemma doc_at_returns k parent from until caps w :
  hour_apart from → hour_apart until → returns (doc_at k parent now from until caps) w.
Proof. intros Hf Hu. unfold returns. rewrite doc_at_run by done. eauto. Qed.

Ltac returning :=
  repeat lazymatch goal with
    | |- returns (mret _) _ => apply returns_mret
    | |- returns (chain_verdict _ _ _ _ _) _ => apply chain_verdict_returns
    | |- returns (chain_verdict_with_binding _ _ _ _ _) _ => apply bound_verdict_returns
    | |- returns (doc_at _ _ _ _ _ _) _ => apply doc_at_returns; unfold hour_apart; lia
    | |- returns (doc_at_ex _ _ _ _ _ _ _ _) _ => apply doc_at_ex_returns; unfold hour_apart; lia
    | |- returns (mbindM _ _) _ => apply returns_bind; [|intros ? ?]
    end.

Lemma flip_first_bit_some sig : sig ≠ [] → is_Some (flip_first_bit sig).
Proof.
  destruct sig as [|b sig]; [done|]. intros _. unfold flip_first_bit. by destruct b; eexists.
Qed.

Lemma chain_scenario_returns hs group id tool chain w :
  kernel_ok (h_kernel hs) → (∀ m, kernel_sign (h_kernel hs) m ≠ []) →
  chain_scenario hs group id tool now = Some chain → returns chain w.
Proof.
  intros Hk Hsig Hchain. unfold chain_scenario in Hchain. cbv zeta in Hchain.
  repeat match type of Hchain with
  | (if ?b then _ else _) = _ => destruct b; [injection Hchain as <-|]
  end; [..|done].
  all: try (unfold chain_1, chain_3, chain_5, chain_9_3, chain_9_4, chain_9_6, chain_13, chain_13_c,
              chain_14_c, chain_11, chain_11_b, chain_19_15, chain_26_1; returning; fail).
  - unfold chain_14, returns, mbindM. rewrite doc_at_run by (done || (unfold hour_apart; lia)).
    set (d := harness_doc _ _ _ _ _ _ _ _ _).
    destruct (flip_first_bit_some (vd_kernel_signature d)) as [sig ->]; [apply Hsig|]. by eexists _, _.
  - destruct (chain_27_1_fault (h_kernel hs) n Hk Hn w tool) as (p & w' & Hr & _). by exists p, w'.
Qed.

Lemma translate_returns hs group id tool w0 w :
  harness_new w0 = (Ok hs, w0) → (∀ m, kernel_sign (h_kernel hs) m ≠ []) →
  returns (translate hs group id tool now) w.
Proof.
  intros Hnew Hsig. apply harness_new_ok in Hnew as (Hk & _ & _ & _ & _). unfold translate.
  destruct (chain_scenario hs group id tool now) as [chain|] eqn:E.
  { apply returns_bind; [by eapply chain_scenario_returns|]. intros. apply chain_verdict_returns. }
  clear E. destruct (other_scenario hs group id tool now) as [run|] eqn:E; [|apply returns_mret].
  unfold other_scenario in E. cbv zeta in E.
  repeat match type of E with
  | (if ?b then _ else _) = _ => destruct b; [injection E as <-|]
  end; [..|done].
  - apply returns_mret.
  - destruct (vector_23_4_denied n Hn w (h_kernel hs) tool) as [w' Hr]. by exists deny, w'.
  - unfold chain_21_22. returning.
  - unfold chain_21_23. returning.
  - destruct (vector_8_3_denied n Hn w (h_kernel hs) tool Hk) as [w' Hr]. by exists deny, w'.
Qed.

End Total.

  (** A vector the harness can read: an id with a group, an instant in range. *)
Definition readable (v : Json) (id : string) : Prop :=
  as_str (index v "id") = Some id ∧ is_Some (split_on "." id !! 1%nat)
  ∧ harness_second (default 1704067500 (as_i64 (index v "now"))).

Lemma run_one_returns `{!JsonTextLaws} hs w0 results v id w :
  harness_new w0 = (Ok hs, w0) → (∀ m, kernel_sign (h_kernel hs) m ≠ []) → readable v id →
  ∃ e w', run_one hs results v w = (Ok (<[id := e]> results), w').
Proof.
  intros Hnew Hsig (Hid & [group Hg] & Hn). unfold run_one, mbindM, ts, expect.
  rewrite Hid. unfold mret at 1. rewrite Hg. unfold mret at 1.
  rewrite dt_timestamp_opt_spec
    by (unfold harness_second, four_digit_year, NANOS in *; lia).
  unfold mret at 1.
  destruct (translate_returns _ Hn hs group id (default "read_file" (as_str (index v "tool"))) w0 w
              Hnew Hsig) as (e & w' & ->). by eexists _, _.
Qed.

(** A suite of readable vectors is run to its end without a panic, whatever
    scenarios it names and in whatever order, and every vector, and nothing
    else, has a result. *)
Theorem harness_returns `{!JsonTextLaws} (suite : Json) (vectors : list Json) (ids : list string)
    (w : World)
    (Hseeds : ∀ b, is_Some (kp_from_seed_unchecked (replicate 32 b)))
    (Hsig : ∀ b kp m, kp_from_seed_unchecked (replicate 32 b) = Some kp → kp_sign kp m ≠ [])
    (Hvectors : as_array (index suite "vectors") = Some vectors)
    (Hread : Forall2 readable vectors ids) :
  ∃ results w', main_results suite w = (Ok results, w') ∧ dom results = list_to_set ids.
Proof.
  assert (∃ hs, harness_new w = (Ok hs, w) ∧ ∀ m, kernel_sign (h_kernel hs) m ≠ [])
    as (hs & Hnew & Hk).
  { unfold harness_new, kernel_new, kernel_from_seed, mbindM, expect.
    destruct (Hseeds "081"%byte) as [kp Hkp], (Hseeds "082"%byte) as [? ->],
      (Hseeds "083"%byte) as [? ->]. rewrite Hkp. eexists. split; [done|].
    intros m. by eapply Hsig. }
  unfold main_results, mbindM. rewrite Hvectors. cbn [expect]. unfold mret at 1. rewrite Hnew.
  clear Hvectors. assert (∀ results w1, ∃ results' w',
    run_all hs vectors results w1 = (Ok results', w') ∧ dom results' = dom results ∪ list_to_set ids)
    as Hall; [|destruct (Hall ∅ w) as (r & w' & Hr & Hd); exists r, w'; split; [done|set_solver]].
  induction Hread as [|v id vectors ids Hv _ IH]; intros results w1.
  - exists results, w1. split; [done|]. set_solver.
  - destruct (run_one_returns hs w results v id w1 Hnew Hk Hv) as (e & w2 & Hr).
    destruct (IH (<[id := e]> results) w2) as (r & w' & Hr' & Hd). exists r, w'.
    cbn [run_all]. unfold mbindM. rewrite Hr. split; [done|]. rewrite Hd, dom_insert_L. set_solver.
Qed.

End Laws.

End HarnessVerdicts.

(** ** Witnesses *)

Module HarnessSamples.

Lemma plain_name_body k : plain_name k → string_body k.
Proof.
  unfold plain_name. induction k as [|c k IH]; [constructor|]. simpl.
  intros [[[Hq Hb]%bool_decide_eq_true _]%andb_true_iff Hk]%andb_true_iff.
  constructor; auto.
Qed.

#[local] Instance concrete_text_laws parse : @JsonTextLaws (@ext_codec (concrete parse)).
Proof.
  split. intros l Hl. exists (map (λ kv, (kv.1, Leaf)) l). eexists. split; [reflexivity|].
  split; [|by rewrite map_map].
  induction Hl as [|[k v] l Hk%plain_name_body Hl IH]; [by apply (members_nil "")|].
  destruct l as [|[k' v'] l].
  - refine (eq_rect _ (members_text _) (members_last "" k "" "" Leaf "0" "" _ Hk _ _ _ _) _ _);
      try done; [by apply text_scalar|]. unfold quoted. simpl. by rewrite !string_app_assoc.
  - refine (eq_rect _ (members_text _) (members_cons "" k "" "" Leaf "0" "" (k', Leaf)
      (map (λ kv, (kv.1, Leaf)) l) _ _ Hk _ _ _ _ IH) _ _);
      try done; [by apply text_scalar|]. unfold quoted. simpl. by rewrite !string_app_assoc.
Qed.

#[local] Instance samples : Externals := concrete no_json.

Definition instant : Z := 1704067500.
Definition world : World := mkWorld (λ _, 0%Z) 0 N.of_nat 0 (λ _, None) 0.

Definition seed_kernel (b : byte) : Kernel :=
  let kp : @KeyPair (@ext_crypto samples) := replicate 32 b in
  mkKernel kp (kp_public_key kp) (kernel_key_thumbprint (kp_public_key kp)).
Definition harness : Harness :=
  mkHarness (seed_kernel "081") (seed_kernel "082") (seed_kernel "083")
    (trusted_issuer_map_new
       [(seed_kernel "081", TRUST_DOMAIN); (seed_kernel "083", TRUST_DOMAIN_2)]).

Lemma harness_made : harness_new world = (Ok harness, world).
Proof. reflexivity. Qed.

Definition now : Instant := (instant * NANOS)%Z.

Lemma instant_in_range : harness_second instant.
Proof. unfold harness_second, instant. lia. Qed.

(** A signature here is the key and then the message, so a flipped bit shows. *)
Lemma flip_shows : flip_detected (h_kernel harness).
Proof.
  intros m. eexists. split; [reflexivity|]. apply bool_decide_eq_false. by intros [=].
Qed.

Lemma chain_vectors_one_fault_witness :
  ∃ w', translate harness "14" "J.14" "read" now world = (Ok deny, w').
Proof.
  refine (proj2 (chain_vectors_one_fault harness instant world world "14" "J.14" "read"
            (chain_14 (h_kernel harness) now "read") harness_made _ flip_shows _
            instant_in_range _ _)).
  - vm_compute. discriminate.
  - reflexivity.
  - reflexivity.
Defined.

Lemma other_vectors_witness :
  ∃ w', translate harness "23" "J.23.4" "read" now world = (Ok deny, w').
Proof.
  apply (other_vectors harness instant world world "23" "J.23.4" "read" deny harness_made
           instant_in_range); reflexivity.
Defined.

Definition second_kernel : Kernel := seed_kernel "083".
Definition bound_root : Vaid :=
  harness_doc second_kernel None instant (-600) 3600 ["read"; "write"] [] TRUST_DOMAIN_2 1%N.
Definition bound_leaf : Vaid :=
  harness_doc second_kernel (Some bound_root) instant (-60) 1800 ["read"] [] TRUST_DOMAIN_2 2%N.
Definition trusted : list (Kernel * string) :=
  [(seed_kernel "081", TRUST_DOMAIN); (second_kernel, TRUST_DOMAIN_2)].

Lemma permit_is_granted_witness :
  ∃ docs, ancestor_docs (presented_bundle_new [bound_root]) bound_leaf docs
  ∧ Forall (λ d, authentic (k_public_key second_kernel) d ∧ is_expired_at d now = false
                 ∧ has_capability d "read" = true) (bound_leaf :: docs).
Proof.
  apply (proj2 (permit_is_granted second_kernel bound_leaf [bound_root] now "read" world world)).
  vm_compute. reflexivity.
Defined.

Lemma permit_is_bound_witness :
  ∃ docs k domain, ancestor_docs (presented_bundle_new [bound_root]) bound_leaf docs
  ∧ (k, domain) ∈ trusted
  ∧ Forall (λ d, authentic (k_public_key k) d ∧ vd_trust_domain d = domain
                 ∧ is_expired_at d now = false ∧ has_capability d "read" = true)
      (bound_leaf :: docs).
Proof.
  apply (permit_is_bound trusted bound_leaf [bound_root] now "read" world world).
  - unfold trusted. rewrite !Forall_cons. done.
  - vm_compute. reflexivity.
Defined.

Definition suite : Json :=
  JObject {["vectors" := JArray
    [JObject (list_to_map [("id", JString "J.1"); ("tool", JString "read")]);
     JObject (list_to_map [("id", JString "J.99.9")])]]}.

Lemma harness_returns_witness :
  ∃ results w', main_results suite world = (Ok results, w')
  ∧ dom results = list_to_set ["J.1"; "J.99.9"].
Proof.
  eapply (harness_returns suite _ ["J.1"; "J.99.9"] world).
  - intros b. by eexists.
  - intros b kp m [= <-]. done.
  - reflexivity.
  - repeat constructor; by eexists || (vm_compute; discriminate).
Defined.

End HarnessSamples.
