(* ===== verification/EmitterTexts.v ===== *)
(** * The prose of the frozen vectors

    The comments, schemes and rules the generators of
    [crates/vaid-mint/examples] and [crates/vaid-pop/examples] write into the
    vectors, word for word.  The digest of the chain vector covers some members
    and not these, which is why they are kept apart from what is checked. *)

From S2P Require Import Prelude.

(** A text given in pieces. *)
Fixpoint text (pieces : list string) : string :=
  match pieces with
  | [] => ""
  | s :: rest => s +:+ text rest
  end.

(** ** [emit_mint_vector.rs] *)

Definition MINT_COMMENT : string := text
  ["Mint conformance vector (v1). Load-bearing. `input` is a real UNSIGNED VAID document ";
   "(snake_case; the Rust `Vaid` has no serde rename), with `kernel_signature` empty. A ";
   "conforming mint MUST produce `digest_sha256_hex` from `input` by nulling ";
   "`kernel_signature`, canonicalizing per JCS (RFC 8785), and SHA-256; and (given the ";
   "kernel seed) reproduce `ed25519.signature_hex` byte-for-byte. `input.lineage_hash` MUST ";
   "equal sha256_hex(parent_vaid==null ? 'GENESIS:{agent_id}' : ";
   "'{parent_vaid}:{agent_id}'), and `input.vaid_id` MUST equal `input.agent_id`. v3 ";
   "(ADR-0004) adds `trust_domain` and `kernel_key_thumbprint`: the thumbprint MUST equal ";
   "the RFC 9278 URI over the RFC 7638 JWK thumbprint of `ed25519.kernel_public_key_hex`, ";
   "so a conforming verifier can check the document commits to the key that signed it. ";
   "`trust_domain` is `vaid.example`, RESERVED BY DESIGN: this vector publishes its own ";
   "kernel private seed, so anyone can sign documents under it — a real trust domain here ";
   "would be a published forgery generator for that deployment. RFC 2606 reserves ";
   "`.example`, and a conforming verifier SHOULD refuse to bind a trust bundle to a ";
   "special-use name. Any drift is a break. SELF-CONSISTENT within this repo only (Decision ";
   "B) — NOT conformant against the closed VAID format."].

Definition MINT_SCHEME : string := text
  ["JCS(RFC8785) over the full VAID document with kernel_signature nulled -> SHA-256 -> ";
   "pure Ed25519 over the 32-byte digest as raw message; raw 64-byte signature; raw 32-byte ";
   "kernel public key"].

Definition MINT_KEY_COMMENT : string := text
  ["Deterministic kernel key (same RFC 8032 seed as operator_pop_v1.json). Any conforming ";
   "mint derives the same kernel public key and produces the same signature over ";
   "digest_sha256_hex."].

(** ** [emit_mint_pop_vector.rs] *)

Definition MINT_POP_COMMENT : string := text
  ["Mint proof-of-possession conformance vector (v1). Load-bearing. `input` is a real ";
   "MintPopPayload (#[serde(rename_all=camelCase)]) — the payload a holder signs to prove ";
   "it controls the BYO public key it registers at mint. A conforming implementation MUST ";
   "produce `digest_sha256_hex` from `input` via JCS (RFC 8785) -> SHA-256, and (given ";
   "`ed25519.private_key_seed_hex`) reproduce `ed25519.signature_hex` byte-for-byte. TWO ";
   "THINGS THIS VECTOR PINS THAT NO OTHER DOES: (1) it is the ROOT case, so `parentVaid` is ";
   "JSON **null** — the only null in any frozen vector, pinning docs/spec/encoding.md E.7 ";
   "(an absent value is null with its key retained, NEVER an omitted key); (2) ";
   "`publicKeyDer` IS the public half of the signing seed, so the signature verifies ";
   "against the key being registered — the whole semantic content of proof-of-possession, ";
   "checkable end-to-end via verify_signed_payload. Before this vector existed, ";
   "MintPopPayload was the one signed structure with no frozen artifact (encoding.md E.11): ";
   "the implementations agreed by construction, not by proof."].

Definition MINT_POP_SCHEME : string := text
  ["JCS(RFC8785) over the camelCase MintPopPayload -> SHA-256 -> pure Ed25519 over the ";
   "32-byte digest as raw message; raw 64-byte signature; raw 32-byte Ed25519 public key. ";
   "Byte-valued fields (publicKeyDer) are arrays of numbers, per docs/spec/encoding.md E.4."].

Definition MINT_POP_KEY_COMMENT : string := text
  ["Deterministic holder key (same RFC 8032 seed as operator_pop_v1.json). NOTE the ";
   "difference from mint_v1.json: here the public key is not an independent value but ";
   "exactly `input.publicKeyDer`, because a proof-of-possession signs FOR the key it ";
   "registers."].

(** ** [emit_attestation_vector.rs] *)

Definition ATTESTATION_COMMENT : string := text
  ["Consent attestation conformance vector (att_version 1). Load-bearing. `attestation` is ";
   "a real UNSIGNED attestation (snake_case) with `signature` empty. A conforming ";
   "implementation MUST produce `digest_sha256_hex` from it by nulling `signature`, ";
   "canonicalizing per JCS (RFC 8785) and SHA-256; and (given the kernel seed) reproduce ";
   "`signature_hex` byte-for-byte. ADDITIVE: the attestation is a SEPARATE SIGNED OBJECT, ";
   "so mint_v1.json, mint_pop_v1.json and chain_v1.json are untouched and `sig_version` is ";
   "unchanged — `att_version` is this object's own discriminant. WHOSE FIELDS ARE WHOSE ";
   "(spec C.2): the top-level `trust_domain` and `kernel_key_thumbprint` are the ATTESTING ";
   "PARENT ISSUER'S and MUST equal the parent document's; `child_trust_domain` and ";
   "`child_tenant_id` are what is AUTHORIZED and MUST equal the child document's. The two ";
   "differ here (`a.example` consenting to a child in `b.example`) precisely so that ";
   "distinction is visible in the bytes. `issued_at`/`expires_at` bound the consent; per ";
   "spec C.6 a time bound is a MITIGATION, NOT WITHDRAWAL — retraction inside the window ";
   "needs durable revocation, which does not exist in this implementation. Both domains are ";
   "RFC 2606 reserved BY DESIGN: this vector publishes its own kernel private seed, so ";
   "anyone can sign under it. Any drift is a break. SELF-CONSISTENT within this repo only ";
   "(Decision B) — NOT conformant against the closed VAID format."].

(** ** [emit_chain_vector.rs] *)

Definition CHAIN_COMMENT : string := text
  ["Chain-presentation conformance vector (v1), per ADR-0003 §3. ADDITIVE: it introduces no ";
   "new signed field and no new encoding rule inside signed bytes. `mint_v1.json` and ";
   "`mint_pop_v1.json` are untouched and are NOT re-frozen by this vector's existence. Each ";
   "entry of `chain` is an ordinary v3 VAID document, UNSIGNED (`kernel_signature` empty); ";
   "a conforming implementation MUST reproduce each `digest_sha256_hex` by nulling ";
   "`kernel_signature`, canonicalizing per JCS (RFC 8785) and SHA-256, and MUST reproduce ";
   "each `signature_hex` from the kernel seed. What this vector pins BEYOND mint_v1 is the ";
   "walk: presented with these three documents (the leaf plus the two ancestors as a ";
   "detached bundle), a conforming verifier MUST assemble exactly ";
   "`expected.assembled_lineage` — ORDERED ROOT FIRST, LEAF LAST — and MUST reach ";
   "`expected.verification`. Authority narrows strictly at every hop in BOTH dimensions ";
   "(scope by prefix extension, capabilities by removal), and `tenant_id` and ";
   "`trust_domain` are constant across the chain, because cross-tenant delegation is denied ";
   "at mint. Revocation is NOT consulted by chain verification and is not represented here. ";
   "EXPIRY NOW IS: since vaid#79, a chain with a lapsed ancestor is `expired` and a child ";
   "outliving its parent is `not_attenuated`. This vector is a positive control for that ";
   "rule — all three documents share one expiry, so containment holds with equality — and ";
   "it is asserted at `expected.verification_instant`, without which the verdict below ";
   "would be false. The negative cases live in `chain_expiry_v1.json`. `trust_domain` is ";
   "`vaid.example`, RESERVED BY DESIGN: this vector publishes its own kernel private seed, ";
   "so anyone can sign documents under it — a real trust domain here would be a published ";
   "forgery generator for that deployment. RFC 2606 reserves `.example`. Any drift is a ";
   "break. SELF-CONSISTENT within this repo only (Decision B) — NOT conformant against the ";
   "closed VAID format."].

Definition CHAIN_KEY_COMMENT : string := text
  ["Deterministic kernel key (same RFC 8032 seed as mint_v1.json and operator_pop_v1.json). ";
   "EVERY hop is signed by this ONE key: the chain is single-trust-domain, which is what ";
   "the shipped verifier supports."].

Definition CHAIN_EXPECTED_COMMENT : string := text
  ["`assembled_lineage` is the output of assembling the leaf's ancestry against a bundle ";
   "holding the other two documents: root first, leaf last. `verification` is the verdict ";
   "of full chain verification — authenticate every document, pin each hop against the ";
   "signed `parent_vaid`, then check containment at every hop. `verification_instant` is ";
   "the instant the verdict is asserted AT, and it is normative: a conforming ";
   "implementation MUST evaluate this chain at exactly this instant, not at its own clock. ";
   "It was added in the same change that made chain verification refuse a chain with a ";
   "lapsed ancestor (vaid#79). Before that, the verdict below was asserted against whatever ";
   "the clock said, and these three documents expired on 2026-06-05 — so from that date on, ";
   "this vector was pinning ATTENUATED over a chain whose every ancestor was dead, and ";
   "every implementation passed. The instant is inside `digest_sha256_hex` because it is ";
   "part of the contract: the verdict does not mean anything without it. No document ";
   "changed, no signed byte moved, no per-hop digest or signature moved, and `sig_version` ";
   "is untouched; only the top-level contract digest, which covers this expectation, does."].

(** ** [emit_roundtrip_vector.rs] *)

Definition ROUNDTRIP_COMMENT : string := text
  ["Round-trip verification conformance vector (v1), per ADR-0006. VERIFY-ONLY, and a SHAPE ";
   "THE SURFACE DID NOT PREVIOUSLY HAVE: every other vector pins one implementation's ";
   "OUTPUT FOR A GIVEN INPUT; this one pins A VERDICT OVER GIVEN BYTES. That is the only ";
   "shape that catches cross-implementation disagreement, because the defect it exists for ";
   "appears only when one implementation MINTS and another VERIFIES. A conforming ";
   "implementation MUST, for each case, load the document EXACTLY AS GIVEN, compute ";
   "canonical_vaid_signing_bytes over it, and return `expected_valid` when checking ";
   "`kernel_signature` against `ed25519.kernel_public_key_hex`. It MUST NOT drop members it ";
   "does not recognise before canonicalizing -- that is precisely what this vector tests. ";
   "It carries no digest of its own: the assertion is the verdict, not the bytes. mint_v1, ";
   "mint_pop_v1, chain_v1, attestation_v1 and scope_v1 are untouched and NOT re-frozen."].

Definition ROUNDTRIP_STATEMENT : string := text
  ["A verifier canonicalizes the document it was PRESENTED. Unknown members are part of the ";
   "signed bytes. An implementation MUST either verify over the presented bytes or reject ";
   "the document explicitly; it MUST NOT re-project and return a verdict."].

Definition ROUNDTRIP_REJECTING : string := text
  ["An implementation MAY refuse a document carrying members it does not recognise ";
   "(ADR-0006 Decision 2). Such an implementation reports the unknown-field cases as ";
   "REJECTED rather than as the boolean below, and MUST say so explicitly. What it must ";
   "never do is silently drop the member and report a verdict as though the document had ";
   "not carried it."].

Definition WHY_KNOWN : string := text
  ["control -- a conforming document with no extension must verify"].

Definition WHY_EXTENDED : string := text
  ["THE CORE CASE. An implementation that drops `x_example_extension` before canonicalizing ";
   "computes a different digest and returns false for a genuinely valid document. Rust ";
   "vaid-mint did exactly this before ADR-0006."].

Definition WHY_REMOVED : string := text
  ["proves the extension is INSIDE the digest rather than ignored: the same signature must ";
   "not verify once the member is gone"].

Definition WHY_ADDED : string := text
  ["the other direction -- an implementation that drops unknown members would wrongly ";
   "ACCEPT this, because dropping it reproduces the signed bytes"].

(** ** [emit_chain_expiry_vector.rs] *)

Definition EXPIRY_COMMENT : string := text
  ["Expiry-containment conformance vector (v1). Session 240, closing vaid#79: `mint_child` ";
   "never compared a child's expiry to its parent's, so a child could outlive the authority ";
   "it derived from, and `verify_chain` returned `attenuated` over a chain whose root had ";
   "already expired. SHAPE: a PREDICATE vector, following scope_v1.json, roundtrip_v1.json ";
   "and verdict_v1.json - it pins VERDICTS over given bytes rather than bytes over a given ";
   "input, which is the only shape that catches cross-implementation disagreement. It ";
   "carries no digest of its own; the assertion is the verdict, and the freeze check pins ";
   "it on the SHA-256 of its own file bytes. ADDITIVE to every byte-pinning vector: ";
   "mint_v1, mint_pop_v1, attestation_v1 and roundtrip_v1 are untouched and NOT re-frozen, ";
   "no new signed field is introduced, and `sig_version` is unchanged. chain_v1 IS touched ";
   "by the same change, but only to state the instant its verdict is asserted at - no ";
   "document in it moved and no per-hop digest or signature moved. TWO SURFACES, because ";
   "the invariant is enforced at two places from ONE matcher and a vector covering only one ";
   "of them would let the two drift: `expiry_containment` is the matcher itself, as the ";
   "mint applies it to a delegation it has not yet issued; `chain` is the same matcher plus ";
   "the lapse check, as a third-party verifier applies them to documents it was handed. ";
   "EVERY CHAIN CASE STATES ITS OWN `verification_instant` and MUST be evaluated at it - a ";
   "case pinned against the suite's clock asserts whatever the calendar happens to say on ";
   "the day it runs, which is exactly how chain_v1 came to pin `attenuated` over three ";
   "documents that had been dead since June. `trust_domain` is `vaid.example`, RESERVED BY ";
   "DESIGN: this vector publishes its own kernel private seed - the same seed as mint_v1 ";
   "and chain_v1 - so anyone can sign documents under it, and a real trust domain here ";
   "would be a published forgery generator for that deployment. RFC 2606 reserves ";
   "`.example`. Any drift is a break. SELF-CONSISTENT within this repo only (Decision B) - ";
   "NOT conformant against the closed VAID format."].

Definition EXPIRY_KEY_COMMENT : string := text
  ["Deterministic kernel key - the SAME RFC 8032 seed as mint_v1.json and chain_v1.json. ";
   "Every document in every case is signed by this ONE key: these chains are ";
   "single-trust-domain, so no consent attestation is required or consulted and expiry is ";
   "the only variable."].

Definition RULE_UNREADABLE : string := text
  ["An absent or unparseable `expires_at` on EITHER side is `refused`, never `permitted`. ";
   "This is the same fail-closed posture verdict_v1 states for standing, where an ";
   "unreadable expiry makes a document expired rather than unparseable."].

Definition RULE_NOT_TTL : string := text
  ["The rule bounds the child's EXPIRY by the parent's, not the child's TTL by the ";
   "parent's. Two documents minted minutes apart under one 24-hour policy have identical ";
   "TTLs and the later one still outlives the earlier. Comparing TTLs would report ";
   "containment for exactly the continuous case vaid#79 describes."].

Definition RULE_CONTROLS : string := text
  ["Both surfaces carry positive controls. An implementation that refuses everything ";
   "satisfies every negative case here and no positive one. A checker that drops the ";
   "controls has disarmed the vector without changing a single negative."].

Definition RULE_DISTANCE : string := text
  ["Live documents expire nine centuries hence and lapsed ones two decades past, so no ";
   "verdict here changes with the calendar. The stated `verification_instant` makes each ";
   "case reproducible; the distance makes it robust even to an implementation that ignores ";
   "the instant on the standing predicate (BACKLOG B9)."].

Definition RULE_EQUALITY : string := text
  ["`child <= parent`. A child ending at the same instant as its parent holds authority for ";
   "no instant in which its parent holds none."].

Definition RULE_LAPSE : string := text
  ["`expired` is returned when a document ABOVE the leaf has passed its own `expires_at` at ";
   "the verification instant. The leaf's own standing - expiry and revocation - is not ";
   "consulted; that is vaid#76, open. The boundary is pinned by a case so that all three ";
   "implementations draw it in the same place, NOT because it is where the line belongs."].

Definition RULE_ORDER : string := text
  ["Where a chain breaks more than one rule, the FIRST fault found is the one reported, and ";
   "the order is: authenticity, then assembly, then ANCESTOR LAPSE, then hop containment ";
   "(tenant, scope, capabilities, expiry), then cross-key consent. Three verifiers that ";
   "reject the same chain for three different reasons agree on every boolean and disagree ";
   "about what happened - the divergence class verdict_v1 exists to police, applied here."].

Definition RULE_STATEMENT : string := text
  ["A conforming implementation MUST, for each `expiry_containment` case, evaluate whether ";
   "a child whose `expires_at` is `child_expires_at` is contained by a parent whose ";
   "`expires_at` is `parent_expires_at`, and return `expected`. It MUST, for each `chain` ";
   "case, verify the leaf (the last entry) against the other entries presented as a ";
   "detached bundle, AT the case's `verification_instant`, and return ";
   "`expected_verification`."].

Definition MINT_RULE_EXPIRED_PARENT : string := text
  ["The ceiling would be in the past, so the child would be issued already expired. That is ";
   "refused rather than issued, BEFORE the proof-of-possession, so the refusal burns no ";
   "nonce and a caller that renews the parent and retries is not denied for the wrong ";
   "reason. An unreadable parent expiry is expired, and is refused by the same rule."].

Definition MINT_RULE_CLAMP : string := text
  ["Decided in Session 240, after measuring the alternative. Refusing an over-long child ";
   "instead of clamping it makes delegation impossible for any issuer with a fixed TTL: ";
   "`expires = now + ttl` is re-evaluated at every mint, so a child minted one second after ";
   "its parent outlives it by one second and is refused. Measured against the reference ";
   "mint with one 24-hour issuer: delegation succeeded at a 0.0s delay and was refused at ";
   "1.1s. A rule whose correct implementation cannot delegate is not a rule anyone will ";
   "keep."].

Definition MINT_RULE_ROOTS : string := text
  ["A root has no parent to be contained by, so its TTL is the issuer's alone. A clamp ";
   "applied indiscriminately would silently shorten every root mint."].

Definition MINT_RULE_STATEMENT : string := text
  ["At mint, `mint_child` MUST bound the child's `expires_at` by the authenticated ";
   "parent's: the child is issued with the EARLIER of the issuer's own TTL and the parent's ";
   "expiry. A delegation from a parent that has ALREADY expired MUST be refused with the ";
   "same unauthorized-delegation error the other containment refusals raise, and the ";
   "refusal MUST name the parent's expiry."].

Definition MINT_RULE_CEILING : string := text
  ["The issuer is a seam a deployment supplies. An issuer that ignores the ceiling - one ";
   "written before this rule, or one that gets it wrong - would emit a child outliving its ";
   "parent that nothing downstream could distinguish from a legitimate one. So the mint ";
   "applies the SAME matcher to the document actually issued and withholds it if it fails. ";
   "A cap the issuer may ignore is not a guarantee."].

Definition WHY_LIVE : string := text
  ["THE POSITIVE CONTROL. Every negative below is only meaningful because this one must ";
   "return `attenuated`: an implementation that refused every chain would satisfy all of ";
   "them and none of this. Expiries narrow strictly down the chain, as scope and ";
   "capabilities already do."].

Definition WHY_EQUAL : string := text
  ["Containment is `child <= parent`, not `child < parent`. A child that ends at the same ";
   "instant as its parent holds authority for no instant in which its parent holds none, so ";
   "it is contained. The three implementations must agree on the boundary and not merely on ";
   "the interior; vaid#79 asked for this case by name."].

Definition WHY_ROOT : string := text
  ["The defect vaid#79 was filed for. Every document is authentic, the chain assembles, and ";
   "authority is contained at every hop - and the authority at the top of it ran out before ";
   "the verification instant. The three expiries are EQUAL here so containment holds and ";
   "the lapse is the only fault, which is what makes the verdict unambiguous."].

Definition WHY_INTERMEDIATE : string := text
  ["A lapse anywhere above the leaf, not only at the root. The root is live nine centuries ";
   "out and the leaf is contained by its parent, so the only fault is the middle hop - the ";
   "one a presenter is most likely to hope nobody walks."].

Definition WHY_OUTLIVES : string := text
  ["Nothing here has lapsed: every document is live at the instant and stays live for ";
   "centuries. The fault is structural - the leaf ends AFTER the intermediate it derives ";
   "from, so it was never built consistently. This is the half of vaid#79 that a ";
   "mint-time-only fix would leave in documents already issued, and it is why the rule is ";
   "enforced at both ends."].

Definition WHY_LEAF : string := text
  ["The leaf's own standing - its expiry and its revocation - is NOT consulted by chain ";
   "verification. That is vaid#76, open, and wider than this vector. It is pinned here only ";
   "so the three implementations draw the boundary in the same place rather than each ";
   "choosing; it records where the line currently is, and a reader must not take it as a ";
   "statement that this is where the line belongs. When #76 lands, this case changes and ";
   "this vector is re-frozen."].

Definition WHY_BEFORE : string := text
  ["THE POSITIVE CONTROL on this surface. Without it, an implementation whose predicate ";
   "returns false unconditionally passes every negative below."].

Definition WHY_EQUALITY : string := text
  ["`child <= parent`. The mint MUST NOT refuse a delegation that ends exactly when its ";
   "parent does."].

Definition WHY_ONE_SECOND : string := text
  ["The smallest representable overrun under the E.6 whole-second profile. A rule that only ";
   "fires on a gross overrun would pass a suite of hours-long cases and still let the ";
   "continuous form of the defect through - a child minted seconds after its parent under ";
   "one TTL outlives it by exactly the delegation delay."].

Definition WHY_INSTANT : string := text
  ["The same instant, written two ways. An implementation comparing the timestamps as text ";
   "reads '2026-06-05T12:00:00Z' > '2026-06-05T13:00:00+01:00' as false only by luck of the ";
   "alphabet, and the next offset form breaks it. ADR-0006: a verifier canonicalizes the ";
   "values it was PRESENTED, and a presented timestamp may be in any valid RFC 3339 form, ";
   "so the comparison must parse."].

Definition WHY_OFFSET : string := text
  ["The negative twin of the case above. Without it, an implementation could pass the ";
   "previous case by parsing nothing and returning `permitted` whenever the forms differ."].

Definition WHY_UNREADABLE : string := text
  ["FAIL CLOSED, and the same rule verdict_v1 states for standing: an expiry that cannot be ";
   "read is not an expiry that can be shown to contain anything. A rule that cannot be ";
   "evaluated must never report that it passed."].

Definition WHY_ABSENT_PARENT : string := text
  ["Absence and unreadability fail the same way. A missing member is not a permissive one."].

Definition WHY_ABSENT_CHILD : string := text
  ["The fail-closed rule is symmetric. A child whose own expiry cannot be read cannot be ";
   "shown to end before its parent."].

Definition WHY_NAIVE : string := text
  ["RFC 3339 requires an offset. Guessing UTC would invent a value the signer never wrote - ";
   "the same rule the standing parser already applies."].

(** ** [crates/vaid-pop/examples/emit_completion_vector.rs] *)

Definition COMPLETION_COMMENT : string := text
  ["Completion-record conformance vector (v1). Load-bearing. `input` is a real ";
   "CompletionRecord (camelCase). NOTE: this is the FIRST vector containing an ENUM ";
   "(`assuranceTier`) — the most likely place for silent Rust/Python string divergence, so ";
   "an explicit enum round-trip test accompanies it. A conforming implementation MUST ";
   "produce `digest_sha256_hex` from `input` via JCS (RFC 8785) -> SHA-256 and reproduce ";
   "`ed25519.signature_hex` byte-for-byte. SCOPE: self-signed DECLARED metadata only — the ";
   "single signature substantiates `assuranceTier=selfReported` and nothing above it; ";
   "counterSigned / thirdPartyAttested are unverified claims here (a separate, ";
   "not-yet-built primitive would substantiate them). Same JCS→SHA-256→Ed25519 primitive as ";
   "operator_pop_v1.json."].

Definition COMPLETION_SCHEME : string := text
  ["JCS(RFC8785) -> SHA-256 -> pure Ed25519 over the 32-byte digest as raw message; raw ";
   "64-byte signature; raw 32-byte Ed25519 public key"].

Definition COMPLETION_KEY_COMMENT : string := text
  ["Deterministic test key (same RFC 8032 seed as operator_pop_v1.json)."].

