(* ===== verification/Emitters.v ===== *)
(** * The generators of the frozen vectors

    The [main] of seven generators of [crates/vaid-mint/examples] and
    [crates/vaid-pop/examples], as the value each prints ([emit_mint_vector.rs],
    [emit_mint_pop_vector.rs], [emit_attestation_vector.rs],
    [emit_chain_vector.rs], [emit_chain_expiry_vector.rs],
    [emit_roundtrip_vector.rs], [emit_completion_vector.rs]), and the reading of
    [emit_unknown_scope_kind_verdict.rs].  An [unwrap], an [expect] or an
    [assert] that does not hold is a panic; the printing itself is left out. *)

From stdpp Require Import pretty.
From S2P Require Import Prelude Json Externals Concrete Identity Scope IssuerIdentity Document.
From S2P Require Import DupScan Revocation Attenuation Verify Attestation Chain Pop Wire Vectors.
From S2P Require Import Firewall EmitterTexts.

(** [serde_json::json!({..})] of distinct member names. *)
Definition json_object (l : list (string * Json)) : Json := JObject (list_to_map l).

Definition KERNEL_SEED_HEX : string :=
  "000102030405060708090a0b0c0d0e0f101112131415161718191a1b1c1d1e1f".

Definition VERIFICATION_INSTANT : string := "2026-06-04T18:00:00Z".

Section Emitters.
  Context {Ext : Externals}.

Definition Emit (A : Type) : Type := Outcome Empty_set A.

  (** [.unwrap()], [.expect(..)] *)
Definition unwrap {A} (o : option A) : Emit A :=
  match o with Some a => Ok a | None => Panicked end.
  (** [assert!(b, ..)] *)
Definition assert (b : bool) : Emit unit := if b then Ok tt else Panicked.

Definition unhex (s : string) : Emit (list byte) :=
  let? pairs := hex_pairs s in unwrap (mapM id pairs).

  (** [Ed25519KeyPair::from_seed_unchecked(&unhex(KERNEL_SEED_HEX)).unwrap()] *)
Definition kernel_key : Emit KeyPair :=
  let? seed := unhex KERNEL_SEED_HEX in unwrap (kp_from_seed_unchecked seed).

Definition rfc3339 (s : string) : Emit Instant := unwrap (dt_parse_from_rfc3339 s).

  (** [(0u8..32).collect()] *)
Definition first_bytes : list byte := omap byte_of_Z (seqZ 0 32).

Definition ser_uint (n : Z) : Json := JNumber (PosInt n).

  (** ** [emit_mint_vector.rs] *)

Definition emit_mint_vector : Emit Json :=
  let? agent_uuid := unwrap (uuid_parse_str "aaaaaaaa-aaaa-aaaa-aaaa-aaaaaaaaaaaa") in
  let? parent_uuid := unwrap (uuid_parse_str "11111111-1111-1111-1111-111111111111") in
  let agent_id := AgentId_from_uuid agent_uuid in
  let parent_vaid := Some (VaidId_from_uuid parent_uuid) in
  let agent_class := "child" in
  let version := "1.0.0" in
  let tenant_id := "aifactory" in
  let issued_at := "2026-06-04T12:00:00Z" in
  let expires_at := "2026-06-05T12:00:00Z" in
  let public_key_der := first_bytes in
  let scope_boundary := [entry_prefix "data.aifactory.sub"] in
  let capability_set := ["read"] in
  let trust_domain := "vaid.example" in
  let? kernel_kp := kernel_key in
  let kernel_pub := kp_public_key kernel_kp in
  let kernel_thumbprint := kernel_key_thumbprint kernel_pub in
  let lineage_hash := compute_lineage_hash parent_vaid agent_id in
  let? issued := rfc3339 issued_at in
  let? expires := rfc3339 expires_at in
  let unsigned := with_lineage agent_id (mkAgentClass agent_class) version (mkTenantId tenant_id)
    issued expires public_key_der [] parent_vaid scope_boundary lineage_hash capability_set
    trust_domain kernel_thumbprint in
  let digest := canonical_vaid_signing_bytes unsigned in
  let signature := kp_sign kernel_kp digest in
  let input := json_object
    [("sig_version", ser_uint VAID_SIG_VERSION_V4);
     ("vaid_id", JString (uuid_to_string agent_uuid));
     ("agent_id", JString (uuid_to_string agent_uuid));
     ("agent_class", JString agent_class);
     ("version", JString version);
     ("tenant_id", JString tenant_id);
     ("issued_at", JString issued_at);
     ("expires_at", JString expires_at);
     ("public_key_der", ser_bytes public_key_der);
     ("kernel_signature", JArray []);
     ("parent_vaid", JString (uuid_to_string parent_uuid));
     ("scope_boundary", ser_boundary scope_boundary);
     ("lineage_hash", JString lineage_hash);
     ("capability_set", ser_strings capability_set);
     ("trust_domain", JString trust_domain);
     ("kernel_key_thumbprint", JString kernel_thumbprint)] in
  Ok (json_object
    [("_comment", JString MINT_COMMENT);
     ("scheme", JString MINT_SCHEME);
     ("input", input);
     ("digest_sha256_hex", JString (to_hex digest));
     ("ed25519", json_object
        [("_comment", JString MINT_KEY_COMMENT);
         ("kernel_private_key_seed_hex", JString KERNEL_SEED_HEX);
         ("kernel_public_key_hex", JString (to_hex kernel_pub));
         ("signature_hex", JString (to_hex signature))])]).

  (** ** [emit_mint_pop_vector.rs] *)

Definition emit_mint_pop_vector : Emit Json :=
  let nonce := "0123456789abcdef0123456789abcdef" in
  let issued_at_str := "2026-06-04T12:00:00Z" in
  let? issued_at := rfc3339 issued_at_str in
  let? holder_kp := kernel_key in
  let registered_key := kp_public_key holder_kp in
  let seed := {|
    seed_agent_class := "runner";
    seed_version := "1.0.0";
    seed_tenant_id := "aifactory";
    seed_parent_vaid := None;
    seed_scope_boundary := [entry_prefix "data.aifactory"];
    seed_capability_set := ["read"];
    seed_public_key_der := Some registered_key;
  |} in
  let payload := pop_payload seed registered_key nonce issued_at in
  let digest := canonical_request_signing_bytes payload in
  let signature := sign_payload payload holder_kp in
  let input := to_value payload in
  assert (bool_decide (get input "parentVaid" = Some JNull)) ;;?
  let? public_key_der := unwrap (get input "publicKeyDer") in
  assert (bool_decide (public_key_der = ser_bytes registered_key)) ;;?
  Ok (json_object
    [("_comment", JString MINT_POP_COMMENT);
     ("scheme", JString MINT_POP_SCHEME);
     ("input", input);
     ("digest_sha256_hex", JString (to_hex digest));
     ("ed25519", json_object
        [("_comment", JString MINT_POP_KEY_COMMENT);
         ("private_key_seed_hex", JString KERNEL_SEED_HEX);
         ("public_key_hex", JString (to_hex registered_key));
         ("signature_hex", JString (to_hex signature))])]).

  (** ** [emit_attestation_vector.rs] *)

Definition emit_attestation_vector : Emit Json :=
  let? kernel_kp := kernel_key in
  let kernel_pub := kp_public_key kernel_kp in
  let? parent_uuid := unwrap (uuid_parse_str "d0000000-0000-0000-0000-000000000001") in
  let? child_uuid := unwrap (uuid_parse_str "d0000000-0000-0000-0000-000000000002") in
  let? issued_at := rfc3339 "2026-06-04T12:00:00Z" in
  let? expires_at := rfc3339 "2026-06-05T12:00:00Z" in
  let unsigned := att_new (VaidId_from_uuid parent_uuid) (VaidId_from_uuid child_uuid) "b.example"
    "aifactory" issued_at expires_at [entry_prefix "data.aifactory.sub"] ["read"] "a.example"
    (kernel_key_thumbprint kernel_pub) in
  let digest := canonical_attestation_signing_bytes unsigned in
  let signature := kp_sign kernel_kp digest in
  Ok (json_object
    [("_comment", JString ATTESTATION_COMMENT);
     ("attestation", att_to_value unsigned);
     ("digest_sha256_hex", JString (to_hex digest));
     ("signature_hex", JString (to_hex signature));
     ("ed25519", json_object
        [("kernel_private_key_seed_hex", JString KERNEL_SEED_HEX);
         ("kernel_public_key_hex", JString (to_hex kernel_pub))])]).

  (** ** [emit_chain_vector.rs] *)

Record Hop : Type := mkHop {
  hop_role : string;
  hop_agent_uuid : string;
  hop_agent_class : string;
  hop_parent_uuid : option string;
  hop_scope_boundary : list ScopeBoundaryEntry;
  hop_capability_set : list string;
}.

Definition ROOT_UUID : string := "c0000000-0000-0000-0000-000000000001".
Definition MID_UUID : string := "c0000000-0000-0000-0000-000000000002".
Definition LEAF_UUID : string := "c0000000-0000-0000-0000-000000000003".

Definition hops : list Hop :=
  [mkHop "root" ROOT_UUID "orchestrator" None [entry_prefix "data.aifactory"] ["read"; "write"];
   mkHop "intermediate" MID_UUID "planner" (Some ROOT_UUID) [entry_prefix "data.aifactory.sub"]
     ["read"];
   mkHop "leaf" LEAF_UUID "worker" (Some MID_UUID) [entry_prefix "data.aifactory.sub.task"]
     ["read"]].

Definition unwrap_option {A B} (f : A → Emit B) (o : option A) : Emit (option B) :=
  match o with Some a => let? b := f a in Ok (Some b) | None => Ok None end.

  (** The body of the loop over [hops]. *)
Definition chain_hop (kernel_kp : KeyPair) (chain_json : list Json) (hop : Hop)
    : Emit (list Json) :=
  let version := "1.0.0" in
  let tenant_id := "aifactory" in
  let issued_at := "2026-06-04T12:00:00Z" in
  let expires_at := "2026-06-05T12:00:00Z" in
  let public_key_der := first_bytes in
  let trust_domain := "vaid.example" in
  let kernel_thumbprint := kernel_key_thumbprint (kp_public_key kernel_kp) in
  let? agent_uuid := unwrap (uuid_parse_str (hop_agent_uuid hop)) in
  let agent_id := AgentId_from_uuid agent_uuid in
  let? parent_vaid := unwrap_option
    (λ p, let? u := unwrap (uuid_parse_str p) in Ok (VaidId_from_uuid u)) (hop_parent_uuid hop) in
  let lineage_hash := compute_lineage_hash parent_vaid agent_id in
  let? issued := rfc3339 issued_at in
  let? expires := rfc3339 expires_at in
  let unsigned := with_lineage agent_id (mkAgentClass (hop_agent_class hop)) version
    (mkTenantId tenant_id) issued expires public_key_der [] parent_vaid (hop_scope_boundary hop)
    lineage_hash (hop_capability_set hop) trust_domain kernel_thumbprint in
  let digest := canonical_vaid_signing_bytes unsigned in
  let signature := kp_sign kernel_kp digest in
  Ok (chain_json ++ [json_object
    [("_role", JString (hop_role hop));
     ("digest_sha256_hex", JString (to_hex digest));
     ("signature_hex", JString (to_hex signature));
     ("document", json_object
        [("sig_version", ser_uint VAID_SIG_VERSION_V4);
         ("vaid_id", JString (hop_agent_uuid hop));
         ("agent_id", JString (hop_agent_uuid hop));
         ("agent_class", JString (hop_agent_class hop));
         ("version", JString version);
         ("tenant_id", JString tenant_id);
         ("issued_at", JString issued_at);
         ("expires_at", JString expires_at);
         ("public_key_der", ser_bytes public_key_der);
         ("kernel_signature", JArray []);
         ("parent_vaid", ser_option JString (hop_parent_uuid hop));
         ("scope_boundary", ser_boundary (hop_scope_boundary hop));
         ("lineage_hash", JString lineage_hash);
         ("capability_set", ser_strings (hop_capability_set hop));
         ("trust_domain", JString trust_domain);
         ("kernel_key_thumbprint", JString kernel_thumbprint)])]]).

Definition emit_chain_vector : Emit Json :=
  let? kernel_kp := kernel_key in
  let kernel_pub := kp_public_key kernel_kp in
  let kernel_thumbprint := kernel_key_thumbprint kernel_pub in
  let? chain_json := ofold (chain_hop kernel_kp) hops [] in
  let contract := json_object
    [("chain", JArray chain_json);
     ("expected", json_object
        [("assembled_lineage", ser_strings [ROOT_UUID; MID_UUID; LEAF_UUID]);
         ("verification", JString "attenuated");
         ("verification_instant", JString VERIFICATION_INSTANT)])] in
  let contract_digest := to_hex (sha256 (serde_jcs_to_vec contract)) in
  Ok (json_object
    [("_comment", JString CHAIN_COMMENT);
     ("ed25519", json_object
        [("_comment", JString CHAIN_KEY_COMMENT);
         ("kernel_private_key_seed_hex", JString KERNEL_SEED_HEX);
         ("kernel_public_key_hex", JString (to_hex kernel_pub));
         ("kernel_key_thumbprint", JString kernel_thumbprint)]);
     ("digest_sha256_hex", JString contract_digest);
     ("chain", JArray chain_json);
     ("expected", json_object
        [("_comment", JString CHAIN_EXPECTED_COMMENT);
         ("assembled_lineage", ser_strings [ROOT_UUID; MID_UUID; LEAF_UUID]);
         ("verification", JString "attenuated");
         ("verification_instant", JString VERIFICATION_INSTANT)])]).

  (** ** [emit_chain_expiry_vector.rs] *)

Definition ISSUED_AT : string := "2026-06-04T12:00:00Z".
Definition TENANT : string := "aifactory".
Definition TRUST_DOMAIN : string := "vaid.example".
Definition VERSION : string := "1.0.0".

  (** role, agent class, scope, capabilities *)
Definition HOPS : list (string * string * string * list string) :=
  [("root", "orchestrator", "data.aifactory", ["read"; "write"]);
   ("intermediate", "planner", "data.aifactory.sub", ["read"]);
   ("leaf", "worker", "data.aifactory.sub.task", ["read"])].

Record ExpiryCase : Type := mkExpiryCase {
  ec_group : nat;
  ec_name : string;
  ec_why : string;
  (** root, intermediate, leaf *)
  ec_expires_at : string * string * string;
  ec_expected_verification : string;
}.

Definition CASES : list ExpiryCase :=
  [mkExpiryCase 1 "control: a chain live at the instant, every expiry contained" WHY_LIVE
     ("2999-01-01T00:00:00Z", "2998-01-01T00:00:00Z", "2997-01-01T00:00:00Z") "attenuated";
   mkExpiryCase 2 "boundary control: a child expiring at EXACTLY its parent's expires_at" WHY_EQUAL
     ("2999-01-01T00:00:00Z", "2999-01-01T00:00:00Z", "2999-01-01T00:00:00Z") "attenuated";
   mkExpiryCase 3 "an expired ROOT makes the chain expired" WHY_ROOT
     ("2006-01-02T00:00:00Z", "2006-01-02T00:00:00Z", "2006-01-02T00:00:00Z") "expired";
   mkExpiryCase 4 "an expired INTERMEDIATE makes the chain expired" WHY_INTERMEDIATE
     ("2999-01-01T00:00:00Z", "2006-01-02T00:00:00Z", "2006-01-02T00:00:00Z") "expired";
   mkExpiryCase 5 "a child outliving its parent is not attenuated, at any instant" WHY_OUTLIVES
     ("2999-01-01T00:00:00Z", "2997-01-01T00:00:00Z", "2998-01-01T00:00:00Z") "not_attenuated";
   mkExpiryCase 6
     "boundary, NOT an endorsement: an expired LEAF with live ancestors still verifies" WHY_LEAF
     ("2999-01-01T00:00:00Z", "2999-01-01T00:00:00Z", "2006-01-02T00:00:00Z") "attenuated"].

  (** [case.expires_at[hop_index]] of a three-element array *)
Definition expires_of (case : ExpiryCase) (hop_index : nat) : string :=
  let '(root, intermediate, leaf) := ec_expires_at case in
  match hop_index with O => root | 1 => intermediate | _ => leaf end.

Definition id_text (group hop : nat) : string :=
  "e0000000-0000-0000-0000-0000000000" +:+ pretty group +:+ pretty hop.
Definition id_for (group hop : nat) : Emit Uuid := unwrap (uuid_parse_str (id_text group hop)).

  (** The body of the loop over [HOPS]: [(hop_index, (role, agent_class, scope, caps))]. *)
Definition expiry_hop (kernel_kp : KeyPair) (case : ExpiryCase) (chain : list Json)
    (h : nat * (string * string * string * list string)) : Emit (list Json) :=
  let '(hop_index, (role, agent_class, scope, caps)) := h in
  let thumbprint := kernel_key_thumbprint (kp_public_key kernel_kp) in
  let public_key_der := first_bytes in
  let hop := hop_index + 1 in
  let? uuid := id_for (ec_group case) hop in
  let? parent_uuid :=
    if bool_decide (hop_index = 0) then Ok None
    else let? u := id_for (ec_group case) (hop - 1) in Ok (Some u) in
  let parent_vaid := VaidId_from_uuid <$> parent_uuid in
  let agent_id := AgentId_from_uuid uuid in
  let lineage_hash := compute_lineage_hash parent_vaid agent_id in
  let scope_boundary := [entry_prefix scope] in
  let capability_set := caps in
  let expires_at := expires_of case hop_index in
  let? issued := rfc3339 ISSUED_AT in
  let? expires := rfc3339 expires_at in
  let unsigned := with_lineage agent_id (mkAgentClass agent_class) VERSION (mkTenantId TENANT)
    issued expires public_key_der [] parent_vaid scope_boundary lineage_hash capability_set
    TRUST_DOMAIN thumbprint in
  let digest := canonical_vaid_signing_bytes unsigned in
  let signature := kp_sign kernel_kp digest in
  Ok (chain ++ [json_object
    [("_role", JString role);
     ("digest_sha256_hex", JString (to_hex digest));
     ("signature_hex", JString (to_hex signature));
     ("document", json_object
        [("sig_version", ser_uint VAID_SIG_VERSION_V4);
         ("vaid_id", JString (uuid_to_string uuid));
         ("agent_id", JString (uuid_to_string uuid));
         ("agent_class", JString agent_class);
         ("version", JString VERSION);
         ("tenant_id", JString TENANT);
         ("issued_at", JString ISSUED_AT);
         ("expires_at", JString expires_at);
         ("public_key_der", ser_bytes public_key_der);
         ("kernel_signature", ser_bytes signature);
         ("parent_vaid", ser_option (λ u, JString (uuid_to_string u)) parent_uuid);
         ("scope_boundary", ser_boundary scope_boundary);
         ("lineage_hash", JString lineage_hash);
         ("capability_set", ser_strings capability_set);
         ("trust_domain", JString TRUST_DOMAIN);
         ("kernel_key_thumbprint", JString thumbprint)])]]).

  (** The body of the loop over [CASES]. *)
Definition expiry_chain (kernel_kp : KeyPair) (cases : list Json) (case : ExpiryCase)
    : Emit (list Json) :=
  let? chain := ofold (expiry_hop kernel_kp case) (imap pair HOPS) [] in
  Ok (cases ++ [json_object
    [("name", JString (ec_name case));
     ("why", JString (ec_why case));
     ("verification_instant", JString VERIFICATION_INSTANT);
     ("chain", JArray chain);
     ("expected_verification", JString (ec_expected_verification case))]]).

Definition EXPIRY_RULE : Json := json_object
  [("an_unreadable_expiry_contains_nothing", JString RULE_UNREADABLE);
   ("containment_is_not_equality_of_ttl", JString RULE_NOT_TTL);
   ("controls_are_load_bearing", JString RULE_CONTROLS);
   ("distance_not_a_clock", JString RULE_DISTANCE);
   ("equality_is_contained", JString RULE_EQUALITY);
   ("lapse_is_checked_over_ANCESTORS_only", JString RULE_LAPSE);
   ("order_of_faults_is_normative", JString RULE_ORDER);
   ("statement", JString RULE_STATEMENT)].

Definition EXPIRY_MINT_RULE : Json := json_object
  [("an_expired_parent_is_the_one_case_a_clamp_cannot_answer", JString MINT_RULE_EXPIRED_PARENT);
   ("clamp_not_refuse_and_why", JString MINT_RULE_CLAMP);
   ("roots_are_not_clamped", JString MINT_RULE_ROOTS);
   ("statement", JString MINT_RULE_STATEMENT);
   ("the_ceiling_is_an_instruction_the_mint_still_checks", JString MINT_RULE_CEILING)].

Definition expiry_pair (name why : string) (parent child : Json) (expected : string) : Json :=
  json_object [("child_expires_at", child); ("expected", JString expected);
    ("name", JString name); ("parent_expires_at", parent); ("why", JString why)].

Definition EXPIRY_CONTAINMENT : list Json :=
  [expiry_pair "control: a child ending before its parent is contained" WHY_BEFORE
     (JString "2026-06-05T12:00:00Z") (JString "2026-06-05T11:00:00Z") "permitted";
   expiry_pair "equality is contained" WHY_EQUALITY
     (JString "2026-06-05T12:00:00Z") (JString "2026-06-05T12:00:00Z") "permitted";
   expiry_pair "one second later is refused" WHY_ONE_SECOND
     (JString "2026-06-05T12:00:00Z") (JString "2026-06-05T12:00:01Z") "refused";
   expiry_pair "the comparison is by INSTANT, not by string" WHY_INSTANT
     (JString "2026-06-05T13:00:00+01:00") (JString "2026-06-05T12:00:00Z") "permitted";
   expiry_pair "an offset form that really is later is refused" WHY_OFFSET
     (JString "2026-06-05T12:00:00Z") (JString "2026-06-05T13:00:01+01:00") "refused";
   expiry_pair "an unreadable parent expiry is refused" WHY_UNREADABLE
     (JString "not a timestamp") (JString "2026-06-05T11:00:00Z") "refused";
   expiry_pair "an absent parent expiry is refused" WHY_ABSENT_PARENT
     JNull (JString "2026-06-05T11:00:00Z") "refused";
   expiry_pair "an absent child expiry is refused" WHY_ABSENT_CHILD
     (JString "2026-06-05T12:00:00Z") JNull "refused";
   expiry_pair "a naive timestamp is not RFC 3339 and is refused" WHY_NAIVE
     (JString "2026-06-05T12:00:00") (JString "2026-06-05T11:00:00Z") "refused"].

Definition emit_chain_expiry_vector : Emit Json :=
  let? kernel_kp := kernel_key in
  let kernel_pub := kp_public_key kernel_kp in
  let thumbprint := kernel_key_thumbprint kernel_pub in
  let? cases := ofold (expiry_chain kernel_kp) CASES [] in
  Ok (json_object
    [("_comment", JString EXPIRY_COMMENT);
     ("rule", EXPIRY_RULE);
     ("mint_rule", EXPIRY_MINT_RULE);
     ("verdicts", json_object
        [("chain", ser_strings ["attenuated"; "inauthentic"; "unverifiable"; "not_attenuated";
                                "expired"; "consent_expired"]);
         ("expiry_containment", ser_strings ["permitted"; "refused"])]);
     ("ed25519", json_object
        [("_comment", JString EXPIRY_KEY_COMMENT);
         ("kernel_private_key_seed_hex", JString KERNEL_SEED_HEX);
         ("kernel_public_key_hex", JString (to_hex kernel_pub));
         ("kernel_key_thumbprint", JString thumbprint)]);
     ("expiry_containment", JArray EXPIRY_CONTAINMENT);
     ("cases", JArray cases)]).

  (** ** [emit_roundtrip_vector.rs] *)

Definition EXTENSION_MEMBER : string := "x_example_extension".

Definition base_document : gmap string Json := list_to_map
  [("sig_version", ser_uint 4);
   ("vaid_id", JString "b0000000-0000-4000-8000-000000000001");
   ("agent_id", JString "b0000000-0000-4000-8000-000000000001");
   ("agent_class", JString "roundtrip");
   ("version", JString "1.0.0");
   ("tenant_id", JString "acme");
   ("issued_at", JString "2026-01-01T00:00:00Z");
   ("expires_at", JString "2999-01-01T00:00:00Z");
   ("public_key_der", JArray (map ser_uint
      [3; 161; 7; 191; 243; 206; 16; 190; 29; 112; 221; 24; 231; 75; 192; 153; 103; 228; 214; 48;
       155; 165; 13; 95; 29; 220; 134; 100; 18; 85; 49; 184]%Z));
   ("kernel_signature", JArray []);
   ("parent_vaid", JNull);
   ("scope_boundary", JArray
      [json_object [("kind", JString "prefix"); ("value", JString "data.acme")]]);
   ("lineage_hash",
    JString "81e986864029e5395751b617bfa699d97dc97dbfb659257da96b9c9b3f0d7e19");
   ("capability_set", ser_strings ["read"]);
   ("trust_domain", JString "vaid.example");
   ("kernel_key_thumbprint", JString
      "urn:ietf:params:oauth:jwk-thumbprint:sha-256:1IG2tMH7J2wbJZnOf8LJzQitKf7LMvoAElsuDMVM54Y")].

Definition extension_value : Json :=
  json_object [("note", JString "an additive field a verifier does not know")].

Definition signed (key : KeyPair) (doc : gmap string Json) : Emit (gmap string Json) :=
  let? parsed := unwrap (vaid_deserialize (raw_of_value (JObject doc))) in
  let digest := canonical_vaid_signing_bytes parsed in
  let sig := kp_sign key digest in
  Ok (<["kernel_signature" := ser_bytes sig]> doc).

Definition round_entry (name why : string) (document : gmap string Json) (expected_valid : bool)
    : Json :=
  json_object [("name", JString name); ("why", JString why); ("document", JObject document);
    ("expected_valid", JBool expected_valid)].

  (** [json!({..})] at the end of [main] *)
Definition roundtrip_vector (kernel_pub : list byte)
    (case_known case_extended case_removed case_added : gmap string Json) : Json := json_object
  [("_comment", JString ROUNDTRIP_COMMENT);
   ("rule", json_object
      [("statement", JString ROUNDTRIP_STATEMENT);
       ("rejecting_is_conforming", JString ROUNDTRIP_REJECTING)]);
   ("ed25519", json_object
      [("kernel_private_key_seed_hex", JString KERNEL_SEED_HEX);
       ("kernel_public_key_hex", JString (to_hex kernel_pub))]);
   ("cases", JArray
      [round_entry "known fields only" WHY_KNOWN case_known true;
       round_entry "additive extension, signed over the extended bytes" WHY_EXTENDED
         case_extended true;
       round_entry "extension removed after signing" WHY_REMOVED case_removed false;
       round_entry "extra field not covered by the signature" WHY_ADDED case_added false])].

Definition emit_roundtrip_vector : Emit Json :=
  let? key := kernel_key in
  let kernel_pub := kp_public_key key in
  let? case_known := signed key base_document in
  let? case_extended := signed key (<[EXTENSION_MEMBER := extension_value]> base_document) in
  let case_removed := delete EXTENSION_MEMBER case_extended in
  let case_added := <[EXTENSION_MEMBER := extension_value]> case_known in
  Ok (roundtrip_vector kernel_pub case_known case_extended case_removed case_added).

  (** ** [emit_completion_vector.rs] *)

Definition EMPTY_SHA256 : string :=
  "e3b0c44298fc1c149afbf4c8996fb92427ae41e4649b934ca495991b7852b855".
Definition OPERATOR_REQUEST_DIGEST : string :=
  "ee474ba87d703ebeacf663d7d6a2f15319bdef285c5b702e336d0f4af5b61327".

Definition emit_completion_vector : Emit Json :=
  let vaid_id := "11111111-1111-1111-1111-111111111111" in
  let tenant_id := "synthera-control-plane" in
  let completed_at := "2026-06-04T12:00:05Z" in
  let record_nonce := "fedcba9876543210fedcba9876543210" in
  let? id := unwrap (de_vaid_id (raw_of_value (JString vaid_id))) in
  let? completed := rfc3339 completed_at in
  let record := {|
    cr_vaid_id := id;
    cr_request_digest_sha256 := OPERATOR_REQUEST_DIGEST;
    cr_tenant_id := tenant_id;
    cr_status := "succeeded";
    cr_result_sha256 := EMPTY_SHA256;
    cr_completed_at := completed;
    cr_signer_vaid_id := id;
    cr_assurance_tier := SelfReported;
    cr_record_nonce := record_nonce;
  |} in
  let digest := canonical_request_signing_bytes record in
  let? kp := kernel_key in
  let signature := kp_sign kp digest in
  Ok (json_object
    [("_comment", JString COMPLETION_COMMENT);
     ("scheme", JString COMPLETION_SCHEME);
     ("input", json_object
        [("vaidId", JString vaid_id);
         ("requestDigestSha256", JString OPERATOR_REQUEST_DIGEST);
         ("tenantId", JString tenant_id);
         ("status", JString "succeeded");
         ("resultSha256", JString EMPTY_SHA256);
         ("completedAt", JString completed_at);
         ("signerVaidId", JString vaid_id);
         ("assuranceTier", JString "selfReported");
         ("recordNonce", JString record_nonce)]);
     ("assurance_tier_strings",
      ser_strings ["selfReported"; "counterSigned"; "thirdPartyAttested"]);
     ("digest_sha256_hex", JString (to_hex digest));
     ("ed25519", json_object
        [("_comment", JString COMPLETION_KEY_COMMENT);
         ("private_key_seed_hex", JString KERNEL_SEED_HEX);
         ("public_key_hex", JString (to_hex (kp_public_key kp)));
         ("signature_hex", JString (to_hex signature))])]).

  (** ** [emit_unknown_scope_kind_verdict.rs] *)

Definition is_unknown_kind_case (case : Json) : bool :=
  bool_decide (index case "expected_reason" = JString "unknown_scope_kind").

  (** The body of the loop over the verdict vector's cases; [now] is the reading
      of the clock a case makes. *)
Definition standing_reading (kernel_pk : list byte) (now : Instant) (case : Json) : option Json :=
  if negb (is_unknown_kind_case case) then None
  else
    text ← as_str (index case "document_json");
    let got := verify_vaid_standing_from_json now kernel_pk text NotRevoked in
    Some (json_object [("case", index case "name"); ("reason", JString (VaidVerdict.code got));
                       ("valid", JBool (VaidVerdict.is_valid got))]).

  (** [parse(k)]: both [expect]s. *)
Definition parse_boundary (case : Json) (k : string) : Emit (list ScopeBoundaryEntry) :=
  unwrap (boundary_of (index case k)).

Definition attenuation_reading (attenuation : list Json) (case : Json) : Emit (list Json) :=
  if negb (is_unknown_kind_case case) then Ok attenuation
  else
    let? parent := parse_boundary case "parent_scope" in
    let? child := parse_boundary case "child_scope" in
    let reason := scope_attenuation_reason parent child in
    Ok (attenuation ++ [json_object
      [("case", index case "name"); ("reason", JString (attenuation_code reason))]]).

  (** [clock i] is what the clock reads at the [i]th case. *)
Definition emit_unknown_scope_kind_verdict (clock : nat → Instant)
    (VERDICT_VECTOR SCOPE_KINDS_VECTOR : string) : Emit Json :=
  let? verdict := unwrap (value_of_raw <$> json_parse VERDICT_VECTOR) in
  let? kinds := unwrap (value_of_raw <$> json_parse SCOPE_KINDS_VECTOR) in
  let? pk_text := unwrap (as_str (index (index verdict "ed25519") "kernel_public_key_hex")) in
  let? kernel_pk := unhex pk_text in
  let? standing_cases := unwrap (as_array (index verdict "cases")) in
  let standing := omap id (imap (λ i, standing_reading kernel_pk (clock i)) standing_cases) in
  let? attenuation_cases := unwrap (as_array (index kinds "attenuation_cases")) in
  let? attenuation := ofold attenuation_reading attenuation_cases [] in
  assert (negb (is_empty standing)) ;;?
  assert (negb (is_empty attenuation)) ;;?
  Ok (json_object
    [("surface", JString "unknown scope kind (spec S.10, ADR-0009)");
     ("standing", JArray standing);
     ("attenuation", JArray attenuation)]).

End Emitters.
