(* ===== verification/EmittersPass.v ===== *)
(** * What a generator writes, the firewall passes

    Of [Emitters]: each generator runs to its end, and the vector it prints is
    accepted by the conformance check of that vector's name in [Firewall] or
    [PopFirewall].  The identifiers and timestamps the generators spell out are
    read by [uuid] and [chrono], which is what [LiteralLaws] states of them. *)

From stdpp Require Import pretty.
From S2P Require Import Prelude Json Externals Concrete Identity Scope IssuerIdentity Document.
From S2P Require Import DupScan Revocation Attenuation Verify Attestation Chain Pop Wire Vectors.
From S2P Require Import Firewall PopFirewall EmitterTexts Emitters.

(** ** The texts the generators spell out, and what they denote *)

(** The identifier of a group and a hop of the expiry vector. *)
Definition expiry_uuid (g h : nat) : string * Uuid :=
  (id_text g h, 0xe0000000000000000000000000000000 + N.of_nat (16 * g + h))%N.

Definition VECTOR_UUIDS : list (string * Uuid) :=
  [("11111111-1111-1111-1111-111111111111", 0x11111111111111111111111111111111%N);
   ("aaaaaaaa-aaaa-aaaa-aaaa-aaaaaaaaaaaa", 0xaaaaaaaaaaaaaaaaaaaaaaaaaaaaaaaa%N);
   ("b0000000-0000-4000-8000-000000000001", 0xb0000000000040008000000000000001%N);
   ("c0000000-0000-0000-0000-000000000001", 0xc0000000000000000000000000000001%N);
   ("c0000000-0000-0000-0000-000000000002", 0xc0000000000000000000000000000002%N);
   ("c0000000-0000-0000-0000-000000000003", 0xc0000000000000000000000000000003%N);
   ("d0000000-0000-0000-0000-000000000001", 0xd0000000000000000000000000000001%N);
   ("d0000000-0000-0000-0000-000000000002", 0xd0000000000000000000000000000002%N)]
  ++ flat_map (λ g, map (expiry_uuid g) [1; 2; 3]) [1; 2; 3; 4; 5; 6].

(** In seconds since the epoch. *)
Definition VECTOR_INSTANTS : list (string * Z) :=
  [("2006-01-02T00:00:00Z", 1136160000);
   ("2026-06-04T12:00:00Z", 1780574400);
   ("2026-06-04T12:00:05Z", 1780574405);
   ("2026-06-04T18:00:00Z", 1780596000);
   ("2026-06-05T11:00:00Z", 1780657200);
   ("2026-06-05T12:00:00Z", 1780660800);
   ("2026-06-05T12:00:01Z", 1780660801);
   ("2997-01-01T00:00:00Z", 32409072000);
   ("2998-01-01T00:00:00Z", 32440608000);
   ("2999-01-01T00:00:00Z", 32472144000)]%Z.

Definition OFFSET_INSTANTS : list (string * Z) :=
  [("2026-06-05T13:00:00+01:00", 1780660800); ("2026-06-05T13:00:01+01:00", 1780660801)]%Z.

Definition NOT_RFC3339 : list string := [""; "not a timestamp"; "2026-06-05T12:00:00"].

(** Hyphenated lower-case UUIDs and whole-second [Z] timestamps are read and
    printed back as they are; an offset is read, and what lacks one is not;
    [ring] makes a key of any 32 bytes. *)
Class LiteralLaws {Ext : Externals} : Prop := {
  literal_uuid : Forall (λ '(s, u), uuid_parse_str s = Some u ∧ uuid_to_string u = s) VECTOR_UUIDS;
  literal_instant :
    Forall (λ '(s, n), dt_parse_from_rfc3339 s = Some (n * NANOS)%Z
                       ∧ dt_format E6_FORMAT (n * NANOS)%Z = s ∧ dt_serialize (n * NANOS)%Z = s)
      VECTOR_INSTANTS;
  literal_offset :
    Forall (λ '(s, n), dt_parse_from_rfc3339 s = Some (n * NANOS)%Z) OFFSET_INSTANTS;
  literal_not_rfc3339 : Forall (λ s, dt_parse_from_rfc3339 s = None) NOT_RFC3339;
  seed_32 b : length b = 32 → is_Some (kp_from_seed_unchecked b);
}.

(** ** Members of an object written out *)

Lemma index_object l k : index (json_object l) k = default JNull (assoc k l).
Proof. unfold index, json_object. by rewrite list_to_map_assoc. Qed.

Lemma get_object l k : get (json_object l) k = assoc k l.
Proof. unfold get, json_object. apply list_to_map_assoc. Qed.

(** Read every member named in the goal. *)
Ltac read_members :=
  repeat (first [rewrite index_object | rewrite get_object];
          cbn [assoc String.eqb Ascii.eqb Bool.eqb default id]).

Ltac evaluate := cbn [obind or_err unwrap str_of as_str default id from_option negb].

Lemma assert_hex_same b l x : assert_hex b l x x = Ok tt.
Proof. by apply assert_hex_ok. Qed.

Section EmittersPass.
  Context {Ext : Externals} `{!ExternalLaws} `{!LiteralLaws}.

  (** ** The literals *)

Lemma find_check_elem {A} k (l : list (string * A)) a : find_check k l = Some a → (k, a) ∈ l.
Proof.
  induction l as [|[k' x] l IH]; [done|]. cbn [find_check].
  case_bool_decide; [|by right; apply IH]. intros [= ->]. subst. by left.
Qed.

Lemma uuid_literal s u :
  find_check s VECTOR_UUIDS = Some u → uuid_parse_str s = Some u ∧ uuid_to_string u = s.
Proof. intros Hf%find_check_elem. by apply (proj1 (Forall_forall _ _) literal_uuid (s, u)). Qed.

Lemma instant_literal s n :
  find_check s VECTOR_INSTANTS = Some n →
  dt_parse_from_rfc3339 s = Some (n * NANOS)%Z ∧ format_e6 (n * NANOS)%Z = s
  ∧ dt_serialize (n * NANOS)%Z = s.
Proof. intros Hf%find_check_elem. by apply (proj1 (Forall_forall _ _) literal_instant (s, n)). Qed.

Lemma parse_literal s n :
  find_check s VECTOR_INSTANTS = Some n → parse_rfc3339 s = Some (n * NANOS)%Z.
Proof. by intros (Hp & _)%instant_literal. Qed.

Lemma offset_literal s n :
  find_check s OFFSET_INSTANTS = Some n → parse_rfc3339 s = Some (n * NANOS)%Z.
Proof. intros Hf%find_check_elem. by apply (proj1 (Forall_forall _ _) literal_offset (s, n)). Qed.

Lemma not_rfc3339_literal s : s ∈ NOT_RFC3339 → parse_rfc3339 s = None.
Proof. by apply (proj1 (Forall_forall _ _) literal_not_rfc3339 s). Qed.

Lemma kernel_key_ok :
  ∃ kp seed, kernel_key = Ok kp ∧ kp_from_seed_unchecked seed = Some kp
             ∧ Firewall.unhex KERNEL_SEED_HEX = Ok seed
             ∧ PopFirewall.unhex KERNEL_SEED_HEX = Ok seed.
Proof.
  set (b := omap byte_of_Z (seqZ 0 32)).
  destruct (seed_32 b eq_refl) as [kp Hkp]. exists kp, b.
  assert (Emitters.unhex KERNEL_SEED_HEX = Ok b) as Hb by (vm_compute; reflexivity).
  unfold kernel_key. rewrite Hb. cbn [obind]. by rewrite Hkp.
Qed.

  (** ** A document made by [with_lineage] *)

(** The object a generator writes out is the document it signed. *)
Lemma lineage_document u ac ver ten iss exp pk sig par sc lh cs td kt issued expires sg pj :
  format_e6 iss = issued → format_e6 exp = expires → sg = ser_bytes sig →
  pj = ser_option ser_vaid_id par →
  json_object
    [("sig_version", ser_uint VAID_SIG_VERSION_V4);
     ("vaid_id", JString (uuid_to_string u));
     ("agent_id", JString (uuid_to_string u));
     ("agent_class", JString ac);
     ("version", JString ver);
     ("tenant_id", JString ten);
     ("issued_at", JString issued);
     ("expires_at", JString expires);
     ("public_key_der", ser_bytes pk);
     ("kernel_signature", sg);
     ("parent_vaid", pj);
     ("scope_boundary", ser_boundary sc);
     ("lineage_hash", JString lh);
     ("capability_set", ser_strings cs);
     ("trust_domain", JString td);
     ("kernel_key_thumbprint", JString kt)]
  = vaid_to_value (with_lineage (AgentId_from_uuid u) (mkAgentClass ac) ver (mkTenantId ten) iss exp
                     pk sig par sc lh cs td kt).
Proof.
  intros <- <- -> ->. unfold vaid_to_value, json_object, with_lineage. cbn [vd_unknown_fields].
  rewrite left_id_L by apply _. by destruct par.
Qed.

Lemma signed_authentic kp aid ac ver ten iss exp pk sig par sc cs td :
  is_valid_trust_domain td = true →
  let u := with_lineage aid ac ver ten iss exp pk sig par sc (compute_lineage_hash par aid) cs td
             (kernel_key_thumbprint (kp_public_key kp)) in
  authentic (kp_public_key kp)
    (with_kernel_signature u (kp_sign kp (canonical_vaid_signing_bytes u))).
Proof.
  intros Hd u. split; try done.
  - unfold verify_lineage_hash. apply bool_decide_eq_true. by destruct par as [[]|], aid.
  - rewrite canonical_with_signature by apply with_lineage_wf. apply ed25519_verify_sign.
Qed.

Lemma prefix_wf p : entry_wf (entry_prefix p).
Proof. done. Qed.

Lemma doc_from_value d :
  vaid_wf d → Forall entry_wf (vd_scope_boundary d) → doc_from (vaid_to_value d) = Ok d.
Proof. intros Hwf Hs. unfold doc_from. by rewrite vaid_raw. Qed.

Lemma emit_mint_passes : ∃ v, emit_mint_vector = Ok v ∧ check_mint v = Ok tt.
Proof.
  destruct kernel_key_ok as (kp & seed & Hk & Hseed & Hhex & _).
  destruct (uuid_literal "aaaaaaaa-aaaa-aaaa-aaaa-aaaaaaaaaaaa" _ eq_refl) as [Ha _].
  destruct (uuid_literal "11111111-1111-1111-1111-111111111111" _ eq_refl) as [Hp _].
  destruct (instant_literal "2026-06-04T12:00:00Z" _ eq_refl) as (Hi & Hi' & _).
  destruct (instant_literal "2026-06-05T12:00:00Z" _ eq_refl) as (He & He' & _).
  unfold emit_mint_vector, rfc3339. rewrite Ha, Hp, Hk, Hi, He. cbn [unwrap obind].
  eexists. split; [reflexivity|]. 
  unfold check_mint, unhex_at, key_of. read_members.
  erewrite (lineage_document _ _ _ _ _ _ _ [] (Some (VaidId_from_uuid _)) _ _ _ _ _ _ _ _ _ Hi' He')
    by reflexivity.
  set (u := with_lineage _ _ _ _ _ _ _ _ _ _ _ _ _ _).
  assert (vaid_wf u) as Hwf by apply with_lineage_wf.
  rewrite doc_from_value by (done || by repeat constructor). evaluate.
  rewrite Hhex, !unhex_to_hex. evaluate. rewrite Hseed. evaluate.
  rewrite !assert_hex_same. evaluate.
  rewrite bool_decide_eq_false_2 by (intros Hne; by apply Hne).
  rewrite (proj2 (authenticity_true _ _)); [done|]. by apply signed_authentic.
Qed.

Lemma emit_mint_pop_passes : ∃ v, emit_mint_pop_vector = Ok v ∧ check_mint_pop v = Ok tt.
Proof.
  destruct kernel_key_ok as (kp & seed & Hk & Hseed & Hhex & _).
  destruct (instant_literal "2026-06-04T12:00:00Z" _ eq_refl) as (Hi & _).
  unfold emit_mint_pop_vector, rfc3339. rewrite Hi, Hk. evaluate.
  set (p := pop_payload _ _ _ _).
  assert (get (to_value p) "parentVaid" = Some JNull) as Hparent by reflexivity.
  assert (get (to_value p) "publicKeyDer" = Some (ser_bytes (kp_public_key kp))) as Hkey by reflexivity.
  rewrite Hparent, Hkey. evaluate. rewrite !bool_decide_eq_true_2 by done. evaluate.
  eexists. split; [reflexivity|].
  unfold check_mint_pop, unhex_at, key_of. read_members. evaluate.
  rewrite Hhex, !unhex_to_hex. evaluate. rewrite Hseed. evaluate.
  rewrite !assert_hex_same. evaluate. by rewrite Hparent, bool_decide_eq_false_2 by naive_solver.
Qed.

Lemma emit_attestation_passes :
  ∃ v, emit_attestation_vector = Ok v ∧ check_attestation v = Ok tt.
Proof.
  destruct kernel_key_ok as (kp & seed & Hk & Hseed & Hhex & _).
  destruct (uuid_literal "d0000000-0000-0000-0000-000000000001" _ eq_refl) as [Hp _].
  destruct (uuid_literal "d0000000-0000-0000-0000-000000000002" _ eq_refl) as [Hc _].
  destruct (instant_literal "2026-06-04T12:00:00Z" _ eq_refl) as (Hi & _).
  destruct (instant_literal "2026-06-05T12:00:00Z" _ eq_refl) as (He & _).
  unfold emit_attestation_vector, rfc3339. rewrite Hk. evaluate. rewrite Hp, Hc, Hi, He. evaluate.
  set (a := att_new _ _ _ _ _ _ _ _ _ _).
  eexists. split; [reflexivity|].
  unfold check_attestation, unhex_at, key_of. read_members. evaluate.
  rewrite (att_raw a) by (split; [done|decided|decided|by repeat constructor]). evaluate.
  rewrite Hhex, !unhex_to_hex. evaluate. rewrite Hseed. evaluate.
  rewrite !assert_hex_same. evaluate.
  rewrite (proj2 (attestation_authentic_spec _ _)); [done|]. split_and!; try done.
  rewrite canonical_att_with_signature. apply ed25519_verify_sign.
Qed.

Lemma emit_completion_passes :
  ∃ v, emit_completion_vector = Ok v ∧ check_completion v = Ok tt
       ∧ check_assurance_tiers v = Ok tt.
Proof.
  destruct kernel_key_ok as (kp & seed & Hk & Hseed & _ & Hhex).
  destruct (uuid_literal "11111111-1111-1111-1111-111111111111" _ eq_refl) as [Hv Hv'].
  destruct (instant_literal "2026-06-04T12:00:05Z" _ eq_refl) as (Hi & _ & Hi').
  unfold emit_completion_vector, rfc3339, de_vaid_id. cbn [raw_of_value de_string mbind option_bind].
  rewrite Hv, Hi, Hk. cbn [fmap option_fmap option_map]. evaluate.
  set (c := Build_CompletionRecord _ _ _ _ _ _ _ _ _).
  eexists. split; [reflexivity|].
  split.
  - unfold check_completion, seed_keypair. read_members. evaluate.
    match goal with |- context [completion_deserialize (raw_of_value ?i)] =>
      assert (i = to_value c) as -> end.
    { unfold to_value, completion_serialize, completion_members, ser_vaid_id, vaid_id_to_string.
      cbn. by rewrite Hv', Hi'. }
    rewrite (completion_raw c) by decided. evaluate.
    rewrite !assert_hex_same, Hhex. evaluate. rewrite Hseed. evaluate. apply assert_hex_same.
  - unfold check_assurance_tiers. read_members. reflexivity.
Qed.

  (** ** The chain of three hops the two chain vectors carry *)

  (** The verdict the vector's check reads, [n] being its instant. *)
Definition three_hops (e1 e2 e3 n : Z) : ChainVerification :=
  if bool_decide (e1 < n ∨ e2 < n)%Z then ChainVerification.Expired
  else if bool_decide (e2 ≤ e1 ∧ e3 ≤ e2)%Z then ChainVerification.Attenuated
  else ChainVerification.NotAttenuated.

Section ThreeHops.
  Context (kp : KeyPair) (u1 u2 u3 : Uuid) (e1 e2 e3 : Z).

  (** The document of one hop, unsigned and then signed; [e] is its expiry in seconds. *)
Definition hop_unsigned (u : Uuid) (agent_class : string) (par : option Uuid) (scope : string)
    (caps : list string) (e : Z) : Vaid :=
  with_lineage (AgentId_from_uuid u) (mkAgentClass agent_class) VERSION (mkTenantId TENANT)
    (1780574400 * NANOS)%Z (e * NANOS)%Z first_bytes [] (VaidId_from_uuid <$> par)
    [entry_prefix scope] (compute_lineage_hash (VaidId_from_uuid <$> par) (AgentId_from_uuid u)) caps
    TRUST_DOMAIN (kernel_key_thumbprint (kp_public_key kp)).

Definition hop_signed (u : Uuid) (agent_class : string) (par : option Uuid) (scope : string)
    (caps : list string) (e : Z) : Vaid :=
  let unsigned := hop_unsigned u agent_class par scope caps e in
  with_kernel_signature unsigned (kp_sign kp (canonical_vaid_signing_bytes unsigned)).

Definition root_doc : Vaid :=
  hop_signed u1 "orchestrator" None "data.aifactory" ["read"; "write"] e1.
Definition mid_doc : Vaid := hop_signed u2 "planner" (Some u1) "data.aifactory.sub" ["read"] e2.
Definition leaf_doc : Vaid := hop_signed u3 "worker" (Some u2) "data.aifactory.sub.task" ["read"] e3.

  (** chrono reads back what it printed of this second. *)
Definition second_ok (e : Z) : Prop := parse_rfc3339 (format_e6 (e * NANOS)%Z) = Some (e * NANOS)%Z.

Context (Hnd : NoDup [u1; u2; u3]) (He1 : second_ok e1) (He2 : second_ok e2) (He3 : second_ok e3).

Lemma hop_signed_authentic u ac par sc cs e :
  authenticate (single_kernel_key_new (kp_public_key kp)) (hop_signed u ac par sc cs e) = true.
Proof. by apply single_key_authenticate, signed_authentic. Qed.

Lemma hop_signed_expired u ac par sc cs e n :
  second_ok e → is_expired_at (hop_signed u ac par sc cs e) (n * NANOS)%Z = bool_decide (e < n)%Z.
Proof.
  intros He. unfold is_expired_at, expires_at. cbn. rewrite He. apply bool_decide_ext.
  unfold NANOS. lia.
Qed.

  (** A hop whose scope and capabilities narrow. *)
Lemma hop_signed_check att now u ac par sc cs e u' ac' par' sc' cs' e' :
  second_ok e → second_ok e' →
  scope_attenuates_within [entry_prefix sc] [entry_prefix sc'] = true →
  caps_attenuate_within cs cs' = true →
  check_hop (single_kernel_key_new (kp_public_key kp)) att now (hop_signed u ac par sc cs e)
    (hop_signed u' ac' par' sc' cs' e')
  = if bool_decide (e' ≤ e)%Z then Ok tt else Err ChainVerification.NotAttenuated.
Proof.
  intros He He' Hs Hc. unfold check_hop. rewrite bool_decide_eq_true_2 by done.
  unfold tenant_attenuates. rewrite !bool_decide_eq_true_2 by done. cbn [andb negb].
  unfold scope_attenuates, caps_attenuate.
  unfold hop_signed at 1 2 3 4, hop_unsigned at 1 2 3 4 5 6 7 8.
  cbn [vd_scope_boundary vd_capability_set with_kernel_signature with_lineage].
  rewrite Hs, Hc. cbn [negb].
  unfold expiry_attenuates, expiry_attenuates_within, expires_at_as_presented.
  cbn [mbind option_bind vd_expires_at hop_signed hop_unsigned with_kernel_signature with_lineage].
  rewrite He, He'. rewrite (bool_decide_ext (e' * NANOS ≤ e * NANOS)%Z (e' ≤ e)%Z)
    by (unfold NANOS; lia).
  by destruct (bool_decide _).
Qed.

Lemma three_hops_verdict n :
  verify_chain_at (single_kernel_key_new (kp_public_key kp)) leaf_doc
    (presented_bundle_new [root_doc; mid_doc; leaf_doc]) attestation_bundle_empty (n * NANOS)%Z
  = Ok (three_hops e1 e2 e3 n).
Proof.
  unfold three_hops. apply NoDup_cons in Hnd as [Hi1 [Hi2 _]%NoDup_cons].
  rewrite !not_elem_of_cons in Hi1. rewrite list_elem_of_singleton in Hi2. destruct_and! Hi1.
  rewrite (verify_chain_at_lineage _ _ _ _ _ [mid_doc; root_doc]).
  - rewrite (bool_decide_ext (Forall _ _) (¬ (e1 < n ∨ e2 < n)%Z)).
    2: { rewrite Forall_cons, Forall_singleton. unfold mid_doc, root_doc.
         rewrite !hop_signed_expired by done. rewrite !bool_decide_eq_false. lia. }
    rewrite bool_decide_not. destruct (bool_decide (_ ∨ _)); [done|]. cbn [negb].
    rewrite !reverse_cons, reverse_nil. cbn [app check_hops].
    unfold root_doc, mid_doc, leaf_doc. rewrite !hop_signed_check by done.
    rewrite bool_decide_and. by destruct (bool_decide (e2 ≤ e1)%Z), (bool_decide (e3 ≤ e2)%Z).
  - apply presented_bundle_new_wf.
  - apply hop_signed_authentic.
  - intros id d. unfold presented_get, presented_bundle_new. cbn [foldl].
    rewrite !lookup_insert_Some.
    intros [[_ <-]|[_ [[_ <-]|[_ [[_ <-]|[_ ?]]]]]]; [apply hop_signed_authentic..|done].
  - assert (VaidId_from_uuid u3 ≠ VaidId_from_uuid u2 ∧ VaidId_from_uuid u3 ≠ VaidId_from_uuid u1
            ∧ VaidId_from_uuid u2 ≠ VaidId_from_uuid u1) as (? & ? & ?)
      by (split_and!; intros [=]; congruence).
    eapply docs_hop; [reflexivity| |eapply docs_hop; [reflexivity| |by constructor]];
      unfold presented_get, presented_bundle_new; cbn [foldl];
      change (vaid_id root_doc) with (VaidId_from_uuid u1);
      change (vaid_id mid_doc) with (VaidId_from_uuid u2);
      change (vaid_id leaf_doc) with (VaidId_from_uuid u3).
    + etrans; [by apply (lookup_insert_ne (M := gmap VaidId))|].
      apply (lookup_insert_eq (M := gmap VaidId)).
    + do 2 (etrans; [by apply (lookup_insert_ne (M := gmap VaidId))|]).
      apply (lookup_insert_eq (M := gmap VaidId)).
  - simpl. repeat (apply NoDup_cons; split); rewrite ?not_elem_of_cons; split_and?;
      try apply not_elem_of_nil; try apply NoDup_nil_2; try (intros [=]; congruence).
  - pose proof max_lineage_depth_three. simpl. lia.
Qed.

End ThreeHops.

  (** The entry of a chain vector for the document [d], carried as [d']. *)
Definition hop_entry (kp : KeyPair) (role : string) (d d' : Vaid) : Json := json_object
  [("_role", JString role);
   ("digest_sha256_hex", JString (to_hex (canonical_vaid_signing_bytes d)));
   ("signature_hex", JString (to_hex (kp_sign kp (canonical_vaid_signing_bytes d))));
   ("document", vaid_to_value d')].

Lemma hop_entry_passes kp l1 l2 msg docs role d d' :
  vaid_wf d' → Forall entry_wf (vd_scope_boundary d') →
  canonical_vaid_signing_bytes d' = canonical_vaid_signing_bytes d →
  chain_entry kp l1 l2 msg docs (hop_entry kp role d d')
  = Ok (docs ++ [with_kernel_signature d' (kp_sign kp (canonical_vaid_signing_bytes d))]).
Proof.
  intros Hwf Hs Hd. unfold chain_entry, unhex_at, hop_entry. read_members. rewrite (vaid_raw _ Hwf Hs).
  evaluate. rewrite Hd, !assert_hex_same, unhex_to_hex. done.
Qed.

Lemma hop_unsigned_wf kp u ac par sc cs e : vaid_wf (hop_unsigned kp u ac par sc cs e).
Proof. apply with_lineage_wf. Qed.

Lemma vector_second s e : find_check s VECTOR_INSTANTS = Some e → second_ok e.
Proof. intros (Hp & Hf & _)%instant_literal. unfold second_ok. by rewrite Hf. Qed.

Lemma three_hops_verdict_of kp u1 u2 u3 e1 e2 e3 n root mid leaf :
  root = root_doc kp u1 e1 → mid = mid_doc kp u1 u2 e2 → leaf = leaf_doc kp u2 u3 e3 →
  NoDup [u1; u2; u3] → second_ok e1 → second_ok e2 → second_ok e3 →
  verdict_of kp leaf [root; mid; leaf] (n * NANOS)%Z = Ok (verdict_name (three_hops e1 e2 e3 n)).
Proof. intros -> -> -> Hnd H1 H2 H3. unfold verdict_of. by rewrite three_hops_verdict. Qed.

  (** ** [emit_chain_vector.rs] *)

Lemma chain_hop_ok kp acc role s u ac par paru sc cs :
  find_check s VECTOR_UUIDS = Some u →
  match par, paru with
  | None, None => True
  | Some p, Some pu => find_check p VECTOR_UUIDS = Some pu
  | _, _ => False
  end →
  let d := hop_unsigned kp u ac paru sc cs 1780660800 in
  chain_hop kp acc (mkHop role s ac par [entry_prefix sc] cs) = Ok (acc ++ [hop_entry kp role d d]).
Proof.
  intros [Hu Hu']%uuid_literal Hpar d.
  destruct (instant_literal "2026-06-04T12:00:00Z" _ eq_refl) as (Hi & Hi' & _).
  destruct (instant_literal "2026-06-05T12:00:00Z" _ eq_refl) as (He & He' & _).
  unfold chain_hop, rfc3339. cbn [hop_agent_uuid hop_parent_uuid hop_role hop_agent_class
    hop_scope_boundary hop_capability_set]. rewrite Hu, Hi, He. evaluate.
  assert (unwrap_option (λ p, let? u := unwrap (uuid_parse_str p) in Ok (VaidId_from_uuid u)) par
          = Ok (VaidId_from_uuid <$> paru)
          ∧ ser_option JString par = ser_option ser_vaid_id (VaidId_from_uuid <$> paru)) as [-> ->].
  { destruct par as [p|], paru as [pu|]; try done. apply uuid_literal in Hpar as [Hp Hp'].
    cbn [unwrap_option]. rewrite Hp. split; [done|]. cbn. unfold ser_vaid_id, vaid_id_to_string. cbn.
    by rewrite Hp'. }
  evaluate. rewrite <- Hu'.
  erewrite (lineage_document _ _ _ _ _ _ _ []) by (exact Hi' || exact He' || reflexivity). done.
Qed.

Lemma emit_chain_passes : ∃ v, emit_chain_vector = Ok v ∧ check_chain v = Ok tt.
Proof.
  destruct kernel_key_ok as (kp & seed & Hk & Hseed & Hhex & _).
  destruct (instant_literal VERIFICATION_INSTANT _ eq_refl) as (Hn & _).
  unfold emit_chain_vector. rewrite Hk. evaluate. unfold hops. cbn [ofold].
  rewrite (chain_hop_ok kp [] _ ROOT_UUID _ _ None None) by reflexivity. evaluate.
  rewrite (chain_hop_ok kp _ _ MID_UUID _ _ (Some ROOT_UUID) (Some _)) by reflexivity. evaluate.
  rewrite (chain_hop_ok kp _ _ LEAF_UUID _ _ (Some MID_UUID) (Some _)) by reflexivity. evaluate.
  cbn [app]. eexists. split; [reflexivity|].
  unfold check_chain, unhex_at, key_of. read_members. evaluate.
  rewrite Hhex. evaluate. rewrite Hseed. evaluate. cbn [as_array]. evaluate. cbn [ofold].
  do 3 (rewrite hop_entry_passes by (apply hop_unsigned_wf || by repeat constructor); evaluate).
  assert (remove_comment (json_object
            [("_comment", JString CHAIN_EXPECTED_COMMENT);
             ("assembled_lineage", ser_strings [ROOT_UUID; MID_UUID; LEAF_UUID]);
             ("verification", JString "attenuated");
             ("verification_instant", JString VERIFICATION_INSTANT)])
          = json_object
              [("assembled_lineage", ser_strings [ROOT_UUID; MID_UUID; LEAF_UUID]);
               ("verification", JString "attenuated");
               ("verification_instant", JString VERIFICATION_INSTANT)]) as ->.
  { reflexivity. }
  rewrite assert_hex_same. evaluate. cbn [app last]. evaluate.
  unfold instant_of. cbn [as_str mbind option_bind]. rewrite Hn. evaluate.
  erewrite three_hops_verdict_of by (reflexivity || decided || by apply (vector_second "2026-06-05T12:00:00Z")).
  reflexivity.
Qed.

  (** ** [emit_chain_expiry_vector.rs] *)

Lemma signature_of_lineage aid ac ver ten iss exp pk sig sig' par sc lh cs td kt :
  with_kernel_signature (with_lineage aid ac ver ten iss exp pk sig par sc lh cs td kt) sig'
  = with_lineage aid ac ver ten iss exp pk sig' par sc lh cs td kt.
Proof. reflexivity. Qed.

Lemma expiry_hop_ok kp case acc i role ac sc cs u par e :
  find_check (id_text (ec_group case) (i + 1)) VECTOR_UUIDS = Some u →
  match i with
  | O => par = None
  | S _ => ∃ p, par = Some p ∧ find_check (id_text (ec_group case) (i + 1 - 1)) VECTOR_UUIDS = Some p
  end →
  find_check (expires_of case i) VECTOR_INSTANTS = Some e →
  let d := hop_unsigned kp u ac par sc cs e in
  expiry_hop kp case acc (i, (role, ac, sc, cs))
  = Ok (acc ++ [hop_entry kp role d
                  (with_kernel_signature d (kp_sign kp (canonical_vaid_signing_bytes d)))]).
Proof.
  intros [Hu _]%uuid_literal Hpar (He & He' & _)%instant_literal d.
  destruct (instant_literal ISSUED_AT _ eq_refl) as (Hi & Hi' & _).
  unfold expiry_hop, id_for, rfc3339. rewrite Hu. evaluate.
  assert ((if bool_decide (i = 0) then Ok None
           else let? u := unwrap (uuid_parse_str (id_text (ec_group case) (i + 1 - 1))) in Ok (Some u))
          = (Ok par : Emit (option Uuid))) as ->.
  { destruct i; [by rewrite Hpar|]. destruct Hpar as (p & -> & [Hp _]%uuid_literal). by rewrite Hp. }
  evaluate. rewrite Hi, He. evaluate.
  erewrite (lineage_document _ _ _ _ _ _ _ (kp_sign kp (canonical_vaid_signing_bytes d))
              (VaidId_from_uuid <$> par)) by (exact Hi' || exact He' || reflexivity || by destruct par).
  unfold hop_entry, d, hop_unsigned. rewrite signature_of_lineage. reflexivity.
Qed.

  (** A case of the expiry vector, all of whose literals are known. *)
Record case_literals (case : ExpiryCase) (u1 u2 u3 : Uuid) (e1 e2 e3 : Z) : Prop := {
  cl_u1 : find_check (id_text (ec_group case) 1) VECTOR_UUIDS = Some u1;
  cl_u2 : find_check (id_text (ec_group case) 2) VECTOR_UUIDS = Some u2;
  cl_u3 : find_check (id_text (ec_group case) 3) VECTOR_UUIDS = Some u3;
  cl_e1 : find_check (expires_of case 0) VECTOR_INSTANTS = Some e1;
  cl_e2 : find_check (expires_of case 1) VECTOR_INSTANTS = Some e2;
  cl_e3 : find_check (expires_of case 2) VECTOR_INSTANTS = Some e3;
  cl_distinct : NoDup [u1; u2; u3];
  cl_verdict : verdict_name (three_hops e1 e2 e3 1780596000) = ec_expected_verification case;
}.

  (** The entry of one hop, the signature in place. *)
Definition signed_entry (kp : KeyPair) (role : string) (d : Vaid) : Json :=
  hop_entry kp role d (with_kernel_signature d (kp_sign kp (canonical_vaid_signing_bytes d))).

Definition case_chain (kp : KeyPair) (u1 u2 u3 : Uuid) (e1 e2 e3 : Z) : list Json :=
  [signed_entry kp "root" (hop_unsigned kp u1 "orchestrator" None "data.aifactory"
     ["read"; "write"] e1);
   signed_entry kp "intermediate" (hop_unsigned kp u2 "planner" (Some u1) "data.aifactory.sub"
     ["read"] e2);
   signed_entry kp "leaf" (hop_unsigned kp u3 "worker" (Some u2) "data.aifactory.sub.task"
     ["read"] e3)].

Definition case_json (case : ExpiryCase) (chain : list Json) : Json := json_object
  [("name", JString (ec_name case));
   ("why", JString (ec_why case));
   ("verification_instant", JString VERIFICATION_INSTANT);
   ("chain", JArray chain);
   ("expected_verification", JString (ec_expected_verification case))].

Section Case.
  Context (kp : KeyPair) (case : ExpiryCase) (u1 u2 u3 : Uuid) (e1 e2 e3 : Z).
  Context (Hcase : case_literals case u1 u2 u3 e1 e2 e3).

Lemma expiry_chain_ok cases :
  expiry_chain kp cases case = Ok (cases ++ [case_json case (case_chain kp u1 u2 u3 e1 e2 e3)]).
Proof.
  destruct Hcase as [H1 H2 H3 L1 L2 L3 _ _]. unfold expiry_chain.
  cbv [imap HOPS compose]. cbn [ofold].
  rewrite (expiry_hop_ok kp case [] 0 _ _ _ _ _ None _ H1 eq_refl L1). evaluate.
  rewrite (expiry_hop_ok kp case _ 1 _ _ _ _ _ (Some u1) _ H2 (ex_intro _ _ (conj eq_refl H1)) L2).
  evaluate.
  rewrite (expiry_hop_ok kp case _ 2 _ _ _ _ _ (Some u2) _ H3 (ex_intro _ _ (conj eq_refl H2)) L3).
  reflexivity.
Qed.

Lemma signed_entry_passes l1 l2 msg docs role u ac par sc cs e :
  chain_entry kp l1 l2 msg docs (signed_entry kp role (hop_unsigned kp u ac par sc cs e))
  = Ok (docs ++ [hop_signed kp u ac par sc cs e]).
Proof.
  unfold signed_entry. rewrite hop_entry_passes.
  - done.
  - apply vaid_wf_with_signature, hop_unsigned_wf.
  - by repeat constructor.
  - by apply canonical_with_signature, hop_unsigned_wf.
Qed.

Lemma expiry_case_passes v seed saw :
  index (index v "ed25519") "kernel_private_key_seed_hex" = JString KERNEL_SEED_HEX →
  Firewall.unhex KERNEL_SEED_HEX = Ok seed → kp_from_seed_unchecked seed = Some kp →
  expiry_case v saw (case_json case (case_chain kp u1 u2 u3 e1 e2 e3))
  = Ok (saw || bool_decide (ec_expected_verification case = "attenuated")).
Proof.
  intros Hv Hhex Hseed. destruct Hcase as [_ _ _ L1 L2 L3 Hnd Hverdict].
  destruct (instant_literal VERIFICATION_INSTANT _ eq_refl) as (Hn & _).
  unfold expiry_case, unhex_at, key_of, array_or_empty. rewrite Hv. evaluate. rewrite Hhex. evaluate.
  rewrite Hseed. evaluate. unfold case_json. read_members. cbn [as_array].
  unfold case_chain. evaluate. cbn [ofold].
  do 3 (rewrite signed_entry_passes; evaluate). cbn [app last]. evaluate.
  unfold instant_of. cbn [as_str mbind option_bind]. rewrite Hn. evaluate.
  rewrite (three_hops_verdict_of kp u1 u2 u3 e1 e2 e3) by
    (reflexivity || done || by eapply vector_second).
  evaluate. rewrite Hverdict, bool_decide_eq_false_2 by naive_solver. done.
Qed.

End Case.

  (** Each case's literals, by evaluation. *)
Ltac case_literals := split; [reflexivity..|decided|reflexivity].

Ltac contained :=
  unfold containment_case, expiry_pair, expiry_attenuates_within; read_members;
  unfold str_of; cbn [as_str from_option mbind option_bind id];
  repeat match goal with
  | |- context [parse_rfc3339 ?s] =>
      first [rewrite (parse_literal s _ eq_refl)
            |rewrite (offset_literal s _ eq_refl)
            |rewrite (not_rfc3339_literal s) by decided]
  end; reflexivity.

Lemma emit_chain_expiry_passes :
  ∃ v, emit_chain_expiry_vector = Ok v ∧ check_chain_expiry v = Ok tt.
Proof.
  destruct kernel_key_ok as (kp & seed & Hk & Hseed & Hhex & _).
  unfold emit_chain_expiry_vector. rewrite Hk. evaluate. unfold CASES. cbn [ofold].
  do 6 (erewrite expiry_chain_ok by case_literals; evaluate). cbn [app].
  eexists. split; [reflexivity|].
  unfold check_chain_expiry. cbv zeta. set (v := json_object _).
  assert (array_or_empty (index v "expiry_containment") = EXPIRY_CONTAINMENT) as ->.
  { unfold v. by read_members. }
  assert (ofold containment_case EXPIRY_CONTAINMENT tt = Ok tt) as ->.
  { unfold EXPIRY_CONTAINMENT. cbn [ofold].
    do 9 (match goal with |- context [containment_case ?u ?c] =>
            assert (containment_case u c = Ok tt) as -> by contained end; evaluate).
    done. }
  evaluate.
  assert (index (index v "ed25519") "kernel_private_key_seed_hex" = JString KERNEL_SEED_HEX) as Hv
    by (unfold v; by read_members).
  eassert (array_or_empty (index v "cases") = _) as ->.
  { unfold v. read_members. reflexivity. }
  clearbody v. unfold array_or_empty. cbn [as_array default from_option id is_empty]. cbn [ofold].
  do 6 (erewrite expiry_case_passes by (eassumption || case_literals); evaluate).
  reflexivity.
Qed.

  (** ** [emit_roundtrip_vector.rs] *)

  (** The base document, and the one with the extension, as structs. *)
Definition base_vaid (unknown : gmap string Json) : Vaid := {|
  vd_sig_version := 4;
  vd_vaid_id := mkPresentedUuid "b0000000-0000-4000-8000-000000000001"
                  0xb0000000000040008000000000000001%N;
  vd_agent_id := mkPresentedUuid "b0000000-0000-4000-8000-000000000001"
                   0xb0000000000040008000000000000001%N;
  vd_agent_class := mkAgentClass "roundtrip";
  vd_version := "1.0.0";
  vd_tenant_id := mkTenantId "acme";
  vd_issued_at := "2026-01-01T00:00:00Z";
  vd_expires_at := "2999-01-01T00:00:00Z";
  vd_public_key_der := omap byte_of_Z
    [3; 161; 7; 191; 243; 206; 16; 190; 29; 112; 221; 24; 231; 75; 192; 153; 103; 228; 214; 48;
     155; 165; 13; 95; 29; 220; 134; 100; 18; 85; 49; 184]%Z;
  vd_kernel_signature := [];
  vd_parent_vaid := Some None;
  vd_scope_boundary := [entry_prefix "data.acme"];
  vd_lineage_hash := "81e986864029e5395751b617bfa699d97dc97dbfb659257da96b9c9b3f0d7e19";
  vd_capability_set := ["read"];
  vd_trust_domain := "vaid.example";
  vd_kernel_key_thumbprint :=
    "urn:ietf:params:oauth:jwk-thumbprint:sha-256:1IG2tMH7J2wbJZnOf8LJzQitKf7LMvoAElsuDMVM54Y";
  vd_unknown_fields := unknown;
|}.

Definition known_vaid : Vaid := base_vaid ∅.
Definition extended_vaid : Vaid := base_vaid {[EXTENSION_MEMBER := extension_value]}.

Lemma base_vaid_wf unknown :
  (∀ k, k ∈ KNOWN_FIELDS → unknown !! k = None) → vaid_wf (base_vaid unknown).
Proof.
  intros Hk. destruct (uuid_literal "b0000000-0000-4000-8000-000000000001" _ eq_refl) as [Hu _].
  by split.
Qed.

Lemma known_vaid_wf : vaid_wf known_vaid.
Proof. by apply base_vaid_wf. Qed.

Lemma extended_vaid_wf : vaid_wf extended_vaid.
Proof.
  apply base_vaid_wf. intros k Hk. apply lookup_singleton_ne. intros <-. revert Hk.
  by apply (bool_decide_unpack (EXTENSION_MEMBER ∉ KNOWN_FIELDS)).
Qed.

Lemma known_document : JObject base_document = vaid_to_value known_vaid.
Proof. vm_compute. reflexivity. Qed.

Lemma extended_document :
  JObject (<[EXTENSION_MEMBER := extension_value]> base_document) = vaid_to_value extended_vaid.
Proof. vm_compute. reflexivity. Qed.

Lemma signed_ok kp doc d :
  JObject doc = vaid_to_value d → vaid_wf d → Forall entry_wf (vd_scope_boundary d) →
  ∃ doc', signed kp doc = Ok doc'
  ∧ JObject doc'
    = vaid_to_value (with_kernel_signature d (kp_sign kp (canonical_vaid_signing_bytes d)))
  ∧ doc' = <["kernel_signature" := ser_bytes (kp_sign kp (canonical_vaid_signing_bytes d))]> doc.
Proof.
  intros Hdoc Hwf Hs. unfold signed. rewrite Hdoc, vaid_raw by done. evaluate.
  eexists. split; [reflexivity|]. split; [|done].
  rewrite vaid_to_value_with_signature by done. by rewrite <- Hdoc.
Qed.

Lemma sig_of_signed d sig :
  vaid_wf d → sig_of (vaid_to_value (with_kernel_signature d sig)) = sig.
Proof. intros Hwf. by rewrite (sig_of_document (with_kernel_signature d sig)) by (by apply vaid_wf_with_signature). Qed.

Lemma round_entry_passes pk name why doc d sig expected :
  JObject doc = vaid_to_value (with_kernel_signature d sig) → vaid_wf d →
  Forall entry_wf (vd_scope_boundary d) →
  ed25519_verify pk (canonical_vaid_signing_bytes d) sig = expected →
  round_case pk tt (round_entry name why doc expected) = Ok tt.
Proof.
  intros Hdoc Hwf Hs Hv. unfold round_case, round_entry. read_members. rewrite Hdoc.
  cbn [as_bool]. evaluate.
  rewrite (vaid_raw (with_kernel_signature d sig)) by (by apply vaid_wf_with_signature) || done.
  evaluate. rewrite bool_decide_eq_false_2 by naive_solver.
  rewrite sig_of_signed, canonical_with_signature, Hv by done.
  by rewrite bool_decide_eq_false_2 by naive_solver.
Qed.

  (** Without its extensions either document is the known one. *)
Lemma dropped_known sig :
  drop_extensions (JObject (<["kernel_signature" := sig]> base_document)) = signing_value known_vaid.
Proof.
  unfold signing_value. rewrite <- known_document. unfold drop_extensions. cbn [object_insert].
  rewrite map_filter_insert_True by done. rewrite insert_insert_eq.
  vm_compute. reflexivity.
Qed.

Lemma dropped_extended sig :
  drop_extensions (JObject (<["kernel_signature" := sig]>
                              (<[EXTENSION_MEMBER := extension_value]> base_document)))
  = signing_value known_vaid.
Proof.
  unfold signing_value. rewrite <- known_document. unfold drop_extensions. cbn [object_insert].
  rewrite map_filter_insert_True by done. rewrite insert_insert_eq.
  vm_compute. reflexivity.
Qed.

Lemma round_entry_dropped pk s name why doc d sig expected b :
  JObject doc = vaid_to_value (with_kernel_signature d sig) → vaid_wf d →
  drop_extensions (JObject doc) = signing_value known_vaid →
  ed25519_verify pk (canonical_vaid_signing_bytes known_vaid) sig = b →
  dropping_case pk s (round_entry name why doc expected)
  = if bool_decide (b ≠ expected) then if expected then (true, s.2) else (s.1, true) else s.
Proof.
  intros Hdoc Hwf Hdrop Hv. unfold dropping_case, round_entry. read_members. cbn [as_bool].
  cbv zeta. unfold dropping_verdict. rewrite Hdrop, Hdoc, sig_of_signed by assumption.
  change (sha256 (serde_jcs_to_vec (signing_value known_vaid)))
    with (canonical_vaid_signing_bytes known_vaid). by rewrite Hv.
Qed.

Lemma known_not_extended : signing_value known_vaid ≠ signing_value extended_vaid.
Proof.
  unfold signing_value. rewrite <- known_document, <- extended_document. cbn [object_insert].
  intros [= Heq%(f_equal (lookup EXTENSION_MEMBER))].
Qed.

  (** What a case carries: a document of either kind under a signature, which
      is the known one when its extensions are dropped. *)
Record carries (doc : gmap string Json) (d : Vaid) (sig : list byte) : Prop := {
  ca_value : JObject doc = vaid_to_value (with_kernel_signature d sig);
  ca_dropped : drop_extensions (JObject doc) = signing_value known_vaid;
  ca_wf : vaid_wf d;
  ca_scope : Forall entry_wf (vd_scope_boundary d);
}.

Lemma carries_known sig :
  carries (<["kernel_signature" := ser_bytes sig]> base_document) known_vaid sig.
Proof.
  split; [|apply dropped_known|apply known_vaid_wf|by repeat constructor].
  rewrite vaid_to_value_with_signature, <- known_document by apply known_vaid_wf. reflexivity.
Qed.

Lemma carries_extended sig :
  carries (<["kernel_signature" := ser_bytes sig]>
             (<[EXTENSION_MEMBER := extension_value]> base_document)) extended_vaid sig.
Proof.
  split; [|apply dropped_extended|apply extended_vaid_wf|by repeat constructor].
  rewrite vaid_to_value_with_signature, <- extended_document by apply extended_vaid_wf. reflexivity.
Qed.

Lemma carries_removed sig :
  carries (delete EXTENSION_MEMBER (<["kernel_signature" := ser_bytes sig]>
             (<[EXTENSION_MEMBER := extension_value]> base_document))) known_vaid sig.
Proof.
  rewrite delete_insert_ne by discriminate.
  rewrite delete_insert_eq, delete_id; [apply carries_known|].
  unfold base_document. by rewrite list_to_map_assoc.
Qed.

Lemma carries_added sig :
  carries (<[EXTENSION_MEMBER := extension_value]>
             (<["kernel_signature" := ser_bytes sig]> base_document)) extended_vaid sig.
Proof. rewrite insert_insert_ne by discriminate. apply carries_extended. Qed.

Lemma carries_verdict pk name why doc d sig expected :
  carries doc d sig → ed25519_verify pk (canonical_vaid_signing_bytes d) sig = expected →
  round_case pk tt (round_entry name why doc expected) = Ok tt.
Proof. intros [Hv _ Hwf Hs] He. exact (round_entry_passes _ _ _ _ _ _ _ Hv Hwf Hs He). Qed.

Lemma carries_drop pk s name why doc d sig expected b :
  carries doc d sig → ed25519_verify pk (canonical_vaid_signing_bytes known_vaid) sig = b →
  dropping_case pk s (round_entry name why doc expected)
  = if bool_decide (b ≠ expected) then if expected then (true, s.2) else (s.1, true) else s.
Proof. intros [Hv Hd Hwf _] He. exact (round_entry_dropped _ _ _ _ _ _ _ _ _ Hv Hwf Hd He). Qed.

  (** A signature is over the bytes it was made for, and the digest tells the two
      documents apart. *)
Definition binds_message : Prop :=
  ∀ kp m m', ed25519_verify (kp_public_key kp) m' (kp_sign kp m) = true → m' = m.
Definition no_collision (d1 d2 : Vaid) : Prop :=
  sha256 (serde_jcs_to_vec (signing_value d1)) = sha256 (serde_jcs_to_vec (signing_value d2)) →
  signing_value d1 = signing_value d2.

Lemma cross_signatures kp :
  binds_message → no_collision known_vaid extended_vaid →
  let sign d := kp_sign kp (canonical_vaid_signing_bytes d) in
  ed25519_verify (kp_public_key kp) (canonical_vaid_signing_bytes known_vaid) (sign extended_vaid)
    = false
  ∧ ed25519_verify (kp_public_key kp) (canonical_vaid_signing_bytes extended_vaid) (sign known_vaid)
    = false.
Proof.
  intros Hbinds Hcollision sign.
  assert (canonical_vaid_signing_bytes known_vaid ≠ canonical_vaid_signing_bytes extended_vaid)
    as Hne by (intros Heq; apply known_not_extended, Hcollision, Heq).
  split; apply not_true_is_false; intros Heq%Hbinds; [exact (Hne Heq)|exact (Hne (eq_sym Heq))].
Qed.

Lemma roundtrip_vector_passes kp doc1 doc2 doc3 doc4 :
  binds_message → no_collision known_vaid extended_vaid →
  let sign d := kp_sign kp (canonical_vaid_signing_bytes d) in
  carries doc1 known_vaid (sign known_vaid) → carries doc2 extended_vaid (sign extended_vaid) →
  carries doc3 known_vaid (sign extended_vaid) → carries doc4 extended_vaid (sign known_vaid) →
  check_roundtrip (roundtrip_vector (kp_public_key kp) doc1 doc2 doc3 doc4) = Ok tt.
Proof.
  intros Hbinds Hcollision sign C1 C2 C3 C4.
  destruct (cross_signatures kp Hbinds Hcollision) as [V12 V21].
  pose proof (ed25519_verify_sign kp (canonical_vaid_signing_bytes known_vaid)) as V11.
  pose proof (ed25519_verify_sign kp (canonical_vaid_signing_bytes extended_vaid)) as V22.
  unfold check_roundtrip, roundtrip_vector, some_cases, unhex_at. read_members. cbn [as_array].
  evaluate. rewrite unhex_to_hex. evaluate. cbn [ofold].
  rewrite (carries_verdict _ _ _ _ _ _ _ C1 V11). evaluate.
  rewrite (carries_verdict _ _ _ _ _ _ _ C2 V22). evaluate.
  rewrite (carries_verdict _ _ _ _ _ _ _ C3 V12). evaluate.
  rewrite (carries_verdict _ _ _ _ _ _ _ C4 V21). evaluate.
  cbn [foldl].
  rewrite (carries_drop _ _ _ _ _ _ _ _ _ C1 V11), (carries_drop _ _ _ _ _ _ _ _ _ C2 V12),
    (carries_drop _ _ _ _ _ _ _ _ _ C3 V12), (carries_drop _ _ _ _ _ _ _ _ _ C4 V11).
  reflexivity.
Qed.

Lemma emit_roundtrip_passes :
  binds_message → no_collision known_vaid extended_vaid →
  ∃ v, emit_roundtrip_vector = Ok v ∧ check_roundtrip v = Ok tt.
Proof.
  intros Hbinds Hcollision. destruct kernel_key_ok as (kp & seed & Hk & _ & _ & _).
  unfold emit_roundtrip_vector. rewrite Hk. evaluate.
  destruct (signed_ok kp _ _ known_document known_vaid_wf) as (doc1 & -> & _ & ->);
    [by repeat constructor|]. evaluate.
  destruct (signed_ok kp _ _ extended_document extended_vaid_wf) as (doc2 & -> & _ & ->);
    [by repeat constructor|]. evaluate.
  eexists. split; [reflexivity|]. apply roundtrip_vector_passes; try assumption.
  - apply carries_known.
  - apply carries_extended.
  - apply carries_removed.
  - apply carries_added.
Qed.

  (** ** [emit_unknown_scope_kind_verdict.rs] *)

Lemma emitter_unhex s bytes : Emitters.unhex s = Ok bytes → Firewall.unhex s = Ok bytes.
Proof.
  unfold Emitters.unhex, Firewall.unhex. intros H1.
  assert (∀ l, (hex_pairs s : Emit _) = Ok l → (hex_pairs s : Outcome ConformanceError _) = Ok l)
    as Hpairs.
  { clear. revert s. fix go 1. intros [|a [|b s]] l; simpl; [naive_solver|done|].
    destruct (negb (is_continuation a) && at_boundary s); [|done].
    intros (rest & Hr & [= <-])%obind_ok. by rewrite (go s rest Hr). }
  apply obind_ok in H1 as (l & Hl & Hm). rewrite (Hpairs l Hl). evaluate. f_equal.
  destruct (mapM id l) as [bs|] eqn:E; [|done]. injection Hm as <-. apply mapM_Some_1 in E.
  clear Hl. induction E as [|o b os bs Ho _ IH]; [done|]. unfold id in Ho. subst o.
  change (b :: omap id os = b :: bs). by rewrite IH.
Qed.

  (** An unknown-kind refusal stands for every revocation answer and at every
      earlier instant. *)
Lemma unknown_kind_earlier pk text now now' rev rev' :
  verify_vaid_standing_from_json now pk text rev = VaidVerdict.UnknownScopeKind →
  (now' ≤ now)%Z →
  verify_vaid_standing_from_json now' pk text rev' = VaidVerdict.UnknownScopeKind.
Proof.
  unfold verify_vaid_standing_from_json, verify_vaid_standing. intros H1 Hle.
  destruct (has_duplicate_member_names text); [done|]. destruct (vaid_from_str text) as [d|]; [|done].
  assert (verify_vaid_authenticity_graded pk d ≠ VaidVerdict.UnknownScopeKind) as Hg.
  { unfold verify_vaid_authenticity_graded. repeat case_match; done. }
  destruct (negb _); [by destruct Hg|].
  destruct (is_expired_at d now) eqn:Hx; [done|].
  destruct (is_expired_at d now') eqn:Hx'.
  { by rewrite (is_expired_at_mono d now' now Hle Hx') in Hx. }
  destruct (negb (boundary_is_evaluable _)); [done|]. by destruct rev.
Qed.

Lemma check_verdict_answers clock v cases pk :
  check_verdict clock v = Ok tt → as_array (index v "cases") = Some cases →
  unhex_at (index (index v "ed25519") "kernel_public_key_hex") = Ok pk →
  ∀ i case, cases !! i = Some case → ∃ reason valid,
    verdict_case_result pk (clock i) case = Ok (reason, valid)
    ∧ as_str (index case "expected_reason") = Some reason
    ∧ as_bool (index case "expected_valid") = Some valid.
Proof.
  unfold check_verdict. intros Hpass Hcases Hpk i case Hi. rewrite Hpk in Hpass. ok_inv Hpass.
  cbn [obind] in Hpass. ok_inv Hpass.
  match goal with
  | H1 : some_cases _ _ = Ok ?l, H2 : ofold _ _ _ = Ok ?t |- _ =>
      apply some_cases_ok in H1 as [H1 _]; apply verdict_cases_tallied in H2;
      rewrite Hcases in H1 end.
  simplify_eq.
  match goal with H : tallied _ _ _ _ |- _ =>
    destruct (ta_agree _ _ _ _ H i case Hi) as (_ & b & r & _ & Ha) end. by exists r, b.
Qed.

Lemma check_scope_kinds_answers v cases :
  check_scope_kinds v = Ok tt → as_array (index v "attenuation_cases") = Some cases →
  Forall (λ case, ∃ parent child, boundary_of (index case "parent_scope") = Some parent
    ∧ boundary_of (index case "child_scope") = Some child
    ∧ attenuation_code (scope_attenuation_reason parent child)
      = str_of (index case "expected_reason")) cases.
Proof.
  unfold check_scope_kinds. intros Hpass Hcases. ok_inv Hpass. cbv zeta in Hpass.
  case_bool_decide; [done|]. do 4 ok_inv Hpass.
  repeat match goal with H : some_cases _ _ = Ok _ |- _ => apply some_cases_ok in H as [H _] end.
  rewrite Hcases in *.
  simplify_eq.
  match goal with H : ofold kinds_attenuation_case _ _ = Ok _ |- _ =>
    apply (ofold_ok_ind (λ done _, Forall _ done) _ _ _ _ H); [constructor|] end.
  intros dn case [] [] Hdn Hc. apply Forall_app. split; [done|]. constructor; [|done].
  unfold kinds_attenuation_case in Hc. ok_inv Hc. ok_inv Hc. cbv zeta in Hc.
  repeat match goal with H : or_err _ _ = Ok _ |- _ => apply or_err_ok in H end.
  case_bool_decide; [done|]. destruct (_ || _) eqn:E in Hc; [done|].
  apply orb_false_iff in E as [_ E%bool_decide_eq_false]. apply dec_stable in E. eauto.
Qed.

Lemma unwrap_ok {A} (o : option A) a : unwrap o = Ok a ↔ o = Some a.
Proof. destruct o; simpl; naive_solver. Qed.

Lemma assert_ok b u : assert b = Ok u ↔ b = true.
Proof. destruct b, u; simpl; naive_solver. Qed.

  (** A reading of either surface that refuses an unknown scope kind. *)
Definition refuses_unknown_kind (reading : Json) : Prop :=
  index reading "reason" = JString "unknown_scope_kind".

Lemma standing_readings_refuse clock clock' v cases pk :
  check_verdict clock v = Ok tt → as_array (index v "cases") = Some cases →
  unhex_at (index (index v "ed25519") "kernel_public_key_hex") = Ok pk →
  (∀ case, case ∈ cases → index case "surface" ≠ JString "standing" →
     as_str (index case "document_json") = None) →
  (∀ i, clock' i ≤ clock i)%Z →
  Forall (λ r, refuses_unknown_kind r ∧ index r "valid" = JBool false)
    (omap id (imap (λ i, standing_reading pk (clock' i)) cases)).
Proof.
  intros Hpass Hcases Hpk Hsurface Hclock. apply Forall_forall. intros r Hr.
  apply list_elem_of_omap in Hr as (o & Ho & Hor). unfold id in Hor. subst o.
  apply list_elem_of_lookup in Ho as [i Hi]. rewrite list_lookup_imap in Hi.
  apply fmap_Some in Hi as (case & Hi & Hread). unfold standing_reading in Hread.
  destruct (is_unknown_kind_case case) eqn:Hunknown; [|done]. cbn [negb] in Hread.
  apply bool_decide_eq_true in Hunknown. symmetry in Hread.
  apply bind_Some in Hread as (text & Htext & [= <-]).
  assert (index case "surface" = JString "standing") as Hst.
  { destruct (decide (index case "surface" = JString "standing")) as [|Hne]; [done|].
    apply list_elem_of_lookup_2 in Hi. by rewrite (Hsurface case Hi Hne) in Htext. }
  destruct (check_verdict_answers _ _ _ _ Hpass Hcases Hpk i case Hi) as (reason & valid & Hres & Hreason & _).
  unfold verdict_case_result in Hres. rewrite Hst, Htext in Hres. cbn in Hres.
  rewrite Hunknown in Hreason. injection Hreason as <-. ok_inv Hres. injection Hres as Hcode _.
  assert (verify_vaid_standing_from_json (clock' i) pk text NotRevoked = VaidVerdict.UnknownScopeKind)
    as ->.
  { eapply unknown_kind_earlier; [|apply Hclock]. by apply (shared_reason _ UnknownScopeKind). }
  unfold refuses_unknown_kind. by read_members.
Qed.

Lemma attenuation_readings_refuse v cases l :
  check_scope_kinds v = Ok tt → as_array (index v "attenuation_cases") = Some cases →
  ofold attenuation_reading cases [] = Ok l → Forall refuses_unknown_kind l.
Proof.
  intros Hpass Hcases Hl. pose proof (check_scope_kinds_answers _ _ Hpass Hcases) as Hans.
  revert Hans. apply (ofold_ok_ind (λ dn l, Forall _ dn → Forall refuses_unknown_kind l) _ _ _ _ Hl);
    [by constructor|].
  intros dn case l1 l2 IH Hread [Hdn Hcase]%Forall_app. specialize (IH Hdn).
  apply Forall_singleton in Hcase as (parent & child & Hp & Hc & Hcode).
  unfold attenuation_reading in Hread. destruct (is_unknown_kind_case case) eqn:Hunknown; [|by injection Hread as <-].
  cbn [negb] in Hread. unfold parse_boundary in Hread. rewrite Hp, Hc in Hread. cbn in Hread.
  injection Hread as <-. apply Forall_app. split; [done|]. constructor; [|done].
  unfold refuses_unknown_kind. read_members. apply bool_decide_eq_true in Hunknown.
  by rewrite Hcode, Hunknown.
Qed.

  (** ** Properties *)

(** C35. What a generator writes, the firewall passes: the generators of the mint,
    the mint proof-of-possession, the consent attestation and the completion
    vectors run to their end without a panic, and the check of that name accepts
    the vector. *)
Theorem emitted_vectors_pass :
  (∃ v, emit_mint_vector = Ok v ∧ check_mint v = Ok tt)
  ∧ (∃ v, emit_mint_pop_vector = Ok v ∧ check_mint_pop v = Ok tt)
  ∧ (∃ v, emit_attestation_vector = Ok v ∧ check_attestation v = Ok tt)
  ∧ (∃ v, emit_completion_vector = Ok v ∧ check_completion v = Ok tt
          ∧ check_assurance_tiers v = Ok tt).
Proof.
  split_and!; [apply emit_mint_passes|apply emit_mint_pop_passes|apply emit_attestation_passes
              |apply emit_completion_passes].
Qed.

(** C32. The two chain generators run to their end and their vectors pass: the
    verifier reaches, on each of the seven chains they sign, at the instant the
    vector states, the verdict the vector freezes, the contract digest is the one
    re-derived without the comment, and the nine expiry comparisons come out as
    written. *)
Theorem emitted_chains_pass :
  (∃ v, emit_chain_vector = Ok v ∧ check_chain v = Ok tt)
  ∧ (∃ v, emit_chain_expiry_vector = Ok v ∧ check_chain_expiry v = Ok tt).
Proof. split; [apply emit_chain_passes|apply emit_chain_expiry_passes]. Qed.

(** The round-trip generator's vector passes, and keeps its teeth: when a
    signature verifies over no other message and the digest separates the
    document from its extended form, the four documents get the frozen answers,
    and an implementation that drops extensions is caught in both directions. *)
Theorem emitted_roundtrip_passes (Hbinds : binds_message)
    (Hcollision : no_collision known_vaid extended_vaid) :
  ∃ v, emit_roundtrip_vector = Ok v ∧ check_roundtrip v = Ok tt.
Proof. by apply emit_roundtrip_passes. Qed.

(** The reading of the unknown scope kind agrees with the firewall: on a
    verdict vector and a scope-kinds vector the firewall passes, no case of the
    attenuation surface of the first carrying a document, a reading taken no
    later is never empty, and every line of it, on both surfaces, refuses for
    the unknown scope kind. *)
Theorem unknown_kind_readings (clock clock' : nat → Instant) (vt kt : string) (rv rk : RawJson)
    (out : Json) (Hv : json_parse vt = Some rv) (Hk : json_parse kt = Some rk)
    (Hverdict : check_verdict clock (value_of_raw rv) = Ok tt)
    (Hkinds : check_scope_kinds (value_of_raw rk) = Ok tt)
    (Hsurface : ∀ cases case, as_array (index (value_of_raw rv) "cases") = Some cases →
       case ∈ cases → index case "surface" ≠ JString "standing" →
       as_str (index case "document_json") = None)
    (Hclock : ∀ i, (clock' i ≤ clock i)%Z)
    (Hrun : emit_unknown_scope_kind_verdict clock' vt kt = Ok out) :
  ∃ standing attenuation,
  index out "standing" = JArray standing ∧ index out "attenuation" = JArray attenuation
  ∧ standing ≠ [] ∧ attenuation ≠ []
  ∧ Forall (λ r, refuses_unknown_kind r ∧ index r "valid" = JBool false) standing
  ∧ Forall refuses_unknown_kind attenuation.
Proof.
  unfold emit_unknown_scope_kind_verdict in Hrun. rewrite Hv, Hk in Hrun. cbn in Hrun.
  do 5 ok_inv Hrun. cbv zeta in Hrun. ok_inv Hrun. ok_inv Hrun.
  injection Hrun as <-.
  repeat match goal with
  | H : unwrap _ = Ok _ |- _ => apply unwrap_ok in H
  | H : assert _ = Ok _ |- _ => apply assert_ok, negb_true_iff in H
  | H : Emitters.unhex _ = Ok _ |- _ => apply emitter_unhex in H
  end.
  eexists _, _. split_and!; [by read_members..| | | |].
  - intros Hnil. by rewrite Hnil in *.
  - intros ->. done.
  - eapply standing_readings_refuse; [exact Hverdict|eassumption| | |exact Hclock].
    + unfold unhex_at, str_of. by match goal with H : as_str _ = Some _ |- _ => rewrite H end.
    + intros case. by apply Hsurface.
  - by eapply attenuation_readings_refuse.
Qed.

End EmittersPass.
