(* ===== verification/EmitterSamples.v ===== *)
(** * Witnesses for the generators of the frozen vectors

    An instance of the externals that reads and prints the vectors' literals as
    they are, and the theorems of [EmittersPass] applied at it. *)

From S2P Require Import Prelude Json Externals Concrete Identity Scope IssuerIdentity Document.
From S2P Require Import DupScan Revocation Attenuation Verify Attestation Chain Pop Wire Vectors.
From S2P Require Import Firewall PopFirewall EmitterTexts Emitters EmittersPass.


(** The literals of the vectors are read and printed as they are; everything else
    is as in [concrete]. *)
Definition spelled {A} `{EqDecision A} (l : list (string * A)) (print : A → string) (a : A) : string :=
  match find (λ p, bool_decide (p.2 = a)) l with Some p => p.1 | None => print a end.
Definition spelling {A} (l : list (string * A)) (read : string → option A) (s : string) : option A :=
  match find_check s l with Some a => Some a | None => read s end.

Definition in_nanos (l : list (string * Z)) : list (string * Instant) :=
  map (λ p, (p.1, p.2 * NANOS)%Z) l.
Definition LITERAL_PRINTS : list (string * Instant) := in_nanos VECTOR_INSTANTS.
Definition LITERAL_READS : list (string * Instant) := in_nanos (VECTOR_INSTANTS ++ OFFSET_INSTANTS).

Definition spelled_concrete (parse : string → option RawJson) : Externals :=
  let e := concrete parse in {|
  ext_uuid := {|
    uuid_to_string := spelled VECTOR_UUIDS uuid_text;
    uuid_parse_str := spelling VECTOR_UUIDS uuid_read;
  |};
  ext_chrono := {|
    dt_parse_from_rfc3339 := spelling LITERAL_READS e6_read;
    dt_format fmt t :=
      if bool_decide (fmt = E6_FORMAT) then spelled LITERAL_PRINTS e6_print (t - t mod NANOS)%Z else "";
    dt_timestamp_opt := @dt_timestamp_opt (@ext_chrono e);
    dt_trunc_subsecs0 := @dt_trunc_subsecs0 (@ext_chrono e);
    dt_serialize := spelled LITERAL_PRINTS nanos_print;
    dt_deserialize := spelling LITERAL_PRINTS nanos_read;
    dt_to_rfc3339_secs_z := @dt_to_rfc3339_secs_z (@ext_chrono e);
    duration_hours := @duration_hours (@ext_chrono e);
    dt_add := @dt_add (@ext_chrono e);
  |};
  ext_crypto := @ext_crypto e;
  ext_codec := @ext_codec e;
|}.

Lemma spelling_spelled {A} `{EqDecision A} (l l' : list (string * A)) print read a a' :
  Forall (λ p, find_check p.1 l' = Some p.2) l →
  find_check (print a) l' = None → read (print a) = Some a' → (∀ p, p ∈ l → p.2 = a → a' = a) →
  spelling l' read (spelled l print a) = Some a'.
Proof.
  intros Hl Hnone Hread Ha. unfold spelled. destruct (find _ l) as [p|] eqn:Hf.
  - apply find_some in Hf as [Hin%list_elem_of_In Heq%bool_decide_eq_true].
    unfold spelling. rewrite Forall_forall in Hl. rewrite (Hl p Hin). f_equal.
    by rewrite (Ha p Hin Heq).
  - unfold spelling. by rewrite Hnone.
Qed.

(** A text that begins as no literal does is no literal. *)
Definition begins (c : ascii) (s : string) : bool := starts_with_char c s.

Lemma find_check_begins {A} c s (l : list (string * A)) :
  begins c s = true → forallb (λ p, negb (begins c p.1)) l = true → find_check s l = None.
Proof.
  intros Hs. induction l as [|[n a] l IH]; [done|]. cbn [forallb find_check fst].
  intros [Hn Hl]%andb_true_iff. case_bool_decide; [|by apply IH]. subst. by rewrite Hs in Hn.
Qed.

Lemma digits_zero k z : (0 ≤ z < 10 ^ Z.of_nat k)%Z → ∃ l, digits (S k) z = 0%Z :: l.
Proof.
  revert z. induction k as [|k IH]; intros z Hz.
  - exists []. cbn in *. by assert (z = 0)%Z as -> by lia.
  - destruct (IH (z / 10)%Z) as [l Hl].
    { rewrite Nat2Z.inj_succ, Z.pow_succ_r in Hz by lia. split; [apply Z.div_pos; lia|].
      apply Z.div_lt_upper_bound; lia. }
    exists (l ++ [z mod 10]%Z). change (digits (S (S k)) z) with (digits (S k) (z / 10) ++ [z mod 10])%Z.
    by rewrite Hl.
Qed.

Lemma e6_print_begins t : four_digit_year t → begins "0" (e6_print t) = true.
Proof.
  intros Ht. unfold e6_print. destruct (digits_zero 13 (t / NANOS + EPOCH_SHIFT)) as [l ->]; [|done].
  unfold four_digit_year, NANOS, EPOCH_SHIFT in *. change (10 ^ Z.of_nat 13)%Z with 10000000000000%Z.
  pose proof (Z.div_mod t 1000000000 ltac:(lia)). pose proof (Z.mod_pos_bound t 1000000000 ltac:(lia)).
  lia.
Qed.

Lemma nanos_print_begins t : four_digit_year t → begins "0" (nanos_print t) = true.
Proof.
  intros Ht. unfold nanos_print. destruct (digits_zero 22 (t + EPOCH_SHIFT * NANOS)) as [l ->]; [|done].
  unfold four_digit_year, NANOS, EPOCH_SHIFT in *.
  change (10 ^ Z.of_nat 22)%Z with 10000000000000000000000%Z. lia.
Qed.

Lemma uuid_text_begins u : begins "u" (uuid_text u) = true.
Proof. by destruct u. Qed.


Lemma whole_second t : four_digit_year t → four_digit_year (t - t mod NANOS)%Z.
Proof.
  unfold four_digit_year, NANOS. intros Ht. pose proof (Z.mod_pos_bound t 1000000000 ltac:(lia)).
  pose proof (Z.div_mod t 1000000000 ltac:(lia)). lia.
Qed.

Lemma whole_second_mod t : ((t - t mod NANOS) mod NANOS = 0)%Z.
Proof.
  unfold NANOS. pose proof (Z.div_mod t 1000000000 ltac:(lia)).
  replace (t - t mod 1000000000)%Z with (t / 1000000000 * 1000000000)%Z by lia. by apply Z.mod_mul.
Qed.

Lemma spelled_shape t :
  matches_template E6_TEMPLATE (spelled LITERAL_PRINTS e6_print t) = true.
Proof.
  unfold spelled. destruct (find _ _) as [p|] eqn:Hf.
  - apply find_some in Hf as [Hin%list_elem_of_In _].
    assert (Forall (λ p, matches_template E6_TEMPLATE p.1 = true) LITERAL_PRINTS) as Hall.
    { apply (bool_decide_unpack (Forall _ _)). vm_compute. done. }
    rewrite Forall_forall in Hall. by apply Hall.
  - apply matches_place; [by rewrite digits_length|apply digits_bounds].
Qed.

Ltac literal_table := apply (bool_decide_unpack (Forall _ _)); vm_compute; done.

#[global] Instance spelled_laws (parse : string → option RawJson) :
  @ExternalLaws (spelled_concrete parse).
Proof.
  split.
  - split. intros u. apply spelling_spelled; [literal_table| |apply uuid_read_text|done].
    apply (find_check_begins "u"); [apply uuid_text_begins|reflexivity].
  - pose proof (@laws_chrono _ (concrete_laws parse)) as L. split; try apply L.
    + intros t Ht. apply spelled_shape.
    + intros t Ht%whole_second. cbn [dt_format dt_parse_from_rfc3339 ext_chrono spelled_concrete].
      rewrite bool_decide_eq_true_2 by done. apply spelling_spelled; [literal_table| | |done].
      * apply (find_check_begins "0"); [by apply e6_print_begins|reflexivity].
      * rewrite e6_read_print by done. f_equal. rewrite whole_second_mod. lia.
    + intros t Ht. apply spelling_spelled; [literal_table| |by apply nanos_read_print|done].
      apply (find_check_begins "0"); [by apply nanos_print_begins|reflexivity].
  - apply (@laws_crypto _ (concrete_laws parse)).
Qed.

#[global] Instance spelled_literals (parse : string → option RawJson) :
  @LiteralLaws (spelled_concrete parse).
Proof.
  split.
  - unfold VECTOR_UUIDS. cbn [app flat_map map]. repeat (apply Forall_cons; split; [by split|]). done.
  - repeat (apply Forall_cons; split; [by split_and!|]). done.
  - repeat (apply Forall_cons; split; [done|]). done.
  - repeat (apply Forall_cons; split; [done|]). done.
  - intros b Hb. cbn [kp_from_seed_unchecked ext_crypto spelled_concrete concrete].
    rewrite bool_decide_eq_true_2 by done. by eexists.
Qed.

(** ** The generators at this instance *)

Lemma emitted_vectors_pass_witness :
  ∃ v, @emit_mint_vector (spelled_concrete no_json) = Ok v
  ∧ @check_mint (spelled_concrete no_json) v = Ok tt.
Proof. exact (proj1 (@emitted_vectors_pass (spelled_concrete no_json) _ _)). Defined.

Lemma emitted_chains_pass_witness :
  ∃ v, @emit_chain_vector (spelled_concrete no_json) = Ok v
  ∧ @check_chain (spelled_concrete no_json) v = Ok tt.
Proof. exact (proj1 (@emitted_chains_pass (spelled_concrete no_json) _ _)). Defined.

Lemma concrete_binds : @binds_message (spelled_concrete no_json).
Proof.
  intros kp m m'. cbn. rewrite bool_decide_eq_true. intros Heq. by apply app_inv_head in Heq.
Qed.

Lemma concrete_no_collision :
  @no_collision (spelled_concrete no_json) (known_vaid) (extended_vaid).
Proof. intros Heq. vm_compute in Heq. discriminate Heq. Qed.

Lemma emitted_roundtrip_passes_witness :
  ∃ v, @emit_roundtrip_vector (spelled_concrete no_json) = Ok v
  ∧ @check_roundtrip (spelled_concrete no_json) v = Ok tt.
Proof.
  apply (@emitted_roundtrip_passes (spelled_concrete no_json) _ _).
  - exact concrete_binds.
  - exact concrete_no_collision.
Defined.

(** ** A verdict vector and a scope-kinds vector, and their reading *)

Import FirewallSamples.

Definition foreign_scope : Vaid :=
  document 4 "a.example" good_hash [mkEntry "amount" JNull] 100 kernel.

Definition full_verdict_vector : Json :=
  object [("cases", JArray (verdict_sample_cases
             ++ [standing_case "unknown_scope_kind" "foreign" "not_revoked"]));
          ("ed25519", index verdict_vector "ed25519"); ("reasons", index verdict_vector "reasons")].

Definition kinds_case (reason : string) (valid : bool) (members : list (string * Json)) : Json :=
  object (members ++ [("expected_reason", JString reason); ("expected_valid", JBool valid);
                      ("expected", JBool valid)]).

Definition kinds_vector : Json :=
  object [("rule", object [("kinds", ser_strings RECOGNISED_SCOPE_KINDS)]);
          ("containment_cases", JArray
             [kinds_case "contained" true
                [("boundary", JArray [entry "data"]); ("resource", JString "data")]]);
          ("attenuation_cases", JArray
             [kinds_case "unknown_scope_kind" false
                [("parent_scope", ser_boundary [mkEntry "amount" JNull]);
                 ("child_scope", ser_boundary [])];
              kinds_case "attenuated" true
                [("parent_scope", JArray [entry "a"]); ("child_scope", JArray [entry "a/b"])]]);
          ("shape_cases", JArray
             [kinds_case "parsed" true [("boundary_json", JString "empty")];
              kinds_case "parsed" true [("boundary_json", JString "empty")]])].

Definition vector_texts : string → option RawJson := λ s,
  if bool_decide (s = "verdict") then Some (raw_of_value full_verdict_vector)
  else if bool_decide (s = "kinds") then Some (raw_of_value kinds_vector)
  else if bool_decide (s = "empty") then Some (RArray [])
  else if bool_decide (s = "foreign") then Some (raw_of_value (vaid_to_value foreign_scope))
  else texts s.

Definition reading : Json :=
  match @emit_unknown_scope_kind_verdict (concrete vector_texts) (λ _, 0%Z) "verdict" "kinds" with
  | Ok out => out
  | _ => JNull
  end.

Lemma reading_taken :
  @emit_unknown_scope_kind_verdict (concrete vector_texts) (λ _, 0%Z) "verdict" "kinds" = Ok reading.
Proof. vm_compute. reflexivity. Qed.

Lemma full_verdict_vector_passes :
  @check_verdict (concrete vector_texts) (λ _, 0%Z) (value_of_raw (raw_of_value full_verdict_vector))
  = Ok tt.
Proof. apply passes_ok. vm_compute. reflexivity. Qed.

Lemma kinds_vector_passes :
  @check_scope_kinds (concrete vector_texts) (value_of_raw (raw_of_value kinds_vector)) = Ok tt.
Proof. apply passes_ok. vm_compute. reflexivity. Qed.

Lemma attenuation_cases_undocumented cases case :
  as_array (index (value_of_raw (raw_of_value full_verdict_vector)) "cases") = Some cases →
  case ∈ cases → index case "surface" ≠ JString "standing" →
  as_str (index case "document_json") = None.
Proof.
  rewrite value_of_raw_of_value.
  assert (Forall (λ case, index case "surface" ≠ JString "standing" →
                          as_str (index case "document_json") = None)
            (array_or_empty (index full_verdict_vector "cases"))) as Hall.
  { apply (bool_decide_unpack (Forall _ _)). vm_compute. done. }
  unfold array_or_empty in Hall. intros Hc. rewrite Hc in Hall. cbn in Hall.
  rewrite Forall_forall in Hall. apply Hall.
Qed.

Lemma unknown_kind_readings_witness :
  ∃ standing, index reading "standing" = JArray standing ∧ standing ≠ []
  ∧ Forall (λ r, refuses_unknown_kind r ∧ index r "valid" = JBool false) standing.
Proof.
  destruct (@unknown_kind_readings (concrete vector_texts) (λ _, 0%Z) (λ _, 0%Z) "verdict" "kinds"
    (raw_of_value full_verdict_vector) (raw_of_value kinds_vector) reading eq_refl eq_refl
    full_verdict_vector_passes kinds_vector_passes attenuation_cases_undocumented
    (λ _, Z.le_refl 0) reading_taken) as (s & a & Hs & _ & Hne & _ & Hall & _).
  exists s. split; [exact Hs|]. split; [exact Hne|exact Hall].
Defined.
