(* ===== verification/VerdictTexts.v ===== *)
(** * The prose of the verdict vector

    What each case of [crates/vaid-mint/examples/emit_verdict_vector.rs] says of
    itself, and the vector's comment and rules, word for word. *)

From S2P Require Import Prelude EmitterTexts.

Definition VERDICT_WHY_CONTROL : string := text
  ["THE CONTROL. Without at least one case that must return valid, an implementation that ";
   "rejects everything passes this entire vector. Every negative below is only meaningful ";
   "because this one is here."].

Definition VERDICT_WHY_EXPIRED : string := text
  ["authentic and correctly signed, and past expires_at. The signature is real, so an ";
   "implementation reporting inauthentic here is confusing 'no longer usable' with 'never ";
   "genuine' — different accusations about different parties."].

Definition VERDICT_WHY_REVOKED : string := text
  ["authentic and unexpired; the caller's RevocationCheck said Revoked (R.4.4)."].

Definition VERDICT_WHY_INDETERMINATE : string := text
  ["THE FAIL-CLOSED CASE. An absent InMemoryRevocationList reports Unavailable, which is ";
   "neither 'clean' nor 'revoked'. It MUST NOT read as valid, and it MUST NOT be collapsed ";
   "into revoked: accusing a holder of revocation because a store was unreachable is a ";
   "false accusation, and reporting clean is a fail-open. It is its own state."].

Definition VERDICT_WHY_PAYLOAD_TAMPERED : string := text
  ["the signature is a genuine kernel signature — over DIFFERENT bytes. A scope entry was ";
   "added after signing. An implementation that reported valid here would be honouring an ";
   "escalation the kernel never authorised."].

Definition VERDICT_WHY_SIGNATURE_TAMPERED : string := text
  ["the other direction: untouched document, one flipped signature byte."].

Definition VERDICT_WHY_FOREIGN_SIGNED : string := text
  ["a forger who signs with their own key but does not touch the commitment. The thumbprint ";
   "still corresponds to the key we hold, so the key-commitment check passes and the ";
   "SIGNATURE is what refuses. Reason: inauthentic."].

Definition VERDICT_WHY_FOREIGN_COMMITTED : string := text
  ["THE SHARP CASE, and the reason a graded verdict earns its keep. This document is ";
   "internally consistent: signed by the foreign key, and committing to the foreign key. ";
   "Nothing about it is self-contradictory. It is simply not OUR issuer, and the ";
   "key-commitment check is what says so — BEFORE the signature check, which would have ";
   "passed against the foreign key had anyone asked it. Both this and the case above are ";
   "refusals; a boolean cannot tell you that one is a broken signature and the other is a ";
   "stranger's valid one."].

Definition VERDICT_WHY_LINEAGE : string := text
  ["signed over the bad lineage_hash, so the kernel signature is VALID and only the ";
   "explicit lineage check refuses. This is why lineage is checked in its own right rather ";
   "than left to the signature: a mint that signs a malformed lineage produces a document ";
   "the signature happily vouches for."].

Definition VERDICT_WHY_DOWNGRADE : string := text
  ["correctly signed as a v2 document. There is no dual-version acceptance (ADR-0004); ";
   "accepting both would recreate the downgrade surface that signing sig_version exists to ";
   "close."].

Definition VERDICT_WHY_VERSION_ABSENT : string := text
  ["must PARSE and then be refused at verify, not be reported unparseable: the Rust field ";
   "carries #[serde(default)] precisely so this document deserializes to 0 and gets a ";
   "verdict about its version rather than about its syntax."].

Definition VERDICT_WHY_MALFORMED_DOMAIN : string := text
  ["correctly signed, and names an issuer nobody can look up (ADR-0004). A thumbprint is a ";
   "commitment, not a key; without a well-formed domain to look it up under there is ";
   "nothing to select within."].

Definition VERDICT_WHY_TRUNCATED : string := text
  ["the first 200 bytes of a genuine document. Rust cannot construct a Vaid from this at ";
   "all; Python and TypeScript would happily hand a partial map to a verifier if nothing ";
   "gated it. All three must say the same thing: there is no document here to have an ";
   "opinion about."].

Definition VERDICT_WHY_NOT_JSON : string := text
  ["arbitrary bytes. A refusal, never a raised exception or a panic."].

Definition VERDICT_WHY_EMPTY : string := text
  ["zero bytes. The degenerate case, which is exactly the one a hand-rolled parser forgets."].

Definition VERDICT_WHY_ARRAY : string := text
  ["well-formed JSON that is not a document. Parseable as JSON is not the same question as ";
   "parseable as a VAID."].

Definition VERDICT_WHY_MEMBER_ABSENT : string := text
  ["every member of the Rust struct except sig_version and parent_vaid is required. A map ";
   "missing one is not a VAID, and the untyped implementations must refuse it for the same ";
   "reason the typed one does rather than proceeding with a hole in the document."].

Definition VERDICT_WHY_WRONG_TYPE : string := text
  ["scope_boundary as a bare string rather than a list. In Python and JavaScript a string ";
   "is iterable, so an ungated implementation would silently treat this as a boundary of ";
   "ten single-character entries."].

Definition VERDICT_WHY_EXPIRED_REVOKED : string := text
  ["both are true. Expiry is reported, because it is determinable from the document itself ";
   "while revocation is an answer from elsewhere."].

Definition VERDICT_WHY_EXPIRED_UNAVAILABLE : string := text
  ["a definite answer must not be displaced by 'I could not tell'. Reporting indeterminate ";
   "about a document we can positively see has expired discards information we already ";
   "hold."].

Definition VERDICT_WHY_FORGED_EXPIRED : string := text
  ["authenticity wins. Reporting 'expired' about a forgery invites a renewal, and renewing ";
   "a forged document hands the forger a fresh valid one."].

Definition VERDICT_WHY_VERSION_DOMAIN : string := text
  ["two structural faults; sig_version is reported because it is checked first. Pinning ";
   "this is what stops an implementation from reordering the cheap checks and changing ";
   "every reason code while every boolean stays identical."].

Definition VERDICT_WHY_UPPERCASE : string := text
  ["the SAME uuid, spelled differently. A verifier that parses to a UUID and re-renders it ";
   "canonicalizes the spelling away, reproduces the signed bytes and calls a document ";
   "altered after signing authentic. Rust did exactly that; the presented form is now what ";
   "is canonicalized, so the signature refuses it."].

Definition VERDICT_WHY_BRACED : string := text
  ["the same uuid inside curly braces, which every uuid parser in this standard accepts. B7 ";
   "listed this class among the eight the three implementations disagreed on, and the ";
   "vector did not carry it — so the agreement held by construction rather than by ";
   "contract. It fails for the same reason as the other spellings: the presented bytes are ";
   "what the signature covers, and these are not the bytes that were signed."].

Definition VERDICT_WHY_URN : string := text
  ["the same defect through a different spelling the uuid parsers accept. Parsing stays ";
   "permissive on purpose — a stricter grammar would make one implementation report ";
   "unparseable where the others report inauthentic, which is the same refusal for a ";
   "different reason."].

Definition VERDICT_WHY_HYPHENLESS : string := text
  ["the same uuid with its hyphens stripped — the last of the five altered-after-signing ";
   "spellings, and the one furthest from the canonical form while still parsing everywhere. ";
   "Parsing stays permissive on purpose: a grammar that refused this here would report ";
   "unparseable where the others report inauthentic, which is the same refusal for a ";
   "different stated reason and is itself the divergence class this vector polices."].

Definition VERDICT_WHY_PARENT_DELETED : string := text
  ["ABSENT is not the same as PRESENT-NULL. A verifier holding a two-state optional cannot ";
   "tell them apart and renders the missing member back as null, reproducing the signed ";
   "bytes for a document whose key set was changed. E.7 requires a root to carry a present ";
   "null; deleting it must therefore break the signature rather than be quietly repaired."].

Definition VERDICT_WHY_OFFSET : string := text
  ["+00:00 is valid RFC 3339 and NOT the E.6 profile. It must still verify: the signature ";
   "covers the bytes as presented, and a verifier that re-renders the timestamp into the ";
   "profile computes a different digest and rejects a document its signer genuinely signed. ";
   "E.6 binds PRODUCERS; it is not a verifier's licence to rewrite what it was handed."].

Definition VERDICT_WHY_SUBSECOND : string := text
  ["the same rule against the form that actually occurs: JavaScript's toISOString() emits ";
   ".000Z by default, so this is what a caller who lets the platform format a timestamp ";
   "produces. It must verify everywhere."].

Definition VERDICT_WHY_UNREADABLE : string := text
  ["authentic, and its expiry cannot be read. A document whose expiry is unreadable is not ";
   "a document that can be shown to be unexpired, so it is EXPIRED rather than unparseable: ";
   "it still has an identity, and the failure is a verdict about its standing rather than ";
   "about its syntax."].

Definition VERDICT_WHY_DUPLICATE : string := text
  ["THE PARSER DIFFERENTIAL. serde refuses a repeated struct field; json.loads and ";
   "JSON.parse both keep the LAST and discard the earlier silently. A signed document is a ";
   "statement about a specific byte string, so quietly choosing between two competing ";
   "values means the reader and the signer may disagree about what was signed with nothing ";
   "in the verdict to show it. Rejecting is the safe direction and is now normative (E.7a)."].

Definition VERDICT_WHY_NESTED_DUPLICATE : string := text
  ["the rule applies at every depth, not only to members the verifier recognises — a ";
   "duplicate inside an additive extension is resolved by last-wins just as silently."].

Definition VERDICT_WHY_PREVIOUS_FORM : string := text
  ["NO LEGACY ACCEPTANCE, pinned. This is a real v3 credential, carried verbatim from the ";
   "vector this one replaces, signature and all. A v4 verifier refuses it as UNPARSEABLE ";
   "and not as an unsupported sig_version, because the boundary fails the shape gate of S.8 ";
   "before the version is ever read. That ordering is worth freezing: it is the reason a ";
   "holder presenting a stale credential sees 'not a document' rather than 'wrong version', ";
   "and an implementation that checked the version first would report a different reason ";
   "for the same bytes."].

Definition VERDICT_WHY_UNKNOWN_KIND : string := text
  ["THE FAIL-CLOSED CASE for S.10. Authentic, unexpired, revocation clean, and refused ";
   "anyway because its scope_boundary names a kind this verifier cannot evaluate. Distinct ";
   "from unparseable: the entry's shape is well formed and the document's signature ";
   "verifies, so collapsing the two would report an authentic future-version credential as ";
   "malformed bytes. Distinct from a scope escalation: the verifier has formed no opinion ";
   "about width, it cannot read the boundary at all."].

Definition VERDICT_WHY_EXPIRED_UNKNOWN_KIND : string := text
  ["Pins where the new check sits. Both faults hold; the reason is expired, because expiry ";
   "is the cheaper and more actionable fact and is evaluated first. An implementation that ";
   "checked the boundary before expiry agrees on every boolean in this vector and disagrees ";
   "here."].

Definition VERDICT_WHY_CHILD_WITHIN : string := text
  ["THE CONTROL for this surface. Without it, an implementation that refuses every ";
   "delegation passes every escalation case below."].

Definition VERDICT_WHY_OUTSIDE : string := text
  ["the plain case: a parent restricted to data.acme cannot delegate data.other."].

Definition VERDICT_WHY_EMPTY_CHILD : string := text
  ["THE SUBTLE ONE. An empty scope means UNRESTRICTED, so a naive all() over zero entries ";
   "is vacuously true and mints an unrestricted child under a restricted parent — strictly ";
   "broader than its parent, by way of an empty list. The empty-child guard is the only ";
   "thing standing between this vector and a privilege escalation that reads like a no-op."].

Definition VERDICT_WHY_UNRESTRICTED : string := text
  ["the guard must not overfire: a parent that is itself unrestricted may delegate ";
   "unrestricted. Without this case the guard could be 'reject every empty child' and still ";
   "pass."].

Definition VERDICT_WHY_SIBLING : string := text
  ["data.acme-secret is not under data.acme. Bare prefix matching accepts it; ";
   "segment-bounded containment (ADR-0005) does not. Carried here as well as in ";
   "scope_v1.json because a regression in the matcher must fail the ATTENUATION surface too ";
   "— the two vectors reach the rule by different call paths."].

Definition VERDICT_WHY_UNKNOWN_CHILD : string := text
  ["A child claiming authority of a kind the verifier cannot read cannot be shown to be ";
   "within its parent. The reason is unknown_scope_kind and NOT scope_escalation: the ";
   "verifier is not saying the delegation is wider, it is saying it cannot tell. Carried ";
   "here as well as in scope_kinds_v1.json because the two vectors reach the rule by ";
   "different call paths."].

Definition VERDICT_WHY_UNKNOWN_PARENT : string := text
  ["The direction an implementation guarding only its input loses. A parent boundary the ";
   "verifier cannot read bounds nothing it can compute, so no child is provably within it."].

Definition VERDICT_COMMENT : string := text
  ["Negative-path conformance vector (v1). Nine happy-path vectors prove the three ";
   "implementations MINT identically; none of them proves they FAIL identically. A verifier ";
   "that accepts an expired VAID in one language and rejects it in another is a worse ";
   "defect than a mint mismatch, and nothing in the suite would have caught it. ADR-0006 ";
   "found exactly this class by accident — Python and Rust disagreed on a real production ";
   "document because one preserved an unknown member and the other dropped it, and no ";
   "vector covered the path. This one covers the path. SHAPE: a predicate vector, following ";
   "roundtrip_v1.json and scope_v1.json — it pins A VERDICT OVER GIVEN BYTES rather than ";
   "bytes over a given input, which is the only shape that catches cross-implementation ";
   "disagreement. It carries no digest of its own: the assertion is the verdict. mint_v1, ";
   "mint_pop_v1, chain_v1, attestation_v1, scope_v1 and roundtrip_v1 are untouched and NOT ";
   "re-frozen. EACH CASE ASSERTS A REASON, NOT MERELY A BOOLEAN. Three implementations that ";
   "reject the same document for three different reasons agree on every boolean and ";
   "disagree about what happened; that disagreement is the defect this vector exists to ";
   "make visible, and it is invisible to a vector that only pins true/false. DOCUMENTS ARE ";
   "CARRIED AS TEXT, not as objects, because half the point is input that is not a document ";
   "at all — truncated, empty, or not JSON. A case whose bytes cannot be expressed as a ";
   "JSON object cannot be written any other way, and starting every case from text means ";
   "the malformed cases travel the same code path as the well-formed ones instead of a ";
   "special one written just for them."].

Definition VERDICT_STATEMENT : string := text
  ["A conforming implementation MUST, for each standing case, evaluate the case's ";
   "document_json text together with the given revocation status and return both ";
   "expected_valid and expected_reason. For each attenuation case it MUST evaluate scope ";
   "containment of child_scope within parent_scope and return both. The reason is ";
   "normative, not advisory."].

Definition VERDICT_ORDER : string := text
  ["Standing is evaluated in exactly this order, and the FIRST fault found is the one ";
   "reported: (1) parse; (2) sig_version; (3) trust_domain; (4) kernel_key_thumbprint ";
   "correspondence; (5) lineage_hash; (6) kernel signature; (7) expiry; (8) revocation. ";
   "Steps 2-6 are the pre-existing authenticity order, unchanged. Reordering any step ";
   "changes which reason a document receives while leaving every boolean identical, which ";
   "is precisely the divergence class this vector polices."].

Definition VERDICT_UNAVAILABLE : string := text
  ["A revocation status of 'unavailable' yields 'indeterminate' — its own state, never ";
   "collapsed into 'revoked' and never into 'valid'. It fails CLOSED: expected_valid is ";
   "false. This is the same rule already carried by the three-state RevocationCheck, the ";
   "four-valued chain verdict, and the packaged firewall's refusal to report PASS over zero ";
   "vectors."].

Definition VERDICT_STANDING : string := text
  ["expected_valid is true only for a document that is authentic AND unexpired AND ";
   "affirmatively not revoked. The pre-existing authenticity predicate answers a narrower ";
   "question and is unchanged by this vector."].

Definition VERDICT_DISTANCE : string := text
  ["Expiring cases use a timestamp two decades past and unexpired cases one nine centuries ";
   "hence, so no verdict here depends on when the suite runs. This is deliberate: the Rust ";
   "and Python expiry predicates read the wall clock and accept no 'now' argument, so a ";
   "vector pinned against a near boundary would be a vector with an expiry date of its own."].

Definition VERDICT_PRESENTATION : string := text
  ["A verifier canonicalizes the member VALUES it was presented, not its own re-rendering ";
   "of them (ADR-0006 Requirement 3). A UUID may be presented in any spelling the uuid ";
   "parsers accept and a timestamp in any valid RFC 3339 form; both are canonicalized ";
   "exactly as written, so rewriting one after signing breaks the signature instead of ";
   "being silently repaired. An ABSENT member and a member present as JSON null are ";
   "different documents. Parsing is permissive and verification is strict, on purpose: it ";
   "puts the refusal on the signature, which is the same in all implementations, rather ";
   "than on separately-written grammars."].

Definition VERDICT_E6 : string := text
  ["The whole-second Z profile (E.6) is normative on PRODUCERS. A verifier MUST NOT rewrite ";
   "a non-conforming timestamp into the profile: doing so computes a different digest and ";
   "rejects a document its signer genuinely signed. Conformance is asked separately, and a ";
   "document that fails the profile still verifies if its signature covers what it carries."].

Definition VERDICT_DUPLICATES : string := text
  ["A repeated member name at any depth is UNPARSEABLE (E.7a). The parsers disagree by ";
   "default — one refuses, two silently keep the last — so the rule is stated rather than ";
   "inherited. Last-wins would let a reader and a signer disagree about what was signed ";
   "with nothing in the verdict to indicate it."].

Definition VERDICT_UNREADABLE_EXPIRY : string := text
  ["A timestamp that cannot be parsed makes the document EXPIRED, not unparseable: it still ";
   "has an identity, and 'cannot be shown to be unexpired' is a statement about standing. ";
   "Fails closed in all three."].

Definition VERDICT_CONTROLS : string := text
  ["This file contains positive controls on BOTH surfaces. An implementation that refuses ";
   "every input satisfies every negative case here; only a case that must succeed catches ";
   "it. A checker that drops the controls has disarmed the vector without changing a single ";
   "negative."].

Definition VERDICT_FOREIGN_COMMENT : string := text
  ["A second, unrelated key standing in for 'somebody else's signer'. Without it, 'signed ";
   "by a non-kernel key' cannot be expressed, and the two ways that forgery presents — a ";
   "broken signature versus a stranger's perfectly valid one — cannot be told apart."].
