(* ===== verification/VerdictEmitter.v ===== *)
(** * The generator of the verdict vector

    [crates/vaid-mint/examples/emit_verdict_vector.rs]: a table of standing and
    attenuation cases, each standing case a text made from one base document by
    overrides before and after it is signed, and [main] as the vector it prints.
    A document is a list of members in the order they are written ([Ordered]);
    its text is [serde_json::to_string_pretty]'s.  An [expect] that does not hold
    and a slice inside a character are panics. *)

From S2P Require Import Prelude Json Externals Concrete Identity Scope IssuerIdentity Document.
From S2P Require Import DupScan Revocation Attenuation Verify Vectors EmitterTexts Emitters.
From S2P Require Import VerdictTexts.

(** ** Texts *)

(** A text written with ['] for the double quote. *)
Fixpoint dq (s : string) : string :=
  match s with
  | EmptyString => EmptyString
  | String a s' => String (if bool_decide (a = "'"%char) then DQUOTE else a) (dq s')
  end.

(** [s.find(p)]: what precedes the first occurrence, and the rest from there. *)
Fixpoint find_sub (p s : string) : option (string * string) :=
  if starts_with p s then Some ("", s)
  else match s with
       | EmptyString => None
       | String a s' => '(u, v) ← find_sub p s'; Some (String a u, v)
       end.

(** [s.trim_end_matches(f)] *)
Fixpoint trim_end_matches (f : ascii → bool) (s : string) : string :=
  match s with
  | EmptyString => EmptyString
  | String a s' =>
      match trim_end_matches f s' with
      | EmptyString => if f a then EmptyString else String a EmptyString
      | r => String a r
      end
  end.

(** The one-byte characters of [char::is_whitespace]; the texts trimmed here end
    in one-byte characters. *)
Definition is_whitespace (a : ascii) : bool :=
  let n := nat_of_ascii a in ((9 <=? n)%nat && (n <=? 13)%nat) || (n =? 32)%nat.

(** [s.trim_end()] *)
Definition trim_end (s : string) : string := trim_end_matches is_whitespace s.

(** [s.strip_suffix(c)] *)
Fixpoint strip_suffix (c : ascii) (s : string) : option string :=
  match s with
  | EmptyString => None
  | String a EmptyString => if bool_decide (a = c) then Some EmptyString else None
  | String a s' => String a <$> strip_suffix c s'
  end.

(** ** The table *)

Definition FOREIGN_SEED_HEX : string :=
  "404142434445464748494a4b4c4d4e4f505152535455565758595a5b5c5d5e5f".

Definition BASE_FIELDS : list (string * string) :=
  [("sig_version", "4");
   ("vaid_id", dq "'c0000000-0000-4000-8000-000000000001'");
   ("agent_id", dq "'c0000000-0000-4000-8000-000000000001'");
   ("agent_class", dq "'verdict'");
   ("version", dq "'1.0.0'");
   ("tenant_id", dq "'acme'");
   ("issued_at", dq "'2020-01-01T00:00:00Z'");
   ("expires_at", dq "'2999-01-01T00:00:00Z'");
   ("public_key_der",
    "[3, 161, 7, 191, 243, 206, 16, 190, 29, 112, 221, 24, 231, 75, 192, 153, 103, 228, 214, 48, 155, 165, 13, 95, 29, 220, 134, 100, 18, 85, 49, 184]");
   ("kernel_signature", "[]");
   ("parent_vaid", "null");
   ("scope_boundary", dq "[{'kind': 'prefix', 'value': 'data.acme'}]");
   ("lineage_hash", dq "'8f89c127be8d6e98aa288873e5b6413b9b84e6b92b1a8b99a4627f91390f16af'");
   ("capability_set", dq "['read']");
   ("trust_domain", dq "'vaid.example'");
   ("kernel_key_thumbprint",
    dq "'urn:ietf:params:oauth:jwk-thumbprint:sha-256:1IG2tMH7J2wbJZnOf8LJzQitKf7LMvoAElsuDMVM54Y'")].

Inductive Signer : Type := Kernel | Foreign.

Inductive TextShape : Type :=
  | Document
  | TruncatedAfterTenant
  | DuplicateLeadingTenant
  | NestedDuplicateExtension
  | Literal (text : string).

(** Overrides of members, in order; [None] removes the member. *)
Definition Overrides : Type := list (string * option string).

Record StandingCase : Type := mkStandingCase {
  sc_name : string;
  sc_why : string;
  sc_pre_sign : Overrides;
  sc_signer : Signer;
  sc_post_sign : Overrides;
  sc_tamper_signature : bool;
  sc_text : TextShape;
  sc_revocation : string;
  sc_expected_reason : string;
  sc_expected_valid : bool;
}.

Record AttenuationCase : Type := mkAttenuationCase {
  ac_name : string;
  ac_why : string;
  ac_parent_scope : string;
  ac_child_scope : string;
  ac_expected_valid : bool;
  ac_expected_reason : string;
}.

(** The v3 credential one case carries verbatim. *)
Definition V3_TEXT : string := join newline
  ["{"; dq "  'sig_version': 3,"; dq "  'vaid_id': 'c0000000-0000-4000-8000-000000000001',";
   dq "  'agent_id': 'c0000000-0000-4000-8000-000000000001',"; dq "  'agent_class': 'verdict',";
   dq "  'version': '1.0.0',"; dq "  'tenant_id': 'acme',";
   dq "  'issued_at': '2020-01-01T00:00:00Z',"; dq "  'expires_at': '2999-01-01T00:00:00Z',";
   dq "  'public_key_der': ["; "    3,"; "    161,"; "    7,"; "    191,";
   "    243,"; "    206,"; "    16,"; "    190,"; "    29,"; "    112,";
   "    221,"; "    24,"; "    231,"; "    75,"; "    192,"; "    153,";
   "    103,"; "    228,"; "    214,"; "    48,"; "    155,"; "    165,";
   "    13,"; "    95,"; "    29,"; "    220,"; "    134,"; "    100,";
   "    18,"; "    85,"; "    49,"; "    184"; "  ],";
   dq "  'kernel_signature': ["; "    26,"; "    148,"; "    104,"; "    49,";
   "    172,"; "    135,"; "    233,"; "    237,"; "    93,"; "    130,";
   "    0,"; "    250,"; "    158,"; "    68,"; "    201,"; "    40,";
   "    18,"; "    41,"; "    238,"; "    242,"; "    164,"; "    63,";
   "    179,"; "    92,"; "    24,"; "    142,"; "    34,"; "    208,";
   "    44,"; "    189,"; "    33,"; "    231,"; "    149,"; "    227,";
   "    150,"; "    192,"; "    207,"; "    104,"; "    57,"; "    162,";
   "    212,"; "    126,"; "    239,"; "    197,"; "    142,"; "    197,";
   "    125,"; "    10,"; "    223,"; "    13,"; "    9,"; "    66,";
   "    8,"; "    95,"; "    45,"; "    152,"; "    28,"; "    98,";
   "    176,"; "    169,"; "    121,"; "    92,"; "    30,"; "    6";
   "  ],"; dq "  'parent_vaid': null,"; dq "  'scope_boundary': ["; dq "    'data.acme'";
   "  ],";
   dq "  'lineage_hash': '8f89c127be8d6e98aa288873e5b6413b9b84e6b92b1a8b99a4627f91390f16af',";
   dq "  'capability_set': ["; dq "    'read'"; "  ],";
   dq "  'trust_domain': 'vaid.example',";
   dq "  'kernel_key_thumbprint': 'urn:ietf:params:oauth:jwk-thumbprint:sha-256:1IG2tMH7J2wbJZnOf8LJzQitKf7LMvoAElsuDMVM54Y'";
   "}"].

Definition OUTCOME_CASES : list StandingCase :=
  [mkStandingCase "control: authentic, unexpired, revocation clean" VERDICT_WHY_CONTROL
     [] Kernel [] false Document "not_revoked" "valid" true;
   mkStandingCase "expired: past its TTL" VERDICT_WHY_EXPIRED
     [("expires_at", Some (dq "'2020-01-01T00:00:00Z'"))]
     Kernel [] false Document "not_revoked" "expired" false;
   mkStandingCase "revoked: the store reported a revoked lineage" VERDICT_WHY_REVOKED
     [] Kernel [] false Document "revoked" "revoked" false;
   mkStandingCase "indeterminate: the revocation store could not be consulted" VERDICT_WHY_INDETERMINATE
     [] Kernel [] false Document "unavailable" "indeterminate" false;
   mkStandingCase "signature valid, payload tampered" VERDICT_WHY_PAYLOAD_TAMPERED
     [] Kernel
     [("scope_boundary", Some (dq "[{'kind': 'prefix', 'value': 'data.acme'}, {'kind': 'prefix', 'value': 'data.everything'}]"))]
     false Document "not_revoked" "inauthentic" false;
   mkStandingCase "payload valid, signature tampered" VERDICT_WHY_SIGNATURE_TAMPERED
     [] Kernel [] true Document "not_revoked" "inauthentic" false].

Definition FAULT_CASES : list StandingCase :=
  [mkStandingCase "signed by a non-kernel key, thumbprint left as the kernel's"
     VERDICT_WHY_FOREIGN_SIGNED
     [] Foreign [] false Document "not_revoked" "inauthentic" false;
   mkStandingCase "signed by a non-kernel key, thumbprint rewritten to match it"
     VERDICT_WHY_FOREIGN_COMMITTED
     [("kernel_key_thumbprint", Some (dq "'urn:ietf:params:oauth:jwk-thumbprint:sha-256:WeVHjIQTOLKu-P74oC-WL-MNn_sLM5CvrzuMjDFC3-s'"))]
     Foreign [] false Document "not_revoked" "issuer_mismatch" false;
   mkStandingCase "lineage_hash does not recompute" VERDICT_WHY_LINEAGE
     [("lineage_hash", Some (dq "'0000000000000000000000000000000000000000000000000000000000000000'"))]
     Kernel [] false Document "not_revoked" "lineage_inconsistent" false;
   mkStandingCase "sig_version 2 — a downgrade" VERDICT_WHY_DOWNGRADE
     [("sig_version", Some (dq "2"))]
     Kernel [] false Document "not_revoked" "unsupported_sig_version" false;
   mkStandingCase "sig_version absent entirely" VERDICT_WHY_VERSION_ABSENT
     [("sig_version", None)] Kernel [] false Document "not_revoked" "unsupported_sig_version" false;
   mkStandingCase "trust_domain is not well-formed" VERDICT_WHY_MALFORMED_DOMAIN
     [("trust_domain", Some (dq "'not a domain'"))]
     Kernel [] false Document "not_revoked" "malformed_trust_domain" false].

Definition MALFORMED_CASES : list StandingCase :=
  [mkStandingCase "truncated: cut mid-document" VERDICT_WHY_TRUNCATED
     [] Kernel [] false TruncatedAfterTenant "not_revoked" "unparseable" false;
   mkStandingCase "malformed: not JSON at all" VERDICT_WHY_NOT_JSON
     [] Kernel [] false (Literal "this is not a VAID") "not_revoked" "unparseable" false;
   mkStandingCase "malformed: empty input" VERDICT_WHY_EMPTY
     [] Kernel [] false (Literal "") "not_revoked" "unparseable" false;
   mkStandingCase "malformed: valid JSON, but an array" VERDICT_WHY_ARRAY
     [] Kernel [] false (Literal "[]") "not_revoked" "unparseable" false;
   mkStandingCase "malformed: a required member is absent" VERDICT_WHY_MEMBER_ABSENT
     [] Kernel [("tenant_id", None)] false Document "not_revoked" "unparseable" false;
   mkStandingCase "malformed: a member of the wrong type" VERDICT_WHY_WRONG_TYPE
     [] Kernel
     [("scope_boundary", Some (dq "'data.acme'"))]
     false Document "not_revoked" "unparseable" false].

Definition ORDER_CASES : list StandingCase :=
  [mkStandingCase "order: expired AND revoked" VERDICT_WHY_EXPIRED_REVOKED
     [("expires_at", Some (dq "'2020-01-01T00:00:00Z'"))]
     Kernel [] false Document "revoked" "expired" false;
   mkStandingCase "order: expired AND revocation unavailable" VERDICT_WHY_EXPIRED_UNAVAILABLE
     [("expires_at", Some (dq "'2020-01-01T00:00:00Z'"))]
     Kernel [] false Document "unavailable" "expired" false;
   mkStandingCase "order: forged AND expired" VERDICT_WHY_FORGED_EXPIRED
     [("expires_at", Some (dq "'2020-01-01T00:00:00Z'"))]
     Kernel
     [("capability_set", Some (dq "['read', 'write']"))]
     false Document "not_revoked" "inauthentic" false;
   mkStandingCase "order: unsupported sig_version AND malformed trust_domain" VERDICT_WHY_VERSION_DOMAIN
     [("sig_version", Some (dq "2"));
      ("trust_domain", Some (dq "'not a domain'"))]
     Kernel [] false Document "not_revoked" "unsupported_sig_version" false].

Definition RESPELLED_CASES : list StandingCase :=
  [mkStandingCase "vaid_id rewritten to uppercase after signing" VERDICT_WHY_UPPERCASE
     [] Kernel
     [("vaid_id", Some (dq "'C0000000-0000-4000-8000-000000000001'"))]
     false Document "not_revoked" "inauthentic" false;
   mkStandingCase "vaid_id rewritten to braced form after signing" VERDICT_WHY_BRACED
     [] Kernel
     [("vaid_id", Some (dq "'{c0000000-0000-4000-8000-000000000001}'"))]
     false Document "not_revoked" "inauthentic" false;
   mkStandingCase "vaid_id rewritten to urn:uuid: form after signing" VERDICT_WHY_URN
     [] Kernel
     [("vaid_id", Some (dq "'urn:uuid:c0000000-0000-4000-8000-000000000001'"))]
     false Document "not_revoked" "inauthentic" false;
   mkStandingCase "vaid_id rewritten to hyphenless form after signing" VERDICT_WHY_HYPHENLESS
     [] Kernel
     [("vaid_id", Some (dq "'c0000000000040008000000000000001'"))]
     false Document "not_revoked" "inauthentic" false;
   mkStandingCase "parent_vaid deleted after signing" VERDICT_WHY_PARENT_DELETED
     [] Kernel [("parent_vaid", None)] false Document "not_revoked" "inauthentic" false].

Definition TIMESTAMP_CASES : list StandingCase :=
  [mkStandingCase "control: numeric-offset expiry, signed as presented" VERDICT_WHY_OFFSET
     [("expires_at", Some (dq "'2999-01-01T00:00:00+00:00'"))]
     Kernel [] false Document "not_revoked" "valid" true;
   mkStandingCase "control: sub-second expiry, signed as presented" VERDICT_WHY_SUBSECOND
     [("expires_at", Some (dq "'2999-01-01T00:00:00.000Z'"))]
     Kernel [] false Document "not_revoked" "valid" true;
   mkStandingCase "unreadable expiry, signed as presented — fails CLOSED" VERDICT_WHY_UNREADABLE
     [("expires_at", Some (dq "'not-a-timestamp'"))]
     Kernel [] false Document "not_revoked" "expired" false].

Definition FORM_CASES : list StandingCase :=
  [mkStandingCase "duplicate member name" VERDICT_WHY_DUPLICATE
     [] Kernel [] false DuplicateLeadingTenant "not_revoked" "unparseable" false;
   mkStandingCase "duplicate member name, nested inside an extension" VERDICT_WHY_NESTED_DUPLICATE
     [] Kernel [] false NestedDuplicateExtension "not_revoked" "unparseable" false;
   mkStandingCase "the previous wire form: a v3 document with a bare-string scope_boundary"
     VERDICT_WHY_PREVIOUS_FORM
     [] Kernel [] false (Literal V3_TEXT) "not_revoked" "unparseable" false;
   mkStandingCase "unknown scope kind: authentic and unexpired, boundary kind not recognised"
     VERDICT_WHY_UNKNOWN_KIND
     [("scope_boundary", Some (dq "[{'kind': 'amount', 'value': 100}]"))]
     Kernel [] false Document "not_revoked" "unknown_scope_kind" false;
   mkStandingCase "order: expired AND an unknown scope kind" VERDICT_WHY_EXPIRED_UNKNOWN_KIND
     [("scope_boundary", Some (dq "[{'kind': 'amount', 'value': 100}]"));
      ("expires_at", Some (dq "'2020-01-01T00:00:00Z'"))]
     Kernel [] false Document "not_revoked" "expired" false].

Definition STANDING_CASES : list StandingCase :=
  OUTCOME_CASES ++ FAULT_CASES ++ MALFORMED_CASES ++ ORDER_CASES
  ++ RESPELLED_CASES ++ TIMESTAMP_CASES ++ FORM_CASES.

Definition ATTENUATION_CASES : list AttenuationCase :=
  [mkAttenuationCase "control: child within parent" VERDICT_WHY_CHILD_WITHIN
     (dq "[{'kind': 'prefix', 'value': 'data.acme'}]")
     (dq "[{'kind': 'prefix', 'value': 'data.acme.reports'}]") true "attenuated";
   mkAttenuationCase "escalation: child names a resource outside the parent" VERDICT_WHY_OUTSIDE
     (dq "[{'kind': 'prefix', 'value': 'data.acme'}]")
     (dq "[{'kind': 'prefix', 'value': 'data.other'}]") false "scope_escalation";
   mkAttenuationCase "escalation: empty child scope under a restricted parent" VERDICT_WHY_EMPTY_CHILD
     (dq "[{'kind': 'prefix', 'value': 'data.acme'}]")
     (dq "[]") false "scope_escalation";
   mkAttenuationCase "control: empty child under an unrestricted parent" VERDICT_WHY_UNRESTRICTED
     (dq "[]")
     (dq "[]") true "attenuated";
   mkAttenuationCase "escalation: sibling capture by bare prefix" VERDICT_WHY_SIBLING
     (dq "[{'kind': 'prefix', 'value': 'data.acme'}]")
     (dq "[{'kind': 'prefix', 'value': 'data.acme-secret'}]") false "scope_escalation";
   mkAttenuationCase "undecidable: an unknown kind in the CHILD" VERDICT_WHY_UNKNOWN_CHILD
     (dq "[{'kind': 'prefix', 'value': 'data.acme'}]")
     (dq "[{'kind': 'amount', 'value': 100}]") false "unknown_scope_kind";
   mkAttenuationCase "undecidable: an unknown kind in the PARENT" VERDICT_WHY_UNKNOWN_PARENT
     (dq "[{'kind': 'amount', 'value': 100}]")
     (dq "[{'kind': 'prefix', 'value': 'data.acme'}]") false "unknown_scope_kind"].

(** ** Documents whose members keep their order *)

Definition Ordered : Type := list (string * Json).

(** [self.0.iter_mut().find(..)]: the slot of the name, or a new last member. *)
Fixpoint ordered_set (key : string) (value : Json) (doc : Ordered) : Ordered :=
  match doc with
  | [] => [(key, value)]
  | (k, v) :: doc' =>
      if bool_decide (k = key) then (k, value) :: doc' else (k, v) :: ordered_set key value doc'
  end.

Definition ordered_remove (key : string) (doc : Ordered) : Ordered :=
  filter (λ kv, kv.1 ≠ key) doc.

(** [*first ^= 0xFF] *)
Definition flip_byte (b : byte) : byte := default b (byte_of_Z (Z.lxor (byte_Z b) 255)).
Definition flip_first (signature : list byte) : list byte :=
  match signature with b :: rest => flip_byte b :: rest | [] => [] end.

Section VerdictEmitter.
  Context {Ext : Externals}.

  (** [serde_json::from_str::<Value>(text).expect(..)] *)
Definition value_from_str (text : string) : Emit Json :=
  let? r := unwrap (json_parse text) in Ok (value_of_raw r).

Definition ordered_base : Emit Ordered :=
  ofold (λ doc field, let? v := value_from_str field.2 in Ok (doc ++ [(field.1, v)])) BASE_FIELDS [].

Definition apply_override (doc : Ordered) (override : string * option string) : Emit Ordered :=
  let '(key, value) := override in
  match value with
  | Some text => let? v := value_from_str text in Ok (ordered_set key v doc)
  | None => Ok (ordered_remove key doc)
  end.

Definition ordered_apply (doc : Ordered) (overrides : Overrides) : Emit Ordered :=
  ofold apply_override overrides doc.

Definition ordered_text (doc : Ordered) : string := serde_json_to_string_pretty doc.

  (** A document that is not a [Vaid] gets the empty signature. *)
Definition sign (key : KeyPair) (doc : Ordered) : list byte :=
  match vaid_from_str (ordered_text doc) with
  | Some parsed => kp_sign key (canonical_vaid_signing_bytes parsed)
  | None => []
  end.

Definition TENANT_NAME : string := dq "'tenant_id'".

Definition truncate_after_tenant (text : string) : Emit string :=
  let? '(before, from) := unwrap (find_sub TENANT_NAME text) in
  let? '(line, _) := unwrap (find_sub newline from) in
  Ok (trim_end_matches (λ a, bool_decide (a = ","%char)) (before +:+ line)).

  (** [&text[1..]] *)
Definition after_first (text : string) : Emit string :=
  match text with
  | String _ rest => if at_boundary rest then Ok rest else Panicked
  | EmptyString => Panicked
  end.

Definition lead_with_tenant (text : string) : Emit string :=
  let? rest := after_first text in Ok ("{" +:+ dq "'tenant_id': 'acme', " +:+ rest).

Definition nest_duplicate (text : string) : Emit string :=
  let trimmed := trim_end text in
  let? body := unwrap (strip_suffix "}" trimmed) in
  Ok (trim_end body +:+ "," +:+ newline +:+ dq "  'x_ext': {" +:+ newline +:+ dq "    'k': 1"
      +:+ newline +:+ dq "  }," +:+ newline +:+ dq "  'x_ext2': {'k': 1, 'k': 2}" +:+ newline +:+ "}").

Definition reshape (shape : TextShape) (text : string) : Emit string :=
  match shape with
  | TruncatedAfterTenant => truncate_after_tenant text
  | DuplicateLeadingTenant => lead_with_tenant text
  | NestedDuplicateExtension => nest_duplicate text
  | Document | Literal _ => Ok text
  end.

Definition signer_key (kernel foreign : KeyPair) (signer : Signer) : KeyPair :=
  match signer with Kernel => kernel | Foreign => foreign end.

  (** The text of one standing case. *)
Definition document_json (kernel foreign : KeyPair) (case : StandingCase) : Emit string :=
  match sc_text case with
  | Literal text => Ok text
  | shape =>
      let? doc := ordered_base in
      let? doc := ordered_apply doc (sc_pre_sign case) in
      let signature := sign (signer_key kernel foreign (sc_signer case)) doc in
      let signature := if sc_tamper_signature case then flip_first signature else signature in
      let doc := ordered_set "kernel_signature" (ser_bytes signature) doc in
      let? doc := ordered_apply doc (sc_post_sign case) in
      reshape shape (ordered_text doc)
  end.

Definition standing_json (case : StandingCase) (text : string) : Json := json_object
  [("name", JString (sc_name case));
   ("why", JString (sc_why case));
   ("surface", JString "standing");
   ("document_json", JString text);
   ("revocation", JString (sc_revocation case));
   ("expected_valid", JBool (sc_expected_valid case));
   ("expected_reason", JString (sc_expected_reason case))].

Definition emit_standing (kernel foreign : KeyPair) (cases : list Json) (case : StandingCase)
    : Emit (list Json) :=
  let? text := document_json kernel foreign case in Ok (cases ++ [standing_json case text]).

Definition attenuation_json (case : AttenuationCase) (parent child : Json) : Json := json_object
  [("name", JString (ac_name case));
   ("why", JString (ac_why case));
   ("surface", JString "attenuation");
   ("parent_scope", parent);
   ("child_scope", child);
   ("expected_valid", JBool (ac_expected_valid case));
   ("expected_reason", JString (ac_expected_reason case))].

Definition emit_attenuation (cases : list Json) (case : AttenuationCase) : Emit (list Json) :=
  let? parent := value_from_str (ac_parent_scope case) in
  let? child := value_from_str (ac_child_scope case) in
  Ok (cases ++ [attenuation_json case parent child]).

Definition VERDICT_RULE : Json := json_object
  [("statement", JString VERDICT_STATEMENT);
   ("order", JString VERDICT_ORDER);
   ("unavailable_is_not_a_negative", JString VERDICT_UNAVAILABLE);
   ("authenticity_is_not_standing", JString VERDICT_STANDING);
   ("expiry_is_pinned_by_distance_not_by_a_clock", JString VERDICT_DISTANCE);
   ("presentation_is_preserved", JString VERDICT_PRESENTATION);
   ("e6_binds_producers_not_verifiers", JString VERDICT_E6);
   ("duplicate_member_names_are_not_a_document", JString VERDICT_DUPLICATES);
   ("an_unreadable_expiry_is_expired", JString VERDICT_UNREADABLE_EXPIRY);
   ("controls_are_load_bearing", JString VERDICT_CONTROLS)].

Definition VERDICT_REASONS : Json := json_object
  [("standing", ser_strings
      ["valid"; "unparseable"; "unsupported_sig_version"; "malformed_trust_domain";
       "issuer_mismatch"; "lineage_inconsistent"; "inauthentic"; "expired"; "revoked";
       "indeterminate"; "unknown_scope_kind"]);
   ("attenuation", ser_strings ["attenuated"; "scope_escalation"; "unknown_scope_kind"])].

Definition key_from_hex (seed_hex : string) : Emit KeyPair :=
  let? seed := Emitters.unhex seed_hex in unwrap (kp_from_seed_unchecked seed).

Definition verdict_vector (kernel_pub foreign_pub : list byte) (cases : list Json) : Json :=
  json_object
    [("_comment", JString VERDICT_COMMENT);
     ("rule", VERDICT_RULE);
     ("reasons", VERDICT_REASONS);
     ("revocation_states", ser_strings ["not_revoked"; "revoked"; "unavailable"]);
     ("ed25519", json_object
        [("kernel_private_key_seed_hex", JString KERNEL_SEED_HEX);
         ("kernel_public_key_hex", JString (to_hex kernel_pub));
         ("kernel_key_thumbprint", JString (kernel_key_thumbprint kernel_pub));
         ("_foreign_comment", JString VERDICT_FOREIGN_COMMENT);
         ("foreign_private_key_seed_hex", JString FOREIGN_SEED_HEX);
         ("foreign_public_key_hex", JString (to_hex foreign_pub));
         ("foreign_key_thumbprint", JString (kernel_key_thumbprint foreign_pub))]);
     ("cases", JArray cases)].

Definition emit_verdict_vector : Emit Json :=
  let? kernel := key_from_hex KERNEL_SEED_HEX in
  let? foreign := key_from_hex FOREIGN_SEED_HEX in
  let? standing := ofold (emit_standing kernel foreign) STANDING_CASES [] in
  let? cases := ofold emit_attenuation ATTENUATION_CASES standing in
  Ok (verdict_vector (kp_public_key kernel) (kp_public_key foreign) cases).

End VerdictEmitter.
