(* ===== verification/PrettyText.v ===== *)
(** * The pretty-printed text of a document

    What is assumed of [serde_json]'s pretty printer ([PrettyLaws]: a line a
    member, read back in order), and the edits [VerdictEmitter] makes to such a
    text: a name written again in front, a name repeated inside an extension.
    Both are JSON texts of the grammar of [DupScan] that repeat a name, and the
    unedited text repeats none. *)

From S2P Require Import Prelude Json Externals Concrete Identity Scope IssuerIdentity Document.
From S2P Require Import DupScan Revocation Attenuation Verify Vectors Emitters VerdictEmitter.

(** ** Pretty-printed objects *)

(** A name that is written as it is: no character of it is escaped. *)
Definition plain_text (k : string) : Prop :=
  string_forallb (λ a, bool_decide (a ≠ DQUOTE ∧ a ≠ BACKSLASH) && (32 <=? nat_of_ascii a)%nat) k
  = true.

(** What a value presents when its objects are written in the order of their
    names. *)
Fixpoint sorted_raw (v : Json) : RawJson :=
  match v with
  | JNull => RNull
  | JBool b => RBool b
  | JNumber n => RNumber n
  | JString s => RString s
  | JArray l => RArray (map sorted_raw l)
  | JObject m =>
      RObject (map_fold (λ k x l, insert_sorted (λ p q, String.leb p.1 q.1) (k, sorted_raw x) l) [] m)
  end.

(** Values whose text is read back exactly: no floats, unsigned integers of 64
    bits, and at most two levels of nesting. *)
Definition scalar_value (v : Json) : Prop :=
  match v with
  | JNull | JBool _ | JString _ => True
  | JNumber (PosInt n) => (0 ≤ n < 18446744073709551616)%Z
  | _ => False
  end.
Definition flat_value (v : Json) : Prop :=
  match v with
  | JArray l => Forall scalar_value l
  | JObject m => map_Forall (λ _, scalar_value) m
  | _ => scalar_value v
  end.
Definition member_value (v : Json) : Prop :=
  match v with JArray l => Forall flat_value l | _ => flat_value v end.

#[global] Instance scalar_value_dec v : Decision (scalar_value v).
Proof. destruct v as [| |[]| | |]; apply _. Defined.
#[global] Instance flat_value_dec v : Decision (flat_value v).
Proof. destruct v as [| |[]| | |]; apply _. Defined.
#[global] Instance member_value_dec v : Decision (member_value v).
Proof. destruct v as [| |[]| | |]; apply _. Defined.

Definition presented (l : Ordered) : RawJson := RObject (map (λ kv, (kv.1, sorted_raw kv.2)) l).

(** One line a member, two spaces in, the name, a colon and the value; read back
    as the members in order. *)
Class PrettyLaws `{Codec} := {
  (** the text of a member's value *)
  pretty_member : Json → string;
  pretty_object l :
    l ≠ [] → Forall (λ kv, plain_text kv.1) l →
    serde_json_to_string_pretty l
    = "{" +:+ newline
      +:+ join ("," +:+ newline) (map (λ kv, "  " +:+ quoted kv.1 +:+ ": " +:+ pretty_member kv.2) l)
      +:+ newline +:+ "}";
  (** a JSON text, no object of which repeats a name *)
  pretty_value v : ∃ t, value_text t (pretty_member v) ∧ repeats t = false;
  pretty_string s : plain_text s → pretty_member (JString s) = quoted s;
  pretty_digit d : (0 ≤ d < 10)%Z → pretty_member (JNumber (PosInt d)) = char_string (digit_char d);
  pretty_parse l :
    NoDup l.*1 → Forall (λ kv, plain_text kv.1 ∧ member_value kv.2) l →
    json_parse (serde_json_to_string_pretty l) = Some (presented l);
}.

(** ** Lemmas on texts *)

Lemma plain_text_body k : plain_text k → string_body k.
Proof.
  unfold plain_text. induction k as [|c k IH]; [constructor|]. simpl.
  intros [[[Hq Hb]%bool_decide_eq_true _]%andb_true_iff Hk]%andb_true_iff.
  constructor; auto.
Qed.

(** White space before the first member. *)
Lemma members_text_ws w m s : json_ws w → members_text m s → members_text m (w +:+ s).
Proof.
  assert (∀ w', json_ws w → json_ws w' → json_ws (w +:+ w')) as Happ.
  { unfold json_ws. intros w' Hw Hw'. induction w as [|c w IH]; [done|]. simpl in *.
    apply andb_true_iff in Hw as [Hc Hw]. by rewrite Hc, IH. }
  intros Hw Hs. destruct Hs; rewrite <- string_app_assoc; constructor; auto.
Qed.

(** Members written as [PrettyLaws] says, the closing brace included. *)
Fixpoint written_members (l : list (string * string)) : string :=
  match l with
  | [] => newline +:+ "}"
  | [(k, s)] => newline +:+ "  " +:+ quoted k +:+ ": " +:+ s +:+ newline +:+ "}"
  | (k, s) :: l' => newline +:+ "  " +:+ quoted k +:+ ": " +:+ s +:+ "," +:+ written_members l'
  end.

Lemma written_members_text (l : list (string * Tree * string)) :
  Forall (λ m, string_body m.1.1 ∧ value_text m.1.2 m.2) l →
  members_text (map fst l) (written_members (map (λ m, (m.1.1, m.2)) l)).
Proof.
  assert (json_ws (newline +:+ "  ") ∧ json_ws newline) as [Hw Hn] by done.
  induction 1 as [|[[k t] s] l [Hk Ht] Hl IH]; [by apply (members_nil newline)|]. simpl in Hk, Ht.
  destruct l as [|[[k' t'] s'] l]; cbn [map fst snd written_members].
  - refine (eq_rect _ (members_text _) (members_last (newline +:+ "  ") k "" " " t s newline
      Hw Hk eq_refl eq_refl Ht Hn) _ _). by rewrite !string_app_assoc.
  - refine (eq_rect _ (members_text _) (members_cons (newline +:+ "  ") k "" " " t s "" (k', t')
      (map fst l) _ Hw Hk eq_refl eq_refl Ht eq_refl IH) _ _). by rewrite !string_app_assoc.
Qed.

Lemma join_cons sep x y l : join sep (x :: y :: l) = x +:+ sep +:+ join sep (y :: l).
Proof. done. Qed.

Lemma written_members_join l :
  l ≠ [] →
  written_members l
  = newline +:+ join ("," +:+ newline) (map (λ kv, "  " +:+ quoted kv.1 +:+ ": " +:+ kv.2) l)
    +:+ newline +:+ "}".
Proof.
  intros Hl. induction l as [|[k s] l IH]; [done|]. clear Hl.
  destruct l as [|m l]; [cbn; by rewrite !string_app_assoc|].
  rewrite map_cons. destruct m as [k' s']. rewrite map_cons, join_cons.
  change (written_members ((k, s) :: (k', s') :: l)) with
    (newline +:+ "  " +:+ quoted k +:+ ": " +:+ s +:+ "," +:+ written_members ((k', s') :: l)).
  rewrite IH by done. rewrite map_cons. cbn [fst snd]. by rewrite !string_app_assoc.
Qed.

(** Members after the last. *)
Lemma written_members_app l :
  l ≠ [] →
  ∃ body, written_members l = body +:+ newline +:+ "}"
          ∧ (∀ l', l' ≠ [] → written_members (l ++ l') = body +:+ "," +:+ written_members l')
          ∧ ∀ k s, last l = Some (k, s) → ∃ body', body = body' +:+ s.
Proof.
  intros Hl. induction l as [|[k0 s0] l IH]; [done|]. clear Hl. destruct l as [|[k1 s1] l].
  - exists (newline +:+ "  " +:+ quoted k0 +:+ ": " +:+ s0). split_and!.
    + cbn [written_members]. by rewrite !string_app_assoc.
    + intros [|[k' s'] l'] Hl'; [done|]. cbn [app].
      change (written_members ((k0, s0) :: (k', s') :: l')) with
        (newline +:+ "  " +:+ quoted k0 +:+ ": " +:+ s0 +:+ "," +:+ written_members ((k', s') :: l')).
      by rewrite !string_app_assoc.
    + intros k s [= <- <-].
      exists (newline +:+ "  " +:+ quoted k0 +:+ ": "). by rewrite !string_app_assoc.
  - destruct IH as (body & Hb & Happ & Hlast); [done|].
    assert (∀ l', written_members (((k0, s0) :: (k1, s1) :: l) ++ l')
      = newline +:+ "  " +:+ quoted k0 +:+ ": " +:+ s0 +:+ "," +:+ written_members (((k1, s1) :: l) ++ l'))
      as Hcons by done.
    exists (newline +:+ "  " +:+ quoted k0 +:+ ": " +:+ s0 +:+ "," +:+ body). split_and!.
    + rewrite <- (app_nil_r ((k0, s0) :: _)), Hcons, app_nil_r, Hb. by rewrite !string_app_assoc.
    + intros l' Hl'. rewrite Hcons, Happ by done. by rewrite !string_app_assoc.
    + intros k s Hk. destruct (Hlast k s) as [b' ->]; [exact Hk|].
      exists (newline +:+ "  " +:+ quoted k0 +:+ ": " +:+ s0 +:+ "," +:+ b').
      by rewrite !string_app_assoc.
Qed.

Lemma trim_end_matches_keep f s a :
  f a = false → trim_end_matches f (s +:+ char_string a) = s +:+ char_string a.
Proof.
  intros Ha. induction s as [|c s IH]; simpl; [by rewrite Ha|]. rewrite IH. by destruct s.
Qed.

Lemma trim_end_matches_drop f s a :
  f a = true → trim_end_matches f (s +:+ char_string a) = trim_end_matches f s.
Proof. intros Ha. induction s as [|c s IH]; simpl; [by rewrite Ha|]. by rewrite IH. Qed.

Lemma strip_suffix_app c s : strip_suffix c (s +:+ char_string c) = Some s.
Proof.
  induction s as [|a s IH]; simpl; [by rewrite bool_decide_eq_true_2|].
  destruct (s +:+ char_string c) as [|b r] eqn:E; [by destruct s|]. by rewrite IH.
Qed.

Section Pretty.
  Context {Ext : Externals} {Pretty : PrettyLaws}.

Lemma pretty_written (l : Ordered) :
  l ≠ [] → Forall (λ kv, plain_text kv.1) l →
  serde_json_to_string_pretty l
  = String "{" (written_members (map (λ kv, (kv.1, pretty_member kv.2)) l)).
Proof.
  intros Hl Hk. rewrite pretty_object by done. rewrite written_members_join.
  - by rewrite map_map.
  - by destruct l.
Qed.

  (** The members of an object with their names and texts as a grammar sees them. *)
Lemma pretty_trees (l : Ordered) :
  Forall (λ kv, plain_text kv.1) l →
  ∃ m, map (λ m : string * Tree * string, (m.1.1, m.2)) m = map (λ kv, (kv.1, pretty_member kv.2)) l
       ∧ map (λ m, m.1.1) m = l.*1
       ∧ Forall (λ m, string_body m.1.1 ∧ value_text m.1.2 m.2) m
       ∧ Forall (λ m, repeats m.1.2 = false) m.
Proof.
  induction 1 as [|[k v] l Hk Hl (m & Hm & Hn & Ht & Hr)]; [by exists []|].
  destruct (pretty_value v) as (t & Hv & Hrep). exists ((k, t, pretty_member v) :: m).
  simpl. rewrite Hm, Hn. split_and!; [done..| |]; constructor; auto using plain_text_body.
Qed.

Lemma repeats_nodup (m : list (string * Tree)) :
  NoDup m.*1 → Forall (λ kt, repeats kt.2 = false) m → repeats (Members m) = false.
Proof.
  intros Hnd Hr. simpl. rewrite bool_decide_eq_true_2 by done. simpl.
  induction Hr as [|[k t] m Ht Hm IH]; [done|]. simpl in *. rewrite Ht.
  apply NoDup_cons in Hnd as [_ Hnd]. by apply IH.
Qed.

Lemma pretty_distinct (l : Ordered) :
  l ≠ [] → NoDup l.*1 → Forall (λ kv, plain_text kv.1) l →
  has_duplicate_member_names (serde_json_to_string_pretty l) = false.
Proof.
  intros Hl Hnd Hk. rewrite pretty_written by done.
  destruct (pretty_trees l Hk) as (m & <- & Hn & Ht & Hr).
  erewrite has_duplicate_value by (by apply text_object, written_members_text).
  apply repeats_nodup.
  - rewrite <- list_fmap_compose. by rewrite <- Hn in Hnd.
  - by apply Forall_map.
Qed.

(** Text-level edits of a document. *)
Lemma lead_with_tenant_repeats (l : Ordered) :
  "tenant_id" ∈ l.*1 → Forall (λ kv, plain_text kv.1) l →
  ∃ t, lead_with_tenant (serde_json_to_string_pretty l) = Ok t
       ∧ has_duplicate_member_names t = true.
Proof.
  intros Hin Hk. assert (l ≠ []) as Hl by (intros ->; by apply elem_of_nil in Hin).
  rewrite pretty_written by done. destruct (pretty_trees l Hk) as (m & <- & Hn & Ht & Hr).
  unfold lead_with_tenant, after_first.
  assert (at_boundary (written_members (map (λ m, (m.1.1, m.2)) m)) = true) as ->
    by (by destruct m as [|[[k t] s] [|[[k' t'] s'] m]]).
  cbn [obind]. eexists. split; [reflexivity|].
  destruct m as [|m0 m']; [by destruct l|].
  pose proof (written_members_text _ Ht) as Htext. apply (members_text_ws " ") in Htext; [|done].
  assert (string_body "tenant_id" ∧ string_body "acme") as [Hb Ha] by (by split; apply plain_text_body).
  erewrite has_duplicate_value.
  2: { refine (eq_rect _ (value_text _) (text_object _ _ (members_cons "" "tenant_id" "" " " Leaf
         (quoted "acme") "" (m0.1) (map fst m') _ eq_refl Hb eq_refl eq_refl (text_string _ Ha) eq_refl
         Htext)) _ _). cbn. reflexivity. }
  simpl. rewrite bool_decide_eq_false_2; [done|].
  intros [Hnot _]%NoDup_cons. apply Hnot. rewrite <- Hn in Hin.
  change (m0.1.1 :: map fst (map fst m')) with (map fst (map fst (m0 :: m'))).
  by rewrite map_map.
Qed.

(** The two members the nested case appends, the second repeating a name inside. *)
Definition EXTENSION_TREES : list (string * Tree * string) :=
  [("x_ext", Members [("k", Leaf)], dq "{" +:+ newline +:+ dq "    'k': 1" +:+ newline +:+ "  }");
   ("x_ext2", Members [("k", Leaf); ("k", Leaf)], dq "{'k': 1, 'k': 2}")].

Lemma extension_trees_text :
  Forall (λ m, string_body m.1.1 ∧ value_text m.1.2 m.2) EXTENSION_TREES.
Proof.
  assert (string_body "k") as Hk by by apply plain_text_body.
  repeat (constructor; [split; [by apply plain_text_body|apply text_object]|]); [..|constructor].
  - exact (members_last (newline +:+ "    ") "k" "" " " Leaf "1" (newline +:+ "  ")
             eq_refl Hk eq_refl eq_refl (text_scalar "1" eq_refl) eq_refl).
  - exact (members_cons "" "k" "" " " Leaf "1" "" ("k", Leaf) [] _ eq_refl Hk eq_refl eq_refl
             (text_scalar "1" eq_refl) eq_refl
             (members_last " " "k" "" " " Leaf "2" "" eq_refl Hk eq_refl eq_refl
                (text_scalar "2" eq_refl) eq_refl)).
Qed.

Lemma nest_duplicate_repeats (l : Ordered) k s :
  last l = Some (k, JString s) → plain_text s → Forall (λ kv, plain_text kv.1) l →
  ∃ t, nest_duplicate (serde_json_to_string_pretty l) = Ok t
       ∧ has_duplicate_member_names t = true.
Proof.
  intros Hlast Hs Hk. assert (l ≠ []) as Hl by (by intros ->).
  rewrite pretty_written by done. destruct (pretty_trees l Hk) as (m & Hm & Hn & Ht & Hr).
  set (w := map _ l) in *. assert (w ≠ []) as Hw by (by destruct l).
  destruct (written_members_app w Hw) as (body & Hbody & Happ & Hb).
  destruct (Hb k (quoted s)) as [body' ->].
  { unfold w. rewrite fmap_last, Hlast. simpl. by rewrite pretty_string. }
  exists (String "{" (written_members (w ++ map (λ m, (m.1.1, m.2)) EXTENSION_TREES))). split.
  - rewrite Hbody, Happ by done. unfold nest_duplicate, trim_end, quoted.
    assert (∀ b, String "{" ((b +:+ String DQUOTE (s +:+ char_string DQUOTE)) +:+ newline +:+ "}")
      = (String "{" (b +:+ String DQUOTE (s +:+ char_string DQUOTE)) +:+ newline) +:+ char_string "}")
      as Hshape by (intros b; simpl; by rewrite !string_app_assoc).
    rewrite Hshape, trim_end_matches_keep, strip_suffix_app by done. cbn [unwrap obind].
    unfold newline at 1. rewrite trim_end_matches_drop by done.
    assert (∀ b, String "{" (b +:+ String DQUOTE (s +:+ char_string DQUOTE))
      = (String "{" (b +:+ String DQUOTE s)) +:+ char_string DQUOTE) as ->
      by (intros b; simpl; by rewrite string_app_assoc).
    rewrite trim_end_matches_keep by done. f_equal. do 2 (simpl; rewrite !string_app_assoc). reflexivity.
  - rewrite <- Hm, <- map_app.
    erewrite has_duplicate_value.
    2: { apply text_object, written_members_text, Forall_app. split; [done|apply extension_trees_text]. }
    simpl. rewrite map_app, existsb_app. simpl. by rewrite !orb_true_r.
Qed.

End Pretty.
