(* ===== verification/VerdictLiterals.v ===== *)
(** * What the literals of the verdict table denote

    The texts [VerdictEmitter]'s table spells out and what [serde_json], [uuid]
    and [chrono] read in them ([VerdictLaws]); the overrides evaluated by that
    table; and the reading of a document whose members keep their order. *)

From S2P Require Import Prelude Json Externals Concrete Identity Scope IssuerIdentity Document.
From S2P Require Import DupScan Revocation Attenuation Verify Attestation Wire Vectors Firewall.
From S2P Require Import EmitterTexts Emitters EmittersPass VerdictTexts VerdictEmitter PrettyText.

(** ** What the literals of the table denote *)

Definition string_fragment (s : string) : string * RawJson := (quoted s, RString s).
Definition raw_uint (n : Z) : RawJson := RNumber (PosInt n).
Definition raw_entry (kind : string) (value : RawJson) : RawJson :=
  RObject [("kind", RString kind); ("value", value)].
Definition raw_prefix (p : string) : RawJson := raw_entry "prefix" (RString p).
Definition prefix_fragment (p : string) : string * RawJson :=
  (dq "[{'kind': 'prefix', 'value': " +:+ quoted p +:+ "}]", RArray [raw_prefix p]).

Definition CASE_ID : string := "c0000000-0000-4000-8000-000000000001".
Definition LINEAGE : string := "8f89c127be8d6e98aa288873e5b6413b9b84e6b92b1a8b99a4627f91390f16af".
Definition KERNEL_THUMBPRINT : string :=
  "urn:ietf:params:oauth:jwk-thumbprint:sha-256:1IG2tMH7J2wbJZnOf8LJzQitKf7LMvoAElsuDMVM54Y".
Definition FOREIGN_THUMBPRINT : string :=
  "urn:ietf:params:oauth:jwk-thumbprint:sha-256:WeVHjIQTOLKu-P74oC-WL-MNn_sLM5CvrzuMjDFC3-s".
Definition PUBLIC_KEY : list Z :=
  [3; 161; 7; 191; 243; 206; 16; 190; 29; 112; 221; 24; 231; 75; 192; 153; 103; 228; 214; 48;
   155; 165; 13; 95; 29; 220; 134; 100; 18; 85; 49; 184]%Z.

Definition V3_RAW : RawJson := RObject
  [("sig_version", raw_uint 3); ("vaid_id", RString CASE_ID); ("agent_id", RString CASE_ID);
   ("agent_class", RString "verdict"); ("version", RString "1.0.0"); ("tenant_id", RString "acme");
   ("issued_at", RString "2020-01-01T00:00:00Z"); ("expires_at", RString "2999-01-01T00:00:00Z");
   ("public_key_der", RArray (map raw_uint PUBLIC_KEY));
   ("kernel_signature", RArray (map raw_uint
      [26; 148; 104; 49; 172; 135; 233; 237; 93; 130; 0; 250; 158; 68; 201; 40; 18; 41; 238; 242;
       164; 63; 179; 92; 24; 142; 34; 208; 44; 189; 33; 231; 149; 227; 150; 192; 207; 104; 57; 162;
       212; 126; 239; 197; 142; 197; 125; 10; 223; 13; 9; 66; 8; 95; 45; 152; 28; 98; 176; 169; 121;
       92; 30; 6]%Z));
   ("parent_vaid", RNull); ("scope_boundary", RArray [RString "data.acme"]);
   ("lineage_hash", RString LINEAGE); ("capability_set", RArray [RString "read"]);
   ("trust_domain", RString "vaid.example"); ("kernel_key_thumbprint", RString KERNEL_THUMBPRINT)].

(** Every text of a member the table spells out. *)
Definition FRAGMENTS : list (string * RawJson) :=
  map string_fragment
    [CASE_ID; "verdict"; "1.0.0"; "acme"; "2020-01-01T00:00:00Z"; "2999-01-01T00:00:00Z"; LINEAGE;
     "vaid.example"; KERNEL_THUMBPRINT; FOREIGN_THUMBPRINT;
     "0000000000000000000000000000000000000000000000000000000000000000"; "not a domain"; "data.acme";
     "C0000000-0000-4000-8000-000000000001"; "{c0000000-0000-4000-8000-000000000001}";
     "urn:uuid:c0000000-0000-4000-8000-000000000001"; "c0000000000040008000000000000001";
     "2999-01-01T00:00:00+00:00"; "2999-01-01T00:00:00.000Z"; "not-a-timestamp"]
  ++ map prefix_fragment ["data.acme"; "data.acme.reports"; "data.other"; "data.acme-secret"]
  ++ [("4", raw_uint 4); ("2", raw_uint 2); ("null", RNull); ("[]", RArray []);
      (dq "['read']", RArray [RString "read"]); (dq "['read', 'write']", RArray [RString "read"; RString "write"]);
      (dq "[{'kind': 'amount', 'value': 100}]", RArray [raw_entry "amount" (raw_uint 100)]);
      (dq "[{'kind': 'prefix', 'value': 'data.acme'}, {'kind': 'prefix', 'value': 'data.everything'}]",
       RArray [raw_prefix "data.acme"; raw_prefix "data.everything"]);
      ("[3, 161, 7, 191, 243, 206, 16, 190, 29, 112, 221, 24, 231, 75, 192, 153, 103, 228, 214, 48, 155, 165, 13, 95, 29, 220, 134, 100, 18, 85, 49, 184]",
       RArray (map raw_uint PUBLIC_KEY))].

(** A document text cut after its sixth member. *)
Definition TRUNCATED_TEXT : string := join newline
  ["{"; dq "  'sig_version': 4,"; dq "  'vaid_id': 'c0000000-0000-4000-8000-000000000001',";
   dq "  'agent_id': 'c0000000-0000-4000-8000-000000000001',"; dq "  'agent_class': 'verdict',";
   dq "  'version': '1.0.0',"; dq "  'tenant_id': 'acme'"].

Definition NOT_JSON_TEXTS : list string := ["this is not a VAID"; ""; TRUNCATED_TEXT].

Definition CASE_UUID : Uuid := 0xc0000000000040008000000000000001%N.

(** The spellings of one identifier the table uses. *)
Definition SPELLINGS : list string :=
  [CASE_ID; "C0000000-0000-4000-8000-000000000001"; "{c0000000-0000-4000-8000-000000000001}";
   "urn:uuid:c0000000-0000-4000-8000-000000000001"; "c0000000000040008000000000000001"].

(** Expiries, in seconds since the epoch. *)
Definition LIVE_SECOND : Z := 32472144000.
Definition LAPSED_SECOND : Z := 1577836800.
Definition LIVE_TEXTS : list string :=
  ["2999-01-01T00:00:00Z"; "2999-01-01T00:00:00+00:00"; "2999-01-01T00:00:00.000Z"].
Definition LAPSED_TEXT : string := "2020-01-01T00:00:00Z".
Definition UNREADABLE_TEXT : string := "not-a-timestamp".

(** RFC 8259, RFC 9562 and RFC 3339 of these texts. *)
Class VerdictLaws {Ext : Externals} : Prop := {
  verdict_fragments : Forall (λ '(s, r), json_parse s = Some r) FRAGMENTS;
  verdict_v3 : json_parse V3_TEXT = Some V3_RAW;
  verdict_not_json : Forall (λ s, json_parse s = None) NOT_JSON_TEXTS;
  verdict_spellings : Forall (λ s, uuid_parse_str s = Some CASE_UUID) SPELLINGS;
  verdict_live : Forall (λ s, dt_parse_from_rfc3339 s = Some (LIVE_SECOND * NANOS)%Z) LIVE_TEXTS;
  verdict_lapsed : dt_parse_from_rfc3339 LAPSED_TEXT = Some (LAPSED_SECOND * NANOS)%Z;
  verdict_unreadable : dt_parse_from_rfc3339 UNREADABLE_TEXT = None;
}.

(** ** Overrides by the table of literals *)

Definition literal_value (text : string) : option Json := value_of_raw <$> find_check text FRAGMENTS.

Definition literal_override (doc : Ordered) (override : string * option string) : option Ordered :=
  match override.2 with
  | Some text => v ← literal_value text; Some (ordered_set override.1 v doc)
  | None => Some (ordered_remove override.1 doc)
  end.

Fixpoint literal_apply (doc : Ordered) (overrides : Overrides) : option Ordered :=
  match overrides with
  | [] => Some doc
  | o :: rest => doc' ← literal_override doc o; literal_apply doc' rest
  end.

Fixpoint literal_members (fields : list (string * string)) : option Ordered :=
  match fields with
  | [] => Some []
  | (k, text) :: rest => v ← literal_value text; l ← literal_members rest; Some ((k, v) :: l)
  end.

Definition base_members : Ordered := Eval vm_compute in default [] (literal_members BASE_FIELDS).

Section VerdictLiterals.
  Context {Ext : Externals} `{!VerdictLaws}.

Lemma literal_value_ok text v : literal_value text = Some v → value_from_str text = Ok v.
Proof.
  intros (r & Hr%find_check_elem & ->)%fmap_Some. unfold value_from_str.
  by rewrite (proj1 (Forall_forall _ _) verdict_fragments (text, r) Hr).
Qed.

Lemma literal_apply_ok doc overrides doc' :
  literal_apply doc overrides = Some doc' → ordered_apply doc overrides = Ok doc'.
Proof.
  unfold ordered_apply. revert doc. induction overrides as [|[k o] rest IH]; intros doc; simpl;
    [by intros [= ->]|].
  intros (d & Hd & Hrest)%bind_Some. unfold literal_override in Hd. simpl in Hd. destruct o as [text|].
  - apply bind_Some in Hd as (v & Hv%literal_value_ok & [= <-]). rewrite Hv. cbn [obind]. by apply IH.
  - injection Hd as <-. cbn [obind]. by apply IH.
Qed.

Lemma literal_members_ok fields acc l :
  literal_members fields = Some l →
  ofold (λ doc field, let? v := value_from_str field.2 in Ok (doc ++ [(field.1, v)])) fields acc
  = Ok (E := Empty_set) (acc ++ l).
Proof.
  revert acc l. induction fields as [|[k text] rest IH]; intros acc l; simpl.
  - intros [= <-]. by rewrite app_nil_r.
  - intros (v & Hv%literal_value_ok & (l' & Hl' & [= <-])%bind_Some)%bind_Some.
    rewrite Hv. cbn [obind]. rewrite (IH _ _ Hl'). by rewrite <- app_assoc.
Qed.

Lemma ordered_base_ok : ordered_base = Ok base_members.
Proof. unfold ordered_base. by apply (literal_members_ok _ []). Qed.

  (** ** Reading an ordered document *)

Lemma member_presented k (l : Ordered) :
  NoDup l.*1 →
  member k (map (λ kv, (kv.1, sorted_raw kv.2)) l)
  = match (list_to_map l : gmap string Json) !! k with Some v => [sorted_raw v] | None => [] end.
Proof.
  induction l as [|[k' v] l IH]; [done|]. simpl. intros [Hk Hnd]%NoDup_cons.
  rewrite IH by done. case_bool_decide as He.
  - subst. rewrite lookup_insert_eq. by rewrite not_elem_of_list_to_map_1.
  - by rewrite lookup_insert_ne.
Qed.

Lemma vaid_deserialize_members l l' :
  (∀ k, member k l = member k l') → vaid_deserialize (RObject l) = vaid_deserialize (RObject l').
Proof.
  intros Hm. unfold vaid_deserialize, de_required, de_default.
  rewrite !(λ A k f, @de_member_ext A k f l l' (Hm k)).
  assert (raw_members (unknown_members l) = raw_members (unknown_members l')) as ->; [|done].
  apply map_eq. intros k. rewrite !unknown_members_lookup. case_decide; [done|].
  by rewrite !raw_members_lookup, Hm.
Qed.

Lemma presented_reads (l : Ordered) d :
  NoDup l.*1 → Forall (λ kv, sorted_raw kv.2 = raw_of_value kv.2) l →
  JObject (list_to_map l) = vaid_to_value d → vaid_wf d → Forall entry_wf (vd_scope_boundary d) →
  vaid_deserialize (presented l) = Some d.
Proof.
  intros Hnd Hraw Heq Hwf Hs. rewrite <- (vaid_raw d Hwf Hs), <- Heq, raw_of_value_object.
  apply vaid_deserialize_members. intros k. rewrite member_presented, member_raw_object by done.
  destruct (_ !! k) as [v|] eqn:Hv; [|done]. f_equal.
  apply elem_of_list_to_map_2 in Hv. rewrite Forall_forall in Hraw. by apply (Hraw (k, v)).
Qed.

  (** An absent version is read as version 0. *)
Lemma version_absent l :
  member "sig_version" l = [] →
  vaid_deserialize (RObject l) = vaid_deserialize (RObject (("sig_version", raw_uint 0) :: l)).
Proof.
  intros Hv. unfold vaid_deserialize, de_required, de_default.
  assert (unknown_members (("sig_version", raw_uint 0) :: l) = unknown_members l) as ->.
  { unfold unknown_members. rewrite filter_cons, decide_False; [done|]. simpl.
    intros Hn. apply Hn. unfold KNOWN_FIELDS. by left. }
  assert (∀ A k (f : RawJson → option A), k ≠ "sig_version" →
    de_member k f (("sig_version", raw_uint 0) :: l) = de_member k f l) as Hk
    by (intros A k f Hne; apply de_member_ext; by rewrite member_other).
  assert (de_member "sig_version" de_u8 (("sig_version", raw_uint 0) :: l) = Some (Some 0%Z)) as ->
    by (unfold de_member; simpl; by rewrite Hv).
  assert (de_member "sig_version" de_u8 l = Some None) as -> by (unfold de_member; by rewrite Hv).
  by rewrite !Hk by done.
Qed.

Ltac next_member := match goal with |- (_ ← ?o; _) = None => destruct o; [|done]; cbn [mbind option_bind] end.

Lemma tenant_absent l : member "tenant_id" l = [] → vaid_deserialize (RObject l) = None.
Proof.
  intros Ht. unfold vaid_deserialize. do 5 next_member.
  assert (de_required "tenant_id" de_string l = None) as ->; [|done].
  unfold de_required, de_member. by rewrite Ht.
Qed.

Lemma scope_unreadable l v :
  member "scope_boundary" l = [v] → de_vec entry_deserialize v = None →
  vaid_deserialize (RObject l) = None.
Proof.
  intros Hm Hv. unfold vaid_deserialize. do 11 next_member.
  assert (de_required "scope_boundary" (de_vec entry_deserialize) l = None) as ->; [|done].
  unfold de_required, de_member. by rewrite Hm, Hv.
Qed.

  (** ** Documents the overrides of the table make *)

Context {Pretty : PrettyLaws}.

(** A document whose text is read back, and whose values present themselves the
    same way in either order. *)
Record readable (l : Ordered) : Prop := {
  rd_names : NoDup l.*1;
  rd_values : Forall (λ kv, plain_text kv.1 ∧ member_value kv.2) l;
  rd_raw : Forall (λ kv, sorted_raw kv.2 = raw_of_value kv.2) l;
  rd_some : "agent_class" ∈ l.*1;
}.

Lemma readable_cons l : readable l → l ≠ [].
Proof. intros [_ _ _ Hin] ->. by apply elem_of_nil in Hin. Qed.

Lemma readable_names l : readable l → Forall (λ kv, plain_text kv.1) l.
Proof. intros [_ Hv _ _]. eapply Forall_impl; [exact Hv|]. by intros kv [? _]. Qed.

Lemma readable_read l :
  readable l →
  has_duplicate_member_names (ordered_text l) = false
  ∧ vaid_from_str (ordered_text l) = vaid_deserialize (presented l).
Proof.
  intros Hl. split; [apply pretty_distinct; [by apply readable_cons|apply Hl|by apply readable_names]|].
  unfold vaid_from_str, ordered_text. by rewrite pretty_parse by apply Hl.
Qed.

Lemma ser_bytes_value sig : member_value (ser_bytes sig).
Proof.
  simpl. apply Forall_map, Forall_forall. intros b _. simpl. pose proof (byte_Z_bounds b). lia.
Qed.

Lemma ser_bytes_sorted sig : sorted_raw (ser_bytes sig) = raw_of_value (ser_bytes sig).
Proof. simpl. f_equal. by rewrite !map_map. Qed.

Lemma ordered_set_names key v (doc : Ordered) k :
  k ∈ (ordered_set key v doc).*1 ↔ k = key ∨ k ∈ doc.*1.
Proof.
  induction doc as [|[k' v'] doc IH]; simpl; [set_solver|].
  case_bool_decide as Hk; subst; simpl; [set_solver|]. rewrite !elem_of_cons, IH. naive_solver.
Qed.

Lemma ordered_set_nodup key v (doc : Ordered) : NoDup doc.*1 → NoDup (ordered_set key v doc).*1.
Proof.
  induction doc as [|[k' v'] doc IH]; simpl; [intros _; apply NoDup_singleton|].
  intros [Hk' Hnd]%NoDup_cons. case_bool_decide as Hk; simpl; apply NoDup_cons; [done|].
  rewrite ordered_set_names. split; [naive_solver|by apply IH].
Qed.

Lemma ordered_set_forall (P : string * Json → Prop) key v (doc : Ordered) :
  P (key, v) → Forall P doc → Forall P (ordered_set key v doc).
Proof.
  intros Hv. induction 1 as [|[k' v'] doc Hk' Hdoc IH]; simpl; [by constructor|].
  case_bool_decide; subst; by constructor.
Qed.

Lemma ordered_remove_forall (P : string * Json → Prop) key (doc : Ordered) :
  Forall P doc → Forall P (ordered_remove key doc).
Proof.
  rewrite !Forall_forall. intros Hdoc kv [_ Hkv]%list_elem_of_filter. by apply Hdoc.
Qed.

Lemma readable_set key v doc :
  plain_text key → member_value v → sorted_raw v = raw_of_value v → readable doc →
  readable (ordered_set key v doc).
Proof.
  intros Hk Hv Hr [Hnd Hvals Hraw Hin]. split.
  - by apply ordered_set_nodup.
  - by apply ordered_set_forall.
  - by apply ordered_set_forall.
  - apply ordered_set_names. by right.
Qed.

Lemma readable_remove key doc :
  key ≠ "agent_class" → readable doc → readable (ordered_remove key doc).
Proof.
  intros Hne [Hnd Hvals Hraw Hin]. split.
  - eapply sublist_NoDup; [exact Hnd|]. apply fmap_sublist, sublist_filter.
  - by apply ordered_remove_forall.
  - by apply ordered_remove_forall.
  - apply list_elem_of_fmap in Hin as ([k v] & Hk & Hkv). apply list_elem_of_fmap. exists (k, v).
    split; [done|]. apply list_elem_of_filter. simpl in *. by subst.
Qed.

(** An override of the table: a name written as it is, a text of the table. *)
Definition override_ok (o : string * option string) : Prop :=
  plain_text o.1 ∧ o.1 ≠ "agent_class"
  ∧ match o.2 with Some text => is_Some (find_check text FRAGMENTS) | None => True end.

#[global] Instance override_ok_dec o : Decision (override_ok o).
Proof. unfold override_ok, plain_text. destruct o.2; apply _. Defined.

Lemma fragments_readable :
  Forall (λ p, member_value (value_of_raw p.2)
               ∧ sorted_raw (value_of_raw p.2) = raw_of_value (value_of_raw p.2)) FRAGMENTS.
Proof. decided. Qed.

Lemma literal_apply_readable overrides doc :
  Forall override_ok overrides → readable doc →
  ∃ doc', literal_apply doc overrides = Some doc' ∧ readable doc'.
Proof.
  intros Ho. revert doc. induction Ho as [|[k o] rest (Hk & Hne & Htext) Hrest IH]; intros doc Hd.
  { by exists doc. }
  assert (∃ doc1, literal_override doc (k, o) = Some doc1 ∧ readable doc1) as (doc1 & Hd1 & Hr1).
  { unfold literal_override. cbn [fst snd] in *. destruct o as [text|].
    - destruct Htext as [r Hr]. unfold literal_value. rewrite Hr. eexists. split; [reflexivity|].
      apply find_check_elem, (proj1 (Forall_forall _ _) fragments_readable) in Hr as [Hv Hs].
      by apply readable_set.
    - eexists. split; [reflexivity|]. by apply readable_remove. }
  destruct (IH doc1 Hr1) as (doc' & Hd' & Hr'). exists doc'. split; [|done].
  simpl. rewrite Hd1. exact Hd'.
Qed.

Lemma base_readable : readable base_members.
Proof. split; decided. Qed.

(** The members that are signed, and those that carry the signature. *)
Definition pre_doc (case : StandingCase) : Ordered :=
  default [] (literal_apply base_members (sc_pre_sign case)).
Definition post_doc (case : StandingCase) (sig : list byte) : Ordered :=
  default [] (literal_apply (ordered_set "kernel_signature" (ser_bytes sig) (pre_doc case))
                (sc_post_sign case)).

Lemma pre_doc_ok case :
  Forall override_ok (sc_pre_sign case) →
  literal_apply base_members (sc_pre_sign case) = Some (pre_doc case) ∧ readable (pre_doc case).
Proof.
  intros Hpre. unfold pre_doc.
  destruct (literal_apply_readable _ _ Hpre base_readable) as (d & -> & Hd). done.
Qed.

Lemma post_doc_ok case sig :
  Forall override_ok (sc_pre_sign case) → Forall override_ok (sc_post_sign case) →
  literal_apply (ordered_set "kernel_signature" (ser_bytes sig) (pre_doc case)) (sc_post_sign case)
  = Some (post_doc case sig) ∧ readable (post_doc case sig).
Proof.
  intros [_ Hr]%pre_doc_ok Hpost.
  apply (readable_set "kernel_signature" (ser_bytes sig)) in Hr;
    [|done|apply ser_bytes_value|apply ser_bytes_sorted].
  destruct (literal_apply_readable _ _ Hpost Hr) as (d & Hd & Hrd).
  unfold post_doc. by rewrite Hd.
Qed.

End VerdictLiterals.
