(* ===== verification/VerdictCases.v ===== *)
(** * Every standing case of the verdict table, answered

    The documents [VerdictEmitter]'s table makes as records ([Fields]), what
    separates an authentic signature from a forged one ([VerdictCrypto]), the
    verdict on such a document, and the proof, row by row, that the text the
    generator makes gets the verdict written beside it. *)

From S2P Require Import Prelude Json Externals Concrete Identity Scope IssuerIdentity Document.
From S2P Require Import DupScan Revocation Attenuation Verify Attestation Wire Vectors Firewall.
From S2P Require Import EmitterTexts Emitters EmittersPass VerdictTexts VerdictEmitter PrettyText.
From S2P Require Import VerdictLiterals.

Section VerdictCases.
  Context {Ext : Externals} `{!VerdictLaws} `{!CryptoLaws} {Pretty : PrettyLaws}.

  (** ** The documents of the table *)

Definition public_key_bytes : list byte := Eval vm_compute in omap byte_of_Z PUBLIC_KEY.

(** What the table varies of the base document. *)
Record Fields : Type := mkFields {
  f_version : Z;
  f_id : string;
  f_expires : string;
  f_parent : bool;
  f_scope : list ScopeBoundaryEntry;
  f_lineage : string;
  f_caps : list string;
  f_domain : string;
  f_thumbprint : string;
}.

Definition fields_vaid (f : Fields) (sig : list byte) : Vaid := {|
  vd_sig_version := f_version f;
  vd_vaid_id := mkPresentedUuid (f_id f) CASE_UUID;
  vd_agent_id := mkPresentedUuid CASE_ID CASE_UUID;
  vd_agent_class := mkAgentClass "verdict";
  vd_version := "1.0.0";
  vd_tenant_id := mkTenantId "acme";
  vd_issued_at := "2020-01-01T00:00:00Z";
  vd_expires_at := f_expires f;
  vd_public_key_der := public_key_bytes;
  vd_kernel_signature := sig;
  vd_parent_vaid := if f_parent f then Some None else None;
  vd_scope_boundary := f_scope f;
  vd_lineage_hash := f_lineage f;
  vd_capability_set := f_caps f;
  vd_trust_domain := f_domain f;
  vd_kernel_key_thumbprint := f_thumbprint f;
  vd_unknown_fields := ∅;
|}.

Definition base_fields : Fields :=
  mkFields 4 CASE_ID "2999-01-01T00:00:00Z" true [entry_prefix "data.acme"] LINEAGE ["read"]
    "vaid.example" KERNEL_THUMBPRINT.
Definition with_version (n : Z) (f : Fields) : Fields :=
  mkFields n (f_id f) (f_expires f) (f_parent f) (f_scope f) (f_lineage f) (f_caps f) (f_domain f)
    (f_thumbprint f).
Definition with_id (s : string) (f : Fields) : Fields :=
  mkFields (f_version f) s (f_expires f) (f_parent f) (f_scope f) (f_lineage f) (f_caps f) (f_domain f)
    (f_thumbprint f).
Definition with_expires (s : string) (f : Fields) : Fields :=
  mkFields (f_version f) (f_id f) s (f_parent f) (f_scope f) (f_lineage f) (f_caps f) (f_domain f)
    (f_thumbprint f).
Definition without_parent (f : Fields) : Fields :=
  mkFields (f_version f) (f_id f) (f_expires f) false (f_scope f) (f_lineage f) (f_caps f) (f_domain f)
    (f_thumbprint f).
Definition with_scope (b : list ScopeBoundaryEntry) (f : Fields) : Fields :=
  mkFields (f_version f) (f_id f) (f_expires f) (f_parent f) b (f_lineage f) (f_caps f) (f_domain f)
    (f_thumbprint f).
Definition with_lineage_hash (s : string) (f : Fields) : Fields :=
  mkFields (f_version f) (f_id f) (f_expires f) (f_parent f) (f_scope f) s (f_caps f) (f_domain f)
    (f_thumbprint f).
Definition with_caps (l : list string) (f : Fields) : Fields :=
  mkFields (f_version f) (f_id f) (f_expires f) (f_parent f) (f_scope f) (f_lineage f) l (f_domain f)
    (f_thumbprint f).
Definition with_domain (s : string) (f : Fields) : Fields :=
  mkFields (f_version f) (f_id f) (f_expires f) (f_parent f) (f_scope f) (f_lineage f) (f_caps f) s
    (f_thumbprint f).
Definition with_thumbprint (s : string) (f : Fields) : Fields :=
  mkFields (f_version f) (f_id f) (f_expires f) (f_parent f) (f_scope f) (f_lineage f) (f_caps f)
    (f_domain f) s.

  (** The documents changed after they were signed, with what was signed. *)
Definition TAMPERED_PAIRS : list (Fields * Fields) :=
  let lapsed := with_expires LAPSED_TEXT base_fields in
  [(with_scope [entry_prefix "data.acme"; entry_prefix "data.everything"] base_fields, base_fields);
   (with_caps ["read"; "write"] lapsed, lapsed);
   (with_id "C0000000-0000-4000-8000-000000000001" base_fields, base_fields);
   (with_id "{c0000000-0000-4000-8000-000000000001}" base_fields, base_fields);
   (with_id "urn:uuid:c0000000-0000-4000-8000-000000000001" base_fields, base_fields);
   (with_id "c0000000000040008000000000000001" base_fields, base_fields);
   (without_parent base_fields, base_fields)].

  (** What each document's digest is signed by. *)
Definition fields_digest (f : Fields) : list byte := canonical_vaid_signing_bytes (fields_vaid f []).

(** The two keys are the ones the table commits to, the lineage hash is the one it
    spells out, and neither a stranger's signature nor a corrupted one nor one
    over other bytes verifies. *)
Record VerdictCrypto (kernel foreign : KeyPair) : Prop := {
  vc_kernel : kernel_key_thumbprint (kp_public_key kernel) = KERNEL_THUMBPRINT;
  vc_foreign : kernel_key_thumbprint (kp_public_key foreign) = FOREIGN_THUMBPRINT;
  vc_lineage : compute_lineage_hash None (AgentId_from_uuid CASE_UUID) = LINEAGE;
  vc_stranger : ed25519_verify (kp_public_key kernel) (fields_digest base_fields)
                  (kp_sign foreign (fields_digest base_fields)) = false;
  vc_corrupted : ed25519_verify (kp_public_key kernel) (fields_digest base_fields)
                   (flip_first (kp_sign kernel (fields_digest base_fields))) = false;
  vc_binds : binds_message;
  vc_separates : Forall (λ '(f, g), no_collision (fields_vaid f []) (fields_vaid g [])) TAMPERED_PAIRS;
}.

Lemma fields_vaid_signature f sig : fields_vaid f sig = with_kernel_signature (fields_vaid f []) sig.
Proof. reflexivity. Qed.

Lemma fields_wf f sig :
  f_id f ∈ SPELLINGS → (0 ≤ f_version f ≤ 255)%Z → vaid_wf (fields_vaid f sig).
Proof.
  intros Hid Hv. pose proof (proj1 (Forall_forall _ _) verdict_spellings) as Hs. split; unfold pu_wf.
  - exact (Hs _ Hid).
  - apply (Hs CASE_ID). by left.
  - intros u. cbn. by destruct (f_parent f).
  - intros k _. apply lookup_empty.
  - exact Hv.
Qed.

Lemma fields_canonical f sig :
  f_id f ∈ SPELLINGS → (0 ≤ f_version f ≤ 255)%Z →
  canonical_vaid_signing_bytes (fields_vaid f sig) = fields_digest f.
Proof. intros Hid Hv. rewrite fields_vaid_signature. by apply canonical_with_signature, fields_wf. Qed.

  (** The verdict on such a document: [sig_ok] is the answer of its signature. *)
Definition fields_verdict (f : Fields) (sig_ok : bool) (rev : RevocationStatus) : VaidVerdict :=
  if bool_decide (f_version f ≠ VAID_SIG_VERSION_V4) then VaidVerdict.UnsupportedSigVersion
  else if negb (is_valid_trust_domain (f_domain f)) then VaidVerdict.MalformedTrustDomain
  else if bool_decide (f_thumbprint f ≠ KERNEL_THUMBPRINT) then VaidVerdict.IssuerMismatch
  else if bool_decide (LINEAGE ≠ f_lineage f) then VaidVerdict.LineageInconsistent
  else if negb sig_ok then VaidVerdict.Inauthentic
  else if negb (bool_decide (f_expires f ∈ LIVE_TEXTS)) then VaidVerdict.Expired
  else if negb (boundary_is_evaluable (f_scope f)) then VaidVerdict.UnknownScopeKind
  else match rev with
       | NotRevoked => VaidVerdict.Valid
       | Revoked => VaidVerdict.Revoked
       | Unavailable => VaidVerdict.Indeterminate
       end.

  (** Instants at which the live documents live and the lapsed one has lapsed. *)
Definition table_instant (now : Instant) : Prop :=
  (LAPSED_SECOND * NANOS < now ≤ LIVE_SECOND * NANOS)%Z.

Definition KNOWN_EXPIRIES : list string := LIVE_TEXTS ++ [LAPSED_TEXT; UNREADABLE_TEXT].

Lemma fields_expired f sig now :
  table_instant now → f_expires f ∈ KNOWN_EXPIRIES →
  is_expired_at (fields_vaid f sig) now = negb (bool_decide (f_expires f ∈ LIVE_TEXTS)).
Proof.
  intros [Hlo Hhi] Hin. unfold is_expired_at, expires_at, parse_rfc3339.
  change (vd_expires_at (fields_vaid f sig)) with (f_expires f).
  apply elem_of_app in Hin as [Hin|Hin].
  - rewrite (bool_decide_eq_true_2 _ Hin). rewrite (proj1 (Forall_forall _ _) verdict_live _ Hin).
    apply bool_decide_eq_false_2. lia.
  - rewrite bool_decide_eq_false_2 by (intros Hl; revert Hin; revert Hl; generalize (f_expires f);
      intros e Hl Hin; unfold LIVE_TEXTS, LAPSED_TEXT, UNREADABLE_TEXT in *; set_solver).
    apply elem_of_cons in Hin as [-> |Hin%list_elem_of_singleton]; [|rewrite Hin].
    + rewrite verdict_lapsed. apply bool_decide_eq_true_2. lia.
    + by rewrite verdict_unreadable.
Qed.

Section Keys.
  Context (kernel foreign : KeyPair) (Hcrypto : VerdictCrypto kernel foreign).

Lemma fields_standing f sig sig_ok now rev :
  table_instant now → f_expires f ∈ KNOWN_EXPIRIES →
  ed25519_verify (kp_public_key kernel) (canonical_vaid_signing_bytes (fields_vaid f sig)) sig = sig_ok →
  verify_vaid_standing now (kp_public_key kernel) (fields_vaid f sig) rev = fields_verdict f sig_ok rev.
Proof.
  intros Hnow Hexp Hsig. unfold verify_vaid_standing, verify_vaid_authenticity_graded, fields_verdict.
  change (sig_version (fields_vaid f sig)) with (f_version f).
  case_bool_decide; [done|]. change (vd_trust_domain (fields_vaid f sig)) with (f_domain f).
  destruct (negb (is_valid_trust_domain _)); [done|].
  change (vd_kernel_key_thumbprint (fields_vaid f sig)) with (f_thumbprint f).
  rewrite (vc_kernel _ _ Hcrypto). case_bool_decide; [done|].
  assert (verify_lineage_hash (fields_vaid f sig) = bool_decide (LINEAGE = f_lineage f)) as ->.
  { unfold verify_lineage_hash. rewrite <- (vc_lineage _ _ Hcrypto).
    unfold parent_vaid. cbn [vd_parent_vaid fields_vaid]. by destruct (f_parent f). }
  rewrite bool_decide_not. destruct (negb (bool_decide _)); [done|].
  change (vd_kernel_signature (fields_vaid f sig)) with sig. rewrite Hsig.
  destruct sig_ok; [|done]. cbn [negb VaidVerdict.is_valid].
  rewrite fields_expired by done. destruct (negb (bool_decide _)); [done|]. reflexivity.
Qed.

  (** ** One case *)

Definition fields_ok (f : Fields) : Prop :=
  f_id f ∈ SPELLINGS ∧ (0 ≤ f_version f ≤ 255)%Z ∧ f_expires f ∈ KNOWN_EXPIRIES.

Definition case_signature (case : StandingCase) (f : Fields) : list byte :=
  let signature := kp_sign (signer_key kernel foreign (sc_signer case)) (fields_digest f) in
  if sc_tamper_signature case then flip_first signature else signature.

Definition is_literal (shape : TextShape) : bool :=
  match shape with Literal _ => true | _ => false end.

(** A case whose members are signed as [f]. *)
Record case_steps (case : StandingCase) (f : Fields) : Prop := {
  cs_shape : is_literal (sc_text case) = false;
  cs_pre : Forall override_ok (sc_pre_sign case);
  cs_post : Forall override_ok (sc_post_sign case);
  cs_reads : readable (pre_doc case) → vaid_deserialize (presented (pre_doc case)) = Some (fields_vaid f []);
}.

Lemma case_readable case f sig : case_steps case f → readable (post_doc case sig).
Proof. intros [_ Hpre Hpost _]. by apply post_doc_ok. Qed.

(** The signature a row's members get. *)
Definition row_signature (case : StandingCase) : list byte :=
  let signature := sign (signer_key kernel foreign (sc_signer case)) (pre_doc case) in
  if sc_tamper_signature case then flip_first signature else signature.

Lemma row_text case :
  is_literal (sc_text case) = false → Forall override_ok (sc_pre_sign case) →
  Forall override_ok (sc_post_sign case) →
  document_json kernel foreign case
  = reshape (sc_text case) (ordered_text (post_doc case (row_signature case))).
Proof.
  intros Hshape Hpre Hpost. destruct (post_doc_ok _ (row_signature case) Hpre Hpost) as [Hpost' _].
  destruct (pre_doc_ok _ Hpre) as [Hpre' _]. unfold document_json.
  rewrite ordered_base_ok. cbn [obind]. rewrite (literal_apply_ok _ _ _ Hpre'). cbn [obind].
  fold (row_signature case). rewrite (literal_apply_ok _ _ _ Hpost'). cbn [obind].
  by destruct (sc_text case).
Qed.

Lemma case_text case f :
  case_steps case f →
  document_json kernel foreign case
  = reshape (sc_text case) (ordered_text (post_doc case (case_signature case f))).
Proof.
  intros [Hshape Hpre Hpost Hd]. rewrite row_text by done. destruct (pre_doc_ok _ Hpre) as [_ Hr].
  unfold row_signature, case_signature, sign. by rewrite (proj2 (readable_read _ Hr)), (Hd Hr).
Qed.

(** The case is answered as the table says, whenever it is asked. *)
Definition case_answered (case : StandingCase) : Prop :=
  ∃ text rev,
  document_json kernel foreign case = Ok text
  ∧ revocation_of (standing_json case text) = Some rev
  ∧ ∀ now, table_instant now →
    let verdict := verify_vaid_standing_from_json now (kp_public_key kernel) text rev in
    VaidVerdict.code verdict = sc_expected_reason case
    ∧ VaidVerdict.is_valid verdict = sc_expected_valid case.

(** The verdict of a row, by name of its revocation status. *)
Definition row_verdict (case : StandingCase) (verdict : RevocationStatus → VaidVerdict) : Prop :=
  ∃ rev, (∀ text, revocation_of (standing_json case text) = Some rev)
  ∧ VaidVerdict.code (verdict rev) = sc_expected_reason case
  ∧ VaidVerdict.is_valid (verdict rev) = sc_expected_valid case.

Lemma document_case case f1 f2 sig_ok :
  case_steps case f1 → sc_text case = Document →
  (∀ sig, readable (post_doc case sig) →
     vaid_deserialize (presented (post_doc case sig)) = Some (fields_vaid f2 sig)) → fields_ok f2 →
  ed25519_verify (kp_public_key kernel) (fields_digest f2) (case_signature case f1) = sig_ok →
  row_verdict case (fields_verdict f2 sig_ok) → case_answered case.
Proof.
  intros Hsteps Hshape Hread (Hid & Hv & Hexp) Hsig (rev & Hrev & Hcode & Hvalid).
  exists (ordered_text (post_doc case (case_signature case f1))), rev.
  rewrite (case_text _ _ Hsteps), Hshape. split_and!; [done|apply Hrev|].
  intros now Hnow. cbv zeta.
  destruct (readable_read _ (case_readable _ _ (case_signature case f1) Hsteps)) as [Hdup Hparse].
  unfold verify_vaid_standing_from_json. rewrite Hdup, Hparse, Hread by by eapply case_readable.
  rewrite (fields_standing f2 _ sig_ok) by (done || by rewrite fields_canonical). done.
Qed.

Lemma unparseable_answered case text :
  document_json kernel foreign case = Ok text →
  has_duplicate_member_names text = true ∨ vaid_from_str text = None →
  row_verdict case (λ _, VaidVerdict.Unparseable) → case_answered case.
Proof.
  intros Ht Hbad (rev & Hrev & Hcode & Hvalid). exists text, rev. split_and!; [done|apply Hrev|].
  intros now _. cbv zeta. unfold verify_vaid_standing_from_json.
  destruct Hbad as [-> | ->]; [done|]. by destruct (has_duplicate_member_names text).
Qed.

Lemma unreadable_case case f :
  case_steps case f → sc_text case = Document →
  (∀ sig, readable (post_doc case sig) → vaid_deserialize (presented (post_doc case sig)) = None) →
  row_verdict case (λ _, VaidVerdict.Unparseable) → case_answered case.
Proof.
  intros Hsteps Hshape Hread Hrow. eapply unparseable_answered; [|right|exact Hrow].
  - by rewrite (case_text _ _ Hsteps), Hshape.
  - rewrite (proj2 (readable_read _ (case_readable _ _ _ Hsteps))). by eapply Hread, case_readable.
Qed.

Lemma edited_case case f :
  case_steps case f →
  (∀ sig, readable (post_doc case sig) → ∃ t, reshape (sc_text case) (ordered_text (post_doc case sig)) = Ok t
               ∧ (has_duplicate_member_names t = true ∨ vaid_from_str t = None)) →
  row_verdict case (λ _, VaidVerdict.Unparseable) → case_answered case.
Proof.
  intros Hsteps Ht Hrow. destruct (Ht (case_signature case f)) as (t & Hok & Hbad); [by eapply case_readable|].
  eapply unparseable_answered; [|exact Hbad|exact Hrow]. by rewrite (case_text _ _ Hsteps).
Qed.

Lemma literal_case case text :
  sc_text case = Literal text → vaid_from_str text = None →
  row_verdict case (λ _, VaidVerdict.Unparseable) → case_answered case.
Proof.
  intros Hshape Hread Hrow. eapply unparseable_answered; [|by right|exact Hrow].
  unfold document_json. by rewrite Hshape.
Qed.


  (** ** The table *)

(** What is signed differs from what is carried. *)
Lemma tampered_values :
  Forall (λ '(f, g), signing_value (fields_vaid f []) ≠ signing_value (fields_vaid g [])) TAMPERED_PAIRS.
Proof.
  assert (∀ k d d', get (signing_value d) k ≠ get (signing_value d') k → signing_value d ≠ signing_value d')
    as Hk by (intros k d d' Hne Heq; apply Hne; by rewrite Heq).
  repeat (apply Forall_cons; split; [|]); [..|apply Forall_nil; done].
  - apply (Hk "scope_boundary"). vm_compute. discriminate.
  - apply (Hk "capability_set"). vm_compute. discriminate.
  - apply (Hk "vaid_id"). vm_compute. discriminate.
  - apply (Hk "vaid_id"). vm_compute. discriminate.
  - apply (Hk "vaid_id"). vm_compute. discriminate.
  - apply (Hk "vaid_id"). vm_compute. discriminate.
  - apply (Hk "parent_vaid"). vm_compute. discriminate.
Qed.

Lemma tampered_signature f g :
  (f, g) ∈ TAMPERED_PAIRS →
  ed25519_verify (kp_public_key kernel) (fields_digest f) (kp_sign kernel (fields_digest g)) = false.
Proof.
  intros Hin. apply not_true_is_false. intros Heq%(vc_binds _ _ Hcrypto).
  pose proof (proj1 (Forall_forall _ _) tampered_values _ Hin) as Hne. apply Hne.
  pose proof (proj1 (Forall_forall _ _) (vc_separates _ _ Hcrypto) _ Hin) as Hsep. by apply Hsep.
Qed.

Ltac row := eexists; split_and!;
  [intros ?; unfold revocation_of, standing_json; rewrite index_object; reflexivity
  |vm_compute; reflexivity|vm_compute; reflexivity].

Ltac known_fields := split; [decided|split; [vm_compute; split; discriminate|decided]].

(** The members of a document of the table, in order. *)
Definition fields_members (f : Fields) (sig : list byte) : Ordered :=
  [("sig_version", JNumber (PosInt (f_version f)));
   ("vaid_id", JString (f_id f));
   ("agent_id", JString CASE_ID);
   ("agent_class", JString "verdict");
   ("version", JString "1.0.0");
   ("tenant_id", JString "acme");
   ("issued_at", JString "2020-01-01T00:00:00Z");
   ("expires_at", JString (f_expires f));
   ("public_key_der", ser_bytes public_key_bytes);
   ("kernel_signature", ser_bytes sig)]
  ++ (if f_parent f then [("parent_vaid", JNull)] else [])
  ++ [("scope_boundary", ser_boundary (f_scope f));
      ("lineage_hash", JString (f_lineage f));
      ("capability_set", ser_strings (f_caps f));
      ("trust_domain", JString (f_domain f));
      ("kernel_key_thumbprint", JString (f_thumbprint f))].

Lemma fields_members_value f sig :
  JObject (list_to_map (fields_members f sig)) = vaid_to_value (fields_vaid f sig).
Proof.
  unfold vaid_to_value. cbn [vd_unknown_fields fields_vaid]. rewrite left_id_L by apply _.
  unfold vaid_members, fields_members. cbn [vd_parent_vaid fields_vaid]. by destruct (f_parent f).
Qed.

#[local] Instance entry_wf_dec e : Decision (entry_wf e).
Proof. unfold entry_wf. apply _. Defined.

Lemma readable_reads l f sig :
  readable l → fields_ok f → l = fields_members f sig → Forall entry_wf (f_scope f) →
  vaid_deserialize (presented l) = Some (fields_vaid f sig).
Proof.
  intros [Hnd _ Hraw _] (Hid & Hv & _) -> Hs.
  apply presented_reads; [done|done|apply fields_members_value|by apply fields_wf|done].
Qed.

(** The same without a version, which is read as 0. *)
Lemma versionless_reads l f sig :
  readable l → fields_ok f → ("sig_version", JNumber (PosInt 0)) :: l = fields_members f sig →
  Forall entry_wf (f_scope f) → vaid_deserialize (presented l) = Some (fields_vaid f sig).
Proof.
  intros [Hnd Hval Hraw Hin] Hok Heq Hs.
  assert ("sig_version" ∉ l.*1) as Hnot.
  { unfold fields_members in Heq. injection Heq as _ ->. destruct (f_parent f); decided. }
  unfold presented. rewrite version_absent.
  - apply (readable_reads (("sig_version", JNumber (PosInt 0)) :: l)); [|done..]. split.
    + by constructor.
    + constructor; [split; [done|decided]|done].
    + by constructor.
    + by right.
  - rewrite member_presented by done. by rewrite not_elem_of_list_to_map_1.
Qed.

(** The text cut after the tenant is no JSON. *)
Lemma truncated_text sig :
  readable (fields_members base_fields sig) →
  truncate_after_tenant (ordered_text (fields_members base_fields sig)) = Ok TRUNCATED_TEXT.
Proof.
  intros Hr. unfold ordered_text. rewrite pretty_written by (done || by apply readable_names).
  unfold fields_members. cbn [app map fst snd f_parent base_fields f_version f_id].
  rewrite !pretty_string by done. rewrite (pretty_digit 4) by done.
  cbn [written_members]. set (rest := newline +:+ "  " +:+ quoted "expires_at" +:+ _).
  generalize rest. clear rest. intros rest. vm_compute. reflexivity.
Qed.

(** A document case signed as [f1] and carrying [f2]; what is left is the answer
    of its signature. *)
Ltac reads :=
  intros; apply readable_reads; [done|known_fields|vm_compute; reflexivity|decided].
Ltac document f1 f2 sig_ok :=
  apply (document_case _ f1 f2 sig_ok);
  [split; [reflexivity|decided|decided|reads]|reflexivity|reads|known_fields| |row].
Ltac authentic f := document f f true; apply ed25519_verify_sign.
Ltac tampered f1 f2 := document f1 f2 false; apply tampered_signature; unfold TAMPERED_PAIRS.

Let lapsed : Fields := with_expires LAPSED_TEXT base_fields.

Lemma outcome_cases : Forall case_answered OUTCOME_CASES.
Proof.
  unfold OUTCOME_CASES. repeat (apply Forall_cons; split); [..|by apply Forall_nil].
  - authentic base_fields.
  - authentic lapsed.
  - authentic base_fields.
  - authentic base_fields.
  - tampered base_fields
      (with_scope [entry_prefix "data.acme"; entry_prefix "data.everything"] base_fields). by left.
  - document base_fields base_fields false. apply (vc_corrupted _ _ Hcrypto).
Qed.

Lemma fault_cases : Forall case_answered FAULT_CASES.
Proof.
  unfold FAULT_CASES. repeat (apply Forall_cons; split); [..|by apply Forall_nil].
  - document base_fields base_fields false. apply (vc_stranger _ _ Hcrypto).
  - set (f := with_thumbprint FOREIGN_THUMBPRINT base_fields).
    document f f (ed25519_verify (kp_public_key kernel) (fields_digest f)
                    (kp_sign foreign (fields_digest f))). reflexivity.
  - authentic (with_lineage_hash "0000000000000000000000000000000000000000000000000000000000000000"
                 base_fields).
  - authentic (with_version 2 base_fields).
  - set (f := with_version 0 base_fields). apply (document_case _ f f true).
    + split; [reflexivity|decided|decided|]. intros. apply versionless_reads; [done|known_fields|vm_compute; reflexivity|decided].
    + reflexivity.
    + intros. apply versionless_reads; [done|known_fields|vm_compute; reflexivity|decided].
    + known_fields.
    + apply ed25519_verify_sign.
    + row.
  - authentic (with_domain "not a domain" base_fields).
Qed.

Lemma no_document text : json_parse text = None → vaid_from_str text = None.
Proof. unfold vaid_from_str. by intros ->. Qed.

Lemma not_json text : text ∈ NOT_JSON_TEXTS → vaid_from_str text = None.
Proof. intros Hin. apply no_document, (proj1 (Forall_forall _ _) verdict_not_json _ Hin). Qed.

Lemma empty_array_unread : vaid_from_str "[]" = None.
Proof.
  unfold vaid_from_str.
  assert (json_parse "[]" = Some (RArray [])) as ->; [|done].
  apply (proj1 (Forall_forall _ _) verdict_fragments ("[]", RArray [])). decided.
Qed.

Lemma previous_form_unread : vaid_from_str V3_TEXT = None.
Proof.
  unfold vaid_from_str. rewrite verdict_v3. cbn [mbind option_bind].
  by apply (scope_unreadable _ (RArray [RString "data.acme"])).
Qed.

(** A case whose document is [base_fields] and whose text is edited. *)
Ltac edited :=
  apply (edited_case _ base_fields); [split; [reflexivity|decided|decided|reads]| |row];
  let sig := fresh "sig" in intros sig ?;
  match goal with |- context [post_doc ?c sig] =>
    let Heq := fresh in
    assert (post_doc c sig = fields_members base_fields sig) as Heq by (vm_compute; reflexivity);
    rewrite Heq in * end.

Lemma malformed_cases : Forall case_answered MALFORMED_CASES.
Proof.
  unfold MALFORMED_CASES. repeat (apply Forall_cons; split); [..|by apply Forall_nil].
  - edited. exists TRUNCATED_TEXT. split; [by apply truncated_text|right]. apply not_json. decided.
  - eapply literal_case; [reflexivity|apply not_json; decided|row].
  - eapply literal_case; [reflexivity|apply not_json; decided|row].
  - eapply literal_case; [reflexivity|apply empty_array_unread|row].
  - apply (unreadable_case _ base_fields); [split; [reflexivity|decided|decided|reads]|reflexivity| |row].
    intros sig _. by apply tenant_absent.
  - apply (unreadable_case _ base_fields); [split; [reflexivity|decided|decided|reads]|reflexivity| |row].
    intros sig _. by apply (scope_unreadable _ (RString "data.acme")).
Qed.

Lemma form_cases : Forall case_answered FORM_CASES.
Proof.
  unfold FORM_CASES. repeat (apply Forall_cons; split); [..|by apply Forall_nil].
  - edited. destruct (lead_with_tenant_repeats (fields_members base_fields sig)) as (t & Ht & Hdup).
    + decided.
    + by apply readable_names.
    + eauto.
  - edited. destruct (nest_duplicate_repeats (fields_members base_fields sig)
      "kernel_key_thumbprint" KERNEL_THUMBPRINT) as (t & Ht & Hdup); [done|done|by apply readable_names|].
    eauto.
  - eapply literal_case; [reflexivity|apply previous_form_unread|row].
  - authentic (with_scope [mkEntry "amount" (JNumber (PosInt 100))] base_fields).
  - authentic (with_scope [mkEntry "amount" (JNumber (PosInt 100))] lapsed).
Qed.

Lemma order_cases : Forall case_answered ORDER_CASES.
Proof.
  unfold ORDER_CASES. repeat (apply Forall_cons; split); [..|by apply Forall_nil].
  - authentic lapsed.
  - authentic lapsed.
  - tampered lapsed (with_caps ["read"; "write"] lapsed). right. by left.
  - authentic (with_domain "not a domain" (with_version 2 base_fields)).
Qed.

Lemma respelled_cases : Forall case_answered RESPELLED_CASES.
Proof.
  unfold RESPELLED_CASES. repeat (apply Forall_cons; split); [..|by apply Forall_nil].
  - tampered base_fields (with_id "C0000000-0000-4000-8000-000000000001" base_fields).
    do 2 right. by left.
  - tampered base_fields (with_id "{c0000000-0000-4000-8000-000000000001}" base_fields).
    do 3 right. by left.
  - tampered base_fields (with_id "urn:uuid:c0000000-0000-4000-8000-000000000001" base_fields).
    do 4 right. by left.
  - tampered base_fields (with_id "c0000000000040008000000000000001" base_fields).
    do 5 right. by left.
  - tampered base_fields (without_parent base_fields). do 6 right. by left.
Qed.

Lemma timestamp_cases : Forall case_answered TIMESTAMP_CASES.
Proof.
  unfold TIMESTAMP_CASES. repeat (apply Forall_cons; split); [..|by apply Forall_nil].
  - authentic (with_expires "2999-01-01T00:00:00+00:00" base_fields).
  - authentic (with_expires "2999-01-01T00:00:00.000Z" base_fields).
  - authentic (with_expires "not-a-timestamp" base_fields).
Qed.

Lemma standing_cases_answered : Forall case_answered STANDING_CASES.
Proof.
  unfold STANDING_CASES. rewrite !Forall_app. split_and!; auto using outcome_cases, fault_cases,
    malformed_cases, order_cases, respelled_cases, timestamp_cases, form_cases.
Qed.

End Keys.

End VerdictCases.
