(* ===== verification/VerdictPass.v ===== *)
(** * The verdict vector passes the firewall

    Of [VerdictEmitter]: the generator runs to its end, and [check_verdict]
    accepts the vector, whose standing cases are answered as [VerdictCases]
    proves and whose attenuation cases by evaluation.  A row is a case as the
    firewall counts it. *)

From S2P Require Import Prelude Json Externals Concrete Identity Scope IssuerIdentity Document.
From S2P Require Import DupScan Revocation Attenuation Verify Attestation Wire Vectors Firewall.
From S2P Require Import EmitterTexts Emitters EmittersPass VerdictTexts VerdictEmitter PrettyText.
From S2P Require Import VerdictLiterals VerdictCases.

(** The surface (standing or not), the reason and the boolean of a case. *)
Definition Row : Type := bool * string * bool.

Definition tally_row (t : VerdictTally) (row : Row) : VerdictTally :=
  let '(is_standing, reason, valid) := row in tally t is_standing valid reason reason.

Definition standing_row (case : StandingCase) : Row :=
  (true, sc_expected_reason case, sc_expected_valid case).
Definition attenuation_row (case : AttenuationCase) : Row :=
  (false, ac_expected_reason case, ac_expected_valid case).
Definition table_rows : list Row :=
  map standing_row STANDING_CASES ++ map attenuation_row ATTENUATION_CASES.

Section VerdictPass.
  Context {Ext : Externals} `{!VerdictLaws} `{!CryptoLaws} {Pretty : PrettyLaws}.

(** A case of a vector that is counted as the row, at any instant of the table. *)
Record counted (pk : list byte) (case : Json) (row : Row) : Prop := {
  co_reason : as_str (index case "expected_reason") = Some row.1.2;
  co_valid : as_bool (index case "expected_valid") = Some row.2;
  co_surface : bool_decide (index case "surface" = JString "standing") = row.1.1;
  co_result now : table_instant now → verdict_case_result pk now case = Ok (row.1.2, row.2);
}.

Lemma counted_rows pk clock cases rows s :
  Forall2 (counted pk) cases rows → (∀ i, table_instant (clock i)) →
  ofold (verdict_case pk clock) cases s
  = Ok (length cases + s.1, foldl tally_row s.2 rows).
Proof.
  intros Hrows Hclock. revert s. induction Hrows as [|case [[st r] b] cases rows Hc _ IH]; intros [i t].
  { done. }
  cbn [ofold]. unfold verdict_case at 1. cbn [fst snd].
  rewrite (co_reason _ _ _ Hc), (co_valid _ _ _ Hc), (co_result _ _ _ Hc _ (Hclock i)).
  cbn [or_err obind fst snd]. rewrite !bool_decide_eq_false_2 by naive_solver. cbn [obind].
  rewrite (co_surface _ _ _ Hc), IH. cbn [fst snd foldl tally_row length]. f_equal. f_equal. lia.
Qed.

Section Keys.
  Context (kernel foreign : KeyPair) (Hcrypto : VerdictCrypto kernel foreign).

Lemma standing_counted case :
  case_answered kernel foreign case →
  ∃ text, document_json kernel foreign case = Ok text
          ∧ counted (kp_public_key kernel) (standing_json case text) (standing_row case).
Proof.
  intros (text & rev & Htext & Hrev & Hans). exists text. split; [done|]. unfold standing_row.
  split; cbn [fst snd].
  - unfold standing_json. by read_members.
  - unfold standing_json. by read_members.
  - unfold standing_json. by read_members.
  - intros now Hnow. unfold verdict_case_result. rewrite Hrev.
    unfold standing_json. read_members. cbn [as_str or_err obind].
    destruct (Hans now Hnow) as [-> ->]. done.
Qed.

Lemma emitted_standing cases acc :
  Forall (case_answered kernel foreign) cases →
  ∃ l, ofold (emit_standing kernel foreign) cases acc = Ok (acc ++ l)
       ∧ Forall2 (counted (kp_public_key kernel)) l (map standing_row cases).
Proof.
  intros Hcases. revert acc. induction Hcases as [|case cases Hcase Hcases IH]; intros acc.
  { exists []. by rewrite app_nil_r. }
  destruct (standing_counted case Hcase) as (text & Htext & Hc).
  destruct (IH (acc ++ [standing_json case text])) as (l & Hl & Hrows).
  exists (standing_json case text :: l). split; [|by constructor].
  cbn [ofold]. unfold emit_standing at 1. rewrite Htext. cbn [obind]. rewrite Hl.
  by rewrite <- app_assoc.
Qed.

(** An attenuation case of the table, by evaluation. *)
Definition attenuation_answered (case : AttenuationCase) : Prop :=
  ∃ parent child,
  literal_value (ac_parent_scope case) = Some parent
  ∧ literal_value (ac_child_scope case) = Some child
  ∧ counted (kp_public_key kernel) (attenuation_json case parent child) (attenuation_row case).

Lemma attenuation_cases_answered : Forall attenuation_answered ATTENUATION_CASES.
Proof.
  unfold ATTENUATION_CASES. repeat (apply Forall_cons; split); [..|by apply Forall_nil].
  all: eexists _, _; split; [reflexivity|split; [reflexivity|]];
    split; [| | |intros now _; unfold verdict_case_result]; unfold attenuation_json; read_members;
    vm_compute; reflexivity.
Qed.

Lemma emitted_attenuation cases acc :
  Forall attenuation_answered cases →
  ∃ l, ofold emit_attenuation cases acc = Ok (acc ++ l)
       ∧ Forall2 (counted (kp_public_key kernel)) l (map attenuation_row cases).
Proof.
  intros Hcases. revert acc.
  induction Hcases as [|case cases (parent & child & Hp & Hc & Hrow) Hcases IH]; intros acc.
  { exists []. by rewrite app_nil_r. }
  destruct (IH (acc ++ [attenuation_json case parent child])) as (l & Hl & Hrows).
  exists (attenuation_json case parent child :: l). split; [|by constructor].
  cbn [ofold]. unfold emit_attenuation at 1.
  rewrite (literal_value_ok _ _ Hp), (literal_value_ok _ _ Hc). cbn [obind].
  rewrite Hl. by rewrite <- app_assoc.
Qed.

(** What the firewall asks of the counts holds of the table. *)
Lemma written_vector_passes clock foreign_pub cases :
  Forall2 (counted (kp_public_key kernel)) cases table_rows → (∀ i, table_instant (clock i)) →
  check_verdict clock (verdict_vector (kp_public_key kernel) foreign_pub cases) = Ok tt.
Proof.
  intros Hrows Hclock. unfold check_verdict, verdict_vector, some_cases, unhex_at. read_members.
  cbn [as_array str_of as_str default from_option id].
  destruct cases as [|case cases]; [by apply Forall2_nil_inv_l in Hrows|]. cbn [obind].
  rewrite unhex_to_hex. cbn [obind]. rewrite (counted_rows _ _ _ _ _ Hrows Hclock).
  cbn [obind fst snd]. vm_compute. reflexivity.
Qed.

Lemma emitted_cases :
  ∃ standing cases,
  ofold (emit_standing kernel foreign) STANDING_CASES [] = Ok standing
  ∧ ofold emit_attenuation ATTENUATION_CASES standing = Ok cases
  ∧ Forall2 (counted (kp_public_key kernel)) cases table_rows.
Proof.
  destruct (emitted_standing STANDING_CASES []) as (l1 & H1 & R1);
    [by apply standing_cases_answered|].
  destruct (emitted_attenuation ATTENUATION_CASES l1 attenuation_cases_answered) as (l2 & H2 & R2).
  exists l1, (l1 ++ l2). split_and!; [done..|]. by apply Forall2_app.
Qed.

End Keys.

(** C33. The generator of the frozen verdict vector runs to its end, and the
    conformance firewall accepts what it writes at any instant between the
    lapsed and the live expiry it spells out; in particular each of its rows,
    tampered, respelled, forged, truncated and ordered ones alike, is a text
    that the standing verifier answers with the reason code and the boolean
    written beside it. *)
Theorem emitted_verdicts_pass (kernel foreign : KeyPair) (clock : nat → Instant)
    (Hkernel : key_from_hex KERNEL_SEED_HEX = Ok kernel)
    (Hforeign : key_from_hex FOREIGN_SEED_HEX = Ok foreign)
    (Hcrypto : VerdictCrypto kernel foreign) (Hclock : ∀ i, table_instant (clock i)) :
  (∃ v, emit_verdict_vector = Ok v ∧ check_verdict clock v = Ok tt)
  ∧ Forall (case_answered kernel foreign) STANDING_CASES.
Proof.
  split; [|by apply standing_cases_answered].
  destruct (emitted_cases kernel foreign Hcrypto) as (l & cases & H1 & H2 & Hrows).
  unfold emit_verdict_vector. rewrite Hkernel. cbn [obind]. rewrite Hforeign. cbn [obind].
  rewrite H1. cbn [obind]. rewrite H2. cbn [obind].
  eexists. split; [reflexivity|]. by apply written_vector_passes.
Qed.

End VerdictPass.
