(* ===== verification/VerdictSplit.v ===== *)
(** * What a signature of the verdict table covers

    The design of [emit_verdict_vector.rs], for every row and not only the ones
    of the table: overrides made before signing are covered by the signature,
    overrides made after it are not. *)

From S2P Require Import Prelude Json Externals Concrete Identity Scope IssuerIdentity Document.
From S2P Require Import DupScan Revocation Attenuation Verify Attestation Wire Vectors Firewall.
From S2P Require Import EmitterTexts Emitters EmittersPass VerdictTexts VerdictEmitter PrettyText.
From S2P Require Import VerdictLiterals VerdictCases.

Definition SIGNATURE : string := "kernel_signature".

(** Overrides of the table that leave the signature alone. *)
Definition leaves_signature (overrides : Overrides) : Prop :=
  Forall override_ok overrides ∧ SIGNATURE ∉ overrides.*1.

Section VerdictSplit.
  Context {Ext : Externals} `{!VerdictLaws} `{!CryptoLaws} {Pretty : PrettyLaws}.

Lemma deserialized_signature l d :
  vaid_deserialize (RObject l) = Some d →
  de_required SIGNATURE (de_vec de_byte) l = Some (vd_kernel_signature d).
Proof.
  unfold vaid_deserialize. intros Hd. invert_binds. by simplify_eq.
Qed.

(** The same document with another signature. *)
Lemma deserialize_resigned l l' r bs d :
  (∀ k, k ≠ SIGNATURE → member k l = member k l') → member SIGNATURE l' = [r] →
  de_vec de_byte r = Some bs → vaid_deserialize (RObject l) = Some d →
  vaid_deserialize (RObject l') = Some (with_kernel_signature d bs).
Proof.
  intros Hk Hr Hbs Hd. unfold vaid_deserialize, de_required, de_default in *.
  assert (raw_members (unknown_members l') = raw_members (unknown_members l)) as ->.
  { apply map_eq. intros k. rewrite !unknown_members_lookup. case_decide as Hn; [done|].
    rewrite !raw_members_lookup, Hk; [done|]. intros ->. apply Hn. unfold KNOWN_FIELDS, SIGNATURE. set_solver. }
  assert (de_member "kernel_signature" (de_vec de_byte) l' = Some (Some bs)) as ->
    by (unfold de_member, SIGNATURE in *; rewrite Hr, Hbs; done).
  repeat (match type of Hd with context [de_member ?k ?f l] =>
    lazymatch k with
    | "kernel_signature" => fail
    | _ => rewrite (de_member_ext k f l l' (Hk k ltac:(discriminate))) in Hd
    end end).
  invert_binds. simplify_eq.
  repeat match goal with E : _ = Some _ |- _ => rewrite E; clear E; cbn [mbind option_bind] end.
  done.
Qed.

Lemma ordered_set_lookup key v (doc : Ordered) k :
  (list_to_map (ordered_set key v doc) : gmap string Json) !! k
  = if bool_decide (k = key) then Some v else (list_to_map doc : gmap string Json) !! k.
Proof.
  induction doc as [|[k' v'] doc IH]; cbn [ordered_set].
  { cbn. case_bool_decide as Hk; subst; [apply lookup_insert_eq|by rewrite lookup_insert_ne]. }
  destruct (decide (k' = key)) as [->|Hne].
  - rewrite (bool_decide_eq_true_2 (key = key)) by done. cbn [list_to_map foldr fst snd].
    case_bool_decide as Hk; subst; [apply lookup_insert_eq|by rewrite !lookup_insert_ne].
  - rewrite (bool_decide_eq_false_2 (k' = key)) by done. cbn [list_to_map foldr fst snd].
    destruct (decide (k = k')) as [->|Hk].
    + rewrite !lookup_insert_eq. by rewrite bool_decide_eq_false_2.
    + by rewrite !lookup_insert_ne.
Qed.

Lemma ordered_remove_lookup key (doc : Ordered) k :
  k ≠ key →
  (list_to_map (ordered_remove key doc) : gmap string Json) !! k
  = (list_to_map doc : gmap string Json) !! k.
Proof.
  intros Hne. induction doc as [|[k' v'] doc IH]; [done|].
  unfold ordered_remove, Ordered in *. rewrite filter_cons. case_decide as Hk; cbn [fst] in Hk; simpl.
  - destruct (decide (k = k')) as [->|]; [by rewrite !lookup_insert_eq|].
    by rewrite !lookup_insert_ne.
  - by rewrite IH, lookup_insert_ne by congruence.
Qed.

(** Overrides leave the members they do not name. *)
Lemma literal_apply_lookup overrides doc doc' k :
  literal_apply doc overrides = Some doc' → k ∉ overrides.*1 →
  (list_to_map doc' : gmap string Json) !! k = (list_to_map doc : gmap string Json) !! k.
Proof.
  revert doc. induction overrides as [|[key o] rest IH]; intros doc; cbn [literal_apply].
  { by intros [= ->]. }
  intros (doc1 & Hdoc1 & Hrest)%bind_Some [Hne Hk]%not_elem_of_cons. rewrite (IH _ Hrest Hk).
  unfold literal_override in Hdoc1. cbn [fst snd] in *. destruct o as [text|].
  - apply bind_Some in Hdoc1 as (v & _ & [= <-]). rewrite ordered_set_lookup.
    by rewrite bool_decide_eq_false_2.
  - injection Hdoc1 as <-. by apply ordered_remove_lookup.
Qed.

Section Row.
  Context (case : StandingCase).
  Context (Hpre : leaves_signature (sc_pre_sign case)) (Hpost : leaves_signature (sc_post_sign case)).

Lemma post_doc_signature sig :
  (list_to_map (post_doc case sig) : gmap string Json) !! SIGNATURE = Some (ser_bytes sig).
Proof.
  destruct (post_doc_ok case sig (proj1 Hpre) (proj1 Hpost)) as [Hok _].
  rewrite (literal_apply_lookup _ _ _ _ Hok (proj2 Hpost)), ordered_set_lookup.
  by rewrite bool_decide_eq_true_2.
Qed.

Lemma pre_doc_signature :
  (list_to_map (pre_doc case) : gmap string Json) !! SIGNATURE = Some (JArray []).
Proof.
  destruct (pre_doc_ok case (proj1 Hpre)) as [Hok _].
  rewrite (literal_apply_lookup _ _ _ _ Hok (proj2 Hpre)). reflexivity.
Qed.

Lemma carried_signature sig d :
  vaid_deserialize (presented (post_doc case sig)) = Some d → vd_kernel_signature d = sig.
Proof.
  destruct (post_doc_ok case sig (proj1 Hpre) (proj1 Hpost)) as [_ Hr].
  intros Hd%deserialized_signature. unfold de_required, de_member in Hd.
  rewrite member_presented in Hd by apply Hr. rewrite post_doc_signature, ser_bytes_sorted in Hd.
  rewrite de_bytes_raw in Hd. by injection Hd.
Qed.

(** With no override after signing, what is carried is what was signed. *)
Lemma signed_as_carried sig d :
  sc_post_sign case = [] → vaid_deserialize (presented (post_doc case sig)) = Some d →
  vaid_deserialize (presented (pre_doc case)) = Some (with_kernel_signature d []).
Proof.
  intros Hnil Hd. destruct (pre_doc_ok case (proj1 Hpre)) as [_ Hr].
  destruct (post_doc_ok case sig (proj1 Hpre) (proj1 Hpost)) as [Hok Hr2].
  rewrite Hnil in Hok. injection Hok as Hok.
  unfold presented in Hd |- *. eapply (deserialize_resigned _ _ (RArray []) []) in Hd; [exact Hd| | |done].
  - intros k Hk. rewrite !member_presented by (apply Hr || apply Hr2).
    rewrite <- Hok, ordered_set_lookup. by rewrite bool_decide_eq_false_2.
  - rewrite member_presented by apply Hr. by rewrite pre_doc_signature.
Qed.
End Row.

(** C34. What a row of the verdict generator signs, for every row that leaves the
    signature itself alone: the signature it carries verifies over the document
    its text reads as exactly when that document has the members that stood
    before signing (unless the two digests collide), which is so whenever no
    override follows the signing; where the members before signing read as no
    document, the row carries an empty signature. *)
Theorem signature_covers_presign (kernel foreign : KeyPair) (case : StandingCase) (text : string)
    (d : Vaid) (Hbinds : binds_message) (Hpre : leaves_signature (sc_pre_sign case))
    (Hpost : leaves_signature (sc_post_sign case)) (Hsigner : sc_signer case = Kernel)
    (Htamper : sc_tamper_signature case = false) (Hshape : sc_text case = Document)
    (Htext : document_json kernel foreign case = Ok text) (Hread : vaid_from_str text = Some d) :
  match vaid_from_str (ordered_text (pre_doc case)) with
  | Some signed =>
      (no_collision d signed →
       ed25519_verify (kp_public_key kernel) (canonical_vaid_signing_bytes d) (vd_kernel_signature d)
         = true ↔ signing_value d = signing_value signed)
      ∧ (sc_post_sign case = [] → signing_value d = signing_value signed)
  | None => vd_kernel_signature d = [] ∧ sc_post_sign case ≠ []
  end.
Proof.
  destruct (post_doc_ok case (sign kernel (pre_doc case)) (proj1 Hpre) (proj1 Hpost)) as [_ Hr2].
  destruct (pre_doc_ok case (proj1 Hpre)) as [_ Hr].
  rewrite row_text in Htext by (by rewrite Hshape || apply Hpre || apply Hpost).
  unfold row_signature in Htext. rewrite Hsigner, Htamper, Hshape in Htext. injection Htext as <-.
  cbn [signer_key] in Hread. rewrite (proj2 (readable_read _ Hr2)) in Hread.
  pose proof (carried_signature case Hpre Hpost _ _ Hread) as Hsig.
  assert (sc_post_sign case = [] →
          vaid_from_str (ordered_text (pre_doc case)) = Some (with_kernel_signature d [])) as Hnil.
  { intros Hnil. rewrite (proj2 (readable_read _ Hr)). by apply (signed_as_carried case Hpre Hpost _ _ Hnil Hread). }
  pose proof (deserialized_wf _ _ Hread) as Hwf.
  destruct (vaid_from_str (ordered_text (pre_doc case))) as [signed|] eqn:Hsigned.
  - assert (vd_kernel_signature d = kp_sign kernel (canonical_vaid_signing_bytes signed)) as Hsign
      by (rewrite Hsig; unfold sign; by rewrite Hsigned).
    split; [|intros [= ->]%Hnil; by rewrite signing_value_with_signature].
    intros Hcoll. rewrite Hsign. split.
    + intros Heq%Hbinds. apply Hcoll, Heq.
    + intros Heq. unfold canonical_vaid_signing_bytes. unfold signing_value in Heq. rewrite Heq.
      apply ed25519_verify_sign.
  - split; [rewrite Hsig; unfold sign; by rewrite Hsigned|]. by intros ?%Hnil.
Qed.

End VerdictSplit.
