(* ===== verification/VerdictSamples.v ===== *)
(** * Witnesses for the verdict vector

    An instance of the externals with a pretty printer and a reader of its texts,
    at which the theorems of [VerdictPass] and [VerdictSplit] are applied.  The
    printer lays an object out as [serde_json] does; a value that is neither a
    plain string nor a digit is written as the bits of its encoding. *)

From stdpp Require Import countable.
From S2P Require Import Prelude Json Externals Concrete Identity Scope IssuerIdentity Document.
From S2P Require Import DupScan Revocation Attenuation Verify Attestation Wire Vectors Firewall.
From S2P Require Import EmitterTexts Emitters EmittersPass EmitterSamples VerdictTexts.
From S2P Require Import VerdictEmitter PrettyText VerdictLiterals VerdictCases VerdictPass VerdictSplit.

(** ** Values as bits *)

#[global] Instance Number_countable : Countable Number.
Proof.
  refine (inj_countable'
    (λ n, match n with PosInt z => inl (inl z) | NegInt z => inl (inr z) | Float z => inr z end)
    (λ s : Z + Z + Z, match s with inl (inl z) => PosInt z | inl (inr z) => NegInt z | inr z => Float z end)
    _).
  by intros [].
Defined.

Definition RawLeaf : Type := unit + bool + Number + string.

Fixpoint raw_to_tree (r : RawJson) : gen_tree RawLeaf :=
  match r with
  | RNull => GenLeaf (inl (inl (inl tt)))
  | RBool b => GenLeaf (inl (inl (inr b)))
  | RNumber n => GenLeaf (inl (inr n))
  | RString s => GenLeaf (inr s)
  | RArray l => GenNode 0 (map raw_to_tree l)
  | RObject l => GenNode 1 (map (λ kv, GenNode 2 [GenLeaf (inr kv.1); raw_to_tree kv.2]) l)
  end.

Fixpoint raw_of_tree (t : gen_tree RawLeaf) : RawJson :=
  match t with
  | GenLeaf (inl (inl (inl _))) => RNull
  | GenLeaf (inl (inl (inr b))) => RBool b
  | GenLeaf (inl (inr n)) => RNumber n
  | GenLeaf (inr s) => RString s
  | GenNode 0 ts => RArray (map raw_of_tree ts)
  | GenNode _ ts =>
      RObject (map (λ t, match t with
                         | GenNode _ [GenLeaf (inr k); v] => (k, raw_of_tree v)
                         | _ => ("", RNull)
                         end) ts)
  end.

Lemma raw_of_to_tree : ∀ r, raw_of_tree (raw_to_tree r) = r.
Proof.
  fix go 1. intros [| | | |l|l]; [reflexivity..| |]; simpl; f_equal; rewrite map_map.
  - induction l as [|r l IH]; [reflexivity|]. simpl. rewrite go, IH. reflexivity.
  - induction l as [|[k r] l IH]; [reflexivity|]. simpl. rewrite go, IH. reflexivity.
Qed.

#[global] Instance RawJson_countable : Countable RawJson :=
  inj_countable' raw_to_tree raw_of_tree raw_of_to_tree.

(** ** The printer *)

Definition plain_textb (k : string) : bool :=
  string_forallb (λ a, bool_decide (a ≠ DQUOTE ∧ a ≠ BACKSLASH) && (32 <=? nat_of_ascii a)%nat) k.

Definition bits_text (r : RawJson) : string := String "b" (pos_bits (encode r)).

Definition member_text (v : Json) : string :=
  match v with
  | JString s => if plain_textb s then quoted s else bits_text (sorted_raw v)
  | JNumber (PosInt d) =>
      if bool_decide (0 ≤ d < 10)%Z then char_string (digit_char d) else bits_text (sorted_raw v)
  | _ => bits_text (sorted_raw v)
  end.

Definition line_text (kv : string * Json) : string :=
  "  " +:+ quoted kv.1 +:+ ": " +:+ member_text kv.2.

(** A comma after every line but the last. *)
Fixpoint comma_lines (lines : list string) : list string :=
  match lines with
  | [] => []
  | [l] => [l]
  | l :: lines' => (l +:+ ",") :: comma_lines lines'
  end.

Definition pretty_text (l : list (string * Json)) : string :=
  join newline ("{" :: comma_lines (map line_text l) ++ ["}"]).

(** ** The reader *)

Definition read_member (t : string) : option RawJson :=
  match t with
  | String c rest =>
      if bool_decide (c = DQUOTE) then RString <$> strip_suffix DQUOTE rest
      else if bool_decide (c = "b"%char) then p ← bits_pos rest; decode p
      else if is_ascii_digit c && bool_decide (rest = "") then Some (RNumber (PosInt (char_digit c)))
      else None
  | EmptyString => None
  end.

(** The name up to the closing quote, and what follows. *)
Fixpoint read_name (t : string) : option (string * string) :=
  match t with
  | EmptyString => None
  | String c rest =>
      if bool_decide (c = DQUOTE) then Some ("", rest)
      else '(k, v) ← read_name rest; Some (String c k, v)
  end.

Definition without_comma (t : string) : string := default t (strip_suffix "," t).

Definition read_line (line : string) : option (string * RawJson) :=
  match line with
  | String " " (String " " (String c rest)) =>
      if bool_decide (c = DQUOTE) then
        '(k, v) ← read_name rest;
        match v with
        | String ":" (String " " t) => r ← read_member (without_comma t); Some (k, r)
        | _ => None
        end
      else None
  | _ => None
  end.

Definition read_lines (s : string) : option RawJson :=
  match split_on "010" s with
  | first :: rest =>
      if bool_decide (first = "{" ∧ last rest = Some "}") then
        RObject <$> mapM read_line (removelast rest)
      else None
  | [] => None
  end.

(** ** What is printed is read *)

Lemma no_newline_app a b : no_char "010" a → no_char "010" b → no_char "010" (a +:+ b).
Proof. unfold no_char. intros Ha Hb. by rewrite string_forallb_app, Ha, Hb. Qed.

Lemma plain_no_newline k : plain_text k → no_char "010" k.
Proof.
  unfold plain_text, no_char. induction k as [|c k IH]; [done|]. simpl.
  intros [[_ Hc]%andb_true_iff Hk]%andb_true_iff. rewrite (IH Hk), andb_true_r.
  apply bool_decide_eq_true_2. intros ->. done.
Qed.

Lemma quoted_no_newline k : plain_text k → no_char "010" (quoted k).
Proof.
  intros Hk%plain_no_newline. unfold quoted. apply (no_newline_app (char_string DQUOTE)); [done|].
  by apply no_newline_app.
Qed.

Definition digit_list : list Z := [0; 1; 2; 3; 4; 5; 6; 7; 8; 9]%Z.

Lemma digit_listed d : (0 ≤ d < 10)%Z → d ∈ digit_list.
Proof. unfold digit_list. rewrite !elem_of_cons. lia. Qed.

Lemma digit_reads :
  Forall (λ d, read_member (char_string (digit_char d)) = Some (RNumber (PosInt d))
               ∧ strip_suffix "," (char_string (digit_char d)) = None
               ∧ no_char "010" (char_string (digit_char d))
               ∧ scalar_text (char_string (digit_char d))) digit_list.
Proof. repeat (apply Forall_cons; split; [done|]). by apply Forall_nil. Qed.

Lemma pos_bits_no_newline p : no_char "010" (pos_bits p).
Proof. unfold no_char. induction p as [p IH|p IH|]; simpl; by rewrite ?IH. Qed.

Lemma bits_no_newline r : no_char "010" (bits_text r).
Proof. exact (pos_bits_no_newline (encode r)). Qed.

Lemma member_text_no_newline v : no_char "010" (member_text v).
Proof.
  unfold member_text. destruct v as [| |[d| |]|s| |]; try apply bits_no_newline.
  - case_bool_decide as Hd; [|apply bits_no_newline].
    apply (proj1 (Forall_forall _ _) digit_reads d (digit_listed d Hd)).
  - destruct (plain_textb s) eqn:Hs; [by apply quoted_no_newline|apply bits_no_newline].
Qed.

Lemma line_no_newline kv : plain_text kv.1 → no_char "010" (line_text kv).
Proof.
  intros Hk. unfold line_text. apply no_newline_app; [done|].
  apply no_newline_app; [by apply quoted_no_newline|]. apply no_newline_app; [done|].
  apply member_text_no_newline.
Qed.

Lemma comma_lines_no_newline lines :
  Forall (no_char "010") lines → Forall (no_char "010") (comma_lines lines).
Proof.
  induction 1 as [|l lines Hl Hlines IH]; [constructor|]. destruct lines as [|l' lines];
    [by repeat constructor|].
  constructor; [by apply no_newline_app|exact IH].
Qed.

Lemma pretty_text_lines l :
  Forall (λ kv, plain_text kv.1) l →
  split_on "010" (pretty_text l) = "{" :: comma_lines (map line_text l) ++ ["}"].
Proof.
  intros Hl. apply split_on_join; [done|]. constructor; [done|]. apply Forall_app. split.
  - apply comma_lines_no_newline, Forall_map. eapply Forall_impl; [exact Hl|]. apply line_no_newline.
  - by repeat constructor.
Qed.

(** A member's text does not end in a comma. *)
Lemma strip_comma t c : c ≠ ","%char → strip_suffix "," (t +:+ char_string c) = None.
Proof.
  intros Hc. induction t as [|a t IH]; simpl; [by rewrite bool_decide_eq_false_2|].
  destruct (t +:+ char_string c) as [|b r] eqn:E; [by destruct t|]. by rewrite IH.
Qed.

Lemma pos_bits_comma p : strip_suffix "," (String "b" (pos_bits p)) = None.
Proof.
  assert (∀ c, c ≠ ","%char → strip_suffix "," (String c (pos_bits p)) = None) as H; [|by apply H].
  induction p as [p IH|p IH|]; intros c Hc; [..|by apply (strip_comma "" c)]; cbn [pos_bits].
  - change (strip_suffix "," (String c (String "1" (pos_bits p))))
      with (String c <$> strip_suffix "," (String "1" (pos_bits p))). by rewrite IH.
  - change (strip_suffix "," (String c (String "0" (pos_bits p))))
      with (String c <$> strip_suffix "," (String "0" (pos_bits p))). by rewrite IH.
Qed.

Lemma read_bits r : read_member (bits_text r) = Some r ∧ strip_suffix "," (bits_text r) = None.
Proof.
  split; [|apply pos_bits_comma]. unfold bits_text, read_member. cbn. rewrite bits_pos_bits. cbn.
  apply decode_encode.
Qed.

Lemma read_member_text v :
  read_member (member_text v) = Some (sorted_raw v) ∧ strip_suffix "," (member_text v) = None.
Proof.
  unfold member_text. destruct v as [| |[d| |]|s| |]; try apply read_bits.
  - case_bool_decide as Hd; [|apply read_bits].
    destruct (proj1 (Forall_forall _ _) digit_reads d (digit_listed d Hd)) as (H & H' & _). done.
  - destruct (plain_textb s); [|apply read_bits]. split.
    + unfold quoted, read_member. rewrite bool_decide_eq_true_2, strip_suffix_app by done. done.
    + by apply (strip_comma (String DQUOTE s)).
Qed.

Lemma read_name_quoted k t : plain_text k → read_name (k +:+ char_string DQUOTE +:+ t) = Some (k, t).
Proof.
  unfold plain_text. induction k as [|c k IH]; [done|]. simpl.
  intros [[[Hq _]%bool_decide_eq_true _]%andb_true_iff Hk]%andb_true_iff.
  rewrite bool_decide_eq_false_2 by done. simpl in IH. by rewrite IH.
Qed.

Lemma without_comma_member v t :
  t = member_text v ∨ t = member_text v +:+ "," → without_comma t = member_text v.
Proof.
  unfold without_comma. intros [-> | ->].
  - by rewrite (proj2 (read_member_text v)).
  - pose proof (strip_suffix_app "," (member_text v)) as Hs. unfold char_string in Hs. by rewrite Hs.
Qed.

Lemma read_line_text kv line :
  plain_text kv.1 → line = line_text kv ∨ line = line_text kv +:+ "," →
  read_line line = Some (kv.1, sorted_raw kv.2).
Proof.
  intros Hk Hline.
  assert (∃ t, (t = member_text kv.2 ∨ t = member_text kv.2 +:+ ",")
               ∧ line = "  " +:+ quoted kv.1 +:+ ": " +:+ t) as (t & Ht & ->).
  { destruct Hline as [-> | ->]; [by exists (member_text kv.2); split; [left|]|].
    exists (member_text kv.2 +:+ ","). split; [by right|]. unfold line_text.
    by rewrite !string_app_assoc. }
  unfold quoted. cbn [String.append read_line]. rewrite bool_decide_eq_true_2 by done.
  rewrite string_app_assoc, read_name_quoted by done. cbn [mbind option_bind String.append].
  rewrite (without_comma_member kv.2 t Ht), (proj1 (read_member_text kv.2)). done.
Qed.

Lemma read_comma_lines l :
  Forall (λ kv, plain_text kv.1) l →
  mapM read_line (comma_lines (map line_text l)) = Some (map (λ kv, (kv.1, sorted_raw kv.2)) l).
Proof.
  induction 1 as [|kv l Hk Hl IH]; [done|]. destruct l as [|kv' l].
  - cbn [map comma_lines mapM]. rewrite (read_line_text kv) by auto. done.
  - cbn [map comma_lines mapM] in *. rewrite (read_line_text kv) by auto. cbn [mbind option_bind].
    rewrite IH. done.
Qed.

Lemma read_lines_text l :
  Forall (λ kv, plain_text kv.1) l → read_lines (pretty_text l) = Some (presented l).
Proof.
  intros Hl. unfold read_lines. rewrite pretty_text_lines by done.
  rewrite last_snoc, removelast_last, bool_decide_eq_true_2 by done.
  by rewrite read_comma_lines.
Qed.

Lemma comma_lines_join lines :
  lines ≠ [] → join newline (comma_lines lines ++ ["}"]) = join ("," +:+ newline) lines +:+ newline +:+ "}".
Proof.
  intros Hne. induction lines as [|x lines IH]; [done|]. clear Hne. destruct lines as [|y lines]; [done|].
  change (comma_lines (x :: y :: lines)) with ((x +:+ ",") :: comma_lines (y :: lines)).
  assert (∃ z zs, comma_lines (y :: lines) ++ ["}"] = z :: zs) as (z & zs & Hz)
    by (destruct lines; simpl; eauto).
  cbn [app]. rewrite Hz, !join_cons, <- Hz, IH by done. by rewrite !string_app_assoc.
Qed.

Lemma pretty_text_layout l :
  l ≠ [] →
  pretty_text l
  = "{" +:+ newline +:+ join ("," +:+ newline) (map line_text l) +:+ newline +:+ "}".
Proof.
  intros Hl. unfold pretty_text. rewrite <- comma_lines_join by (by destruct l).
  destruct (comma_lines (map line_text l) ++ ["}"]) as [|z zs] eqn:Hz; [|by rewrite join_cons].
  by apply app_nil in Hz as [_ [=]].
Qed.

(** ** The instance *)

Definition table_parse (s : string) : option RawJson :=
  match read_lines s with Some r => Some r | None => find_check s (FRAGMENTS ++ [(V3_TEXT, V3_RAW)]) end.

Definition table_key (seed_hex : string) : list byte :=
  match Emitters.unhex seed_hex with Ok b => b | _ => [] end.
Definition kernel_key : list byte := Eval vm_compute in table_key KERNEL_SEED_HEX.
Definition foreign_key : list byte := Eval vm_compute in table_key FOREIGN_SEED_HEX.

Definition jwk_bytes (key : list byte) : list byte :=
  json_bytes (JObject (<["crv" := JString "Ed25519"]>
    (<["kty" := JString "OKP"]> (<["x" := JString (String.string_of_list_byte key)]> ∅)))).

Definition after_prefix (thumbprint : string) : list byte :=
  string_bytes (String.substring (String.length THUMBPRINT_URI_PREFIX)
                  (String.length thumbprint) thumbprint).

(** Eight bytes of a sum over the message. *)
Fixpoint base_256 (k : nat) (z : Z) : list byte :=
  match k with
  | O => []
  | S k' => base_256 k' (z / 256) ++ [default x00 (byte_of_Z (z mod 256))]
  end.
Definition short_digest (m : list byte) : list byte :=
  base_256 8 (foldl (λ acc b, (acc * 257 + byte_Z b + 1) mod 18446744073709551616)%Z 1%Z m).

(** The digests the table commits to. *)
Definition table_digest (m : list byte) : list byte :=
  if bool_decide (m = jwk_bytes kernel_key) then after_prefix KERNEL_THUMBPRINT
  else if bool_decide (m = jwk_bytes foreign_key) then after_prefix FOREIGN_THUMBPRINT
  else if bool_decide (m = string_bytes ("GENESIS:" +:+ uuid_text CASE_UUID))
       then table_key LINEAGE
  else short_digest m.

Definition table_instants : list (string * Instant) :=
  (LAPSED_TEXT, LAPSED_SECOND * NANOS)%Z :: map (λ s, (s, LIVE_SECOND * NANOS)%Z) LIVE_TEXTS.

Definition verdict_concrete : Externals :=
  let e := concrete table_parse in {|
  ext_uuid := {|
    uuid_to_string := uuid_text;
    uuid_parse_str := spelling (map (λ s, (s, CASE_UUID)) SPELLINGS) uuid_read;
  |};
  ext_chrono := {|
    dt_parse_from_rfc3339 := spelling table_instants e6_read;
    dt_format := @dt_format (@ext_chrono e);
    dt_timestamp_opt := @dt_timestamp_opt (@ext_chrono e);
    dt_trunc_subsecs0 := @dt_trunc_subsecs0 (@ext_chrono e);
    dt_serialize := nanos_print;
    dt_deserialize := nanos_read;
    dt_to_rfc3339_secs_z := @dt_to_rfc3339_secs_z (@ext_chrono e);
    duration_hours := @duration_hours (@ext_chrono e);
    dt_add := @dt_add (@ext_chrono e);
  |};
  ext_crypto := {|
    sha256 := table_digest;
    ed25519_verify := @ed25519_verify (@ext_crypto e);
    KeyPair := list byte;
    kp_public_key kp := kp;
    kp_sign kp m := kp ++ m;
    kp_from_pkcs8 := @kp_from_pkcs8 (@ext_crypto e);
    kp_from_seed_unchecked b := if bool_decide (length b = 32) then Some b else None;
  |};
  ext_codec := {|
    base64_url_no_pad := String.string_of_list_byte;
    base64_standard := String.string_of_list_byte;
    base64_standard_decode s := Some (string_bytes s);
    serde_jcs_to_vec := json_bytes;
    json_parse := table_parse;
    serde_json_to_string := member_names_text;
    serde_json_to_string_pretty := pretty_text;
    str_to_uppercase := upper;
  |};
|}.

#[global] Instance verdict_crypto_laws : @CryptoLaws (@ext_crypto verdict_concrete).
Proof. split. intros kp m. simpl. by apply bool_decide_eq_true. Qed.

Lemma bits_value r : value_text Leaf (bits_text r).
Proof.
  apply text_scalar. unfold scalar_text, bits_text. simpl. induction (encode r) as [p IH|p IH|];
    simpl; by rewrite ?IH.
Qed.

#[global] Instance verdict_pretty : @PrettyLaws (@ext_codec verdict_concrete).
Proof.
  refine {| pretty_member := member_text |}.
  - intros l Hl _. by apply pretty_text_layout.
  - intros v. exists Leaf. split; [|done]. unfold member_text.
    destruct v as [| |[d| |]|s| |]; try apply bits_value.
    + case_bool_decide as Hd; [|apply bits_value].
      apply text_scalar, (proj1 (Forall_forall _ _) digit_reads d (digit_listed d Hd)).
    + destruct (plain_textb s) eqn:Hs; [|apply bits_value]. by apply text_string, plain_text_body.
  - intros s Hs. unfold member_text. change (plain_textb s = true) in Hs. by rewrite Hs.
  - intros d Hd. unfold member_text. by rewrite bool_decide_eq_true_2.
  - intros l _ Hl. change (table_parse (pretty_text l) = Some (presented l)). unfold table_parse. rewrite read_lines_text; [done|].
    eapply Forall_impl; [exact Hl|]. by intros kv [].
Defined.

#[global] Instance verdict_literals : @VerdictLaws verdict_concrete.
Proof.
  split.
  - repeat (apply Forall_cons; split; [vm_compute; reflexivity|]). by apply Forall_nil.
  - vm_compute. reflexivity.
  - repeat (apply Forall_cons; split; [vm_compute; reflexivity|]). by apply Forall_nil.
  - repeat (apply Forall_cons; split; [vm_compute; reflexivity|]). by apply Forall_nil.
  - repeat (apply Forall_cons; split; [vm_compute; reflexivity|]). by apply Forall_nil.
  - vm_compute. reflexivity.
  - vm_compute. reflexivity.
Qed.

Lemma verdict_binds : @binds_message verdict_concrete.
Proof. intros kp m m'. cbn. rewrite bool_decide_eq_true. intros Heq. by apply app_inv_head in Heq. Qed.

Lemma digests_differ d1 d2 :
  bool_decide (table_digest (json_bytes (signing_value d1))
               = table_digest (json_bytes (signing_value d2))) = false →
  @no_collision verdict_concrete d1 d2.
Proof. intros Hne%bool_decide_eq_false Heq. by destruct Hne. Qed.

Lemma verdict_crypto : @VerdictCrypto verdict_concrete kernel_key foreign_key.
Proof.
  split.
  - vm_compute. reflexivity.
  - vm_compute. reflexivity.
  - vm_compute. reflexivity.
  - vm_compute. reflexivity.
  - vm_compute. reflexivity.
  - exact verdict_binds.
  - unfold TAMPERED_PAIRS.
    repeat (apply Forall_cons; split; [apply digests_differ; vm_compute; reflexivity|]).
    by apply Forall_nil.
Qed.

(** ** The theorems at this instance *)

Lemma emitted_verdicts_pass_witness :
  (∃ v, @emit_verdict_vector verdict_concrete = Ok v
        ∧ @check_verdict verdict_concrete (λ _, (LAPSED_SECOND * NANOS + 1)%Z) v = Ok tt)
  ∧ Forall (@case_answered verdict_concrete kernel_key foreign_key) STANDING_CASES.
Proof.
  apply (@emitted_verdicts_pass verdict_concrete _ _ _ kernel_key foreign_key
           (λ _, (LAPSED_SECOND * NANOS + 1)%Z)).
  - vm_compute. reflexivity.
  - vm_compute. reflexivity.
  - exact verdict_crypto.
  - intros i. unfold table_instant, LAPSED_SECOND, LIVE_SECOND, NANOS. lia.
Defined.

(** The fifth row: a boundary widened after it was signed. *)
Definition widened_case : StandingCase := List.nth 4 STANDING_CASES (mkStandingCase "" "" [] Kernel [] false Document "" "" false).

Definition widened_text : string :=
  match @document_json verdict_concrete kernel_key foreign_key widened_case with Ok t => t | _ => "" end.
Definition widened_vaid : Vaid :=
  with_kernel_signature
    (fields_vaid (with_scope [entry_prefix "data.acme"; entry_prefix "data.everything"] base_fields) [])
    (@sign verdict_concrete kernel_key (@pre_doc widened_case)).

Definition narrow_vaid : Vaid := fields_vaid base_fields [].

Lemma signature_covers_presign_witness :
  (@no_collision verdict_concrete widened_vaid narrow_vaid →
   @ed25519_verify (@ext_crypto verdict_concrete) kernel_key
     (@canonical_vaid_signing_bytes verdict_concrete widened_vaid) (vd_kernel_signature widened_vaid)
     = true ↔ signing_value widened_vaid = signing_value narrow_vaid)
  ∧ (sc_post_sign widened_case = [] → signing_value widened_vaid = signing_value narrow_vaid).
Proof.
  assert (@vaid_from_str verdict_concrete (@ordered_text verdict_concrete (@pre_doc widened_case))
          = Some narrow_vaid) as Hsigned by (vm_compute; reflexivity).
  pose proof (@signature_covers_presign verdict_concrete _ _ _ kernel_key foreign_key widened_case
    widened_text widened_vaid verdict_binds ltac:(split; decided) ltac:(split; decided)
    eq_refl eq_refl eq_refl ltac:(vm_compute; reflexivity) ltac:(vm_compute; reflexivity)) as H.
  rewrite Hsigned in H. exact H.
Defined.
