(* ===== verification/Issuer.v ===== *)
(** * The issuer seam and the reference issuer

    [crates/vaid-mint/src/issuer.rs], with [error.rs] and [RevocationBackend] of
    [revocation.rs].  An [Arc] shared by two fields of [ReferenceIssuer] is one
    store here: [ri_lineage] and [ri_revocation] are [None] while they alias the
    built-in store, which [revoke] and [clear_lineage] then visibly change. *)

From S2P Require Import Prelude Json Externals Concrete Identity Scope IssuerIdentity Document.
From S2P Require Import DupScan Revocation Attenuation Verify Attestation World.

Module MintError.
Inductive t : Type :=
  | Unauthorized (message : string)
  | Identity (message : string)
  | Audit (message : string)
  | Lineage (message : string)
  | Config (message : string).
End MintError.
Notation MintError := MintError.t.

(** The recommended lifetime, in hours. *)
Definition DEFAULT_VAID_TTL_HOURS : Z := 1.

(** What the mint needs of an issuer.  The issuer's own state [I] and the
    ambient effects are threaded; resolving ancestry is a read. *)
Class VaidIssuer (I : Type) := {
  issue_vaid_with_key :
    AgentClass → string → TenantId → option VaidId → list ScopeBoundaryEntry → list string →
    list byte → option string → M (I * World) MintError Vaid;
  issue_vaid_with_lineage :
    AgentClass → string → TenantId → option VaidId → list ScopeBoundaryEntry → list string →
    option string → M (I * World) MintError Vaid;
  verify_vaid : Vaid → M (I * World) MintError bool;
  resolve_delegation_ancestor : I → VaidId → ParentResolution;
}.

(** What an issuer promises of the documents it issues: they authenticate under
    its key, carry what was asked for in its domain, and are recorded. *)
Class IssuerLaws (I : Type) `{Externals} `{VaidIssuer I}
    (issuer_key : I → list byte) (issuer_domain : I → string) (ready : I → Prop) : Prop := {
  issue_with_key_ok ac ver ten par sc caps pk na i w d i' w' :
    ready i →
    issue_vaid_with_key ac ver ten par sc caps pk na (i, w) = (Ok d, (i', w')) →
    ready i' ∧ issuer_key i' = issuer_key i ∧ issuer_domain i' = issuer_domain i
    ∧ authentic (issuer_key i) d ∧ vaid_wf d
    ∧ vd_trust_domain d = issuer_domain i ∧ vd_tenant_id d = ten
    ∧ parent_vaid d = par ∧ vd_scope_boundary d = sc ∧ vd_capability_set d = caps
    ∧ vd_public_key_der d = pk
    ∧ ∀ id, resolve_delegation_ancestor i' id =
            if decide (id = vaid_id d) then
              match par with Some p => Parent p | None => Root end
            else resolve_delegation_ancestor i id;
}.

(** What a lineage store promises: a write that succeeds is read back. *)
Class LineageStoreLaws (L : Type) `{LineageStore L} : Prop := {
  try_record_ok id parent l u l' :
    try_record id parent l = (Ok u, l') →
    ∀ i, resolve_parent l' i =
         if decide (i = id) then match parent with Some p => Parent p | None => Root end
         else resolve_parent l i;
}.

#[global] Instance in_memory_lineage_laws : LineageStoreLaws InMemoryLineageStore.
Proof.
  split. intros id parent l u l' Hrec.
  destruct (in_memory_record_resolve l id parent) as (s' & Hs & Hres).
  rewrite Hs in Hrec. by simplify_eq.
Qed.

Section Effects.
  Context {I : Type}.
  (** Effects on the issuer's state and on the world. *)
Definition on_world {E A} (m : M World E A) : M (I * World) E A :=
  zoom snd (λ w s, (s.1, w)) m.
Definition on_issuer {E A} (m : M I E A) : M (I * World) E A :=
  zoom fst (λ i s, (i, s.2)) m.
End Effects.

Section Issuer.
  Context {Ext : Externals}.

Definition whole_second_now {E} : M World E Instant :=
  let! now := utc_now in mret (dt_trunc_subsecs0 now).

Section Reference.
  Context {R L : Type} `{RC : RevocationCheck R} `{LS : LineageStore L}.

Record RevocationBackend : Type := RevocationBackend_new {
  backend_check : R;
  backend_lineage : L;
}.

Record ReferenceIssuer : Type := mkReferenceIssuer {
  ri_kernel_key_pair : KeyPair;
  ri_vaid_ttl_hours : Z;
  ri_trust_domain : string;
  ri_lineage : option L;
  ri_default_lineage : InMemoryLineageStore;
  ri_revocation : option R;
  ri_default_store : InMemoryRevocationList;
}.

Definition kernel_public_key (i : ReferenceIssuer) : list byte :=
  kp_public_key (ri_kernel_key_pair i).
Definition issuer_kernel_key_thumbprint (i : ReferenceIssuer) : string :=
  kernel_key_thumbprint (kernel_public_key i).

  (** ** Construction *)

Definition checked_trust_domain (trust_domain : string) : Outcome MintError string :=
  if negb (is_valid_trust_domain trust_domain) then
    Err (MintError.Identity ("trust_domain " +:+ trust_domain +:+ " is not well-formed (ADR-0004)"))
  else Ok trust_domain.

Definition with_key (kernel_key_pair : KeyPair) (vaid_ttl_hours : Z) (trust_domain : string)
    : ReferenceIssuer := {|
  ri_kernel_key_pair := kernel_key_pair;
  ri_vaid_ttl_hours := vaid_ttl_hours;
  ri_trust_domain := trust_domain;
  ri_lineage := None;
  ri_default_lineage := lineage_store_new;
  ri_revocation := None;
  ri_default_store := revocation_list_new;
|}.

Definition from_pkcs8 (pkcs8 : list byte) (vaid_ttl_hours : Z) (trust_domain : string)
    : Outcome MintError ReferenceIssuer :=
  match checked_trust_domain trust_domain with
  | Ok trust_domain =>
      match kp_from_pkcs8 pkcs8 with
      | Some kernel_key_pair => Ok (with_key kernel_key_pair vaid_ttl_hours trust_domain)
      | None => Err (MintError.Identity "kernel key parse failed")
      end
  | Err e => Err e
  | Panicked => Panicked
  end.

Definition from_seed (seed : list byte) (vaid_ttl_hours : Z) (trust_domain : string)
    : Outcome MintError ReferenceIssuer :=
  match checked_trust_domain trust_domain with
  | Ok trust_domain =>
      match kp_from_seed_unchecked seed with
      | Some kernel_key_pair => Ok (with_key kernel_key_pair vaid_ttl_hours trust_domain)
      | None => Err (MintError.Identity "kernel seed parse failed")
      end
  | Err e => Err e
  | Panicked => Panicked
  end.

Definition ephemeral (vaid_ttl_hours : Z) (trust_domain : string)
    : M World MintError ReferenceIssuer :=
  let! pkcs8 := random_bytes in
  match pkcs8 with
  | None => mthrow (MintError.Identity "kernel key generation failed")
  | Some pkcs8 => mliftO (from_pkcs8 pkcs8 vaid_ttl_hours trust_domain)
  end.

Definition with_revocation_backend (i : ReferenceIssuer) (backend : RevocationBackend)
    : ReferenceIssuer := {|
  ri_kernel_key_pair := ri_kernel_key_pair i;
  ri_vaid_ttl_hours := ri_vaid_ttl_hours i;
  ri_trust_domain := ri_trust_domain i;
  ri_lineage := Some (backend_lineage backend);
  ri_default_lineage := ri_default_lineage i;
  ri_revocation := Some (backend_check backend);
  ri_default_store := ri_default_store i;
|}.

  (** Both [revocation] and [default_store] become one fresh vouching store. *)
Definition assuming_nothing_revoked (i : ReferenceIssuer) : ReferenceIssuer := {|
  ri_kernel_key_pair := ri_kernel_key_pair i;
  ri_vaid_ttl_hours := ri_vaid_ttl_hours i;
  ri_trust_domain := ri_trust_domain i;
  ri_lineage := ri_lineage i;
  ri_default_lineage := ri_default_lineage i;
  ri_revocation := None;
  ri_default_store := assume_nothing_revoked;
|}.

  (** ** Revocation and lineage *)

Definition set_default_store (i : ReferenceIssuer) (s : InMemoryRevocationList)
    : ReferenceIssuer := {|
  ri_kernel_key_pair := ri_kernel_key_pair i;
  ri_vaid_ttl_hours := ri_vaid_ttl_hours i;
  ri_trust_domain := ri_trust_domain i;
  ri_lineage := ri_lineage i;
  ri_default_lineage := ri_default_lineage i;
  ri_revocation := ri_revocation i;
  ri_default_store := s;
|}.

Definition set_lineage (i : ReferenceIssuer) (injected : option L) (s : InMemoryLineageStore)
    : ReferenceIssuer := {|
  ri_kernel_key_pair := ri_kernel_key_pair i;
  ri_vaid_ttl_hours := ri_vaid_ttl_hours i;
  ri_trust_domain := ri_trust_domain i;
  ri_lineage := injected;
  ri_default_lineage := s;
  ri_revocation := ri_revocation i;
  ri_default_store := ri_default_store i;
|}.

Definition revoke (i : ReferenceIssuer) (vaid_id : VaidId) : ReferenceIssuer :=
  set_default_store i (list_revoke vaid_id (ri_default_store i)).

Definition clear_lineage (i : ReferenceIssuer) : ReferenceIssuer :=
  set_lineage i (ri_lineage i) (lineage_clear (ri_default_lineage i)).

  (** [self.lineage]: the injected store, or the built-in one it aliases. *)
#[global] Instance issuer_resolver : LineageResolver ReferenceIssuer :=
  λ i vaid_id,
    match ri_lineage i with
    | Some l => resolve_parent l vaid_id
    | None => resolve_parent (ri_default_lineage i) vaid_id
    end.

Definition issuer_try_record (vaid_id : VaidId) (parent : option VaidId)
    : M ReferenceIssuer LineageWriteError unit := λ i,
  match ri_lineage i with
  | Some l =>
      let '(r, l') := try_record vaid_id parent l in (r, set_lineage i (Some l') (ri_default_lineage i))
  | None =>
      let '(r, s) := try_record vaid_id parent (ri_default_lineage i) in (r, set_lineage i None s)
  end.

Definition issuer_check_lineage (i : ReferenceIssuer) (lineage : list VaidId) : RevocationStatus :=
  match ri_revocation i with
  | Some check => check_lineage check lineage
  | None => check_lineage (ri_default_store i) lineage
  end.

Definition revocation_status (i : ReferenceIssuer) (d : Vaid) : RevocationStatus :=
  match assemble_lineage d i with
  | Incomplete => Unavailable
  | Complete lineage => issuer_check_lineage i lineage
  end.

  (** ** Issuing *)

  (** [now + Duration::hours(ttl)], both of which can panic. *)
Definition ttl_expiry {S} (now : Instant) (hours : Z) : M S MintError Instant :=
  match duration_hours hours ≫= dt_add now with
  | Some t => mret t
  | None => mpanic
  end.

Definition clamp {S} (expires : Instant) (not_after : option string) : M S MintError Instant :=
  match not_after with
  | None => mret expires
  | Some ceiling =>
      match parse_rfc3339 ceiling with
      | Some cap => mret (Z.min expires cap)
      | None =>
          mthrow (MintError.Unauthorized
            ("not_after '" +:+ ceiling +:+ "' is not a readable RFC 3339 timestamp — an expiry ceiling that cannot be read bounds nothing"))
      end
  end.

Definition sign_document (i : ReferenceIssuer) (unsigned : Vaid) : Vaid :=
  with_kernel_signature unsigned
    (kp_sign (ri_kernel_key_pair i) (canonical_vaid_signing_bytes unsigned)).

  (** [try_record(..).map_err(|e| MintError::Lineage(..))] *)
Definition record_minted (vaid_id : VaidId) (parent : option VaidId)
    : M ReferenceIssuer MintError unit := λ i,
  match issuer_try_record vaid_id parent i with
  | (Ok u, i') => (Ok u, i')
  | (Err e, i') => (Err (MintError.Lineage ("lineage write failed: " +:+ lineage_write_message e)), i')
  | (Panicked, i') => (Panicked, i')
  end.

Definition build_and_sign_vaid (agent_class : AgentClass) (version : string) (tenant_id : TenantId)
    (parent : option VaidId) (scope_boundary : list ScopeBoundaryEntry)
    (capability_set : list string) (public_key_der : list byte) (not_after : option string)
    : M (ReferenceIssuer * World) MintError Vaid :=
  let! agent_id := on_world AgentId_new in
  let! now := on_world whole_second_now in
  let! s := mget in
  let! expires := ttl_expiry now (ri_vaid_ttl_hours s.1) in
  let! expires := clamp expires not_after in
  let lineage_hash := compute_lineage_hash parent agent_id in
  let unsigned :=
    with_lineage agent_id agent_class version tenant_id now expires public_key_der [] parent
      scope_boundary lineage_hash capability_set (ri_trust_domain s.1)
      (issuer_kernel_key_thumbprint s.1) in
  let d := sign_document s.1 unsigned in
  on_issuer (record_minted (vaid_id d) parent) ;;!
  mret d.

Definition issuer_issue_with_lineage (agent_class : AgentClass) (version : string)
    (tenant_id : TenantId) (parent : option VaidId) (scope_boundary : list ScopeBoundaryEntry)
    (capability_set : list string) (not_after : option string)
    : M (ReferenceIssuer * World) MintError Vaid :=
  let! agent_pkcs8 := on_world random_bytes in
  match agent_pkcs8 with
  | None => mthrow (MintError.Identity "agent key generation failed")
  | Some agent_pkcs8 =>
      match kp_from_pkcs8 agent_pkcs8 with
      | None => mthrow (MintError.Identity "agent key parse failed")
      | Some agent_key =>
          build_and_sign_vaid agent_class version tenant_id parent scope_boundary capability_set
            (kp_public_key agent_key) not_after
      end
  end.

Definition issuer_verify_vaid (d : Vaid) : M (ReferenceIssuer * World) MintError bool :=
  if bool_decide (sig_version d ≠ VAID_SIG_VERSION_V4) then mret false
  else
    let! now := on_world utc_now in
    if is_expired_at d now then mret false
    else
      let! s := mget in
      match revocation_status s.1 d with
      | Revoked | Unavailable => mret false
      | NotRevoked =>
          mret (ed25519_verify (kernel_public_key s.1) (canonical_vaid_signing_bytes d)
                  (vd_kernel_signature d))
      end.

#[global] Instance reference_issuer : VaidIssuer ReferenceIssuer := {|
  issue_vaid_with_key := build_and_sign_vaid;
  issue_vaid_with_lineage := issuer_issue_with_lineage;
  verify_vaid := issuer_verify_vaid;
  resolve_delegation_ancestor := resolve_parent;
|}.

Definition attest_delegation (parent_vaid child_vaid : VaidId)
    (child_trust_domain child_tenant_id : string) (expires_at : Instant)
    (scope_boundary : list ScopeBoundaryEntry) (capability_set : list string)
    : M (ReferenceIssuer * World) MintError ConsentAttestation :=
  let! now := on_world whole_second_now in
  let! s := mget in
  let unsigned :=
    att_new parent_vaid child_vaid child_trust_domain child_tenant_id now
      (dt_trunc_subsecs0 expires_at) scope_boundary capability_set (ri_trust_domain s.1)
      (kernel_key_thumbprint (kernel_public_key s.1)) in
  mret (att_with_signature unsigned
          (kp_sign (ri_kernel_key_pair s.1) (canonical_attestation_signing_bytes unsigned))).

(** ** Lemmas *)

(** An issuer the constructors can build: its trust domain is well formed. *)
Definition issuer_wf (i : ReferenceIssuer) : Prop :=
  is_valid_trust_domain (ri_trust_domain i) = true.

Lemma from_pkcs8_wf pkcs8 ttl td i : from_pkcs8 pkcs8 ttl td = Ok i → issuer_wf i.
Proof.
  unfold from_pkcs8, checked_trust_domain, issuer_wf. intros H. cases H. by bool_hyps.
Qed.

Lemma from_seed_wf seed ttl td i : from_seed seed ttl td = Ok i → issuer_wf i.
Proof.
  unfold from_seed, checked_trust_domain, issuer_wf. intros H. cases H. by bool_hyps.
Qed.

(** A document signed over its own canonical bytes, as [build_and_sign_vaid]
    makes it, authenticates under the issuer's key. *)
Lemma sign_document_authentic `{!ExternalLaws} (i : ReferenceIssuer) aid ac ver ten iss exp pk par
    sc caps :
  issuer_wf i →
  let d := sign_document i
    (with_lineage aid ac ver ten iss exp pk [] par sc (compute_lineage_hash par aid) caps
       (ri_trust_domain i) (issuer_kernel_key_thumbprint i)) in
  authentic (kernel_public_key i) d ∧ vaid_wf d ∧ parent_vaid d = par.
Proof.
  intros Hwf d.
  assert (parent_vaid d = par ∧ agent_id d = aid) as [Hp Ha].
  { unfold d, parent_vaid, agent_id. simpl. destruct par as [[]|], aid; done. }
  split_and!; [|apply vaid_wf_with_signature, with_lineage_wf|done].
  split; try done.
  - unfold verify_lineage_hash. rewrite Hp, Ha. by apply bool_decide_eq_true.
  - unfold d, sign_document. rewrite canonical_with_signature by apply with_lineage_wf.
    apply ed25519_verify_sign.
Qed.

Lemma ttl_expiry_ok {S} now hours t (s s' : S) :
  ttl_expiry now hours s = (Ok t, s') →
  s' = s ∧ ∃ ttl, duration_hours hours = Some ttl ∧ dt_add now ttl = Some t.
Proof.
  unfold ttl_expiry. destruct (duration_hours hours ≫= _) as [t'|] eqn:Hadd; [|done].
  apply bind_Some in Hadd as (ttl & Hdur & Hadd). unfold mret. intros [= <- <-]. eauto.
Qed.

(** The ceiling, where there is one, is readable and bounds the result. *)
Lemma clamp_ok {S} expires na t (s s' : S) :
  clamp expires na s = (Ok t, s') →
  s' = s ∧ (t ≤ expires)%Z
  ∧ match na with
    | None => t = expires
    | Some c => ∃ cap, parse_rfc3339 c = Some cap ∧ t = Z.min expires cap
    end.
Proof.
  unfold clamp. destruct na as [c|]; [|by intros [= <- <-]].
  destruct (parse_rfc3339 c) as [cap|]; [|done]. intros [= <- <-]. split_and!; [done|lia|eauto].
Qed.

Lemma record_minted_ok id par i u i' :
  record_minted id par i = (Ok u, i') → issuer_try_record id par i = (Ok u, i').
Proof. unfold record_minted. destruct (issuer_try_record _ _ _) as [[|e|] ?]; naive_solver. Qed.

(** The document an issue builds before it is recorded. *)
Definition minted (i : ReferenceIssuer) (aid : AgentId) (ac : AgentClass) (ver : string)
    (ten : TenantId) (now expires : Instant) (pk : list byte) (par : option VaidId)
    (sc : list ScopeBoundaryEntry) (caps : list string) : Vaid :=
  sign_document i
    (with_lineage aid ac ver ten now expires pk [] par sc (compute_lineage_hash par aid) caps
       (ri_trust_domain i) (issuer_kernel_key_thumbprint i)).

(** What a successful issue did, step by step. *)
Lemma build_and_sign_ok ac ver ten par sc caps pk na i w d i' w' :
  build_and_sign_vaid ac ver ten par sc caps pk na (i, w) = (Ok d, (i', w')) →
  ∃ aid now ttl t exp,
    now = dt_trunc_subsecs0 (w_clock w (w_clock_reads w))
    ∧ duration_hours (ri_vaid_ttl_hours i) = Some ttl ∧ dt_add now ttl = Some t
    ∧ (exp ≤ t)%Z
    ∧ match na with
      | None => exp = t
      | Some c => ∃ cap, parse_rfc3339 c = Some cap ∧ exp = Z.min t cap
      end
    ∧ d = minted i aid ac ver ten now exp pk par sc caps
    ∧ issuer_try_record (vaid_id d) par i = (Ok tt, i').
Proof.
  unfold build_and_sign_vaid. intros H. do 5 run_ok H.
  match goal with H : ttl_expiry _ _ _ = _ |- _ =>
    apply ttl_expiry_ok in H as (-> & ttl & Hdur & Hadd) end.
  match goal with H : clamp _ _ _ = _ |- _ => apply clamp_ok in H as (-> & Hle & Hna) end.
  run_ok H. unfold on_issuer, on_world, zoom, whole_second_now, AgentId_new, uuid_new_v4, utc_now,
    mget, mret, mbindM in *. simplify_eq/=.
  destruct (record_minted _ _ _) as [r i1] eqn:Hrec. simplify_eq/=.
  apply record_minted_ok in Hrec as Hrec'.
  repeat match goal with u : () |- _ => destruct u end.
  eexists _, _, _, _, _. split_and!; try done.
Qed.

Lemma issuer_try_record_ok {Laws : LineageStoreLaws L} id par i u i' :
  issuer_try_record id par i = (Ok u, i') →
  ri_kernel_key_pair i' = ri_kernel_key_pair i ∧ ri_trust_domain i' = ri_trust_domain i
  ∧ ri_vaid_ttl_hours i' = ri_vaid_ttl_hours i
  ∧ ri_revocation i' = ri_revocation i ∧ ri_default_store i' = ri_default_store i
  ∧ ∀ x, resolve_parent i' x =
         if decide (x = id) then match par with Some p => Parent p | None => Root end
         else resolve_parent i x.
Proof.
  unfold issuer_try_record, resolve_parent, issuer_resolver.
  destruct (ri_lineage i) as [l|].
  - destruct (try_record id par l) as [r l'] eqn:Hrec. intros [= -> <-]. simpl.
    split_and!; try done. by apply (try_record_ok _ _ _ u).
  - destruct (try_record id par (ri_default_lineage i)) as [r l'] eqn:Hrec. intros [= -> <-]. simpl.
    split_and!; try done. exact (try_record_ok (L := InMemoryLineageStore) _ _ _ _ _ Hrec).
Qed.

#[global] Instance reference_issuer_laws {Laws : ExternalLaws} {SL : LineageStoreLaws L} :
  IssuerLaws ReferenceIssuer kernel_public_key ri_trust_domain issuer_wf.
Proof.
  split. intros ac ver ten par sc caps pk na i w d i' w' Hwf H.
  cbn [issue_vaid_with_key reference_issuer] in H.
  apply build_and_sign_ok in H as (aid & now & ttl & t & exp & _ & _ & _ & _ & _ & -> & Hrec).
  apply issuer_try_record_ok in Hrec as (Hk & Htd & _ & _ & _ & Hres).
  destruct (sign_document_authentic i aid ac ver ten now exp pk par sc caps Hwf)
    as (Ha & Hw & Hp).
  unfold kernel_public_key, issuer_wf. rewrite Hk, Htd. by split_and!.
Qed.

(** ** Revocation through the issuer *)

Lemma revocation_status_complete i d lineage :
  assemble_lineage d i = Complete lineage →
  revocation_status i d = issuer_check_lineage i lineage.
Proof. unfold revocation_status. by intros ->. Qed.

Lemma lineage_has_leaf (i : ReferenceIssuer) d lineage :
  assemble_lineage d i = Complete lineage → vaid_id d ∈ lineage.
Proof.
  intros H. apply assemble_lineage_complete in H as (up & _ & -> & _ & _).
  apply elem_of_reverse. left.
Qed.

Lemma assemble_revoke i id d : assemble_lineage d (revoke i id) = assemble_lineage d i.
Proof. by apply assemble_ext. Qed.

Lemma issuer_verify_ok d i w b s' :
  issuer_verify_vaid d (i, w) = (Ok b, s') →
  b = true ↔
  vd_sig_version d = VAID_SIG_VERSION_V4
  ∧ is_expired_at d (w_clock w (w_clock_reads w)) = false
  ∧ revocation_status i d = NotRevoked
  ∧ ed25519_verify (kernel_public_key i) (canonical_vaid_signing_bytes d) (vd_kernel_signature d)
    = true.
Proof.
  unfold issuer_verify_vaid, sig_version, on_world, zoom, utc_now, mget, mret, mbindM.
  case_bool_decide as Hv; [intros [= <- <-]; naive_solver|].
  simpl. destruct (is_expired_at d _) eqn:He; [intros [= <- <-]; naive_solver|].
  cbn [fst]. destruct (revocation_status i d) eqn:Hr; intros Hrun; simplify_eq; naive_solver.
Qed.

(** C19. The issuer's own verification, exactly: it never fails, reads the clock
    at most once, changes nothing else, and answers yes exactly for a document
    of the current version, unexpired at that reading, known not to be revoked
    over its whole lineage, and signed by the issuer's key. *)
Theorem issuer_verify_spec (d : Vaid) (i : ReferenceIssuer) (w : World) :
  ∃ b w', issuer_verify_vaid d (i, w) = (Ok b, (i, w'))
  ∧ w_clock w' = w_clock w ∧ w_clock_reads w' ≤ S (w_clock_reads w)
  ∧ (b = true ↔
     vd_sig_version d = VAID_SIG_VERSION_V4
     ∧ is_expired_at d (w_clock w (w_clock_reads w)) = false
     ∧ revocation_status i d = NotRevoked
     ∧ ed25519_verify (kernel_public_key i) (canonical_vaid_signing_bytes d)
         (vd_kernel_signature d) = true).
Proof.
  destruct (issuer_verify_vaid d (i, w)) as [r s'] eqn:Hrun.
  assert (∃ b w', r = Ok b ∧ s' = (i, w') ∧ w_clock w' = w_clock w
                  ∧ w_clock_reads w' ≤ S (w_clock_reads w)) as (b & w' & -> & -> & Hc & Hr).
  { revert Hrun. unfold issuer_verify_vaid, on_world, zoom, utc_now, mget, mret, mbindM.
    repeat (case_match; simplify_eq/=); intros; simplify_eq; eexists _, _; split_and!; eauto. }
  exists b, w'. split_and!; try done. by eapply issuer_verify_ok.
Qed.

(** C17. Revoking an ancestor revokes its descendants: once an id is revoked in the
    built-in store, every document whose complete lineage holds that id (the
    document itself included) has the revoked status and fails verification; a
    document whose lineage avoids the id is answered as the store answered
    before, by the ids it already listed, except that a store which vouched for
    nothing (and answered unavailable) becomes, with its first revocation, a list
    of the revoked, and answers not revoked for the rest. *)
Theorem revoke_descendants (i : ReferenceIssuer) (id : VaidId) (d : Vaid) (lineage : list VaidId)
    (w : World) (Hdefault : ri_revocation i = None)
    (Hlineage : assemble_lineage d i = Complete lineage) :
  revocation_status (revoke i id) d
    = (if bool_decide (id ∈ lineage) then Revoked
       else match ri_default_store i with
            | Some revoked =>
                if existsb (λ x, bool_decide (x ∈ revoked)) lineage then Revoked else NotRevoked
            | None => NotRevoked
            end)
  ∧ (id ∈ lineage → ∃ w', issuer_verify_vaid d (revoke i id, w) = (Ok false, (revoke i id, w'))).
Proof.
  assert (revocation_status (revoke i id) d
    = (if bool_decide (id ∈ lineage) then Revoked
       else match ri_default_store i with
            | Some revoked =>
                if existsb (λ x, bool_decide (x ∈ revoked)) lineage then Revoked else NotRevoked
            | None => NotRevoked
            end)) as Hst.
  { rewrite (revocation_status_complete _ _ lineage) by by rewrite assemble_revoke.
    unfold issuer_check_lineage, revoke. simpl. rewrite Hdefault.
    unfold check_lineage, in_memory_check, list_revoke.
    destruct (existsb _ lineage) eqn:E.
    - apply existsb_Exists_true, Exists_exists in E as (x & Hx & Hin%bool_decide_eq_true).
      apply elem_of_union in Hin as [->%elem_of_singleton|Hin]; [by rewrite bool_decide_eq_true_2|].
      case_bool_decide; [done|]. destruct (ri_default_store i) as [revoked|]; [|done].
      assert (existsb (λ y, bool_decide (y ∈ revoked)) lineage = true) as ->; [|done].
      apply existsb_Exists_true, Exists_exists. exists x. by rewrite bool_decide_eq_true.
    - assert (∀ x, x ∈ lineage → x ∉ {[id]} ∪ default ∅ (ri_default_store i)) as Hno.
      { intros x Hx Hin. apply not_true_iff_false in E. apply E, existsb_Exists_true, Exists_exists.
        exists x. by rewrite bool_decide_eq_true. }
      rewrite bool_decide_eq_false_2 by set_solver.
      destruct (ri_default_store i) as [revoked|]; [|done].
      destruct (existsb (λ x, bool_decide (x ∈ revoked)) lineage) eqn:E'; [|done].
      apply existsb_Exists_true, Exists_exists in E' as (x & Hx & Hin%bool_decide_eq_true).
      exfalso. apply (Hno x Hx). simpl. set_solver. }
  split; [done|]. intros Hin. rewrite bool_decide_eq_true_2 in Hst by done.
  unfold issuer_verify_vaid, on_world, zoom, utc_now, mget, mret, mbindM.
  case_bool_decide; [by eexists|]. simpl. destruct (is_expired_at d _); [by eexists|]. cbn [fst].
  rewrite Hst. by eexists.
Qed.

(** C18. Verification fails closed by default: an issuer as constructed, and any
    issuer whose lineage store has been cleared, answers unavailable (for every
    document, respectively every document with a parent) and verification
    answers no, with no error and no vouching. *)
Theorem issuer_fails_closed (d : Vaid) (w : World) (kp : KeyPair) (ttl : Z) (domain : string)
    (i : ReferenceIssuer) :
  let fresh := with_key kp ttl domain in
  revocation_status fresh d = Unavailable
  ∧ (ri_lineage i = None → parent_vaid d ≠ None →
     revocation_status (clear_lineage i) d = Unavailable)
  ∧ (∀ j, revocation_status j d = Unavailable →
     ∃ w', issuer_verify_vaid d (j, w) = (Ok false, (j, w'))).
Proof.
  cbn zeta. split_and!.
  - unfold revocation_status. by destruct (assemble_lineage d _).
  - intros Hl Hp. unfold revocation_status.
    destruct (assemble_lineage d (clear_lineage i)) as [c|] eqn:E; [|done].
    apply assemble_lineage_complete in E as (up & Hup & _).
    destruct (parent_vaid d) as [p|]; [|done]. inversion Hup as [|? ? ? Hk]; subst.
    unfold resolve_parent, issuer_resolver, clear_lineage in Hk. simpl in Hk.
    rewrite Hl in Hk. done.
  - intros j Hst. unfold issuer_verify_vaid, on_world, zoom, utc_now, mget, mret, mbindM.
    case_bool_decide; [by eexists|]. simpl. destruct (is_expired_at d _); [by eexists|]. cbn [fst].
    rewrite Hst. by eexists.
Qed.

(** Asking to assume that nothing is revoked discards an injected revocation
    check: after installing a backend, the vouching store alone answers, whatever
    the backend's check holds, while the lineage stays the backend's. *)
Theorem vouching_replaces_injected_check (i : ReferenceIssuer) (b : RevocationBackend)
    (lineage : list VaidId) :
  let j := assuming_nothing_revoked (with_revocation_backend i b) in
  issuer_check_lineage j lineage = NotRevoked
  ∧ ri_lineage j = Some (backend_lineage b).
Proof.
  split; [|done]. unfold issuer_check_lineage. simpl. apply check_in_memory_spec.
  exists ∅. split; [done|]. set_solver.
Qed.

(** C25. The expiry an issuer stamps: an issued document's timestamps are in the
    E.6 profile, it expires no later than the configured lifetime after the
    (whole-second) issuing instant, and no later than the ceiling it was given,
    as a verifier will read them back. *)
Theorem issued_expiry_bounded {Laws : ChronoLaws} ac ver ten par sc caps pk na i w d i' w'
    (Hissue : build_and_sign_vaid ac ver ten par sc caps pk na (i, w) = (Ok d, (i', w')))
    (Hnow : four_digit_year (dt_trunc_subsecs0 (w_clock w (w_clock_reads w))))
    (Hend : ∀ ttl t, duration_hours (ri_vaid_ttl_hours i) = Some ttl →
            dt_add (dt_trunc_subsecs0 (w_clock w (w_clock_reads w))) ttl = Some t →
            four_digit_year t)
    (Hcap : ∀ c cap, na = Some c → parse_rfc3339 c = Some cap → four_digit_year cap) :
  ∃ issued expires,
    issued_at d = Some issued ∧ expires_at d = Some expires
    ∧ has_conforming_timestamps d = true
    ∧ issued = dt_trunc_subsecs0 (w_clock w (w_clock_reads w))
    ∧ (expires ≤ issued + ri_vaid_ttl_hours i * 3600 * NANOS)%Z
    ∧ ∀ c cap, na = Some c → parse_rfc3339 c = Some cap → (expires ≤ cap)%Z.
Proof.
  apply build_and_sign_ok in Hissue
    as (aid & now & ttl & t & exp & Enow & Httl & Hadd & Hle & Hna & -> & _).
  rewrite <- Enow in *. pose proof (Hend _ _ Httl Hadd) as Ht.
  pose proof (dt_add_some _ _ _ Hadd) as Et. rewrite duration_hours_spec in Httl.
  assert (four_digit_year exp ∧ ∀ c cap, na = Some c → parse_rfc3339 c = Some cap → (exp ≤ cap)%Z)
    as [Hexp Hbound].
  { destruct na as [c|]; [|subst exp; by split].
    destruct Hna as (cap & Hc & ->). split.
    - destruct (Z.min_spec t cap) as [[_ ->]|[_ ->]]; eauto.
    - intros c' cap' [= <-] Hc'. simplify_eq. lia. }
  assert (now mod NANOS = 0)%Z as Hwhole.
  { rewrite Enow, dt_trunc_spec. unfold NANOS.
    rewrite Zminus_mod, Zmod_mod, Z.sub_diag. done. }
  pose proof (Z.mod_pos_bound exp NANOS ltac:(done)) as Hm.
  exists now, (exp - exp mod NANOS)%Z. split_and!.
  - apply (parse_format_whole now); done.
  - by apply (parse_format_e6 exp).
  - unfold has_conforming_timestamps. simpl. by rewrite !format_e6_profile.
  - done.
  - case_decide; simplify_eq. unfold NANOS in *. lia.
  - intros c cap Hc Hp. specialize (Hbound _ _ Hc Hp). lia.
Qed.

(** A consent the issuer signs is its own and verifies: for any hop, the
    attestation names that hop and identity, carries the issuer's domain and
    key, starts and ends on whole seconds no later than asked, and
    authenticates under the issuer's key. *)
Theorem attest_delegation_authentic {Laws : ExternalLaws} (parent child : VaidId)
    (domain tenant : string) (expires : Instant) (sc : list ScopeBoundaryEntry)
    (caps : list string) (i : ReferenceIssuer) (w : World) (Hwf : issuer_wf i) :
  ∃ a w', attest_delegation parent child domain tenant expires sc caps (i, w) = (Ok a, (i, w'))
  ∧ verify_attestation_authenticity (kernel_public_key i) a = true
  ∧ att_hop a = (parent, child)
  ∧ att_child_trust_domain a = domain ∧ att_child_tenant_id a = tenant
  ∧ att_trust_domain a = ri_trust_domain i
  ∧ (att_issued_at a mod NANOS = 0)%Z ∧ (att_expires_at a mod NANOS = 0)%Z
  ∧ (expires - NANOS < att_expires_at a ≤ expires)%Z.
Proof.
  eexists _, _. split; [reflexivity|]. simpl. rewrite !dt_trunc_spec.
  assert (∀ t, (t - t mod NANOS) mod NANOS = 0)%Z as Hm.
  { intros t. rewrite Zminus_mod, Zmod_mod, Z.sub_diag. done. }
  split_and!; try done.
  - apply attestation_authentic_spec. split_and!; try done.
    rewrite canonical_att_with_signature. apply ed25519_verify_sign.
  - pose proof (Z.mod_pos_bound expires NANOS ltac:(done)). lia.
  - pose proof (Z.mod_pos_bound expires NANOS ltac:(done)). lia.
Qed.

End Reference.
End Issuer.

(** ** Witnesses *)

Module IssuerSamples.

#[local] Instance samples : Externals := concrete no_json.

Definition issuer : ReferenceIssuer (R := InMemoryRevocationList) (L := InMemoryLineageStore) :=
  assuming_nothing_revoked (with_key (string_bytes "kernel-a" : KeyPair) 1 "a.example").

Definition world : World :=
  mkWorld (λ n, (50 * NANOS + 7)%Z) 0 (λ n, N.of_nat (n + 10)) 0 (λ _, None) 0.

Definition issued : Outcome MintError Vaid * (ReferenceIssuer * World) :=
  build_and_sign_vaid (mkAgentClass "worker") "1" (mkTenantId "acme") None [entry_prefix "data"]
    ["read"] [] (Some "0000-00-00T00:01:05Z") (issuer, world).
Definition issued_doc : Vaid := match issued.1 with Ok d => d | _ => sample_doc end.

Lemma issued_run :
  build_and_sign_vaid (mkAgentClass "worker") "1" (mkTenantId "acme") None [entry_prefix "data"]
    ["read"] [] (Some "0000-00-00T00:01:05Z") (issuer, world)
  = (Ok issued_doc, (issued.2.1, issued.2.2)).
Proof.
  change (issued = (Ok issued_doc, (issued.2.1, issued.2.2))).
  assert (match issued.1 with Ok _ => true | _ => false end = true) as H
    by (vm_compute; reflexivity).
  unfold issued_doc. by destruct issued as [[| |] []].
Qed.

Lemma issued_expiry_bounded_witness :
  ∃ t expires,
    issued_at issued_doc = Some t ∧ expires_at issued_doc = Some expires
    ∧ has_conforming_timestamps issued_doc = true
    ∧ t = dt_trunc_subsecs0 (w_clock world (w_clock_reads world))
    ∧ (expires ≤ t + 1 * 3600 * NANOS)%Z
    ∧ ∀ c cap, Some "0000-00-00T00:01:05Z" = Some c → parse_rfc3339 c = Some cap →
               (expires ≤ cap)%Z.
Proof.
  apply (issued_expiry_bounded _ _ _ _ _ _ _ _ _ _ _ _ _ issued_run).
  - by apply (bool_decide_unpack (four_digit_year _)).
  - intros ttl t Httl Ht. vm_compute in Httl. injection Httl as <-. vm_compute in Ht.
    injection Ht as <-. by apply (bool_decide_unpack (four_digit_year _)).
  - intros c cap Hc Hp. assert (c = "0000-00-00T00:01:05Z") as -> by congruence.
    vm_compute in Hp. injection Hp as <-. by apply (bool_decide_unpack (four_digit_year _)).
Defined.

Lemma attest_delegation_authentic_witness :
  ∃ a w', attest_delegation (VaidId_from_uuid 1%N) (VaidId_from_uuid 2%N) "b.example" "acme"
            (99 * NANOS + 5)%Z [] ["read"] (issuer, world) = (Ok a, (issuer, w'))
  ∧ verify_attestation_authenticity (kernel_public_key issuer) a = true
  ∧ att_hop a = (VaidId_from_uuid 1%N, VaidId_from_uuid 2%N)
  ∧ att_child_trust_domain a = "b.example" ∧ att_child_tenant_id a = "acme"
  ∧ att_trust_domain a = ri_trust_domain issuer
  ∧ (att_issued_at a mod NANOS = 0)%Z ∧ (att_expires_at a mod NANOS = 0)%Z
  ∧ (99 * NANOS + 5 - NANOS < att_expires_at a ≤ 99 * NANOS + 5)%Z.
Proof. apply attest_delegation_authentic. vm_compute. reflexivity. Defined.

(** The issued root, revoked. *)
Lemma revoke_descendants_witness :
  revocation_status (revoke issued.2.1 (vaid_id issued_doc)) issued_doc
    = (if bool_decide (vaid_id issued_doc ∈ [vaid_id issued_doc]) then Revoked
       else match ri_default_store issued.2.1 with
            | Some revoked =>
                if existsb (λ x, bool_decide (x ∈ revoked)) [vaid_id issued_doc]
                then Revoked else NotRevoked
            | None => NotRevoked
            end)
  ∧ (vaid_id issued_doc ∈ [vaid_id issued_doc] →
     ∃ w', issuer_verify_vaid issued_doc (revoke issued.2.1 (vaid_id issued_doc), world)
           = (Ok false, (revoke issued.2.1 (vaid_id issued_doc), w'))).
Proof.
  apply revoke_descendants.
  - vm_compute. reflexivity.
  - vm_compute. reflexivity.
Defined.

End IssuerSamples.
