(* ===== verification/Mint.v ===== *)
(** * The mint service

    [MintService] of [crates/vaid-mint/src/mint.rs], with the audit and
    authorization seams ([audit.rs], [authz.rs]).  A call is a state-passing
    computation over the service and the world; [Interleaving] runs calls turn by
    turn. *)

From stdpp Require Import pretty.
From S2P Require Import Prelude Json Externals Concrete Identity Scope IssuerIdentity Document.
From S2P Require Import DupScan Revocation Attenuation Verify Attestation Chain World Pop.
From S2P Require Import Issuer.

Definition DEFAULT_MAX_DELEGATION_DEPTH : nat := 1.

(** ** The seams *)

Class AuditSink (A : Type) := audit_record : string → Json → M A MintError unit.

Record AuditEntry : Type := mkAuditEntry { event_type : string; details : Json }.

Definition InMemoryAudit : Type := list AuditEntry.
Definition InMemoryAudit_new : InMemoryAudit := [].
Definition audit_entries (a : InMemoryAudit) : list AuditEntry := a.
Definition audit_len (a : InMemoryAudit) : nat := length (a : list AuditEntry).
Definition audit_is_empty (a : InMemoryAudit) : bool := (audit_len a =? 0)%nat.

#[global] Instance in_memory_audit : AuditSink InMemoryAudit :=
  λ event_type details entries, (Ok tt, entries ++ [mkAuditEntry event_type details]).

Inductive NoopAudit : Type := mkNoopAudit.
#[global] Instance noop_audit : AuditSink NoopAudit := λ _ _, mret tt.

Class AuthorizationGate (G : Type) := authorize_root_mint : VaidSeed → M G MintError unit.

Inductive PermitAll : Type := mkPermitAll.
#[global] Instance permit_all : AuthorizationGate PermitAll := λ _, mret tt.

Definition validate_max_delegation_depth (max_delegation_depth : nat) : Outcome MintError nat :=
  if (max_delegation_depth <? 1)%nat then
    Err (MintError.Config ("max_delegation_depth must be at least 1, got "
      +:+ pretty max_delegation_depth +:+ " — there is no value meaning unlimited"))
  else if (MAX_LINEAGE_DEPTH <? max_delegation_depth)%nat then
    Err (MintError.Config ("max_delegation_depth " +:+ pretty max_delegation_depth
      +:+ " exceeds the maximum lineage depth bound " +:+ pretty MAX_LINEAGE_DEPTH))
  else Ok max_delegation_depth.

(** The adapter that lets [assemble_lineage] walk through a [VaidIssuer]. *)
Record IssuerLineageResolver (I : Type) : Type := mkIssuerLineageResolver { adapted : I }.
Arguments mkIssuerLineageResolver {I} adapted.
Arguments adapted {I} _.

#[global] Instance issuer_lineage_resolver {I} `{VaidIssuer I}
    : LineageResolver (IssuerLineageResolver I) :=
  λ r id, resolve_delegation_ancestor (adapted r) id.

Section Mint.
  Context {Ext : Externals}.
  Context {I A G : Type} {VI : VaidIssuer I} {AS : AuditSink A} {AG : AuthorizationGate G}.

Record MintService : Type := mkMintService {
  ms_issuer : I;
  ms_audit : A;
  ms_authz : G;
  ms_consumed_pop_nonces : gset string;
  ms_max_delegation_depth : nat;
}.

Definition with_max_delegation_depth (issuer : I) (audit : A) (authz : G)
    (max_delegation_depth : nat) : Outcome MintError MintService :=
  match validate_max_delegation_depth max_delegation_depth with
  | Ok max_delegation_depth => Ok (mkMintService issuer audit authz ∅ max_delegation_depth)
  | Err e => Err e
  | Panicked => Panicked
  end.

  (** [.expect(..)]: an error would be a panic. *)
Definition with_authorization (issuer : I) (audit : A) (authz : G)
    : Outcome MintError MintService :=
  match with_max_delegation_depth issuer audit authz DEFAULT_MAX_DELEGATION_DEPTH with
  | Ok s => Ok s
  | _ => Panicked
  end.

  (** ** Effects on the parts *)

Definition set_issuer (s : MintService) (i : I) : MintService :=
  mkMintService i (ms_audit s) (ms_authz s) (ms_consumed_pop_nonces s) (ms_max_delegation_depth s).
Definition set_audit (s : MintService) (a : A) : MintService :=
  mkMintService (ms_issuer s) a (ms_authz s) (ms_consumed_pop_nonces s) (ms_max_delegation_depth s).
Definition set_authz (s : MintService) (g : G) : MintService :=
  mkMintService (ms_issuer s) (ms_audit s) g (ms_consumed_pop_nonces s) (ms_max_delegation_depth s).
Definition set_nonces (s : MintService) (n : gset string) : MintService :=
  mkMintService (ms_issuer s) (ms_audit s) (ms_authz s) n (ms_max_delegation_depth s).

Definition MM (T : Type) : Type := M (MintService * World) MintError T.

Definition with_issuer {T} (m : M (I * World) MintError T) : MM T :=
  zoom (λ s, (ms_issuer s.1, s.2)) (λ iw s, (set_issuer s.1 iw.1, iw.2)) m.
Definition with_audit {T} (m : M A MintError T) : MM T :=
  zoom (λ s, ms_audit s.1) (λ a s, (set_audit s.1 a, s.2)) m.
Definition with_authz {T} (m : M G MintError T) : MM T :=
  zoom (λ s, ms_authz s.1) (λ g s, (set_authz s.1 g, s.2)) m.
Definition with_world {T} (m : M World MintError T) : MM T :=
  zoom snd (λ w s, (s.1, w)) m.

  (** [nonces.insert(nonce)]: whether it was new. *)
Definition insert_nonce (nonce : string) : MM bool := λ s,
  (Ok (bool_decide (nonce ∉ ms_consumed_pop_nonces s.1)),
   (set_nonces s.1 ({[nonce]} ∪ ms_consumed_pop_nonces s.1), s.2)).

  (** ** Proof of possession at mint *)

  (** [(now - issued_at).num_seconds().abs()] *)
Definition pop_skew (now issued_at : Instant) : Z := Z.abs (Z.quot (now - issued_at) NANOS).

Definition verify_pop_at_mint (seed : VaidSeed) (registered_key : list byte)
    (pop : option MintPop) : MM unit :=
  match pop with
  | None =>
      mthrow (MintError.Identity
        "proof-of-possession required — public_key_der was supplied (BYO-key) without a `pop` signature")
  | Some pop =>
      let! now := with_world utc_now in
      let skew := pop_skew now (pop_issued_at pop) in
      if bool_decide (skew > MINT_POP_FRESHNESS_SECS)%Z then
        mthrow (MintError.Identity
          ("PoP timestamp outside freshness window (" +:+ pretty skew +:+ "s > "
           +:+ pretty MINT_POP_FRESHNESS_SECS +:+ "s)"))
      else
        let! new := insert_nonce (pop_nonce pop) in
        if negb new then
          mthrow (MintError.Identity "PoP nonce already used — replay rejected")
        else
          let payload := pop_payload seed registered_key (pop_nonce pop) (pop_issued_at pop) in
          if negb (verify_signed_payload payload registered_key (pop_signature pop)) then
            mthrow (MintError.Identity
              "PoP signature does not verify against the registered public key — cannot register a key you do not control")
          else mret tt
  end.

  (** ** Minting a root *)

Definition root_audit_details (seed : VaidSeed) (byo_key : bool) : Json :=
  JObject (list_to_map
    [("agent_class", JString (seed_agent_class seed));
     ("version", JString (seed_version seed));
     ("tenant_id", JString (seed_tenant_id seed));
     ("parent_vaid", ser_option_vaid_id (seed_parent_vaid seed));
     ("scope_boundary", ser_boundary (seed_scope_boundary seed));
     ("capability_set_len", JNumber (PosInt (Z.of_nat (length (seed_capability_set seed)))));
     ("byo_key", JBool byo_key);
     ("pop_verified", JBool byo_key);
     ("delegated", JBool false)]).

Definition mint_root (request : MintVaidRequest) : MM MintVaidResponse :=
  let seed := req_seed request in
  with_authz (authorize_root_mint seed) ;;!
  let byo_key := match seed_public_key_der seed with Some _ => true | None => false end in
  let! d :=
    match seed_public_key_der seed with
    | Some key =>
        verify_pop_at_mint seed key (req_pop request) ;;!
        with_issuer (issue_vaid_with_key (mkAgentClass (seed_agent_class seed))
          (seed_version seed) (mkTenantId (seed_tenant_id seed)) (seed_parent_vaid seed)
          (seed_scope_boundary seed) (seed_capability_set seed) key None)
    | None =>
        with_issuer (issue_vaid_with_lineage (mkAgentClass (seed_agent_class seed))
          (seed_version seed) (mkTenantId (seed_tenant_id seed)) (seed_parent_vaid seed)
          (seed_scope_boundary seed) (seed_capability_set seed) None)
    end in
  with_audit (audit_record "vaid_minted" (root_audit_details seed byo_key)) ;;!
  mret (mkMintVaidResponse d false None).

  (** ** Minting a child *)

  (** [format!("{:?}", parent_vaid)] *)
Definition debug_parent_vaid (p : option VaidId) : string :=
  match p with
  | Some v => "Some(VaidId(" +:+ vaid_id_to_string v +:+ "))"
  | None => "None"
  end.

Definition child_audit_details (seed : VaidSeed) (parent child : Vaid) (bounded : bool) : Json :=
  JObject (list_to_map
    [("agent_class", JString (seed_agent_class seed));
     ("version", JString (seed_version seed));
     ("parent_vaid", ser_option_vaid_id (seed_parent_vaid seed));
     ("scope_boundary", ser_boundary (seed_scope_boundary seed));
     ("capability_set_len", JNumber (PosInt (Z.of_nat (length (seed_capability_set seed)))));
     ("byo_key", JBool true);
     ("pop_verified", JBool true);
     ("delegated", JBool true);
     ("attenuation_verified", JBool true);
     ("parent_tenant", JString (tenant_as_str (vd_tenant_id parent)));
     ("expiry_bounded_by_parent", JBool bounded);
     ("expires_at", JString (expires_at_as_presented child));
     ("parent_expires_at", JString (expires_at_as_presented parent))]).

  (** Checks (1b) to (5a): depth, tenant, lineage, scope, capabilities, and a
      live parent. *)
Definition check_delegation (seed : VaidSeed) (parent : Vaid) : MM unit :=
  let! s := mget in
  match assemble_lineage parent (mkIssuerLineageResolver (ms_issuer s.1)) with
  | Incomplete =>
      mthrow (MintError.Unauthorized
        "mint_child: the authenticated parent's delegation depth could not be determined (lineage assembly incomplete) — fail closed")
  | Complete chain =>
      let parent_depth := (length chain - 1)%nat in
      let child_depth := (parent_depth + 1)%nat in
      if (ms_max_delegation_depth s.1 <? child_depth)%nat then
        mthrow (MintError.Unauthorized
          ("mint_child: minting this child would reach delegation depth " +:+ pretty child_depth
           +:+ ", exceeding this mint's configured maximum of "
           +:+ pretty (ms_max_delegation_depth s.1)
           +:+ " (the authenticated parent is already at depth " +:+ pretty parent_depth +:+ ")"))
      else if negb (tenant_attenuates parent (vd_trust_domain parent) (seed_tenant_id seed)) then
        mthrow (MintError.Unauthorized
          ("child tenant '" +:+ seed_tenant_id seed +:+ "' != authenticated parent tenant '"
           +:+ tenant_as_str (vd_tenant_id parent) +:+ "' — cross-tenant delegation is denied"))
      else if bool_decide (seed_parent_vaid seed ≠ Some (vaid_id parent)) then
        mthrow (MintError.Unauthorized
          ("child parent_vaid " +:+ debug_parent_vaid (seed_parent_vaid seed)
           +:+ " must equal the authenticated parent vaid_id "
           +:+ vaid_id_to_string (vaid_id parent)
           +:+ " — the parent comes from the verified VAID, never the body"))
      else if negb (scope_attenuates parent (seed_scope_boundary seed)) then
        mthrow (MintError.Unauthorized
          "child scope_boundary exceeds the parent's — least-privilege attenuation denied")
      else if negb (caps_attenuate parent (seed_capability_set seed)) then
        mthrow (MintError.Unauthorized
          "child capability_set exceeds the parent's — least-privilege attenuation denied")
      else
        let! now := with_world utc_now in
        if is_expired_at parent now then
          mthrow (MintError.Unauthorized
            ("authenticated parent " +:+ vaid_id_to_string (vaid_id parent) +:+ " expired at '"
             +:+ expires_at_as_presented parent
             +:+ "' — a child may not outlive the authority it derives from, and a child of a dead parent would be issued already expired. Renew the parent, then delegate"))
        else mret tt
  end.

Definition mint_child (request : MintVaidRequest) (parent : option Vaid) : MM MintVaidResponse :=
  match parent with
  | None =>
      mthrow (MintError.Unauthorized
        "no verified parent VAID in context — delegation requires an authenticated parent principal, fail-closed")
  | Some parent =>
      let seed := req_seed request in
      check_delegation seed parent ;;!
      match seed_public_key_der seed with
      | None =>
          mthrow (MintError.Identity
            "BYO-key required — a delegated child registers the parent-held child public key with a proof-of-possession")
      | Some key =>
          verify_pop_at_mint seed key (req_pop request) ;;!
          let! d :=
            with_issuer (issue_vaid_with_key (mkAgentClass (seed_agent_class seed))
              (seed_version seed) (mkTenantId (seed_tenant_id seed)) (seed_parent_vaid seed)
              (seed_scope_boundary seed) (seed_capability_set seed) key
              (Some (expires_at_as_presented parent))) in
          if negb (expiry_attenuates parent (Some (expires_at_as_presented d))) then
            mthrow (MintError.Unauthorized
              ("issuer returned a child expiring '" +:+ expires_at_as_presented d
               +:+ "', after the parent's '" +:+ expires_at_as_presented parent
               +:+ "', despite a not_after ceiling — the issuer does not honour expiry containment and the child has not been returned"))
          else
            let expiry_bounded_by_parent :=
              bool_decide (expires_at_as_presented d = expires_at_as_presented parent) in
            with_audit (audit_record "vaid_minted"
              (child_audit_details seed parent d expiry_bounded_by_parent)) ;;!
            mret (mkMintVaidResponse d expiry_bounded_by_parent
                    (Some (expires_at_as_presented parent)))
      end
  end.

  (** ** Lemmas: the effects on the parts *)

Implicit Types (svc : MintService) (w : World).

  (** The service is untouched, whatever the outcome. *)
Definition pure_on_service {T} (m : MM T) : Prop :=
  ∀ s r s', m s = (r, s') → s'.1 = s.1.

  (** No nonce is ever forgotten, whatever the outcome. *)
Definition keeps_nonces {T} (m : MM T) : Prop :=
  ∀ s r s', m s = (r, s') → ms_consumed_pop_nonces s.1 ⊆ ms_consumed_pop_nonces s'.1.

Lemma keeps_bind {T U} (m : MM T) (f : T → MM U) :
  keeps_nonces m → (∀ x, keeps_nonces (f x)) → keeps_nonces (mbindM m f).
Proof.
  intros Hm Hf s r s'. unfold mbindM. destruct (m s) as [[x|e|] s1] eqn:E; intros Hr.
  - etrans; [exact (Hm _ _ _ E)|exact (Hf _ _ _ _ Hr)].
  - simplify_eq. exact (Hm _ _ _ E).
  - simplify_eq. exact (Hm _ _ _ E).
Qed.

Lemma keeps_ret {T} (x : T) : keeps_nonces (mret x).
Proof. intros s r s' [= <- <-]. done. Qed.
Lemma keeps_throw {T} e : keeps_nonces (mthrow e : MM T).
Proof. intros s r s' [= <- <-]. done. Qed.
Lemma keeps_get : keeps_nonces mget.
Proof. intros s r s' [= <- <-]. done. Qed.
Lemma keeps_issuer {T} (m : M (I * World) MintError T) : keeps_nonces (with_issuer m).
Proof. intros s r s'. unfold with_issuer, zoom. destruct (m _). by intros [= <- <-]. Qed.
Lemma keeps_audit {T} (m : M A MintError T) : keeps_nonces (with_audit m).
Proof. intros s r s'. unfold with_audit, zoom. destruct (m _). by intros [= <- <-]. Qed.
Lemma keeps_authz {T} (m : M G MintError T) : keeps_nonces (with_authz m).
Proof. intros s r s'. unfold with_authz, zoom. destruct (m _). by intros [= <- <-]. Qed.
Lemma keeps_world {T} (m : M World MintError T) : keeps_nonces (with_world m).
Proof. intros s r s'. unfold with_world, zoom. destruct (m _). by intros [= <- <-]. Qed.
Lemma keeps_insert n : keeps_nonces (insert_nonce n).
Proof. intros s r s' [= <- <-]. simpl. set_solver. Qed.

Ltac keeps :=
  repeat (cbv zeta;
    lazymatch goal with
    | |- keeps_nonces (mret _) => apply keeps_ret
    | |- keeps_nonces (mthrow _) => apply keeps_throw
    | |- keeps_nonces mget => apply keeps_get
    | |- keeps_nonces (with_issuer _) => apply keeps_issuer
    | |- keeps_nonces (with_audit _) => apply keeps_audit
    | |- keeps_nonces (with_authz _) => apply keeps_authz
    | |- keeps_nonces (with_world _) => apply keeps_world
    | |- keeps_nonces (insert_nonce _) => apply keeps_insert
    | |- keeps_nonces (mbindM _ _) => apply keeps_bind; [|intros ?]
    | |- keeps_nonces (match _ with _ => _ end) => case_match
    | |- keeps_nonces _ => solve [eauto with vaid]
    end).

Lemma keeps_verify_pop seed key pop : keeps_nonces (verify_pop_at_mint seed key pop).
Proof. unfold verify_pop_at_mint. keeps. Qed.

Lemma keeps_check_delegation seed p : keeps_nonces (check_delegation seed p).
Proof. unfold check_delegation. keeps. Qed.

#[local] Hint Resolve keeps_verify_pop keeps_check_delegation : vaid.

Lemma keeps_mint_root req : keeps_nonces (mint_root req).
Proof. unfold mint_root. keeps. Qed.

Lemma keeps_mint_child req p : keeps_nonces (mint_child req p).
Proof. unfold mint_child. keeps. Qed.

  (** ** Lemmas: proof of possession *)

Lemma pop_skew_window now issued :
  (pop_skew now issued ≤ MINT_POP_FRESHNESS_SECS)%Z ↔
  (Z.abs (now - issued) < (MINT_POP_FRESHNESS_SECS + 1) * NANOS)%Z.
Proof.
  unfold pop_skew, MINT_POP_FRESHNESS_SECS. generalize (now - issued)%Z. intros x.
  rewrite <- Z.quot_abs by done. change (Z.abs NANOS) with NANOS.
  rewrite Z.quot_div_nonneg by (unfold NANOS; lia).
  pose proof (Z.mod_pos_bound (Z.abs x) NANOS ltac:(done)).
  pose proof (Z.div_mod (Z.abs x) NANOS ltac:(done)). unfold NANOS in *. lia.
Qed.

  (** The holder's proof, at the instant the mint reads. *)
Record pop_accepted svc (seed : VaidSeed) (key : list byte) (p : MintPop) (now : Instant) : Prop := {
  pa_fresh : (Z.abs (now - pop_issued_at p) < (MINT_POP_FRESHNESS_SECS + 1) * NANOS)%Z;
  pa_new : pop_nonce p ∉ ms_consumed_pop_nonces svc;
  pa_signed :
    verify_signed_payload (pop_payload seed key (pop_nonce p) (pop_issued_at p)) key
      (pop_signature p) = true;
}.

Definition consume svc (nonce : string) : MintService :=
  set_nonces svc ({[nonce]} ∪ ms_consumed_pop_nonces svc).

(** What the mint makes of a proof, at its one reading of the clock: the answer,
    and the service after it.  The nonce is spent before the signature is looked
    at, and after the window is. *)
Inductive pop_outcome svc (seed : VaidSeed) (key : list byte) (now : Instant)
    : option MintPop → Outcome MintError unit → MintService → Prop :=
  | pop_missing msg : pop_outcome svc seed key now None (Err (MintError.Identity msg)) svc
  | pop_stale p msg :
      ((MINT_POP_FRESHNESS_SECS + 1) * NANOS ≤ Z.abs (now - pop_issued_at p))%Z →
      pop_outcome svc seed key now (Some p) (Err (MintError.Identity msg)) svc
  | pop_replayed p msg :
      (Z.abs (now - pop_issued_at p) < (MINT_POP_FRESHNESS_SECS + 1) * NANOS)%Z →
      pop_nonce p ∈ ms_consumed_pop_nonces svc →
      pop_outcome svc seed key now (Some p) (Err (MintError.Identity msg)) svc
  | pop_forged p msg :
      (Z.abs (now - pop_issued_at p) < (MINT_POP_FRESHNESS_SECS + 1) * NANOS)%Z →
      pop_nonce p ∉ ms_consumed_pop_nonces svc →
      verify_signed_payload (pop_payload seed key (pop_nonce p) (pop_issued_at p)) key
        (pop_signature p) = false →
      pop_outcome svc seed key now (Some p) (Err (MintError.Identity msg))
        (consume svc (pop_nonce p))
  | pop_proven p :
      pop_accepted svc seed key p now →
      pop_outcome svc seed key now (Some p) (Ok tt) (consume svc (pop_nonce p)).

(** Inserting a spent nonce leaves the service as it was. *)
Lemma consume_spent svc n : n ∈ ms_consumed_pop_nonces svc → consume svc n = svc.
Proof.
  intros Hn. destruct svc as [i a g N d]. unfold consume, set_nonces. simpl in *.
  by rewrite (subseteq_union_1_L {[n]} N) by set_solver.
Qed.

(** The clock is read once when there is a proof, and not otherwise. *)
Lemma verify_pop_run seed key pop svc w :
  ∃ r svc',
    verify_pop_at_mint seed key pop (svc, w)
    = (r, (svc', match pop with Some _ => after_clock w | None => w end))
    ∧ pop_outcome svc seed key (w_clock w (w_clock_reads w)) pop r svc'.
Proof.
  destruct pop as [p|]; [|eexists _, _; split; [reflexivity|constructor]].
  unfold verify_pop_at_mint, with_world, zoom, utc_now, mbindM. cbn [snd fst].
  pose proof (pop_skew_window (w_clock w (w_clock_reads w)) (pop_issued_at p)) as Hw.
  case_bool_decide as Hs.
  { eexists _, _. split; [reflexivity|]. apply pop_stale. lia. }
  assert (Z.abs (w_clock w (w_clock_reads w) - pop_issued_at p)
          < (MINT_POP_FRESHNESS_SECS + 1) * NANOS)%Z as Hfresh by (apply Hw; lia).
  unfold insert_nonce. cbn [snd fst]. case_bool_decide as Hn; cbn [negb].
  2: { eexists _, (consume svc _). split; [reflexivity|]. rewrite (consume_spent _ _ Hn).
       by apply pop_replayed. }
  destruct (verify_signed_payload _ _ _) eqn:Hv; cbn [negb];
    eexists _, _; (split; [reflexivity|]); [by constructor|by apply pop_forged].
Qed.

Lemma pop_outcome_ok svc seed key now pop svc' :
  pop_outcome svc seed key now pop (Ok tt) svc' →
  ∃ p, pop = Some p ∧ pop_accepted svc seed key p now ∧ svc' = consume svc (pop_nonce p).
Proof. inversion 1; subst; eauto. Qed.

Lemma pop_outcome_answer svc seed key now pop r svc' :
  pop_outcome svc seed key now pop r svc' →
  (r = Ok tt ∨ ∃ msg, r = Err (MintError.Identity msg))
  ∧ ms_issuer svc' = ms_issuer svc ∧ ms_audit svc' = ms_audit svc.
Proof. inversion 1; subst; eauto. Qed.

Lemma pop_outcome_accepted svc seed key now p r svc' :
  pop_outcome svc seed key now (Some p) r svc' → pop_accepted svc seed key p now →
  r = Ok tt ∧ svc' = consume svc (pop_nonce p).
Proof.
  intros Ho [Hf Hn Hs]. inversion Ho; subst; [lia|done|congruence|done].
Qed.

Lemma verify_pop_ok seed key pop s u s' :
  verify_pop_at_mint seed key pop s = (Ok u, s') ↔
  ∃ p, pop = Some p ∧ pop_accepted s.1 seed key p (w_clock s.2 (w_clock_reads s.2))
       ∧ s' = (consume s.1 (pop_nonce p), after_clock s.2).
Proof.
  destruct s as [svc w], u. cbn [fst snd].
  destruct (verify_pop_run seed key pop svc w) as (r & svc' & Hrun & Ho). rewrite Hrun. split.
  - intros [= -> <-]. apply pop_outcome_ok in Ho as (p & -> & Ha & ->). eauto.
  - intros (p & -> & Ha & ->). by destruct (pop_outcome_accepted _ _ _ _ _ _ _ Ho Ha) as [-> ->].
Qed.

  (** ** Lemmas: delegation *)

  (** The conditions of checks (1b) to (5a), for a parent at an instant. *)
Record delegation_allowed svc (seed : VaidSeed) (parent : Vaid) (now : Instant) : Prop := {
  da_depth : ∃ chain,
    assemble_lineage parent (mkIssuerLineageResolver (ms_issuer svc)) = Complete chain
    ∧ length chain ≤ ms_max_delegation_depth svc;
  da_tenant : tenant_as_str (vd_tenant_id parent) = seed_tenant_id seed;
  da_parent : seed_parent_vaid seed = Some (vaid_id parent);
  da_scope : scope_attenuates parent (seed_scope_boundary seed) = true;
  da_caps : caps_attenuate parent (seed_capability_set seed) = true;
  da_live : is_expired_at parent now = false;
}.

Lemma complete_lineage_nonempty {L} `{LineageResolver L} (r : L) d chain :
  assemble_lineage d r = Complete chain → 1 ≤ length chain.
Proof.
  intros Hc. apply assemble_lineage_complete in Hc as (up & _ & -> & _ & _).
  rewrite length_reverse. simpl. lia.
Qed.

Lemma tenant_attenuates_self (parent : Vaid) (tenant : string) :
  tenant_attenuates parent (vd_trust_domain parent) tenant = true ↔
  tenant_as_str (vd_tenant_id parent) = tenant.
Proof.
  unfold tenant_attenuates. rewrite andb_true_iff, !bool_decide_eq_true. naive_solver.
Qed.

  (** The checks, run: the service is untouched, and the outcome is decided by
      the conditions at the one clock reading they make. *)
Lemma check_delegation_run seed parent svc w :
  ∃ r w', check_delegation seed parent (svc, w) = (r, (svc, w'))
  ∧ (r = Ok tt ∧ w' = after_clock w ∨ ∃ msg, r = Err (MintError.Unauthorized msg))
  ∧ (r = Ok tt ↔ delegation_allowed svc seed parent (w_clock w (w_clock_reads w))).
Proof.
  unfold check_delegation, mget, mbindM. cbn [fst].
  destruct (assemble_lineage parent _) as [chain|] eqn:Hc; cbv zeta.
  2: { eexists _, _. split; [reflexivity|]. split_and!; [by eauto|].
       split; [done|]. intros [(c & Hc' & _) _ _ _ _ _]. congruence. }
  pose proof (complete_lineage_nonempty _ _ _ Hc) as Hlen.
  pose proof (tenant_attenuates_self parent (seed_tenant_id seed)) as Ht.
  destruct (_ <? _)%nat eqn:Hd; [apply Nat.ltb_lt in Hd|apply Nat.ltb_ge in Hd].
  { eexists _, _. split; [reflexivity|]. split_and!; [by eauto|].
    split; [done|]. intros [(c & Hc' & Hl) _ _ _ _ _]. assert (c = chain) as -> by congruence. lia. }
  destruct (tenant_attenuates _ _ _) eqn:E1; cbn [negb].
  2: { eexists _, _. split; [reflexivity|]. split_and!; [by eauto|].
       split; [done|]. intros [_ H1 _ _ _ _]. by apply Ht in H1. }
  case_bool_decide as E2.
  { eexists _, _. split; [reflexivity|]. split_and!; [by eauto|]. by split; [|intros []]. }
  destruct (scope_attenuates _ _) eqn:E3; cbn [negb].
  2: { eexists _, _. split; [reflexivity|]. split_and!; [by eauto|].
       split; [done|]. intros []. congruence. }
  destruct (caps_attenuate _ _) eqn:E4; cbn [negb].
  2: { eexists _, _. split; [reflexivity|]. split_and!; [by eauto|].
       split; [done|]. intros []. congruence. }
  unfold with_world, zoom, utc_now. cbn [snd fst].
  destruct (is_expired_at parent _) eqn:E5.
  { eexists _, _. split; [reflexivity|]. split_and!; [by eauto|].
    split; [done|]. intros []. congruence. }
  eexists _, _. split; [reflexivity|]. split_and!; [by left|]. split; [|done]. intros _.
  split; try done; [exists chain; split; [done|lia]|by apply Ht].
Qed.

Lemma check_delegation_ok seed parent s u s' :
  check_delegation seed parent s = (Ok u, s') ↔
  s' = (s.1, after_clock s.2)
  ∧ delegation_allowed s.1 seed parent (w_clock s.2 (w_clock_reads s.2)).
Proof.
  destruct s as [svc w], u. cbn [fst snd].
  destruct (check_delegation_run seed parent svc w) as (r & w' & Hrun & Hr & Hiff). rewrite Hrun.
  split.
  - intros [= -> <-]. destruct Hr as [[_ ->]|[msg [=]]]. split; [done|]. by apply Hiff.
  - intros [-> Hda]. apply Hiff in Hda as ->. by destruct Hr as [[_ ->]|[msg [=]]].
Qed.

Lemma with_issuer_ok {T} (m : M (I * World) MintError T) s x s' :
  with_issuer m s = (Ok x, s') ↔
  ∃ i w, m (ms_issuer s.1, s.2) = (Ok x, (i, w)) ∧ s' = (set_issuer s.1 i, w).
Proof.
  unfold with_issuer, zoom. destruct (m _) as [r [i w]] eqn:E. split.
  - intros [= -> <-]. eauto.
  - by intros (i' & w' & [= -> -> ->] & ->).
Qed.

Lemma with_audit_ok {T} (m : M A MintError T) s x s' :
  with_audit m s = (Ok x, s') ↔
  ∃ a, m (ms_audit s.1) = (Ok x, a) ∧ s' = (set_audit s.1 a, s.2).
Proof.
  unfold with_audit, zoom. destruct (m _) as [r a] eqn:E. split.
  - intros [= -> <-]. eauto.
  - by intros (a' & [= -> ->] & ->).
Qed.

  (** What the issuer is asked for, for a child: the fields that were checked,
      and the parent's expiry as the ceiling. *)
Definition issue_child (seed : VaidSeed) (parent : Vaid) (key : list byte)
    : M (I * World) MintError Vaid :=
  issue_vaid_with_key (mkAgentClass (seed_agent_class seed)) (seed_version seed)
    (mkTenantId (seed_tenant_id seed)) (seed_parent_vaid seed) (seed_scope_boundary seed)
    (seed_capability_set seed) key (Some (expires_at_as_presented parent)).

Definition child_response (parent child : Vaid) : MintVaidResponse :=
  mkMintVaidResponse child
    (bool_decide (expires_at_as_presented child = expires_at_as_presented parent))
    (Some (expires_at_as_presented parent)).

  (** The delegation was granted: every rule at the clock's next reading, the
      proof at the one after it, the issue, its containment, and the audit. *)
Record child_minted svc w req parent key pop i w2 a resp : Prop := {
  cm_key : seed_public_key_der (req_seed req) = Some key;
  cm_pop : req_pop req = Some pop;
  cm_allowed : delegation_allowed svc (req_seed req) parent (w_clock w (w_clock_reads w));
  cm_accepted : pop_accepted svc (req_seed req) key pop (w_clock w (S (w_clock_reads w)));
  cm_issued : issue_child (req_seed req) parent key (ms_issuer svc, after_clock (after_clock w))
              = (Ok (resp_vaid resp), (i, w2));
  cm_contained :
    expiry_attenuates parent (Some (expires_at_as_presented (resp_vaid resp))) = true;
  cm_audited :
    audit_record "vaid_minted"
      (child_audit_details (req_seed req) parent (resp_vaid resp) (expiry_bounded_by_parent resp))
      (ms_audit svc) = (Ok tt, a);
  cm_response : resp = child_response parent (resp_vaid resp);
}.

  (** A successful delegation, taken apart and put together. *)
Lemma mint_child_ok req par svc w resp s' :
  mint_child req par (svc, w) = (Ok resp, s') ↔
  ∃ parent key pop i w2 a,
    par = Some parent ∧ child_minted svc w req parent key pop i w2 a resp
    ∧ s' = (set_audit (set_issuer (consume svc (pop_nonce pop)) i) a, w2).
Proof.
  unfold mint_child. destruct par as [parent|]; [|split; [done|naive_solver]].
  cbv zeta. split.
  - intros H. run_ok H. match goal with H : check_delegation _ _ _ = _ |- _ =>
      apply check_delegation_ok in H as [-> Hda] end.
    destruct (seed_public_key_der _) as [key|] eqn:Hkey; [|done].
    run_ok H. match goal with H : verify_pop_at_mint _ _ _ _ = _ |- _ =>
      apply verify_pop_ok in H as (pop & Hpop & Hacc & ->) end.
    run_ok H. match goal with H : with_issuer _ _ = _ |- _ =>
      apply with_issuer_ok in H as (i & w2 & Hissue & ->) end.
    destruct (expiry_attenuates parent _) eqn:Hexp; [|done]. cbn [negb] in H.
    run_ok H. match goal with H : with_audit _ _ = _ |- _ =>
      apply with_audit_ok in H as (a & Haudit & ->) end.
    injection H as <- <-. repeat match goal with u : () |- _ => destruct u end.
    exists parent, key, pop, i, w2, a. by split_and!.
  - intros (? & key & pop & i & w2 & a & [= <-] & [Hk Hp Hda Hacc Hi Hexp Ha Hr] & ->).
    assert (expiry_bounded_by_parent resp
            = bool_decide (expires_at_as_presented (resp_vaid resp)
                           = expires_at_as_presented parent)) as Hb by (by rewrite Hr).
    rewrite Hb in Ha. apply mbindM_ok. exists (), (svc, after_clock w). split; [by apply check_delegation_ok|].
    rewrite Hk. apply mbindM_ok. eexists (), _. split; [apply verify_pop_ok; by exists pop|].
    apply mbindM_ok. eexists _, _. split; [apply with_issuer_ok; by exists i, w2|].
    rewrite Hexp. cbn [negb]. apply mbindM_ok. eexists (), _.
    split; [apply with_audit_ok; by exists a|]. by rewrite Hr.
Qed.

  (** ** Properties *)

(** C2. A delegation only ever narrows, whatever issuer, audit sink and clock the
    mint is given: when a child is returned, then at the clock's next reading the
    parent's lineage assembled within the depth bound, the child's tenant was the
    parent's, its parent id the authenticated parent's, its scope and
    capabilities requested within the parent's, and the parent live; at the
    reading after that one the holder's proof was inside the freshness window,
    new, and signed by the registered key; its nonce is now spent, and the
    returned document expires no later than the parent, and is reported as
    bounded by it exactly when their expiries are the same string. *)
Theorem mint_child_attenuates req par svc w resp s'
    (Hmint : mint_child req par (svc, w) = (Ok resp, s')) :
  ∃ parent key pop,
    par = Some parent ∧ seed_public_key_der (req_seed req) = Some key ∧ req_pop req = Some pop
    ∧ delegation_allowed svc (req_seed req) parent (w_clock w (w_clock_reads w))
    ∧ pop_accepted svc (req_seed req) key pop (w_clock w (S (w_clock_reads w)))
    ∧ ms_consumed_pop_nonces s'.1 = {[pop_nonce pop]} ∪ ms_consumed_pop_nonces svc
    ∧ (∃ tp tc, expires_at parent = Some tp ∧ expires_at (resp_vaid resp) = Some tc ∧ (tc ≤ tp)%Z)
    ∧ (expiry_bounded_by_parent resp = true ↔
       expires_at_as_presented (resp_vaid resp) = expires_at_as_presented parent).
Proof.
  apply mint_child_ok in Hmint as (parent & key & pop & i & w2 & a & ->
    & [Hkey Hpop Hda Hacc _ Hexp _ Hresp] & ->).
  exists parent, key, pop. split_and!; try done.
  - apply expiry_attenuates_within_spec in Hexp as (tp & c & tc & Hp & [= <-] & Hc & Hle). eauto.
  - rewrite Hresp. apply bool_decide_eq_true.
Qed.

(** C21. A refused delegation costs nothing: without an authenticated parent, or
    with any attenuation condition failing at the clock reading, the mint
    answers unauthorized before the proof is looked at, and the issuer, the
    audit trail, the gate and the spent nonces are exactly as before. *)
Theorem mint_child_refusal_is_free req par svc w
    (Hno : ∀ parent, par = Some parent →
           ¬ delegation_allowed svc (req_seed req) parent (w_clock w (w_clock_reads w))) :
  ∃ msg w', mint_child req par (svc, w) = (Err (MintError.Unauthorized msg), (svc, w')).
Proof.
  unfold mint_child. destruct par as [parent|]; [|by eexists _, _]. cbv zeta.
  destruct (check_delegation_run (req_seed req) parent svc w) as (r & w' & Hrun & Hr & Hiff).
  unfold mbindM at 1. rewrite Hrun. destruct Hr as [[-> _]|[msg ->]]; [|by eexists _, _].
  by destruct (Hno parent eq_refl (proj1 Hiff eq_refl)).
Qed.

(** C20. The proof of possession, on every branch, with the state it leaves.
    With no proof, the answer is an identity error, the clock is not read and
    nothing changes.  With one, the clock is read once, and: a proof outside the
    window (301 seconds either way, whole seconds being compared) is refused and
    its nonce is NOT spent; inside the window, a nonce already spent is refused
    and nothing changes; a new nonce is spent whether or not the signature
    verifies, and the proof is accepted exactly when it does.  So the answer is
    yes exactly for a fresh, new, well-signed proof. *)
Theorem pop_at_mint_spec seed key pop svc w :
  ∃ r svc',
    verify_pop_at_mint seed key pop (svc, w)
    = (r, (svc', match pop with Some _ => after_clock w | None => w end))
    ∧ pop_outcome svc seed key (w_clock w (w_clock_reads w)) pop r svc'
    ∧ (r = Ok tt ↔
       ∃ p, pop = Some p ∧ pop_accepted svc seed key p (w_clock w (w_clock_reads w))).
Proof.
  destruct (verify_pop_run seed key pop svc w) as (r & svc' & Hrun & Ho).
  exists r, svc'. split_and!; [done..|]. split.
  - intros ->. apply pop_outcome_ok in Ho as (p & -> & Ha & _). eauto.
  - intros (p & -> & Ha). by destruct (pop_outcome_accepted _ _ _ _ _ _ _ Ho Ha).
Qed.

(** A denied root mint has no side effect: when the gate refuses, its error is
    the answer and nothing but the gate's own state has changed. *)
Theorem mint_root_denied req svc w e g'
    (Hdeny : authorize_root_mint (req_seed req) (ms_authz svc) = (Err e, g')) :
  mint_root req (svc, w) = (Err e, (set_authz svc g', w)).
Proof.
  unfold mint_root, with_authz, zoom. unfold mbindM at 1. cbn [fst snd]. by rewrite Hdeny.
Qed.

(** No credential without a record: a mint that returns a document, root or
    child, had its audit entry accepted by the sink, and the sink's state is
    the one after that entry; so a sink that refuses fails the mint. *)
Theorem minted_is_audited req par svc w resp s' :
  mint_root req (svc, w) = (Ok resp, s') ∨ mint_child req par (svc, w) = (Ok resp, s') →
  ∃ entry, audit_record "vaid_minted" entry (ms_audit svc) = (Ok tt, ms_audit s'.1).
Proof.
  intros [Hm|Hm].
  - unfold mint_root in Hm. run_ok Hm. cbv zeta in Hm.
    match goal with H : with_authz _ _ = _ |- _ =>
      unfold with_authz, zoom in H; destruct (authorize_root_mint _ _); simplify_eq/= end.
    run_ok Hm. run_ok Hm.
    match goal with H : with_audit _ _ = _ |- _ =>
      apply with_audit_ok in H as (a & Haudit & ->) end.
    injection Hm as <- <-.
    repeat match goal with u : () |- _ => destruct u end.
    eexists. simpl. rewrite <- Haudit. f_equal.
    match goal with H : match seed_public_key_der _ with _ => _ end _ = _ |- _ =>
      destruct (seed_public_key_der _) as [key|]; [run_ok H|];
      apply with_issuer_ok in H as (i & w2 & _ & ->) end; [|done].
    match goal with H : verify_pop_at_mint _ _ _ _ = _ |- _ =>
      apply verify_pop_ok in H as (p & _ & _ & ->) end. done.
  - apply mint_child_ok in Hm as (parent & key & pop & i & w2 & a & _ & Hm & ->).
    eexists. exact (cm_audited _ _ _ _ _ _ _ _ _ _ Hm).
Qed.

(** ** Reachable services *)

(** The nonce a call was accepted on, if it was a bring-your-own-key mint that
    succeeded. *)
Definition accepted_nonce (req : MintVaidRequest)
    (r : Outcome MintError MintVaidResponse) : list string :=
  match r, seed_public_key_der (req_seed req), req_pop req with
  | Ok _, Some _, Some p => [pop_nonce p]
  | _, _, _ => []
  end.

(** A call, or anything the rest of the program does to the shared issuer, sink,
    gate and world between calls. *)
Inductive mint_step : MintService * World → list string → MintService * World → Prop :=
  | step_root req s r s' :
      mint_root req s = (r, s') → mint_step s (accepted_nonce req r) s'
  | step_child req par s r s' :
      mint_child req par s = (r, s') → mint_step s (accepted_nonce req r) s'
  | step_environment svc w i a g w' :
      mint_step (svc, w) [] (set_authz (set_audit (set_issuer svc i) a) g, w').

Inductive mint_trace : MintService * World → list string → MintService * World → Prop :=
  | trace_refl s : mint_trace s [] s
  | trace_step s l s1 l' s2 :
      mint_step s l s1 → mint_trace s1 l' s2 → mint_trace s (l ++ l') s2.

Lemma accepted_nonce_fresh_root req s r s' n :
  mint_root req s = (r, s') → n ∈ accepted_nonce req r →
  n ∉ ms_consumed_pop_nonces s.1 ∧ n ∈ ms_consumed_pop_nonces s'.1.
Proof.
  intros Hm Hn. unfold accepted_nonce in Hn.
  destruct r as [resp|e|]; [|by apply not_elem_of_nil in Hn..].
  destruct (seed_public_key_der _) as [key|] eqn:Hkey; [|by apply not_elem_of_nil in Hn].
  destruct (req_pop req) as [p|] eqn:Hp; [|by apply not_elem_of_nil in Hn].
  apply list_elem_of_singleton in Hn as ->.
  unfold mint_root in Hm. rewrite Hkey, Hp in Hm. run_ok Hm. cbv zeta in Hm.
  match goal with H : with_authz _ _ = _ |- _ => apply keeps_authz in H as Hk1 end.
  run_ok Hm.
  match goal with H : mbindM (verify_pop_at_mint _ _ _) _ _ = _ |- _ => run_ok H;
    apply keeps_issuer in H as Hk2 end.
  match goal with H : verify_pop_at_mint _ _ _ _ = _ |- _ =>
    apply verify_pop_ok in H as (p' & [= <-] & [_ Hnew _] & Hc) end.
  run_ok Hm. match goal with H : with_audit _ _ = _ |- _ => apply keeps_audit in H as Hk3 end.
  injection Hm as _ <-. split; [set_solver|]. apply Hk3, Hk2. rewrite Hc. simpl. set_solver.
Qed.

Lemma accepted_nonce_fresh_child req par s r s' n :
  mint_child req par s = (r, s') → n ∈ accepted_nonce req r →
  n ∉ ms_consumed_pop_nonces s.1 ∧ n ∈ ms_consumed_pop_nonces s'.1.
Proof.
  intros Hm Hn. unfold accepted_nonce in Hn.
  destruct r as [resp|e|]; [|by apply not_elem_of_nil in Hn..].
  destruct (seed_public_key_der _) as [key|] eqn:Hkey; [|by apply not_elem_of_nil in Hn].
  destruct (req_pop req) as [p|] eqn:Hp; [|by apply not_elem_of_nil in Hn].
  apply list_elem_of_singleton in Hn as ->. destruct s as [svc w].
  apply mint_child_ok in Hm as (parent & key' & pop & i & w2 & a & _
    & [_ Hp' _ [_ Hnew _] _ _ _ _] & ->). simplify_eq. simpl. set_solver.
Qed.

Lemma mint_step_nonces s l s' :
  mint_step s l s' →
  ms_consumed_pop_nonces s.1 ⊆ ms_consumed_pop_nonces s'.1 ∧ NoDup l
  ∧ ∀ n, n ∈ l → n ∉ ms_consumed_pop_nonces s.1 ∧ n ∈ ms_consumed_pop_nonces s'.1.
Proof.
  assert (∀ req r, NoDup (accepted_nonce req r)) as Hnd.
  { intros req r. unfold accepted_nonce. repeat case_match; try constructor; try set_solver.
    constructor. }
  destruct 1 as [req s r s' Hm|req par s r s' Hm|svc w i a g w'].
  - split_and!; [by eapply keeps_mint_root|done|]. intros n. by eapply accepted_nonce_fresh_root.
  - split_and!; [by eapply keeps_mint_child|done|]. intros n. by eapply accepted_nonce_fresh_child.
  - split_and!; [done|constructor|]. by intros n ?%not_elem_of_nil.
Qed.

Lemma mint_trace_nonces s l s' :
  mint_trace s l s' → NoDup l ∧ ∀ n, n ∈ l → n ∉ ms_consumed_pop_nonces s.1.
Proof.
  induction 1 as [s|s l s1 l' s2 Hstep _ [IHnd IHno]]; [by split; [constructor|intros n ?%not_elem_of_nil]|].
  apply mint_step_nonces in Hstep as (Hsub & Hnd & Hl). split.
  - apply NoDup_app. split_and!; [done| |done]. intros n Hn Hn'. by apply (IHno n Hn'), Hl.
  - intros n [Hn|Hn]%elem_of_app; [by apply Hl|]. intros Hin. by apply (IHno n Hn), Hsub.
Qed.

(** A proof of possession mints at most once: over any sequence of root and
    child mints, successful or not, in any order, with the issuer, sink, gate
    and clock changing arbitrarily between calls, no two accepted mints share a
    nonce. *)
Theorem nonce_single_use s l s' (Htrace : mint_trace s l s') : NoDup l.
Proof. by apply mint_trace_nonces in Htrace as [Hnd _]. Qed.

End Mint.
Arguments MintService : clear implicits.

(** [MintService::new]: the gate that permits every root mint. *)
Definition mint_service_new {I A : Type} (issuer : I) (audit : A)
    : Outcome MintError (MintService I A PermitAll) :=
  with_authorization issuer audit mkPermitAll.

(** ** Witnesses: a service over the reference issuer, a root mint and a
    delegation *)

Module MintSamples.

#[local] Instance samples : Externals := concrete no_json.

Definition kernel : list byte := string_bytes "kernel-a".
Definition holder : list byte := string_bytes "holder".
Definition second (n : Z) : Instant := (n * NANOS)%Z.

Definition issuer : ReferenceIssuer (R := InMemoryRevocationList) (L := InMemoryLineageStore) :=
  assuming_nothing_revoked (with_key (kernel : KeyPair) 1 "a.example").

Definition world : World :=
  mkWorld (λ n, second (50 + Z.of_nat n)) 0 (λ n, N.of_nat (n + 10)) 0 (λ _, Some holder) 0.

Definition Service : Type :=
  MintService (ReferenceIssuer (R := InMemoryRevocationList) (L := InMemoryLineageStore))
    InMemoryAudit PermitAll.

Definition service : Service := mkMintService issuer InMemoryAudit_new mkPermitAll ∅ 1.

Definition request (parent : option VaidId) (scope caps : list string) (nonce : string)
    : MintVaidRequest :=
  let seed := mkVaidSeed "worker" "1" "acme" parent (map entry_prefix scope) caps (Some holder) in
  mkMintVaidRequest seed
    (Some (mkMintPop nonce (second 50)
             (sign_payload (pop_payload seed holder nonce (second 50)) (holder : KeyPair)))).

Definition response (r : Outcome MintError MintVaidResponse) : MintVaidResponse :=
  match r with Ok resp => resp | _ => mkMintVaidResponse sample_doc false None end.

Definition root_request : MintVaidRequest := request None ["data"] ["read"; "write"] "n1".
Definition after_root := mint_root root_request (service, world).
Definition root_response : MintVaidResponse := response after_root.1.
Definition root : Vaid := resp_vaid root_response.

Definition child_request : MintVaidRequest :=
  request (Some (vaid_id root)) ["data/eu"] ["read"] "n2".
Definition after_child :=
  mint_child child_request (Some root) (after_root.2.1, after_root.2.2).
Definition child_answer : MintVaidResponse := response after_child.1.

Lemma ok_response {S} (r : Outcome MintError MintVaidResponse * S) :
  match r.1 with Ok _ => true | _ => false end = true → r = (Ok (response r.1), r.2).
Proof. by destruct r as [[| |] s]. Qed.

Lemma root_minted : mint_root root_request (service, world) = (Ok root_response, after_root.2).
Proof. apply (ok_response after_root). vm_compute. reflexivity. Qed.

Lemma child_minting :
  mint_child child_request (Some root) (after_root.2.1, after_root.2.2)
  = (Ok child_answer, after_child.2).
Proof. apply (ok_response after_child). vm_compute. reflexivity. Qed.

Lemma mint_child_attenuates_witness :
  ∃ parent key pop,
    Some root = Some parent ∧ seed_public_key_der (req_seed child_request) = Some key
    ∧ req_pop child_request = Some pop
    ∧ delegation_allowed after_root.2.1 (req_seed child_request) parent
        (w_clock after_root.2.2 (w_clock_reads after_root.2.2))
    ∧ pop_accepted after_root.2.1 (req_seed child_request) key pop
        (w_clock after_root.2.2 (S (w_clock_reads after_root.2.2)))
    ∧ ms_consumed_pop_nonces after_child.2.1
      = {[pop_nonce pop]} ∪ ms_consumed_pop_nonces after_root.2.1
    ∧ (∃ tp tc, expires_at parent = Some tp ∧ expires_at (resp_vaid child_answer) = Some tc
                ∧ (tc ≤ tp)%Z)
    ∧ (expiry_bounded_by_parent child_answer = true ↔
       expires_at_as_presented (resp_vaid child_answer) = expires_at_as_presented parent).
Proof. apply (mint_child_attenuates _ _ _ _ _ _ child_minting). Defined.

(** A scope the parent does not hold. *)
Lemma mint_child_refusal_is_free_witness :
  ∃ msg w', mint_child (request (Some (vaid_id root)) ["secrets"] [] "n3") (Some root)
              (after_root.2.1, after_root.2.2)
            = (Err (MintError.Unauthorized msg), (after_root.2.1, w')).
Proof.
  apply mint_child_refusal_is_free. intros parent Heq Hda.
  apply (inj Some) in Heq as <-. pose proof (da_scope _ _ _ _ Hda) as Hs.
  vm_compute in Hs. discriminate Hs.
Defined.

Inductive DenyAll : Type := mkDenyAll.
#[local] Instance deny_all : AuthorizationGate DenyAll :=
  λ _, mthrow (MintError.Unauthorized "denied").

Definition closed_service : MintService _ InMemoryAudit DenyAll :=
  mkMintService issuer InMemoryAudit_new mkDenyAll ∅ 1.

Lemma mint_root_denied_witness :
  mint_root root_request (closed_service, world)
  = (Err (MintError.Unauthorized "denied"), (set_authz closed_service mkDenyAll, world)).
Proof. apply mint_root_denied. reflexivity. Defined.

Lemma minted_is_audited_witness :
  ∃ entry, audit_record "vaid_minted" entry (ms_audit service) = (Ok tt, ms_audit after_root.2.1).
Proof.
  apply (minted_is_audited root_request None service world root_response). left. exact root_minted.
Defined.

(** The root mint and then the delegation. *)
Lemma nonce_single_use_witness : NoDup ["n1"; "n2"].
Proof.
  apply (nonce_single_use (service, world) _ after_child.2).
  apply (trace_step _ ["n1"] after_root.2).
  - apply (step_root root_request _ (Ok root_response)). exact root_minted.
  - apply (trace_step _ ["n2"] after_child.2 []); [|apply trace_refl].
    apply (step_child child_request (Some root) _ (Ok child_answer)).
    rewrite (surjective_pairing after_root.2). exact child_minting.
Defined.

End MintSamples.
