(* ===== verification/Interleaving.v ===== *)
(** * Concurrent mint calls

    [MintService] is shared by reference between tasks, and its methods are
    [async]: calls interleave.  Here a call of [crates/vaid-mint/src/mint.rs] is
    a state machine whose steps are the accesses to what the calls share (the
    gate, the clock, the nonce set under its mutex, the issuer, the audit sink),
    a pool of calls steps in any order, and the rest of the program may change
    the issuer, the sink, the gate and the world between any two steps.  Run
    without interruption, the machine is [mint_root] and [mint_child].

    One step reads the lineage of a parent as a whole; the walk over the
    ancestors is not interrupted, and an await of the gate, the issuer or the
    sink is answered within its step. *)

From stdpp Require Import pretty relations.
From S2P Require Import Prelude Json Externals Concrete Identity Scope IssuerIdentity Document.
From S2P Require Import Revocation Attenuation World Pop Issuer Mint.

Section Interleaving.
  Context {Ext : Externals}.
  Context {I A G : Type} {VI : VaidIssuer I} {AS : AuditSink A} {AG : AuthorizationGate G}.

#[local] Notation MM := (MM (I := I) (A := A) (G := G)).
#[local] Notation Shared := (MintService I A G * World)%type.

(** ** Calls *)

Inductive Purpose : Type :=
  | ForRoot
  | ForChild (parent : option Vaid).

(** Where a call stands: entered; past the gate or the attenuation checks; past
    the freshness window; its nonce spent; its key proven; its document issued
    (with the proof, when a key was brought); returned. *)
Inductive Call : Type :=
  | Called (request : MintVaidRequest) (purpose : Purpose)
  | Checked (request : MintVaidRequest) (purpose : Purpose)
  | Timed (request : MintVaidRequest) (purpose : Purpose) (key : list byte) (pop : MintPop)
  | Spent (request : MintVaidRequest) (purpose : Purpose) (key : list byte) (pop : MintPop)
  | Proven (request : MintVaidRequest) (purpose : Purpose) (key : list byte) (pop : MintPop)
  | Issued (request : MintVaidRequest) (purpose : Purpose)
      (proof : option (list byte * MintPop)) (document : Vaid)
  | Returned (request : MintVaidRequest) (purpose : Purpose)
      (proof : option (list byte * MintPop)) (response : MintVaidResponse).

Definition call_check (request : MintVaidRequest) (purpose : Purpose) : MM Call :=
  match purpose with
  | ForRoot =>
      with_authz (authorize_root_mint (req_seed request)) ;;! mret (Checked request purpose)
  | ForChild None =>
      mthrow (MintError.Unauthorized
        "no verified parent VAID in context — delegation requires an authenticated parent principal, fail-closed")
  | ForChild (Some parent) =>
      check_delegation (req_seed request) parent ;;! mret (Checked request purpose)
  end.

Definition call_time (request : MintVaidRequest) (purpose : Purpose) (key : list byte) : MM Call :=
  match req_pop request with
  | None =>
      mthrow (MintError.Identity
        "proof-of-possession required — public_key_der was supplied (BYO-key) without a `pop` signature")
  | Some pop =>
      let! now := with_world utc_now in
      let skew := pop_skew now (pop_issued_at pop) in
      if bool_decide (skew > MINT_POP_FRESHNESS_SECS)%Z then
        mthrow (MintError.Identity
          ("PoP timestamp outside freshness window (" +:+ pretty skew +:+ "s > "
           +:+ pretty MINT_POP_FRESHNESS_SECS +:+ "s)"))
      else mret (Timed request purpose key pop)
  end.

Definition call_keyless (request : MintVaidRequest) (purpose : Purpose) : MM Call :=
  let seed := req_seed request in
  match purpose with
  | ForRoot =>
      let! d :=
        with_issuer (issue_vaid_with_lineage (mkAgentClass (seed_agent_class seed))
          (seed_version seed) (mkTenantId (seed_tenant_id seed)) (seed_parent_vaid seed)
          (seed_scope_boundary seed) (seed_capability_set seed) None) in
      mret (Issued request purpose None d)
  | ForChild _ =>
      mthrow (MintError.Identity
        "BYO-key required — a delegated child registers the parent-held child public key with a proof-of-possession")
  end.

(** [not_after]: the parent's expiry, when there is a parent. *)
Definition call_ceiling (purpose : Purpose) : option string :=
  match purpose with
  | ForChild (Some parent) => Some (expires_at_as_presented parent)
  | _ => None
  end.

Definition call_finish (request : MintVaidRequest) (purpose : Purpose)
    (proof : option (list byte * MintPop)) (d : Vaid) : MM Call :=
  let seed := req_seed request in
  match purpose with
  | ForChild (Some parent) =>
      if negb (expiry_attenuates parent (Some (expires_at_as_presented d))) then
        mthrow (MintError.Unauthorized
          ("issuer returned a child expiring '" +:+ expires_at_as_presented d
           +:+ "', after the parent's '" +:+ expires_at_as_presented parent
           +:+ "', despite a not_after ceiling — the issuer does not honour expiry containment and the child has not been returned"))
      else
        let bounded := bool_decide (expires_at_as_presented d = expires_at_as_presented parent) in
        with_audit (audit_record "vaid_minted" (child_audit_details seed parent d bounded)) ;;!
        mret (Returned request purpose proof
                (mkMintVaidResponse d bounded (Some (expires_at_as_presented parent))))
  | _ =>
      let byo_key := match seed_public_key_der seed with Some _ => true | None => false end in
      with_audit (audit_record "vaid_minted" (root_audit_details seed byo_key)) ;;!
      mret (Returned request purpose proof (mkMintVaidResponse d false None))
  end.

(** One step of a call: one access to what the calls share. *)
Definition call_step (c : Call) : MM Call :=
  match c with
  | Called request purpose => call_check request purpose
  | Checked request purpose =>
      match seed_public_key_der (req_seed request) with
      | Some key => call_time request purpose key
      | None => call_keyless request purpose
      end
  | Timed request purpose key pop =>
      let! new := insert_nonce (pop_nonce pop) in
      if negb new then
        mthrow (MintError.Identity "PoP nonce already used — replay rejected")
      else mret (Spent request purpose key pop)
  | Spent request purpose key pop =>
      let payload := pop_payload (req_seed request) key (pop_nonce pop) (pop_issued_at pop) in
      if negb (verify_signed_payload payload key (pop_signature pop)) then
        mthrow (MintError.Identity
          "PoP signature does not verify against the registered public key — cannot register a key you do not control")
      else mret (Proven request purpose key pop)
  | Proven request purpose key pop =>
      let seed := req_seed request in
      let! d :=
        with_issuer (issue_vaid_with_key (mkAgentClass (seed_agent_class seed))
          (seed_version seed) (mkTenantId (seed_tenant_id seed)) (seed_parent_vaid seed)
          (seed_scope_boundary seed) (seed_capability_set seed) key (call_ceiling purpose)) in
      mret (Issued request purpose (Some (key, pop)) d)
  | Issued request purpose proof d => call_finish request purpose proof d
  | Returned _ _ _ _ => mret c
  end.

Fixpoint call_steps (n : nat) (c : Call) : MM Call :=
  match n with
  | O => mret c
  | S n' => let! c' := call_step c in call_steps n' c'
  end.

(** What the caller is handed. *)
Definition call_result (c : Call) : MM MintVaidResponse :=
  match c with
  | Returned _ _ _ response => mret response
  | _ => mpanic
  end.

(** A call has at most six steps. *)
Definition CALL_STEPS : nat := 6.

Definition mint_call (request : MintVaidRequest) (purpose : Purpose) : MM MintVaidResponse :=
  match purpose with
  | ForRoot => mint_root request
  | ForChild parent => mint_child request parent
  end.

(** ** The pool *)

(** A call in flight or returned, or one that ended with an error or a panic. *)
#[local] Notation Thread := (Outcome MintError Call).

Inductive pool_step : list Thread * Shared → list Thread * Shared → Prop :=
  | pool_spawn request purpose ts s :
      pool_step (ts, s) (ts ++ [Ok (Called request purpose)], s)
  | pool_run i c r ts s s' :
      ts !! i = Some (Ok c) → call_step c s = (r, s') →
      pool_step (ts, s) (<[i := r]> ts, s')
  | pool_environment ts svc w i a g w' :
      pool_step (ts, (svc, w)) (ts, (set_authz (set_audit (set_issuer svc i) a) g, w')).

Definition reachable (svc : MintService I A G) (w : World) (ts : list Thread) (s : Shared) : Prop :=
  rtc pool_step ([], (svc, w)) (ts, s).

  (** ** Run alone, a call is the method *)

Lemma mbindM_assoc {S E X Y Z} (m : M S E X) (f : X → M S E Y) (g : Y → M S E Z) s :
  mbindM (mbindM m f) g s = mbindM m (λ x, mbindM (f x) g) s.
Proof. unfold mbindM. by destruct (m s) as [[x|e|] s']. Qed.

Lemma mbindM_ext {S E X Y} (m : M S E X) (f g : X → M S E Y) s :
  (∀ x s', f x s' = g x s') → mbindM m f s = mbindM m g s.
Proof. intros Hfg. unfold mbindM. destruct (m s) as [[x|e|] s']; [apply Hfg|done|done]. Qed.

  (** The steps of a call from a stage on, and what the caller is handed. *)
Definition finish_call (n : nat) (c : Call) : MM MintVaidResponse :=
  let! c' := call_steps n c in call_result c'.

Lemma finish_call_S n c s :
  finish_call (S n) c s = mbindM (call_step c) (finish_call n) s.
Proof. unfold finish_call. simpl. apply mbindM_assoc. Qed.

Lemma finish_call_returned n request purpose proof resp s :
  finish_call n (Returned request purpose proof resp) s = (Ok resp, s).
Proof. induction n as [|n IH]; [done|]. rewrite finish_call_S. unfold mbindM. simpl. apply IH. Qed.

  (** The proof of possession, in its three steps. *)
Lemma finish_call_pop n request purpose key s :
  seed_public_key_der (req_seed request) = Some key →
  finish_call (S (S (S n))) (Checked request purpose) s
  = (verify_pop_at_mint (req_seed request) key (req_pop request) ;;!
     match req_pop request with
     | Some pop => finish_call n (Proven request purpose key pop)
     | None => mpanic
     end) s.
Proof.
  intros Hkey. rewrite finish_call_S. unfold verify_pop_at_mint. simpl. rewrite Hkey.
  unfold call_time. destruct (req_pop request) as [pop|]; [|done].
  rewrite !mbindM_assoc. apply mbindM_ext. intros now s1. cbv zeta.
  case_bool_decide; [done|]. unfold mbindM at 1. simpl. rewrite finish_call_S. simpl.
  rewrite !mbindM_assoc. apply mbindM_ext. intros [] s2; [|done]. simpl.
  unfold mbindM at 1. simpl. rewrite finish_call_S. simpl. cbv zeta.
  by destruct (verify_signed_payload _ _ _).
Qed.

Lemma finish_call_issue n request purpose key pop s :
  finish_call (S n) (Proven request purpose key pop) s
  = (let! d :=
       with_issuer (issue_vaid_with_key (mkAgentClass (seed_agent_class (req_seed request)))
         (seed_version (req_seed request)) (mkTenantId (seed_tenant_id (req_seed request)))
         (seed_parent_vaid (req_seed request)) (seed_scope_boundary (req_seed request))
         (seed_capability_set (req_seed request)) key (call_ceiling purpose)) in
     finish_call n (Issued request purpose (Some (key, pop)) d)) s.
Proof. rewrite finish_call_S. simpl. by rewrite mbindM_assoc. Qed.

Lemma finish_call_finish n request purpose proof d s :
  finish_call (S n) (Issued request purpose proof d) s
  = (let! c := call_finish request purpose proof d in call_result c) s.
Proof.
  rewrite finish_call_S. simpl. unfold call_finish.
  destruct purpose as [|[parent|]]; cbv zeta;
    try (destruct (negb (expiry_attenuates _ _)); [done|]);
    rewrite !mbindM_assoc; apply mbindM_ext; intros ? s'; unfold mbindM at 1; simpl;
    apply finish_call_returned.
Qed.

  (** From the proof on: the issue, the containment check, the audit. *)
Lemma finish_call_byo request purpose key s :
  seed_public_key_der (req_seed request) = Some key →
  finish_call 5 (Checked request purpose) s
  = (verify_pop_at_mint (req_seed request) key (req_pop request) ;;!
     let! d :=
       with_issuer (issue_vaid_with_key (mkAgentClass (seed_agent_class (req_seed request)))
         (seed_version (req_seed request)) (mkTenantId (seed_tenant_id (req_seed request)))
         (seed_parent_vaid (req_seed request)) (seed_scope_boundary (req_seed request))
         (seed_capability_set (req_seed request)) key (call_ceiling purpose)) in
     let! c := call_finish request purpose None d in call_result c) s.
Proof.
  intros Hkey. rewrite (finish_call_pop _ _ _ key) by done.
  destruct (req_pop request) as [pop|]; [|done]. apply mbindM_ext. intros [] s1.
  rewrite finish_call_issue. apply mbindM_ext. intros d s2. rewrite finish_call_finish.
  unfold call_finish. destruct purpose as [|[parent|]]; cbv zeta;
    try (destruct (negb (expiry_attenuates _ _)); [done|]);
    rewrite !mbindM_assoc; by apply mbindM_ext.
Qed.

(** C9. Run without interruption, the machine is the method: from entry, at most
    six steps return what [mint_root] or [mint_child] returns, error and panic
    included, with the same effect on the service and the world. *)
Theorem mint_call_sequential request purpose s :
  finish_call CALL_STEPS (Called request purpose) s = mint_call request purpose s.
Proof.
  unfold CALL_STEPS. rewrite finish_call_S. destruct purpose as [|[parent|]]; [| |done]; simpl.
  - rewrite mbindM_assoc. unfold mint_root. cbv zeta. apply mbindM_ext. intros _ s1.
    unfold mbindM at 1. cbn [mret]. destruct (seed_public_key_der _) as [key|] eqn:Hkey.
    + rewrite (finish_call_byo _ _ key), !mbindM_assoc by done. apply mbindM_ext. intros [] s2.
      apply mbindM_ext. intros d s3. unfold call_finish. cbv zeta. rewrite Hkey.
      rewrite mbindM_assoc. by apply mbindM_ext.
    + rewrite finish_call_S. simpl. rewrite Hkey. unfold call_keyless.
      rewrite mbindM_assoc. apply mbindM_ext. intros d s2. unfold mbindM at 1. cbn [mret].
      rewrite finish_call_finish. unfold call_finish. cbv zeta. rewrite Hkey.
      rewrite mbindM_assoc. by apply mbindM_ext.
  - rewrite mbindM_assoc. unfold mint_child. cbv zeta. apply mbindM_ext. intros _ s1.
    unfold mbindM at 1. cbn [mret]. destruct (seed_public_key_der _) as [key|] eqn:Hkey.
    + rewrite (finish_call_byo _ _ key) by done. apply mbindM_ext. intros [] s2.
      apply mbindM_ext. intros d s3. unfold call_finish. cbv zeta.
      destruct (negb _); [done|]. rewrite mbindM_assoc. by apply mbindM_ext.
    + rewrite finish_call_S. simpl. by rewrite Hkey.
Qed.

  (** ** What a step preserves *)

Ltac keeps :=
  repeat (cbv zeta;
    first [apply keeps_ret | apply keeps_throw | apply keeps_world | apply keeps_issuer
          |apply keeps_audit | apply keeps_authz | apply keeps_insert
          |apply keeps_check_delegation | apply keeps_bind; [|intros ?] | case_match]).

Lemma keeps_call_step c : keeps_nonces (call_step c).
Proof.
  destruct c as [request [|[parent|]]|request [|parent]|request purpose key pop| | |
    request [|[parent|]] proof d|]; unfold call_step, call_check, call_time, call_keyless, call_finish;
    keeps.
Qed.

  (** The nonce a call has spent. *)
Definition call_nonce (c : Call) : option string :=
  match c with
  | Spent _ _ _ pop | Proven _ _ _ pop
  | Issued _ _ (Some (_, pop)) _ | Returned _ _ (Some (_, pop)) _ => Some (pop_nonce pop)
  | _ => None
  end.

  (** A step spends a nonce that was new, or none. *)
Lemma call_step_nonce c s c' s' :
  call_step c s = (Ok c', s') →
  call_nonce c' = call_nonce c
  ∨ ∃ n, call_nonce c = None ∧ call_nonce c' = Some n
         ∧ n ∉ ms_consumed_pop_nonces s.1 ∧ n ∈ ms_consumed_pop_nonces s'.1.
Proof.
  destruct c as [request [|[parent|]]|request purpose|request purpose key pop| | |
    request purpose proof d|]; simpl; intros Hstep.
  - run_ok Hstep. injection Hstep as <- <-. by left.
  - run_ok Hstep. injection Hstep as <- <-. by left.
  - done.
  - destruct (seed_public_key_der _) as [key|].
    + unfold call_time in Hstep. destruct (req_pop request) as [pop|]; [|done].
      run_ok Hstep. cbv zeta in Hstep. case_bool_decide; [done|]. injection Hstep as <- <-. by left.
    + unfold call_keyless in Hstep. destruct purpose; [|done].
      run_ok Hstep. injection Hstep as <- <-. by left.
  - right. unfold insert_nonce, mbindM in Hstep. cbn [negb] in Hstep. case_bool_decide as Hn; [|done].
    injection Hstep as <- <-. exists (pop_nonce pop). simpl. split_and!; [done..|set_solver].
  - destruct (negb _); [done|]. injection Hstep as <- <-. by left.
  - run_ok Hstep. injection Hstep as <- <-. by left.
  - left. unfold call_finish in Hstep. destruct purpose as [|[parent|]]; cbv zeta in Hstep;
      try (destruct (negb _); [done|]); run_ok Hstep; injection Hstep as <- <-; by destruct proof as [[]|].
  - injection Hstep as <- <-. by left.
Qed.

  (** The key and the proof a call goes on are those of its request. *)
Record brought (request : MintVaidRequest) (key : list byte) (pop : MintPop) : Prop := {
  br_key : seed_public_key_der (req_seed request) = Some key;
  br_pop : req_pop request = Some pop;
}.

Definition proof_of (request : MintVaidRequest) (purpose : Purpose)
    (proof : option (list byte * MintPop)) : Prop :=
  match proof with
  | Some (key, pop) => brought request key pop
  | None => purpose = ForRoot ∧ seed_public_key_der (req_seed request) = None
  end.

Definition signed (request : MintVaidRequest) (key : list byte) (pop : MintPop) : Prop :=
  verify_signed_payload (pop_payload (req_seed request) key (pop_nonce pop) (pop_issued_at pop)) key
    (pop_signature pop) = true.

Definition fresh_at (w : World) (pop : MintPop) : Prop :=
  (Z.abs (w_clock w (w_clock_reads w) - pop_issued_at pop)
   < (MINT_POP_FRESHNESS_SECS + 1) * NANOS)%Z.

  (** What the caller is handed for a document, and what is recorded of it. *)
Definition response_for (purpose : Purpose) (d : Vaid) : MintVaidResponse :=
  match purpose with
  | ForChild (Some parent) => child_response parent d
  | _ => mkMintVaidResponse d false None
  end.

Definition details_for (request : MintVaidRequest) (purpose : Purpose) (d : Vaid) : Json :=
  let seed := req_seed request in
  match purpose with
  | ForChild (Some parent) =>
      child_audit_details seed parent d (expiry_bounded_by_parent (child_response parent d))
  | _ => root_audit_details seed (match seed_public_key_der seed with Some _ => true | None => false end)
  end.

  (** What a step into a stage means: the stage it came from, what was true of
      the shared state it ran on, and what it did to it. *)
Definition entered (c : Call) (s : Shared) (c' : Call) (s' : Shared) : Prop :=
  match c' with
  | Called _ _ => False
  | Checked request purpose =>
      c = Called request purpose
      ∧ match purpose with
        | ForRoot => ∃ g, authorize_root_mint (req_seed request) (ms_authz s.1) = (Ok tt, g)
        | ForChild par => ∃ parent,
            par = Some parent
            ∧ delegation_allowed s.1 (req_seed request) parent (w_clock s.2 (w_clock_reads s.2))
        end
  | Timed request purpose key pop =>
      c = Checked request purpose ∧ brought request key pop ∧ fresh_at s.2 pop
  | Spent request purpose key pop =>
      c = Timed request purpose key pop ∧ pop_nonce pop ∉ ms_consumed_pop_nonces s.1
      ∧ s' = (consume s.1 (pop_nonce pop), s.2)
  | Proven request purpose key pop =>
      c = Spent request purpose key pop ∧ signed request key pop ∧ s' = s
  | Issued request purpose (Some (key, pop)) d =>
      c = Proven request purpose key pop
      ∧ issue_vaid_with_key (mkAgentClass (seed_agent_class (req_seed request)))
          (seed_version (req_seed request)) (mkTenantId (seed_tenant_id (req_seed request)))
          (seed_parent_vaid (req_seed request)) (seed_scope_boundary (req_seed request))
          (seed_capability_set (req_seed request)) key (call_ceiling purpose) (ms_issuer s.1, s.2)
        = (Ok d, (ms_issuer s'.1, s'.2))
  | Issued request purpose None d =>
      c = Checked request purpose ∧ purpose = ForRoot
      ∧ seed_public_key_der (req_seed request) = None
  | Returned request purpose proof resp =>
      c = Issued request purpose proof (resp_vaid resp)
      ∧ resp = response_for purpose (resp_vaid resp)
      ∧ audit_record "vaid_minted" (details_for request purpose (resp_vaid resp)) (ms_audit s.1)
        = (Ok tt, ms_audit s'.1)
      ∧ ∀ parent, purpose = ForChild (Some parent) →
        expiry_attenuates parent (Some (expires_at_as_presented (resp_vaid resp))) = true
  end.

Lemma with_authz_ok {T} (m : M G MintError T) (s s' : Shared) x :
  with_authz m s = (Ok x, s') → ∃ g, m (ms_authz s.1) = (Ok x, g).
Proof. unfold with_authz, zoom. destruct (m _) as [r g] eqn:E. intros [= -> _]. eauto. Qed.

Ltac units := repeat match goal with u : () |- _ => destruct u end.

Lemma call_check_entered request purpose s c' s' :
  call_check request purpose s = (Ok c', s') → entered (Called request purpose) s c' s'.
Proof.
  destruct purpose as [|[parent|]]; simpl; intros Hstep; [| |done]; run_ok Hstep;
    injection Hstep as <- <-; units; (split; [done|]).
  - match goal with H : with_authz _ _ = _ |- _ => by apply with_authz_ok in H end.
  - match goal with H : check_delegation _ _ _ = _ |- _ =>
      apply check_delegation_ok in H as [_ Hda] end. eauto.
Qed.

Lemma call_time_entered request purpose key s c' s' :
  seed_public_key_der (req_seed request) = Some key →
  call_time request purpose key s = (Ok c', s') → entered (Checked request purpose) s c' s'.
Proof.
  intros Hkey. unfold call_time. destruct (req_pop request) as [pop|] eqn:Hpop; [|done].
  unfold with_world, zoom, utc_now, mbindM. cbn [fst snd]. case_bool_decide as Hs; [done|].
  intros [= <- <-]. split_and!; [done..|]. apply pop_skew_window. lia.
Qed.

Lemma call_finish_entered request purpose proof d s c' s' :
  call_finish request purpose proof d s = (Ok c', s') →
  entered (Issued request purpose proof d) s c' s'.
Proof.
  unfold call_finish. destruct purpose as [|[parent|]]; cbv zeta; intros Hstep;
    try (destruct (expiry_attenuates parent _) eqn:Hexp; [|done]; cbn [negb] in Hstep);
    run_ok Hstep; injection Hstep as <- <-; units;
    match goal with H : with_audit _ _ = _ |- _ => apply with_audit_ok in H as (a & Ha & ->) end;
    (split_and!; [done..|]); by intros ? [= ->].
Qed.

  (** A step that does not stay where it is enters the next stage. *)
Lemma call_step_entered c s c' s' :
  call_step c s = (Ok c', s') → c' = c ∧ s' = s ∨ entered c s c' s'.
Proof.
  destruct c as [request purpose|request purpose|request purpose key pop|request purpose key pop|
    request purpose key pop|request purpose proof d|]; cbn [call_step]; intros Hstep.
  - right. by apply call_check_entered.
  - right. destruct (seed_public_key_der _) as [key|] eqn:Hkey; [by apply (call_time_entered _ _ key)|].
    unfold call_keyless in Hstep. destruct purpose; [|done].
    run_ok Hstep. injection Hstep as <- <-. by split_and!.
  - right. unfold insert_nonce, mbindM in Hstep. case_bool_decide as Hn; [|done].
    cbn [negb] in Hstep. by injection Hstep as <- <-.
  - right. cbv zeta in Hstep. destruct (verify_signed_payload _ _ _) eqn:Hv; [|done].
    by injection Hstep as <- <-.
  - right. cbv zeta in Hstep. run_ok Hstep. injection Hstep as <- <-.
    match goal with H : with_issuer _ _ = _ |- _ => by apply with_issuer_ok in H as (i & w & Hi & ->) end.
  - right. by apply call_finish_entered.
  - left. by injection Hstep as <- <-.
Qed.

Definition call_ok (c : Call) : Prop :=
  match c with
  | Called _ _ | Checked _ _ => True
  | Timed request _ key pop | Spent request _ key pop | Proven request _ key pop =>
      brought request key pop
  | Issued request purpose proof _ | Returned request purpose proof _ =>
      proof_of request purpose proof
  end.

Lemma call_step_ok c s c' s' : call_step c s = (Ok c', s') → call_ok c → call_ok c'.
Proof.
  intros [[-> _]|He]%call_step_entered; [done|].
  destruct c' as [| | | | |request purpose [[key pop]|] d|]; simpl in *; [done|done| | | | | |];
    intuition; subst; done.
Qed.

  (** ** The invariant of the pool *)

Record pool_ok (svc0 : MintService I A G) (ts : list Thread) (s : Shared) : Prop := {
  po_kept : ms_consumed_pop_nonces svc0 ⊆ ms_consumed_pop_nonces s.1;
  po_call i c : ts !! i = Some (Ok c) → call_ok c;
  po_spent i c n : ts !! i = Some (Ok c) → call_nonce c = Some n →
    n ∈ ms_consumed_pop_nonces s.1 ∧ n ∉ ms_consumed_pop_nonces svc0;
  po_apart i j c c' n : ts !! i = Some (Ok c) → ts !! j = Some (Ok c') →
    call_nonce c = Some n → call_nonce c' = Some n → i = j;
}.

Lemma pool_ok_spawn svc0 ts s request purpose :
  pool_ok svc0 ts s → pool_ok svc0 (ts ++ [Ok (Called request purpose)]) s.
Proof.
  intros [Hkept Hcall Hspent Hapart].
  assert (∀ i c, (ts ++ [Ok (Called request purpose)]) !! i = Some (Ok c) →
          ts !! i = Some (Ok c) ∨ c = Called request purpose) as Hcase.
  { intros i c [Hi|[_ Hi]]%lookup_app_Some; [by left|right].
    apply list_lookup_singleton_Some in Hi as [_ Hi]. congruence. }
  split; [done| | |].
  - intros i c [Hi| ->]%Hcase; [by eapply Hcall|done].
  - intros i c n [Hi| ->]%Hcase; [by eapply Hspent|done].
  - intros i j c c' n [Hi| ->]%Hcase [Hj| ->]%Hcase; [by eapply Hapart|done..].
Qed.

Lemma pool_ok_run svc0 ts s i c r s' :
  ts !! i = Some (Ok c) → call_step c s = (r, s') →
  pool_ok svc0 ts s → pool_ok svc0 (<[i := r]> ts) s'.
Proof.
  intros Hi Hstep [Hkept Hcall Hspent Hapart].
  pose proof (keeps_call_step c _ _ _ Hstep) as Hsub.
  assert (∀ j d, <[i := r]> ts !! j = Some (Ok d) →
          (j ≠ i ∧ ts !! j = Some (Ok d)) ∨ (j = i ∧ r = Ok d)) as Hcase.
  { intros j d [(<- & -> & _)|[Hne Hj]]%list_lookup_insert_Some; [by right|left; naive_solver]. }
  assert (∀ d n, r = Ok d → call_nonce d = Some n →
          call_nonce c = Some n
          ∨ (n ∉ ms_consumed_pop_nonces s.1 ∧ n ∈ ms_consumed_pop_nonces s'.1)) as Hnew.
  { intros d n -> Hn. apply call_step_nonce in Hstep as [Heq|(m & _ & Hm & ?)]; [left; congruence|].
    right. by assert (m = n) as <- by congruence. }
  split; [by etrans| | |].
  - intros j d [[_ Hj]|[-> ->]]%Hcase; [by eapply Hcall|]. eapply call_step_ok; eauto.
  - intros j d n [[_ Hj]|[-> Hr]]%Hcase Hn; [by destruct (Hspent _ _ _ Hj Hn); auto|].
    destruct (Hnew _ _ Hr Hn) as [Hc|[Hfresh Hin]]; [by destruct (Hspent _ _ _ Hi Hc); auto|].
    split; [done|]. by intros H%Hkept.
  - intros j k d d' n [[Hj' Hj]|[-> Hr]]%Hcase [[Hk' Hk]|[-> Hr']]%Hcase Hn Hn';
      [by eapply Hapart| | |done].
    + destruct (Hnew _ _ Hr' Hn') as [Hc|[Hfresh _]]; [by eapply Hapart|].
      by destruct (Hspent _ _ _ Hj Hn).
    + destruct (Hnew _ _ Hr Hn) as [Hc|[Hfresh _]]; [by symmetry; eapply Hapart|].
      by destruct (Hspent _ _ _ Hk Hn').
Qed.

Lemma pool_ok_step svc0 x y : pool_step x y → pool_ok svc0 x.1 x.2 → pool_ok svc0 y.1 y.2.
Proof.
  destruct 1 as [request purpose ts s|i c r ts s s' Hi Hstep|ts svc w i a g w']; simpl.
  - apply pool_ok_spawn.
  - by apply (pool_ok_run _ _ _ _ c).
  - intros []. by split.
Qed.

Lemma reachable_ok svc w ts s : reachable svc w ts s → pool_ok svc ts s.
Proof.
  intros Hr. cut (∀ x y, rtc pool_step x y → pool_ok svc x.1 x.2 → pool_ok svc y.1 y.2).
  { intros Hinv. apply (Hinv _ _ Hr). split; [done|by intros i|by intros i|by intros i]. }
  induction 1; [done|]. eauto using pool_ok_step.
Qed.

  (** ** Scheduling *)

  (** The threads of [turns] take their steps in that order. *)
Definition run_thread (x : list Thread * Shared) (i : nat) : list Thread * Shared :=
  match x.1 !! i with
  | Some (Ok c) => let '(r, s') := call_step c x.2 in (<[i := r]> x.1, s')
  | _ => x
  end.

Definition schedule (turns : list nat) (x : list Thread * Shared) : list Thread * Shared :=
  foldl run_thread x turns.

Definition enter (calls : list (MintVaidRequest * Purpose)) : list Thread :=
  map (λ c, Ok (Called c.1 c.2)) calls.

Lemma schedule_steps turns x : rtc pool_step x (schedule turns x).
Proof.
  revert x. induction turns as [|i turns IH]; intros x; [apply rtc_refl|]. simpl.
  etrans; [|apply IH]. destruct x as [ts s]. unfold run_thread. simpl.
  destruct (ts !! i) as [[c|e|]|] eqn:Hi; [|reflexivity..].
  destruct (call_step c s) as [r s'] eqn:Hstep. by apply rtc_once, (pool_run _ c).
Qed.

Lemma enter_steps calls ts s : rtc pool_step (ts, s) (ts ++ enter calls, s).
Proof.
  revert ts. induction calls as [|c calls IH]; intros ts; simpl; [by rewrite app_nil_r|].
  eapply rtc_l; [apply (pool_spawn c.1 c.2)|].
  change (Ok (Called c.1 c.2) :: enter calls) with ([Ok (Called c.1 c.2)] ++ enter calls).
  rewrite app_assoc. apply IH.
Qed.

Lemma schedule_reachable calls turns svc w :
  reachable svc w (schedule turns (enter calls, (svc, w))).1 (schedule turns (enter calls, (svc, w))).2.
Proof.
  unfold reachable. rewrite <- surjective_pairing.
  etrans; [apply (enter_steps calls)|apply schedule_steps].
Qed.

(** C7. A proof of possession mints at most once under any interleaving: of the
    calls of a pool, stepped in any order with anything else changing between
    the steps, no two that returned with a key of their own had one nonce, and
    none had a nonce the service had already spent. *)
Theorem interleaved_nonce_single_use svc w ts s i j req req' purpose purpose' proof proof' resp resp'
    pop pop' (Hreach : reachable svc w ts s) (Hne : i ≠ j)
    (Hi : ts !! i = Some (Ok (Returned req purpose proof resp)))
    (Hj : ts !! j = Some (Ok (Returned req' purpose' proof' resp')))
    (Hkey : seed_public_key_der (req_seed req) ≠ None)
    (Hkey' : seed_public_key_der (req_seed req') ≠ None)
    (Hpop : req_pop req = Some pop) (Hpop' : req_pop req' = Some pop') :
  pop_nonce pop ≠ pop_nonce pop' ∧ pop_nonce pop ∉ ms_consumed_pop_nonces svc.
Proof.
  apply reachable_ok in Hreach as [_ Hcall Hspent Hapart].
  pose proof (Hcall _ _ Hi) as Hfor. pose proof (Hcall _ _ Hj) as Hfor'.
  destruct proof as [[k p]|]; [|by destruct Hfor]. destruct proof' as [[k' p']|]; [|by destruct Hfor'].
  destruct Hfor as [_ Hp], Hfor' as [_ Hp']. simplify_eq.
  split; [|exact (proj2 (Hspent _ _ _ Hi eq_refl))]. intros Heq. apply Hne.
  exact (Hapart _ _ _ _ _ Hi Hj eq_refl (f_equal Some (eq_sym Heq))).
Qed.

  (** ** What a returned call went through *)

  (** A run of the pool: each configuration is a step from the one before. *)
Definition is_run (l : list (list Thread * Shared)) : Prop :=
  ∀ k x y, l !! k = Some x → l !! S k = Some y → pool_step x y.

  (** Between the positions [k] and [S k] of a run, the thread takes its step
      from one stage to the next, on that shared state. *)
Definition turn (l : list (list Thread * Shared)) (i k : nat) (c : Call) (s : Shared)
    (c' : Call) (s' : Shared) : Prop :=
  ∃ ts ts', l !! k = Some (ts, s) ∧ ts !! i = Some (Ok c)
  ∧ l !! S k = Some (ts', s') ∧ ts' !! i = Some (Ok c')
  ∧ call_step c s = (Ok c', s').

  (** Only entering a pool or its own step puts a thread in a stage. *)
Lemma pool_step_thread ts s ts' s' i c' :
  pool_step (ts, s) (ts', s') → ts' !! i = Some (Ok c') →
  ts !! i = Some (Ok c')
  ∨ (∃ request purpose, c' = Called request purpose)
  ∨ ∃ c, ts !! i = Some (Ok c) ∧ call_step c s = (Ok c', s') ∧ entered c s c' s'.
Proof.
  inversion 1 as [request purpose|j c r ? ? ? Hj Hstep|]; subst; [| |by left].
  - intros [Hi|[_ Hi]]%lookup_app_Some; [by left|]. right. left.
    apply list_lookup_singleton_Some in Hi as [_ [= <-]]. eauto.
  - intros [(<- & -> & _)|[Hne Hi]]%list_lookup_insert_Some; [|by left].
    destruct (call_step_entered _ _ _ _ Hstep) as [[-> _]|He]; [by left|]. right. right. eauto.
Qed.

  (** A computation that leaves a field of the service as it was. *)
Definition keeps_field {X T} (f : MintService I A G → X) (m : MM T) : Prop :=
  ∀ s r s', m s = (r, s') → f s'.1 = f s.1.

Lemma keeps_field_bind {X T U} (f : MintService I A G → X) (m : MM T) (g : T → MM U) :
  keeps_field f m → (∀ x, keeps_field f (g x)) → keeps_field f (mbindM m g).
Proof.
  intros Hm Hg s r s'. unfold mbindM. destruct (m s) as [[x|e|] s1] eqn:E; intros Hr.
  - etrans; [exact (Hg _ _ _ _ Hr)|exact (Hm _ _ _ E)].
  - simplify_eq. exact (Hm _ _ _ E).
  - simplify_eq. exact (Hm _ _ _ E).
Qed.

Lemma keeps_field_ret {X T} (f : MintService I A G → X) (x : T) : keeps_field f (mret x).
Proof. by intros s r s' [= _ <-]. Qed.
Lemma keeps_field_throw {X T} (f : MintService I A G → X) e : keeps_field f (mthrow e : MM T).
Proof. by intros s r s' [= _ <-]. Qed.

Lemma keeps_field_zoom {X T S} (f : MintService I A G → X) (get : Shared → S)
    (set : S → Shared → Shared) (m : M S MintError T) :
  (∀ x s, f (set x s).1 = f s.1) → keeps_field f (zoom get set m).
Proof. intros Hset s r s'. unfold zoom. destruct (m _). intros [= _ <-]. apply Hset. Qed.

Lemma keeps_field_check {X} (f : MintService I A G → X) seed p :
  keeps_field f (check_delegation seed p).
Proof.
  intros [svc w] r s'. destruct (check_delegation_run seed p svc w) as (r' & w' & -> & _).
  by intros [= _ <-].
Qed.

Ltac keeps_field :=
  repeat (cbv zeta;
    first [apply keeps_field_ret | apply keeps_field_throw | apply keeps_field_check
          |apply keeps_field_bind; [|intros ?] | by apply keeps_field_zoom | case_match
          |by intros ? ? ? [= _ <-]]).

  (** The configured depth never changes, and only the last step of a call
      reaches the sink. *)
Lemma call_step_depth c : keeps_field ms_max_delegation_depth (call_step c).
Proof.
  destruct c as [request [|[parent|]]|request [|parent]| | | |request [|[parent|]] proof d|];
    unfold call_step, call_check, call_time, call_keyless, call_finish, insert_nonce; keeps_field.
Qed.

Lemma call_step_audit c :
  (∀ request purpose proof d, c ≠ Issued request purpose proof d) →
  keeps_field ms_audit (call_step c).
Proof.
  intros Hc. destruct c as [request [|[parent|]]|request [|parent]| | | |request purpose proof d|];
    try by destruct (Hc request purpose proof d).
  all: unfold call_step, call_check, call_time, call_keyless, insert_nonce; keeps_field.
Qed.

Section Run.
  Context (l : list (list Thread * Shared)) (calls : list (MintVaidRequest * Purpose))
    (svc : MintService I A G) (w : World).
  Context (Hrun : is_run l) (Hstart : l !! 0 = Some (enter calls, (svc, w))).

  (** A thread past its first stage took the step that brought it there. *)
Lemma turn_before i k ts s c' :
  l !! k = Some (ts, s) → ts !! i = Some (Ok c') →
  (∀ request purpose, c' ≠ Called request purpose) →
  ∃ k' c s1 s2, k' < k ∧ turn l i k' c s1 c' s2 ∧ entered c s1 c' s2.
Proof.
  revert ts s. induction k as [|k IH]; intros ts s Hk Hi Hc.
  - rewrite Hstart in Hk. injection Hk as <- <-. unfold enter in Hi.
    rewrite list_lookup_fmap in Hi. destruct (calls !! i) as [[request purpose]|]; [|done].
    injection Hi as <-. by destruct (Hc request purpose).
  - assert (is_Some (l !! k)) as [[ts0 s0] Hk0].
    { apply lookup_lt_is_Some. apply lookup_lt_Some in Hk. lia. }
    destruct (pool_step_thread _ _ _ _ _ _ (Hrun _ _ _ Hk0 Hk) Hi)
      as [Hi0|[(request & purpose & ->)|(c & Hi0 & Hstep & He)]].
    + destruct (IH _ _ Hk0 Hi0 Hc) as (k' & c & s1 & s2 & Hlt & Ht).
      exists k', c, s1, s2. split; [lia|done].
    + by destruct (Hc request purpose).
    + exists k, c, s0, s. split_and!; [lia| |done]. exists ts0, ts. by split_and!.
Qed.

  (** And so did the stage it came from. *)
Lemma turn_chain i k c s c' s' :
  turn l i k c s c' s' → (∀ request purpose, c ≠ Called request purpose) →
  ∃ k' c0 s1 s2, k' < k ∧ turn l i k' c0 s1 c s2 ∧ entered c0 s1 c s2.
Proof. intros (ts & ts' & Hk & Hi & _). by apply (turn_before _ _ ts s). Qed.

Lemma pool_step_service x y :
  pool_step x y →
  ms_max_delegation_depth y.2.1 = ms_max_delegation_depth x.2.1
  ∧ ms_consumed_pop_nonces x.2.1 ⊆ ms_consumed_pop_nonces y.2.1.
Proof.
  destruct 1 as [| i c r ts s s' _ Hstep|]; simpl; [done| |done].
  split; [by apply call_step_depth in Hstep|by apply keeps_call_step in Hstep].
Qed.

Lemma run_service k j x y :
  l !! k = Some x → l !! j = Some y → k ≤ j →
  ms_max_delegation_depth y.2.1 = ms_max_delegation_depth x.2.1
  ∧ ms_consumed_pop_nonces x.2.1 ⊆ ms_consumed_pop_nonces y.2.1.
Proof.
  intros Hk Hj Hle. revert y Hj. induction Hle as [|j Hle IH]; intros y Hj.
  - rewrite Hk in Hj. by injection Hj as <-.
  - assert (is_Some (l !! j)) as [z Hz].
    { apply lookup_lt_is_Some. apply lookup_lt_Some in Hj. lia. }
    destruct (IH z Hz) as [<- Hsub].
    destruct (pool_step_service _ _ (Hrun _ _ _ Hz Hj)) as [-> Hsub']. split; [done|by etrans].
Qed.
End Run.

  (** The run that a schedule takes. *)
Fixpoint schedule_run (turns : list nat) (x : list Thread * Shared) : list (list Thread * Shared) :=
  x :: match turns with
       | [] => []
       | i :: turns' => schedule_run turns' (run_thread x i)
       end.

Lemma run_thread_step x i : pool_step x (run_thread x i).
Proof.
  assert (pool_step x x) as Hstay.
  { destruct x as [ts [[iss a g N d] w]]. exact (pool_environment ts _ w iss a g w). }
  unfold run_thread. destruct (x.1 !! i) as [[c|e|]|] eqn:Hi; [|done..].
  destruct x as [ts s]. simpl in *. destruct (call_step c s) as [r s'] eqn:Hstep.
  by apply (pool_run _ c).
Qed.

Lemma schedule_run_first turns x : schedule_run turns x !! 0 = Some x.
Proof. by destruct turns. Qed.

Lemma schedule_run_last turns x : schedule_run turns x !! length turns = Some (schedule turns x).
Proof. revert x. by induction turns as [|i turns IH]; intros x; [|apply IH]. Qed.

Lemma schedule_is_run turns x : is_run (schedule_run turns x).
Proof.
  revert x. induction turns as [|i turns IH]; intros x [|k] y z Hy Hz; simpl in *; [done..| |by eapply IH].
  rewrite schedule_run_first in Hz. injection Hy as <-. injection Hz as <-. apply run_thread_step.
Qed.

  (** The history of a child in a run: where its call took each of its steps, and
      what held of the shared state each was taken on. *)
Record child_history (l : list (list Thread * Shared)) (svc : MintService I A G) (i : nat)
    (req : MintVaidRequest) (parent : Vaid) (key : list byte) (pop : MintPop)
    (resp : MintVaidResponse) (k1 k2 k3 k4 k5 k6 : nat) : Prop := {
  ch_order : k1 < k2 ∧ k2 < k3 ∧ k3 < k4 ∧ k4 < k5 ∧ k5 < k6;
  (** the attenuation rules, at the clock that step read *)
  ch_checked : ∃ s s',
    turn l i k1 (Called req (ForChild (Some parent))) s (Checked req (ForChild (Some parent))) s'
    ∧ delegation_allowed s.1 (req_seed req) parent (w_clock s.2 (w_clock_reads s.2))
    ∧ ms_max_delegation_depth s.1 = ms_max_delegation_depth svc;
  (** the freshness window, at the clock that step read *)
  ch_timed : ∃ s s',
    turn l i k2 (Checked req (ForChild (Some parent))) s
      (Timed req (ForChild (Some parent)) key pop) s'
    ∧ fresh_at s.2 pop;
  ch_spent : ∃ s s',
    turn l i k3 (Timed req (ForChild (Some parent)) key pop) s
      (Spent req (ForChild (Some parent)) key pop) s'
    ∧ pop_nonce pop ∉ ms_consumed_pop_nonces s.1
    ∧ s' = (consume s.1 (pop_nonce pop), s.2);
  ch_proven : ∃ s s',
    turn l i k4 (Spent req (ForChild (Some parent)) key pop) s
      (Proven req (ForChild (Some parent)) key pop) s'
    ∧ signed req key pop;
  ch_issued : ∃ s s',
    turn l i k5 (Proven req (ForChild (Some parent)) key pop) s
      (Issued req (ForChild (Some parent)) (Some (key, pop)) (resp_vaid resp)) s'
    ∧ issue_child (req_seed req) parent key (ms_issuer s.1, s.2)
      = (Ok (resp_vaid resp), (ms_issuer s'.1, s'.2));
  ch_audited : ∃ s s',
    turn l i k6 (Issued req (ForChild (Some parent)) (Some (key, pop)) (resp_vaid resp)) s
      (Returned req (ForChild (Some parent)) (Some (key, pop)) resp) s'
    ∧ audit_record "vaid_minted"
        (child_audit_details (req_seed req) parent (resp_vaid resp) (expiry_bounded_by_parent resp))
        (ms_audit s.1) = (Ok tt, ms_audit s'.1);
}.

(** C8. A delegation only ever narrows under any interleaving.  In any run of the
    pool, whatever other calls and the rest of the program do between the steps
    of a call, a child that was returned has a history in that run: at the step
    that checked it, on the service and the clock as they were then and under
    the depth the service was configured with, every attenuation rule held
    against the authenticated parent, which was live; at a later step the clock
    was inside the proof's window; at a later one its nonce was new and was
    spent; at a later one the signature verified; at a later one the issuer
    returned this very document for exactly the fields that were checked, under
    the parent's expiry as a ceiling; and at a later one the sink accepted the
    entry that describes it.  The document expires no later than the parent, and
    the nonce is spent at the end. *)
Theorem interleaved_child_attenuates l calls svc w n ts s i req par proof resp
    (Hrun : is_run l) (Hstart : l !! 0 = Some (enter calls, (svc, w)))
    (Hend : l !! n = Some (ts, s))
    (Hi : ts !! i = Some (Ok (Returned req (ForChild par) proof resp))) :
  ∃ parent key pop k1 k2 k3 k4 k5 k6,
    par = Some parent ∧ proof = Some (key, pop) ∧ k6 < n
    ∧ seed_public_key_der (req_seed req) = Some key ∧ req_pop req = Some pop
    ∧ child_history l svc i req parent key pop resp k1 k2 k3 k4 k5 k6
    ∧ pop_nonce pop ∈ ms_consumed_pop_nonces s.1
    ∧ resp = child_response parent (resp_vaid resp)
    ∧ ∃ tp tc, expires_at parent = Some tp ∧ expires_at (resp_vaid resp) = Some tc ∧ (tc ≤ tp)%Z.
Proof.
  intros.
  destruct (turn_before _ _ _ _ Hrun Hstart i n ts s _ Hend Hi ltac:(done))
    as (k6 & c6 & s6 & s6' & L6 & T6 & -> & Hresp & Haudit & Hexp).
  destruct (turn_chain _ _ _ _ Hrun Hstart _ _ _ _ _ _ T6 ltac:(done))
    as (k5 & c5 & s5 & s5' & L5 & T5 & E5).
  destruct proof as [[key pop]|]; [|by destruct E5 as (_ & [=] & _)]. destruct E5 as (-> & Hissue).
  destruct (turn_chain _ _ _ _ Hrun Hstart _ _ _ _ _ _ T5 ltac:(done))
    as (k4 & c4 & s4 & s4' & L4 & T4 & -> & Hsig & _).
  destruct (turn_chain _ _ _ _ Hrun Hstart _ _ _ _ _ _ T4 ltac:(done))
    as (k3 & c3 & s3 & s3' & L3 & T3 & -> & Hnew & ->).
  destruct (turn_chain _ _ _ _ Hrun Hstart _ _ _ _ _ _ T3 ltac:(done))
    as (k2 & c2 & s2 & s2' & L2 & T2 & -> & [Hkey Hpop] & Hfresh).
  destruct (turn_chain _ _ _ _ Hrun Hstart _ _ _ _ _ _ T2 ltac:(done))
    as (k1 & c1 & s1 & s1' & L1 & T1 & -> & parent & -> & Hda).
  exists parent, key, pop, k1, k2, k3, k4, k5, k6. split_and!; try done.
  - split; [lia| |by eauto..| |].
    + exists s1, s1'. split_and!; [done..|]. destruct T1 as (ts1 & _ & Hk1 & _).
      by apply (run_service _ Hrun 0 k1 _ _ Hstart Hk1); lia.
    + exists s5, s5'. split; [done|]. exact Hissue.
    + exists s6, s6'. split; [done|]. by rewrite Hresp.
  - destruct T3 as (_ & ts3 & _ & _ & Hk3 & _).
    destruct (run_service _ Hrun (S k3) n _ _ Hk3 Hend) as [_ Hsub]; [lia|].
    apply Hsub. simpl. set_solver.
  - specialize (Hexp parent eq_refl).
    apply expiry_attenuates_within_spec in Hexp as (tp & c & tc & Hp & [= <-] & Hc & Hle). eauto.
Qed.

End Interleaving.

(** ** Witnesses: two root mints taking turns, and a delegation among them *)

Module InterleavingSamples.
Import MintSamples.

#[local] Existing Instance samples.

Definition turns : list nat := [0; 1; 1; 0; 0; 1; 0; 1; 1; 0; 1; 0].
Definition another_request : MintVaidRequest := request None ["docs"] ["read"] "n3".

Definition two_roots :=
  schedule turns (enter [(root_request, ForRoot); (another_request, ForRoot)], (service, world)).

Definition mixed :=
  schedule turns (enter [(child_request, ForChild (Some root)); (another_request, ForRoot)],
                  after_root.2).

Definition no_response : MintVaidResponse := mkMintVaidResponse sample_doc false None.

  (** The thread returned, for that call and with that proof. *)
Definition returned_as (t : option (Outcome MintError Call)) : MintVaidResponse :=
  match t with Some (Ok (Returned _ _ _ resp)) => resp | _ => no_response end.

Definition pop_of (request : MintVaidRequest) : MintPop :=
  default (mkMintPop "" 0%Z []) (req_pop request).

Lemma both_return :
  two_roots.1
  = [Ok (Returned root_request ForRoot (Some (holder, pop_of root_request))
           (returned_as (two_roots.1 !! 0)));
     Ok (Returned another_request ForRoot (Some (holder, pop_of another_request))
           (returned_as (two_roots.1 !! 1)))].
Proof. vm_compute. reflexivity. Qed.

Lemma child_returns :
  mixed.1 !! 0
  = Some (Ok (Returned child_request (ForChild (Some root)) (Some (holder, pop_of child_request))
                (returned_as (mixed.1 !! 0)))).
Proof. vm_compute. reflexivity. Qed.

Lemma interleaved_nonce_single_use_witness :
  "n1" ≠ "n3" ∧ "n1" ∉ ms_consumed_pop_nonces service.
Proof.
  apply (interleaved_nonce_single_use service world two_roots.1 two_roots.2 0 1
    root_request another_request ForRoot ForRoot
    (Some (holder, pop_of root_request)) (Some (holder, pop_of another_request))
    (returned_as (two_roots.1 !! 0)) (returned_as (two_roots.1 !! 1))
    (pop_of root_request) (pop_of another_request)).
  - apply schedule_reachable.
  - discriminate.
  - rewrite both_return at 1. reflexivity.
  - rewrite both_return at 1. reflexivity.
  - discriminate.
  - discriminate.
  - reflexivity.
  - reflexivity.
Defined.

Definition mixed_calls : list (MintVaidRequest * Purpose) :=
  [(child_request, ForChild (Some root)); (another_request, ForRoot)].

(** The delegation, its six turns taken among those of a root mint. *)
Lemma interleaved_child_attenuates_witness :
  ∃ parent key pop k1 k2 k3 k4 k5 k6,
    Some root = Some parent ∧ Some (holder, pop_of child_request) = Some (key, pop) ∧ k6 < 12
    ∧ seed_public_key_der (req_seed child_request) = Some key ∧ req_pop child_request = Some pop
    ∧ child_history (schedule_run turns (enter mixed_calls, after_root.2)) after_root.2.1 0
        child_request parent key pop (returned_as (mixed.1 !! 0)) k1 k2 k3 k4 k5 k6
    ∧ pop_nonce pop ∈ ms_consumed_pop_nonces mixed.2.1
    ∧ returned_as (mixed.1 !! 0) = child_response parent (resp_vaid (returned_as (mixed.1 !! 0)))
    ∧ ∃ tp tc, expires_at parent = Some tp
               ∧ expires_at (resp_vaid (returned_as (mixed.1 !! 0))) = Some tc ∧ (tc ≤ tp)%Z.
Proof.
  apply (interleaved_child_attenuates _ mixed_calls after_root.2.1 after_root.2.2 12 mixed.1 mixed.2
    0 child_request (Some root) (Some (holder, pop_of child_request)) (returned_as (mixed.1 !! 0))).
  - apply schedule_is_run.
  - rewrite <- surjective_pairing. apply schedule_run_first.
  - rewrite <- surjective_pairing. apply (schedule_run_last turns).
  - exact child_returns.
Defined.

End InterleavingSamples.
