(* ===== verification/AuditTrail.v ===== *)
(** * The audit trail tells the truth

    The in-memory sink of [crates/vaid-mint/src/audit.rs] under the interleaved
    calls of [Interleaving]: the entries are those of the calls that returned,
    and each says of its call what happened. *)

From stdpp Require Import relations.
From S2P Require Import Prelude Json Externals Concrete Identity Scope IssuerIdentity Document.
From S2P Require Import Revocation Attenuation World Pop Issuer Mint Interleaving.

(** Replacing an element that gives nothing adds what its replacement gives. *)
Lemma omap_insert_none {X Y} (f : X → option Y) (l : list X) (i : nat) (x y : X) :
  l !! i = Some x → f x = None → omap f (<[i := y]> l) ≡ₚ omap f l ++ option_list (f y).
Proof.
  intros Hi Hx. rewrite <- (take_drop_middle l i x Hi) at 2.
  rewrite insert_take_drop by (by eapply lookup_lt_Some).
  rewrite !omap_app. simpl. rewrite Hx. destruct (f y) as [z|]; simpl; [|by rewrite app_nil_r].
  rewrite <- app_assoc. apply Permutation_app_head, Permutation_cons_append.
Qed.

Section AuditTrail.
  Context {Ext : Externals}.
  Context {I G : Type} {VI : VaidIssuer I} {AG : AuthorizationGate G}.

#[local] Notation Shared := (MintService I InMemoryAudit G * World)%type.
#[local] Notation Thread := (Outcome MintError Call).

(** The steps of the pool in which nobody but the calls writes to the sink. *)
Inductive sink_step : list Thread * Shared → list Thread * Shared → Prop :=
  | sink_spawn request purpose ts s :
      sink_step (ts, s) (ts ++ [Ok (Called request purpose)], s)
  | sink_run i c r ts s s' :
      ts !! i = Some (Ok c) → call_step c s = (r, s') →
      sink_step (ts, s) (<[i := r]> ts, s')
  | sink_environment ts svc w i g w' :
      sink_step (ts, (svc, w)) (ts, (set_authz (set_issuer svc i) g, w')).

(** They are steps of the pool. *)
Lemma sink_step_pool x y : sink_step x y → pool_step x y.
Proof.
  destruct 1 as [request purpose ts s|i c r ts s s' Hi Hstep|ts svc w i g w'].
  - constructor.
  - by apply (pool_run _ c).
  - exact (pool_environment ts svc w i (ms_audit svc) g w').
Qed.

(** The entry of a call that returned. *)
Definition entry_of (t : Thread) : option AuditEntry :=
  match t with
  | Ok (Returned request purpose _ resp) =>
      Some (mkAuditEntry "vaid_minted" (details_for request purpose (resp_vaid resp)))
  | _ => None
  end.

Definition field (e : AuditEntry) (k : string) : option Json :=
  match details e with JObject o => o !! k | _ => None end.

(** What an entry says of the call that made it, and that it is so: the holder
    did prove its key, the child was delegated by that parent within its scope
    and capabilities and in its tenant, and the expiries are those of the
    documents. *)
Record truthful (e : AuditEntry) (request : MintVaidRequest) (purpose : Purpose)
    (proof : option (list byte * MintPop)) (resp : MintVaidResponse) : Prop := {
  tr_delegated :
    field e "delegated" = Some (JBool match purpose with ForChild _ => true | ForRoot => false end);
  tr_proof : match proof with
    | Some (key, pop) =>
        field e "pop_verified" = Some (JBool true) ∧ field e "byo_key" = Some (JBool true)
        ∧ brought request key pop ∧ signed request key pop
    | None =>
        field e "pop_verified" = Some (JBool false) ∧ field e "byo_key" = Some (JBool false)
        ∧ seed_public_key_der (req_seed request) = None
    end;
  tr_child : ∀ par, purpose = ForChild par → proof ≠ None ∧ ∃ parent, par = Some parent
    ∧ field e "attenuation_verified" = Some (JBool true)
    ∧ scope_attenuates parent (seed_scope_boundary (req_seed request)) = true
    ∧ caps_attenuate parent (seed_capability_set (req_seed request)) = true
    ∧ field e "parent_vaid" = Some (ser_option_vaid_id (Some (vaid_id parent)))
    ∧ field e "parent_tenant" = Some (JString (seed_tenant_id (req_seed request)))
    ∧ field e "expires_at" = Some (JString (expires_at_as_presented (resp_vaid resp)))
    ∧ field e "parent_expires_at" = Some (JString (expires_at_as_presented parent))
    ∧ resp_parent_expires_at resp = Some (expires_at_as_presented parent)
    ∧ field e "expiry_bounded_by_parent" = Some (JBool (expiry_bounded_by_parent resp))
    ∧ (expiry_bounded_by_parent resp = true ↔
       expires_at_as_presented (resp_vaid resp) = expires_at_as_presented parent);
}.

(** ** The invariant *)

(** What the check established of a delegation, whatever changes later. *)
Definition delegated_from (request : MintVaidRequest) (purpose : Purpose) : Prop :=
  ∀ par, purpose = ForChild par → ∃ parent, par = Some parent
    ∧ tenant_as_str (vd_tenant_id parent) = seed_tenant_id (req_seed request)
    ∧ seed_parent_vaid (req_seed request) = Some (vaid_id parent)
    ∧ scope_attenuates parent (seed_scope_boundary (req_seed request)) = true
    ∧ caps_attenuate parent (seed_capability_set (req_seed request)) = true.

Definition proven (request : MintVaidRequest) (purpose : Purpose)
    (proof : option (list byte * MintPop)) : Prop :=
  match proof with
  | Some (key, pop) => brought request key pop ∧ signed request key pop
  | None => purpose = ForRoot ∧ seed_public_key_der (req_seed request) = None
  end.

Definition call_true (c : Call) : Prop :=
  match c with
  | Called _ _ => True
  | Checked request purpose => delegated_from request purpose
  | Timed request purpose key pop | Spent request purpose key pop =>
      delegated_from request purpose ∧ brought request key pop
  | Proven request purpose key pop =>
      delegated_from request purpose ∧ proven request purpose (Some (key, pop))
  | Issued request purpose proof _ =>
      delegated_from request purpose ∧ proven request purpose proof
  | Returned request purpose proof resp =>
      delegated_from request purpose ∧ proven request purpose proof
      ∧ resp = response_for purpose (resp_vaid resp)
  end.

Lemma call_step_true c (s s' : Shared) c' :
  call_step c s = (Ok c', s') → call_true c → call_true c'.
Proof.
  intros [[-> _]|He]%call_step_entered; [done|].
  destruct c' as [|request purpose| | | |request purpose [[key pop]|] d|]; simpl in *; [done| | | | | | |].
  - destruct He as [-> Hd]. intros _ par ->. destruct Hd as (parent & -> & [_ Ht Hp Hs Hk _]).
    exists parent. by split_and!.
  - destruct He as (-> & Hb & _). by intros.
  - destruct He as (-> & _). done.
  - destruct He as (-> & Hs & _). intros [? ?]. by split_and!.
  - destruct He as (-> & _). done.
  - destruct He as (-> & -> & ?). by intros.
  - destruct He as (-> & ? & _). by intros [? ?].
Qed.

(** A step adds to the trail the entry of the call it returns, and nothing else. *)
Lemma call_step_trail c (s s' : Shared) r :
  call_step c s = (r, s') →
  ms_audit s'.1 = ms_audit s.1 ++ option_list (entry_of r) ∧ entry_of (Ok c) = None
  ∨ ms_audit s'.1 = ms_audit s.1 ∧ r = Ok c.
Proof.
  intros Hstep. destruct c as [ | | | | |request purpose proof d|];
    try by (right; injection Hstep as <- <-).
  6: { left. split; [|done]. simpl in Hstep. unfold call_finish in Hstep.
       destruct purpose as [|[parent|]]; cbv zeta in Hstep;
         try (destruct (negb _); [injection Hstep as <- <-; by rewrite app_nil_r|]);
         unfold with_audit, zoom, mbindM, audit_record, in_memory_audit in Hstep;
         injection Hstep as <- <-; reflexivity. }
  all: left; split; [|done]; 
    assert (ms_audit s'.1 = ms_audit s.1) as -> by (by eapply call_step_audit; [|exact Hstep]).
  all: assert (entry_of r = None) as ->; [|by rewrite app_nil_r].
  all: destruct r as [c'|e|]; [|done..]; apply call_step_entered in Hstep as [[-> _]|He]; [done|].
  all: destruct c'; simpl in He; naive_solver.
Qed.

Definition trail_ok (before : InMemoryAudit) (x : list Thread * Shared) : Prop :=
  (∀ i c, x.1 !! i = Some (Ok c) → call_true c)
  ∧ ∃ new, ms_audit x.2.1 = before ++ new ∧ new ≡ₚ omap entry_of x.1.

Lemma sink_step_trail before x y : sink_step x y → trail_ok before x → trail_ok before y.
Proof.
  intros Hstep [Hcall (new & Hnew & Hperm)].
  destruct Hstep as [request purpose ts s|i c r ts s s' Hi Hrun|ts svc w i g w'];
    unfold trail_ok; cbn [fst snd] in *.
  - split.
    + intros i c [Hi|[_ Hi]]%lookup_app_Some; [by eapply Hcall|].
      by apply list_lookup_singleton_Some in Hi as [_ [= <-]].
    + exists new. split; [done|]. by rewrite omap_app, app_nil_r.
  - split.
    + intros j d [(<- & -> & _)|[_ Hj]]%list_lookup_insert_Some; [|by eapply Hcall].
      by eapply call_step_true; [|eapply Hcall].
    + destruct (call_step_trail _ _ _ _ Hrun) as [[Ha Hc]|[Ha ->]]; rewrite Ha, Hnew.
      * exists (new ++ option_list (entry_of r)). split; [by rewrite <- app_assoc|].
        by rewrite (omap_insert_none _ _ _ _ _ Hi Hc), Hperm.
      * exists new. split; [done|]. by rewrite list_insert_id.
  - split; [done|]. by exists new.
Qed.

Lemma field_details l event k :
  field (mkAuditEntry event (JObject (list_to_map l))) k = assoc k l.
Proof. apply list_to_map_assoc. Qed.

(** Read the members named in the goal. *)
Ltac read_fields :=
  rewrite ?field_details; cbn [assoc String.eqb Ascii.eqb Bool.eqb].

Lemma root_truthful request proof d :
  proven request ForRoot proof →
  truthful (mkAuditEntry "vaid_minted" (details_for request ForRoot d)) request ForRoot proof
    (mkMintVaidResponse d false None).
Proof.
  intros Hp. unfold details_for, root_audit_details. split; [by read_fields| |done].
  destruct proof as [[key pop]|]; read_fields.
  - destruct Hp as [[Hk Hpop] Hs]. by rewrite Hk.
  - destruct Hp as [_ Hk]. by rewrite Hk.
Qed.

Lemma child_truthful request parent proof d :
  delegated_from request (ForChild (Some parent)) → proven request (ForChild (Some parent)) proof →
  truthful (mkAuditEntry "vaid_minted" (details_for request (ForChild (Some parent)) d)) request
    (ForChild (Some parent)) proof (child_response parent d).
Proof.
  intros Hd Hp. destruct (Hd _ eq_refl) as (p & [= <-] & Ht & Hpar & Hsc & Hcaps).
  destruct proof as [[key pop]|]; [|by destruct Hp]. destruct Hp as [Hb Hs].
  unfold details_for, child_audit_details. split; [by read_fields|by read_fields|].
  intros par [= <-]. split; [done|]. exists parent. read_fields. rewrite Hpar, Ht.
  split_and!; try reflexivity; [done..|]. apply bool_decide_eq_true.
Qed.

Lemma returned_truthful request purpose proof resp :
  call_true (Returned request purpose proof resp) →
  truthful (mkAuditEntry "vaid_minted" (details_for request purpose (resp_vaid resp)))
    request purpose proof resp.
Proof.
  intros (Hd & Hp & Hr). rewrite Hr at 2. destruct purpose as [|par]; [by apply root_truthful|].
  destruct (Hd par eq_refl) as (parent & -> & _). by apply child_truthful.
Qed.

(** C40. The audit trail tells the truth, however calls interleave: as long as
    nobody else writes to the in-memory sink, its trail has grown by exactly one
    entry for each call that returned a document and none for a call that
    failed or is still running; and each entry says of its call what happened:
    whether it was a delegation, whether the holder proved its key (and it did),
    and, for a delegation, the authenticated parent, whose scope, capabilities
    and tenant were kept, and the expiries of the two documents. *)
Theorem audit_trail_truthful (svc : MintService I InMemoryAudit G) (w : World)
    (ts : list Thread) (s : Shared)
    (Hreach : rtc sink_step ([], (svc, w)) (ts, s)) :
  (∃ new, ms_audit s.1 = ms_audit svc ++ new ∧ new ≡ₚ omap entry_of ts)
  ∧ ∀ i request purpose proof resp,
      ts !! i = Some (Ok (Returned request purpose proof resp)) →
      ∃ e, e ∈ audit_entries (ms_audit s.1) ∧ event_type e = "vaid_minted"
           ∧ truthful e request purpose proof resp.
Proof.
  assert (trail_ok (ms_audit svc) (ts, s)) as [Hcall (new & Hnew & Hperm)].
  { cut (∀ x y, rtc sink_step x y → trail_ok (ms_audit svc) x → trail_ok (ms_audit svc) y).
    { intros Hinv. apply (Hinv _ _ Hreach). split; [done|]. exists []. by rewrite app_nil_r. }
    induction 1; eauto using sink_step_trail. }
  split; [by exists new|]. intros i request purpose proof resp Hi.
  eexists. split_and!; [| |apply returned_truthful; by eapply Hcall]; [|done].
  unfold audit_entries. simpl in Hnew. rewrite Hnew. apply elem_of_app. right. rewrite Hperm.
  apply list_elem_of_omap. eexists. split; [by eapply list_elem_of_lookup_2|done].
Qed.

(** A schedule of calls writes to the sink only through them. *)
Lemma schedule_sink turns x : rtc sink_step x (schedule turns x).
Proof.
  revert x. induction turns as [|i turns IH]; intros x; [apply rtc_refl|]. simpl.
  etrans; [|apply IH]. destruct x as [ts s]. unfold run_thread. simpl.
  destruct (ts !! i) as [[c|e|]|] eqn:Hi; [|reflexivity..].
  destruct (call_step c s) as [r s'] eqn:Hstep. by apply rtc_once, (sink_run _ c).
Qed.

Lemma enter_sink calls ts s : rtc sink_step (ts, s) (ts ++ enter calls, s).
Proof.
  revert ts. induction calls as [|c calls IH]; intros ts; simpl; [by rewrite app_nil_r|].
  eapply rtc_l; [apply (sink_spawn c.1 c.2)|].
  change (Ok (Called c.1 c.2) :: enter calls) with ([Ok (Called c.1 c.2)] ++ enter calls).
  rewrite app_assoc. apply IH.
Qed.

End AuditTrail.

(** ** Witness: a root mint and a delegation taking turns, after another mint *)

Module AuditTrailSamples.
Import MintSamples InterleavingSamples.

#[local] Existing Instance samples.

Lemma audit_trail_truthful_witness :
  (∃ new, ms_audit mixed.2.1 = ms_audit after_root.2.1 ++ new ∧ new ≡ₚ omap entry_of mixed.1)
  ∧ ∀ i request purpose proof resp,
      mixed.1 !! i = Some (Ok (Returned request purpose proof resp)) →
      ∃ e, e ∈ audit_entries (ms_audit mixed.2.1) ∧ event_type e = "vaid_minted"
           ∧ truthful e request purpose proof resp.
Proof.
  apply (audit_trail_truthful after_root.2.1 after_root.2.2 mixed.1 mixed.2).
  rewrite <- !surjective_pairing.
  etrans; [apply (enter_sink mixed_calls)|apply schedule_sink].
Defined.

(** Both calls returned, and the trail holds the three entries. *)
Example mixed_trail :
  audit_len (ms_audit mixed.2.1) = 3 ∧ length (omap entry_of mixed.1) = 2.
Proof. vm_compute. split; reflexivity. Qed.

End AuditTrailSamples.
