(* ===== verification/Delegation.v ===== *)
(** * Delegation end to end: the mint, the issuer and the verifier together

    The mint's checks, the issuer's promise (the interface [IssuerLaws]) and the
    chain verifier meet: what the mint returns, the verifier accepts. *)

From S2P Require Import Prelude Json Externals Concrete Identity Scope IssuerIdentity Document.
From S2P Require Import DupScan Revocation Attenuation Verify Attestation Chain World Pop.
From S2P Require Import Issuer Mint.

Section Delegation.
  Context {Ext : Externals}.

Lemma presented_get_snoc (docs : list Vaid) (d : Vaid) (id : VaidId) :
  presented_get (presented_bundle_new (docs ++ [d])) id =
  if decide (vaid_id d = id) then Some d else presented_get (presented_bundle_new docs) id.
Proof.
  unfold presented_get, presented_bundle_new. rewrite foldl_app. cbn [foldl].
  apply (lookup_insert (M := gmap VaidId)).
Qed.

(** Presenting one more document leaves an ancestry that avoids its id alone. *)
Lemma ancestor_docs_snoc docs d leaf up :
  ancestor_docs (presented_bundle_new docs) leaf up → vaid_id d ∉ map vaid_id up →
  ancestor_docs (presented_bundle_new (docs ++ [d])) leaf up.
Proof.
  induction 1 as [leaf Hn|leaf pid p up Hn Hget _ IH]; intros Hnot; [by constructor|].
  simpl in Hnot. rewrite not_elem_of_cons in Hnot. destruct Hnot as [Hne Hnot].
  econstructor; [done| |by apply IH].
  rewrite presented_get_snoc, decide_False; [done|].
  rewrite <- (presented_bundle_new_wf docs _ _ Hget). done.
Qed.

(** An ancestry is made of presented documents, so it is no longer than them. *)
Lemma ancestor_docs_length docs leaf up :
  ancestor_docs (presented_bundle_new docs) leaf up → NoDup (map vaid_id up) →
  length up ≤ length docs.
Proof.
  intros Hup Hnd.
  assert (∀ id d, presented_get (presented_bundle_new docs) id = Some d → d ∈ docs) as Hin.
  { clear. unfold presented_get, presented_bundle_new.
    induction docs as [|d docs IH] using rev_ind; intros id d'; [done|].
    rewrite foldl_app. cbn [foldl]. rewrite lookup_insert_Some, elem_of_app, list_elem_of_singleton.
    naive_solver. }
  rewrite <- (length_map vaid_id up), <- (length_map vaid_id docs).
  apply submseteq_length, NoDup_submseteq; [done|]. intros id Hid.
  apply list_elem_of_fmap in Hid as (d & -> & Hd). apply list_elem_of_fmap_2.
  destruct (ancestor_docs_presented _ _ _ _ Hup Hd) as [id' Hget]. by eapply Hin.
Qed.

Section Laws.
  Context {I A G : Type} {VI : VaidIssuer I} {AS : AuditSink A} {AG : AuthorizationGate G}.
  Context {issuer_key : I → list byte} {issuer_domain : I → string} {ready : I → Prop}
    {IL : IssuerLaws I issuer_key issuer_domain ready}.
  Implicit Types (svc : MintService I A G).

(** What a successful delegation returns, under a lawful issuer. *)
Lemma mint_child_document req parent svc w resp s' :
  ready (ms_issuer svc) →
  mint_child req (Some parent) (svc, w) = (Ok resp, s') →
  let child := resp_vaid resp in
  ready (ms_issuer s'.1)
  ∧ authentic (issuer_key (ms_issuer svc)) child ∧ vaid_wf child
  ∧ parent_vaid child = Some (vaid_id parent)
  ∧ vd_trust_domain child = issuer_domain (ms_issuer svc)
  ∧ vd_tenant_id child = vd_tenant_id parent
  ∧ contained_in parent child
  ∧ (∀ id, resolve_delegation_ancestor (ms_issuer s'.1) id =
           if decide (id = vaid_id child) then Parent (vaid_id parent)
           else resolve_delegation_ancestor (ms_issuer svc) id)
  ∧ ∃ chain, assemble_lineage parent (mkIssuerLineageResolver (ms_issuer svc)) = Complete chain
             ∧ length chain ≤ ms_max_delegation_depth svc.
Proof.
  intros Hready Hm.
  apply mint_child_ok in Hm as (parent' & key & pop & i & w2 & a & [= <-]
    & [_ _ [Hdepth Ht Hp Hs Hc _] _ Hissue Hexp _ _] & ->). unfold issue_child in Hissue.
  apply (issue_with_key_ok (issuer_key := issuer_key) (issuer_domain := issuer_domain)
           (ready := ready)) in Hissue
    as (Hr & _ & _ & Ha & Hwf & Htd & Hten & Hpar & Hsc & Hcaps & _ & Hres); [|done].
  cbn zeta. rewrite Hp in *. split_and!; try done.
  - rewrite Hten, <- Ht. by destruct (vd_tenant_id parent).
  - split; [by rewrite Hsc|by rewrite Hcaps|done].
Qed.

(** C1. What the mint delegates, the verifier accepts: if the parent's chain
    verifies under the issuer's key at some instant at which the parent has not
    lapsed, then the chain of any child this mint returns for it, presented
    with the parent added, verifies at that instant too.  It needs the parent to
    carry the issuer's own trust domain (a mint delegates within its domain), the
    generated id to be new to the presented documents, and the chain to stay
    within the depth bound. *)
Theorem minted_child_chain_verifies req parent svc w resp s' (docs : list Vaid) (t : Instant)
    (Hready : ready (ms_issuer svc))
    (Hdomain : vd_trust_domain parent = issuer_domain (ms_issuer svc))
    (Hmint : mint_child req (Some parent) (svc, w) = (Ok resp, s'))
    (Hver : verify_chain t (issuer_key (ms_issuer svc)) parent (presented_bundle_new docs)
            = Ok ChainVerification.Attenuated)
    (Hlive : is_expired_at parent t = false)
    (Hfresh : vaid_id (resp_vaid resp) ∉ map vaid_id (parent :: docs))
    (Hdepth : length docs + 2 ≤ MAX_LINEAGE_DEPTH) :
  verify_chain t (issuer_key (ms_issuer svc)) (resp_vaid resp)
    (presented_bundle_new (docs ++ [parent])) = Ok ChainVerification.Attenuated.
Proof.
  destruct (mint_child_document _ _ _ _ _ _ Hready Hmint)
    as (_ & Hauth & _ & Hpar & Htd & Hten & Hcon & _).
  unfold verify_chain, verify_chain_with in *.
  apply verify_chain_at_attenuated in Hver as (up & [Hl Hb Hup Hnd Hlen Hall Hhops]);
    [|apply presented_bundle_new_wf].
  apply verify_chain_at_attenuated; [apply presented_bundle_new_wf|]. exists (parent :: up).
  simpl in Hnd. apply NoDup_cons in Hnd as [Hpup Hnd].
  pose proof (ancestor_docs_length _ _ _ Hup Hnd) as Hle. simpl in Hfresh.
  apply not_elem_of_cons in Hfresh as [Hfp Hfd]. split.
  - by apply single_key_authenticate.
  - intros id d. rewrite presented_get_snoc. case_decide; [by intros [= <-]|apply Hb].
  - apply (docs_hop _ _ (vaid_id parent)); [done|by rewrite presented_get_snoc, decide_True|].
    by apply ancestor_docs_snoc.
  - simpl. apply NoDup_cons. split; [|by apply NoDup_cons]. rewrite not_elem_of_cons.
    split; [done|]. intros Hin. apply Hfd. apply list_elem_of_fmap in Hin as (d & Heq & Hd).
    destruct (ancestor_docs_presented _ _ _ _ Hup Hd) as [id Hget].
    rewrite Heq. apply list_elem_of_fmap_2. clear - Hget.
    revert id Hget. unfold presented_get, presented_bundle_new.
    induction docs as [|x docs IH] using rev_ind; intros id; [done|].
    rewrite foldl_app. cbn [foldl]. rewrite lookup_insert_Some, elem_of_app, list_elem_of_singleton.
    naive_solver.
  - simpl. lia.
  - by constructor.
  - split; [|done]. destruct Hcon as [Hs Hc He]. split; try done.
    + intros _. split; [by rewrite Htd|by rewrite Hten].
    + intros Hk. exfalso. apply Hk. rewrite (auth_thumbprint _ _ Hauth).
      by apply single_key_authenticate, auth_thumbprint in Hl.
Qed.

(** C24. The mint's depth limit holds in the lineage it records: after a successful
    delegation, the child's ancestry assembles, through the issuer's own
    records, to the parent's followed by the child, at most one longer than the
    configured depth, unless that would exceed the assembly bound itself. *)
Theorem minted_child_depth req parent svc w resp s' (Hready : ready (ms_issuer svc))
    (Hmint : mint_child req (Some parent) (svc, w) = (Ok resp, s'))
    (Hfresh : ∀ chain, assemble_lineage parent (mkIssuerLineageResolver (ms_issuer svc))
                       = Complete chain →
              vaid_id (resp_vaid resp) ∉ chain)
    (Hresolve : known_parent (resolve_delegation_ancestor (ms_issuer svc) (vaid_id parent))
                = Some (parent_vaid parent)) :
  ∃ chain,
    assemble_lineage parent (mkIssuerLineageResolver (ms_issuer svc)) = Complete chain
    ∧ length chain ≤ ms_max_delegation_depth svc
    ∧ assemble_lineage (resp_vaid resp) (mkIssuerLineageResolver (ms_issuer s'.1))
      = if bool_decide (length chain < MAX_LINEAGE_DEPTH)
        then Complete (chain ++ [vaid_id (resp_vaid resp)]) else Incomplete.
Proof.
  destruct (mint_child_document _ _ _ _ _ _ Hready Hmint)
    as (_ & _ & _ & Hpar & _ & _ & _ & Hres & (chain & Hchain & Hle)).
  exists chain. split_and!; [done..|]. pose proof (Hfresh chain Hchain) as Hf.
  apply assemble_lineage_complete in Hchain as (up & Hup & -> & Hnd & Hlen).
  set (child := resp_vaid resp) in *. rewrite length_reverse.
  rewrite elem_of_reverse in Hf.
  assert (∀ next l, ancestors_above (resolve_parent (mkIssuerLineageResolver (ms_issuer svc))) next l →
            vaid_id child ∉ l →
            ancestors_above (resolve_parent (mkIssuerLineageResolver (ms_issuer s'.1))) next l)
    as Hext.
  { induction 1 as [|pid next l Hk _ IH]; intros Hnot; [constructor|].
    apply not_elem_of_cons in Hnot as [Hne Hnot]. econstructor; [|by apply IH].
    unfold resolve_parent, issuer_lineage_resolver in *. simpl in *.
    rewrite Hres, decide_False by congruence. done. }
  assert (ancestors_above (resolve_parent (mkIssuerLineageResolver (ms_issuer s'.1)))
            (parent_vaid child) (vaid_id parent :: up)) as Hup'.
  { rewrite Hpar. apply not_elem_of_cons in Hf as [Hne Hf].
    econstructor; [|by apply Hext].
    unfold resolve_parent, issuer_lineage_resolver. simpl.
    by rewrite Hres, decide_False by congruence. }
  case_bool_decide as Hb.
  - apply assemble_lineage_complete. exists (vaid_id parent :: up). split_and!; [done| | |].
    + by rewrite (reverse_cons _ (vaid_id child)).
    + by apply NoDup_cons.
    + simpl in *. lia.
  - destruct (assemble_lineage child _) as [c|] eqn:E; [|done].
    apply assemble_lineage_complete in E as (up' & Hup'' & _ & _ & Hl).
    rewrite (ancestors_above_unique _ _ _ _ Hup'' Hup') in Hl. simpl in *. lia.
Qed.

(** A root mint keeps whatever parent it is asked for: with a parent id in the
    seed, a bring-your-own-key root mint that succeeds returns a document that
    authenticates and names that parent, although no parent was presented,
    nothing was compared with a parent, and the audit entry says it was not
    delegated. *)
Theorem root_mint_keeps_claimed_parent req svc w resp s' (key : list byte)
    (Hready : ready (ms_issuer svc))
    (Hkey : seed_public_key_der (req_seed req) = Some key)
    (Hmint : mint_root req (svc, w) = (Ok resp, s')) :
  authentic (issuer_key (ms_issuer svc)) (resp_vaid resp)
  ∧ parent_vaid (resp_vaid resp) = seed_parent_vaid (req_seed req)
  ∧ vd_scope_boundary (resp_vaid resp) = seed_scope_boundary (req_seed req)
  ∧ vd_capability_set (resp_vaid resp) = seed_capability_set (req_seed req).
Proof.
  unfold mint_root in Hmint. rewrite Hkey in Hmint. run_ok Hmint. cbv zeta in Hmint.
  run_ok Hmint. run_ok Hmint. injection Hmint as <- <-.
  match goal with H : with_authz _ _ = _ |- _ =>
    unfold with_authz, zoom in H; destruct (authorize_root_mint _ _); simplify_eq/= end.
  match goal with H : mbindM (verify_pop_at_mint _ _ _) _ _ = _ |- _ => run_ok H;
    apply with_issuer_ok in H as (i & w2 & Hissue & ->) end.
  match goal with H : verify_pop_at_mint _ _ _ _ = _ |- _ =>
    apply verify_pop_ok in H as (p' & _ & _ & ->) end.
  simpl in Hissue.
  apply (issue_with_key_ok (issuer_key := issuer_key) (issuer_domain := issuer_domain)
           (ready := ready)) in Hissue
    as (_ & _ & _ & Ha & _ & _ & _ & Hpar & Hsc & Hcaps & _); done.
Qed.

End Laws.

(** ** What the reference issuer grants *)

Section Reference.
  Context {R L G : Type} {RC : RevocationCheck R} {LR : LineageResolver L} {LS : LineageStore L}
    {AG : AuthorizationGate G} {Laws : ChronoLaws}.
  #[local] Notation Issuer := (ReferenceIssuer (R := R) (L := L)).
  Implicit Types (svc : MintService Issuer InMemoryAudit G) (i : Issuer).

  (** With the built-in lineage store and a lifetime that does not overflow, an
      issue under a readable ceiling succeeds. *)
Lemma build_and_sign_granted ac ver ten par sc caps pk c cap ttl t i w :
  ri_lineage i = None →
  duration_hours (ri_vaid_ttl_hours i) = Some ttl →
  dt_add (dt_trunc_subsecs0 (w_clock w (w_clock_reads w))) ttl = Some t →
  parse_rfc3339 c = Some cap →
  ∃ aid i' w',
    build_and_sign_vaid ac ver ten par sc caps pk (Some c) (i, w)
    = (Ok (minted i aid ac ver ten (dt_trunc_subsecs0 (w_clock w (w_clock_reads w))) (Z.min t cap)
             pk par sc caps), (i', w')).
Proof.
  intros Hl Httl Hadd Hcap. eexists _, _, _.
  unfold build_and_sign_vaid, on_issuer, on_world, zoom, AgentId_new, uuid_new_v4, whole_second_now,
    utc_now, ttl_expiry, clamp, record_minted, issuer_try_record, mget, mret, mbindM. simpl.
  rewrite Httl. simpl. rewrite Hadd, Hcap. simpl. rewrite Hl. simpl. reflexivity.
Qed.

  (** For a live parent the issue under its expiry is contained in it, and
      expires at the earlier of the two ends. *)
Lemma issue_child_granted seed parent key i w now stop cap :
  ri_lineage i = None →
  now = dt_trunc_subsecs0 (w_clock w (w_clock_reads w)) →
  stop = (now + ri_vaid_ttl_hours i * 3600 * NANOS)%Z →
  four_digit_year now → four_digit_year stop →
  expires_at parent = Some cap → four_digit_year cap →
  ∃ d i' w',
    issue_child seed parent key (i, w) = (Ok d, (i', w'))
    ∧ expires_at d = Some (Z.min stop cap - Z.min stop cap mod NANOS)%Z
    ∧ expiry_attenuates parent (Some (expires_at_as_presented d)) = true.
Proof.
  intros Hstore Hnow Hstop Hy Hys Hcap Hyc.
  assert (duration_hours (ri_vaid_ttl_hours i) = Some (ri_vaid_ttl_hours i * 3600 * NANOS)%Z) as Hlife.
  { rewrite duration_hours_spec, decide_True; [done|].
    unfold four_digit_year, NANOS, I64_MAX in *. lia. }
  destruct (build_and_sign_granted (mkAgentClass (seed_agent_class seed)) (seed_version seed)
    (mkTenantId (seed_tenant_id seed)) (seed_parent_vaid seed) (seed_scope_boundary seed)
    (seed_capability_set seed) key (expires_at_as_presented parent) cap _ stop i w Hstore Hlife)
    as (aid & i' & w' & Hissue); [by rewrite <- Hnow, Hstop in *; apply dt_add_four_digit_year|done|].
  eexists _, i', w'. split; [exact Hissue|].
  match goal with |- expires_at ?x = _ ∧ _ => set (d := x) end.
  assert (expires_at d = Some (Z.min stop cap - Z.min stop cap mod NANOS)%Z) as Hexp.
  { apply parse_format_e6. by destruct (Z.min_spec stop cap) as [[_ ->]|[_ ->]]. }
  split; [done|]. apply expiry_attenuates_within_spec. eexists _, _, _.
  split_and!; [exact Hcap|done|exact Hexp|].
  pose proof (Z.mod_pos_bound (Z.min stop cap) NANOS ltac:(done)). lia.
Qed.

  (** The rules, at the two clock readings the mint makes of them. *)
Definition entitled svc (w : World) (req : MintVaidRequest) (par : option Vaid) : Prop :=
  ∃ parent key pop,
    par = Some parent ∧ seed_public_key_der (req_seed req) = Some key ∧ req_pop req = Some pop
    ∧ delegation_allowed svc (req_seed req) parent (w_clock w (w_clock_reads w))
    ∧ pop_accepted svc (req_seed req) key pop (w_clock w (S (w_clock_reads w))).

(** C10. Who is entitled is served, and nobody else.  Over the reference issuer
    with its built-in lineage store, the in-memory audit and any gate, at
    instants in the four-digit years: a delegation is granted exactly when the
    rules hold at the first reading of the clock and the proof is fresh, new and
    well signed at the second; the granted document expires at the earlier of
    the issuer's lifetime (from the third reading) and the parent's expiry, to
    the whole second; otherwise the answer is an error, and the issuer's records
    and the audit trail are as they were.  It never panics. *)
Theorem delegation_granted req par svc w (now : Instant)
    (Hstore : ri_lineage (ms_issuer svc) = None)
    (Hnow : now = dt_trunc_subsecs0 (w_clock w (S (S (w_clock_reads w)))))
    (Hstart : four_digit_year now)
    (Hstop : four_digit_year (now + ri_vaid_ttl_hours (ms_issuer svc) * 3600 * NANOS)%Z)
    (Hparent : ∀ parent cap, par = Some parent → expires_at parent = Some cap → four_digit_year cap) :
  ∃ r s', mint_child req par (svc, w) = (r, s')
  ∧ match r with
    | Ok resp =>
        entitled svc w req par
        ∧ ∃ parent cap, par = Some parent ∧ expires_at parent = Some cap
          ∧ let e := Z.min (now + ri_vaid_ttl_hours (ms_issuer svc) * 3600 * NANOS) cap in
            expires_at (resp_vaid resp) = Some (e - e mod NANOS)%Z
    | Err _ =>
        ¬ entitled svc w req par
        ∧ ms_issuer s'.1 = ms_issuer svc ∧ ms_audit s'.1 = ms_audit svc
    | Panicked => False
    end.
Proof.
  unfold mint_child.
  destruct par as [parent|]; [|eexists _, _; split; [reflexivity|]; split_and!;
    [by intros (? & ? & ? & [=] & _)|done..]].
  cbv zeta. unfold mbindM at 1.
  destruct (check_delegation_run (req_seed req) parent svc w) as (r & w1 & Hrun & Hr & Hiff).
  rewrite Hrun. destruct Hr as [[-> ->]|[msg ->]].
  2: { eexists _, _. split; [reflexivity|]. split_and!; [|done..].
       intros (? & ? & ? & [= <-] & _ & _ & Hda & _). by apply Hiff in Hda. }
  assert (delegation_allowed svc (req_seed req) parent (w_clock w (w_clock_reads w))) as Hda
    by (by apply Hiff).
  destruct (seed_public_key_der _) as [key|] eqn:Hkey.
  2: { eexists _, _. split; [reflexivity|]. split_and!; [|done..].
       intros (? & ? & ? & _ & Hk & _). congruence. }
  unfold mbindM at 1.
  destruct (verify_pop_run (req_seed req) key (req_pop req) svc (after_clock w))
    as (r & svc1 & Hpop & Ho).
  destruct (pop_outcome_answer _ _ _ _ _ _ _ Ho) as (Hr & Hi & Ha).
  destruct (req_pop req) as [pop|] eqn:Hp; rewrite Hpop.
  2: { inversion Ho; subst. eexists _, _. split; [reflexivity|]. split_and!; [|done..].
       intros (? & ? & ? & _ & _ & Hp' & _). congruence. }
  destruct Hr as [->|[msg ->]].
  2: { eexists _, _. split; [reflexivity|]. split_and!; [|done..].
       intros (? & k & p & _ & Hk & Hp' & _ & Hacc). assert (k = key) as -> by congruence.
       assert (p = pop) as -> by congruence.
       by destruct (pop_outcome_accepted _ _ _ _ _ _ _ Ho Hacc). }
  assert (entitled svc w req (Some parent)) as Hent.
  { apply pop_outcome_ok in Ho as (p & [= <-] & Hacc & _). exists parent, key, pop. by split_and!. }
  pose proof (da_live _ _ _ _ Hda) as Hlive. unfold is_expired_at in Hlive.
  destruct (expires_at parent) as [cap|] eqn:Hcap; [|done].
  destruct (issue_child_granted (req_seed req) parent key (ms_issuer svc)
    (after_clock (after_clock w)) now _ cap Hstore Hnow eq_refl Hstart Hstop Hcap
    (Hparent _ _ eq_refl Hcap)) as (d & i' & w' & Hissue & Hexp & Hatt).
  unfold issue_child in Hissue. unfold mbindM at 1, with_issuer, zoom. cbn [fst snd].
  rewrite Hi, Hissue, Hatt. cbn [negb].
  eexists _, _. split; [reflexivity|]. split; [done|]. exists parent, cap. split_and!; done.
Qed.

End Reference.

(** C39. The depth configuration admits one level too many: the largest delegation
    depth that validation accepts is the assembly bound, a parent whose lineage
    fills the bound is within it, and yet no child of that parent, recorded or
    not, can ever assemble, so what the mint would issue there never verifies. *)
Theorem max_delegation_depth_unverifiable {L} `{LineageResolver L} (r : L) (parent child : Vaid)
    (chain : list VaidId)
    (Hchain : assemble_lineage parent r = Complete chain)
    (Hfull : length chain = MAX_LINEAGE_DEPTH)
    (Hresolve : known_parent (resolve_parent r (vaid_id parent)) = Some (parent_vaid parent))
    (Hchild : parent_vaid child = Some (vaid_id parent)) :
  validate_max_delegation_depth MAX_LINEAGE_DEPTH = Ok MAX_LINEAGE_DEPTH
  ∧ (MAX_LINEAGE_DEPTH <? length chain)%nat = false
  ∧ assemble_lineage child r = Incomplete.
Proof.
  split_and!.
  - unfold validate_max_delegation_depth. pose proof max_lineage_depth_pos.
    rewrite (proj2 (Nat.ltb_ge _ _)) by lia. by rewrite Nat.ltb_irrefl.
  - rewrite Hfull. apply Nat.ltb_irrefl.
  - destruct (assemble_lineage child r) as [c|] eqn:E; [|done].
    apply assemble_lineage_complete in E as (up' & Hup' & _ & _ & Hl).
    apply assemble_lineage_complete in Hchain as (up & Hup & -> & _ & _).
    assert (ancestors_above (resolve_parent r) (parent_vaid child) (vaid_id parent :: up)) as Hup2
      by (rewrite Hchild; by econstructor).
    rewrite (ancestors_above_unique _ _ _ _ Hup' Hup2) in Hl.
    rewrite length_reverse in Hfull. simpl in *. lia.
Qed.

(** The configured depth is validated: a depth is accepted, unchanged, exactly
    when it is at least one and at most the lineage bound; there is no value
    meaning unlimited, and the default is accepted. *)
Theorem validate_depth_spec (n m : nat) :
  (validate_max_delegation_depth n = Ok m ↔ m = n ∧ 1 ≤ n ≤ MAX_LINEAGE_DEPTH)
  ∧ validate_max_delegation_depth n ≠ Panicked
  ∧ validate_max_delegation_depth DEFAULT_MAX_DELEGATION_DEPTH = Ok DEFAULT_MAX_DELEGATION_DEPTH.
Proof.
  pose proof max_lineage_depth_pos. unfold validate_max_delegation_depth, DEFAULT_MAX_DELEGATION_DEPTH.
  split_and!.
  - destruct (n <? 1)%nat eqn:E1; [apply Nat.ltb_lt in E1; split; [done|lia]|].
    apply Nat.ltb_ge in E1. destruct (_ <? n)%nat eqn:E2.
    + apply Nat.ltb_lt in E2. split; [done|lia].
    + apply Nat.ltb_ge in E2. split; [intros [= <-]; lia|by intros [-> _]].
  - by repeat case_match.
  - rewrite (proj2 (Nat.ltb_ge 1 1)) by lia. by rewrite (proj2 (Nat.ltb_ge MAX_LINEAGE_DEPTH 1)) by lia.
Qed.

End Delegation.

(** ** Witnesses *)

Module DelegationSamples.
  Import MintSamples.

#[local] Existing Instance MintSamples.samples.

Lemma minted_child_chain_verifies_witness :
  verify_chain (second 1000) kernel (resp_vaid child_answer) (presented_bundle_new ([] ++ [root]))
  = Ok ChainVerification.Attenuated.
Proof.
  apply (minted_child_chain_verifies (issuer_key := kernel_public_key)
           (issuer_domain := ri_trust_domain) (ready := issuer_wf)
           child_request root after_root.2.1 after_root.2.2 child_answer after_child.2).
  - vm_compute. reflexivity.
  - vm_compute. reflexivity.
  - exact child_minting.
  - vm_compute. reflexivity.
  - vm_compute. reflexivity.
  - apply (bool_decide_unpack (_ ∉ _)). vm_compute. exact Logic.I.
  - apply Nat.leb_le. vm_compute. reflexivity.
Defined.

(** The holder is entitled to the child it asks for. *)
Lemma delegation_granted_witness :
  ∃ r s', mint_child child_request (Some root) (after_root.2.1, after_root.2.2) = (r, s')
  ∧ match r with
    | Ok resp =>
        entitled after_root.2.1 after_root.2.2 child_request (Some root)
        ∧ ∃ parent cap, Some root = Some parent ∧ expires_at parent = Some cap
          ∧ let e := Z.min (second 54 + ri_vaid_ttl_hours (ms_issuer after_root.2.1) * 3600 * NANOS)
                       cap in
            expires_at (resp_vaid resp) = Some (e - e mod NANOS)%Z
    | Err _ =>
        ¬ entitled after_root.2.1 after_root.2.2 child_request (Some root)
        ∧ ms_issuer s'.1 = ms_issuer after_root.2.1 ∧ ms_audit s'.1 = ms_audit after_root.2.1
    | Panicked => False
    end.
Proof.
  apply (delegation_granted child_request (Some root) after_root.2.1 after_root.2.2 (second 54)).
  - vm_compute. reflexivity.
  - vm_compute. reflexivity.
  - by apply (bool_decide_unpack (four_digit_year _)).
  - by apply (bool_decide_unpack (four_digit_year _)); vm_compute.
  - intros parent cap Hp Hc. apply (inj Some) in Hp as <-. vm_compute in Hc. injection Hc as <-.
    by apply (bool_decide_unpack (four_digit_year _)).
Defined.

Lemma minted_child_depth_witness :
  ∃ chain,
    assemble_lineage root (mkIssuerLineageResolver (ms_issuer after_root.2.1)) = Complete chain
    ∧ length chain ≤ ms_max_delegation_depth after_root.2.1
    ∧ assemble_lineage (resp_vaid child_answer)
        (mkIssuerLineageResolver (ms_issuer after_child.2.1))
      = if bool_decide (length chain < MAX_LINEAGE_DEPTH)
        then Complete (chain ++ [vaid_id (resp_vaid child_answer)]) else Incomplete.
Proof.
  apply (minted_child_depth (issuer_key := kernel_public_key)
           (issuer_domain := ri_trust_domain) (ready := issuer_wf)
           child_request root after_root.2.1 after_root.2.2 child_answer after_child.2).
  - vm_compute. reflexivity.
  - exact child_minting.
  - intros chain Hc. rewrite assemble_root in Hc by (vm_compute; reflexivity).
    assert (chain = [vaid_id root]) as -> by congruence.
    apply (bool_decide_unpack (_ ∉ _)). vm_compute. exact Logic.I.
  - vm_compute. reflexivity.
Defined.

(** A root mint naming the parent ["u-1"], which nobody presented. *)
Definition claiming_request : MintVaidRequest :=
  request (Some (VaidId_from_uuid 3%N)) ["anything"] ["admin"] "n4".
Definition after_claim := mint_root claiming_request (service, world).

Lemma root_mint_keeps_claimed_parent_witness :
  authentic kernel (resp_vaid (response after_claim.1))
  ∧ parent_vaid (resp_vaid (response after_claim.1)) = Some (VaidId_from_uuid 3%N)
  ∧ vd_scope_boundary (resp_vaid (response after_claim.1)) = [entry_prefix "anything"]
  ∧ vd_capability_set (resp_vaid (response after_claim.1)) = ["admin"].
Proof.
  apply (root_mint_keeps_claimed_parent (issuer_key := kernel_public_key)
           (issuer_domain := ri_trust_domain) (ready := issuer_wf)
           claiming_request service world (response after_claim.1) after_claim.2 holder).
  - vm_compute. reflexivity.
  - reflexivity.
  - apply (ok_response after_claim). vm_compute. reflexivity.
Defined.

(** A resolver in which every id points at the one below it, down to zero. *)
Inductive Ladder : Type := mkLadder.
#[local] Instance ladder_resolver : LineageResolver Ladder :=
  λ _ id, match vaid_as_uuid id with
          | N0 => Root
          | Npos p => Parent (VaidId_from_uuid (Pos.pred_N p))
          end.

Definition ladder_doc (n : N) : Vaid :=
  with_lineage (AgentId_from_uuid n) (mkAgentClass "a") "1" (mkTenantId "t") 0%Z 0%Z [] []
    (Some (VaidId_from_uuid (N.pred n))) [] "" [] "a.example" "t".

Definition ladder_chain : list VaidId :=
  map (λ n, VaidId_from_uuid (N.of_nat n)) (seq 0 1024).

Lemma max_delegation_depth_unverifiable_witness :
  validate_max_delegation_depth MAX_LINEAGE_DEPTH = Ok MAX_LINEAGE_DEPTH
  ∧ (MAX_LINEAGE_DEPTH <? length ladder_chain)%nat = false
  ∧ assemble_lineage (ladder_doc 1024%N) mkLadder = Incomplete.
Proof.
  apply (max_delegation_depth_unverifiable mkLadder (ladder_doc 1023%N) (ladder_doc 1024%N)).
  - vm_compute. reflexivity.
  - vm_compute. reflexivity.
  - vm_compute. reflexivity.
  - vm_compute. reflexivity.
Defined.

End DelegationSamples.
