(* ===== verification/Sha256.v ===== *)
(** * SHA-256 and base64url, as published

    FIPS 180-4 and RFC 4648, computable: the instance at which the unit tests that
    compare with a published value are evaluated.  The round constants are
    computed from their definition (the fractional bits of the roots of the first
    primes). *)

From S2P Require Import Prelude.

(** ** 32-bit words *)

Definition word (n : N) : N := N.land n 4294967295.
Definition add32 (a b : N) : N := word (a + b).
Definition rotr (n x : N) : N := N.lor (N.shiftr x n) (word (N.shiftl x (32 - n))).
Definition xor3 (a b c : N) : N := N.lxor (N.lxor a b) c.

Definition Ch (x y z : N) : N := N.lxor (N.land x y) (N.land (word (N.lnot x 32)) z).
Definition Maj (x y z : N) : N := xor3 (N.land x y) (N.land x z) (N.land y z).
Definition Sigma0 (x : N) : N := xor3 (rotr 2 x) (rotr 13 x) (rotr 22 x).
Definition Sigma1 (x : N) : N := xor3 (rotr 6 x) (rotr 11 x) (rotr 25 x).
Definition sigma0 (x : N) : N := xor3 (rotr 7 x) (rotr 18 x) (N.shiftr x 3).
Definition sigma1 (x : N) : N := xor3 (rotr 17 x) (rotr 19 x) (N.shiftr x 10).

(** ** Constants *)

Definition is_prime (n : nat) : bool :=
  (1 <? n)%nat && forallb (λ d, negb (n mod d =? 0)%nat) (seq 2 (n - 2)).

Definition first_primes : list N :=
  Eval vm_compute in map N.of_nat (filter (λ n, is_prime n = true) (seq 2 310)).

(** The cube root of [n] below [2 ^ k] more than [r], rounded down. *)
Fixpoint cube_root (k : nat) (r n : N) : N :=
  match k with
  | O => r
  | S k' =>
      let r' := (r + 2 ^ N.of_nat k')%N in
      cube_root k' (if (r' * r' * r' <=? n)%N then r' else r) n
  end.

Definition round_constants : list N :=
  Eval vm_compute in map (λ p, word (cube_root 36 0 (p * 2 ^ 96))) first_primes.

Definition initial_hash : list N :=
  Eval vm_compute in map (λ p, word (N.sqrt (p * 2 ^ 64))) (take 8 first_primes).

(** ** The message schedule: the latest word first *)

Fixpoint extend_schedule (k : nat) (w : list N) : list N :=
  match k with
  | O => w
  | S k' =>
      let at_ i := default 0%N (w !! i) in
      extend_schedule k'
        (add32 (add32 (sigma1 (at_ 1%nat)) (at_ 6%nat)) (add32 (sigma0 (at_ 14%nat)) (at_ 15%nat)) :: w)
  end.

Definition schedule (block : list N) : list N := rev (extend_schedule 48 (rev block)).

(** ** Compression *)

Definition sha_round (h : list N) (kw : N * N) : list N :=
  match h with
  | [a; b; c; d; e; f; g; h] =>
      let t1 := add32 (add32 (add32 h (Sigma1 e)) (Ch e f g)) (add32 kw.1 kw.2) in
      let t2 := add32 (Sigma0 a) (Maj a b c) in
      [add32 t1 t2; a; b; c; add32 d t1; e; f; g]
  | _ => h
  end.

Definition compress (h : list N) (block : list N) : list N :=
  zip_with add32 h (foldl sha_round h (zip round_constants (schedule block))).

(** ** Padding and blocks *)

Definition byte_N (b : byte) : N := Byte.to_N b.
Definition N_byte (n : N) : byte := default "000"%byte (Byte.of_N (N.land n 255)).

(** The low [8 * k] bits of [n], most significant byte first. *)
Fixpoint be_bytes (k : nat) (n : N) : list byte :=
  match k with
  | O => []
  | S k' => N_byte (N.shiftr n (8 * N.of_nat k')) :: be_bytes k' n
  end.

Definition sha_pad (m : list byte) : list byte :=
  let zeros := ((119 - length m mod 64) mod 64)%nat in
  m ++ "128"%byte :: replicate zeros "000"%byte ++ be_bytes 8 (8 * N.of_nat (length m)).

Fixpoint words_of (bytes : list byte) : list N :=
  match bytes with
  | a :: b :: c :: d :: rest =>
      (byte_N a * 16777216 + byte_N b * 65536 + byte_N c * 256 + byte_N d)%N :: words_of rest
  | _ => []
  end.

Fixpoint blocks_of (fuel : nat) (w : list N) : list (list N) :=
  match fuel, w with
  | S fuel', _ :: _ => take 16 w :: blocks_of fuel' (drop 16 w)
  | _, _ => []
  end.

Definition sha256_bytes (m : list byte) : list byte :=
  let w := words_of (sha_pad m) in
  flat_map (be_bytes 4) (foldl compress initial_hash (blocks_of (length w) w)).

(** ** base64url without padding *)

Definition BASE64URL : string := "ABCDEFGHIJKLMNOPQRSTUVWXYZabcdefghijklmnopqrstuvwxyz0123456789-_".

Definition digit64 (n : N) : ascii := default "A"%char (String.get (N.to_nat (N.land n 63)) BASE64URL).

Fixpoint base64url (bytes : list byte) : string :=
  match bytes with
  | a :: b :: c :: rest =>
      let n := (byte_N a * 65536 + byte_N b * 256 + byte_N c)%N in
      String (digit64 (N.shiftr n 18)) (String (digit64 (N.shiftr n 12))
        (String (digit64 (N.shiftr n 6)) (String (digit64 n) (base64url rest))))
  | [a; b] =>
      let n := (byte_N a * 1024 + byte_N b * 4)%N in
      String (digit64 (N.shiftr n 12)) (String (digit64 (N.shiftr n 6)) (char_string (digit64 n)))
  | [a] =>
      let n := (byte_N a * 16)%N in String (digit64 (N.shiftr n 6)) (char_string (digit64 n))
  | [] => ""
  end.

(** The position of a digit in the alphabet. *)
Fixpoint value64_from (i : N) (alphabet : string) (c : ascii) : option N :=
  match alphabet with
  | EmptyString => None
  | String d rest => if bool_decide (c = d) then Some i else value64_from (i + 1) rest c
  end.

Definition value64 (c : ascii) : option N := value64_from 0 BASE64URL c.

(** Left-over bits of a short last group must be zero. *)
Fixpoint base64url_decode (s : string) : option (list byte) :=
  match s with
  | EmptyString => Some []
  | String a (String b EmptyString) =>
      x ← value64 a; y ← value64 b;
      if (N.land y 15 =? 0)%N then Some [N_byte (N.shiftr (x * 64 + y) 4)] else None
  | String a (String b (String c EmptyString)) =>
      x ← value64 a; y ← value64 b; z ← value64 c;
      let n := (x * 4096 + y * 64 + z)%N in
      if (N.land z 3 =? 0)%N then Some [N_byte (N.shiftr n 10); N_byte (N.shiftr n 2)] else None
  | String a (String b (String c (String d rest))) =>
      x ← value64 a; y ← value64 b; z ← value64 c; t ← value64 d;
      let n := (x * 262144 + y * 4096 + z * 64 + t)%N in
      l ← base64url_decode rest;
      Some (N_byte (N.shiftr n 16) :: N_byte (N.shiftr n 8) :: N_byte n :: l)
  | _ => None
  end.

(** ** The published examples *)

(** FIPS 180-4's one-block and two-block messages. *)
Lemma sha256_abc :
  base64url (sha256_bytes (string_bytes "abc")) = "ungWv48Bz-pBQUDeXa4iI7ADYaOWF3qctBD_YfIAFa0".
Proof. vm_compute. reflexivity. Qed.

Lemma sha256_two_blocks :
  base64url (sha256_bytes (string_bytes "abcdbcdecdefdefgefghfghighijhijkijkljklmklmnlmnomnopnopq"))
  = "JI1qYdIGOLjlwCaTDD5gOaM85Flk_yFn9uzt1BnbBsE".
Proof. vm_compute. reflexivity. Qed.

(** ** Thirty-two bytes *)

Lemma sha_round_length h kw : length h = 8 → length (sha_round h kw) = 8.
Proof. by destruct h as [|?[|?[|?[|?[|?[|?[|?[|? [|??]]]]]]]]]. Qed.

Lemma compress_length h block : length h = 8 → length (compress h block) = 8.
Proof.
  intros Hh. unfold compress. rewrite length_zip_with, Hh.
  enough (∀ l h', length h' = 8 → length (foldl sha_round h' l) = 8) as -> by done.
  induction l as [|kw l IH]; intros h' Hh'; [done|]. by apply IH, sha_round_length.
Qed.

Lemma sha256_length m : length (sha256_bytes m) = 32.
Proof.
  unfold sha256_bytes.
  enough (∀ blocks h, length h = 8 → length (foldl compress h blocks) = 8) as Hfold.
  { pose proof (Hfold (blocks_of (length (words_of (sha_pad m))) (words_of (sha_pad m)))
                  initial_hash eq_refl) as H8.
    destruct (foldl _ _ _) as [|?[|?[|?[|?[|?[|?[|?[|? [|??]]]]]]]]]; done. }
  induction blocks as [|b blocks IH]; intros h Hh; [done|]. by apply IH, compress_length.
Qed.
