(* ===== verification/TestKit.v ===== *)
(** * What the unit tests are written with

    A unit test is a computation over the world that ends in [Ok tt] or panics:
    a false assertion and an [unwrap] that finds nothing are panics.  Beside the
    assertions this file has the [Display] of [MintError] ([error.rs]), the calls
    of the standard library the tests make, and the helpers the tests of
    [crates/vaid-mint/src/mint.rs] share. *)

From S2P Require Import Prelude Json Externals Concrete Identity Scope IssuerIdentity Document.
From S2P Require Import Revocation World Pop Issuer Mint Vectors.

(** A test's computation raises no error of its own. *)
Notation T S := (M S Empty_set).

(** A test over the world, with the name the report gives it. *)
Definition UnitTest : Type := string * T World unit.

Definition passes {A} (test : T World A) (w : World) : bool :=
  match test w with (Ok _, _) => true | _ => false end.

(** [#[should_panic]]: the panic's message is not represented. *)
Definition should_panic {A} (test : T World A) : T World unit := λ w,
  match test w with
  | (Panicked, w') => (Ok tt, w')
  | (_, w') => (Panicked, w')
  end.

Section Kit.
  Context {S : Type}.

  (** [assert!(b)] *)
Definition assert_that (b : bool) : T S unit := if b then mret tt else mpanic.
  (** [assert_eq!(a, b)] at a type with decidable equality *)
Definition assert_eq {A} `{EqDecision A} (a b : A) : T S unit := assert_that (bool_decide (a = b)).

  (** [option.unwrap()] *)
Definition some_of {A} (o : option A) : T S A :=
  match o with Some a => mret a | None => mpanic end.

  (** [result.unwrap()] *)
Definition unwrapped {E A} (m : M S E A) : T S A := λ s,
  match m s with
  | (Ok a, s') => (Ok a, s')
  | (_, s') => (Panicked, s')
  end.
  (** [result.unwrap_err()] *)
Definition unwrapped_err {E A} (m : M S E A) : T S E := λ s,
  match m s with
  | (Err e, s') => (Ok e, s')
  | (_, s') => (Panicked, s')
  end.
  (** [result.is_ok()]; a call that panics panics the test *)
Definition succeeds {E A} (m : M S E A) : T S bool := λ s,
  match m s with
  | (Ok _, s') => (Ok true, s')
  | (Err _, s') => (Ok false, s')
  | (Panicked, s') => (Panicked, s')
  end.

Definition is_err {E A} (o : Outcome E A) : bool := match o with Err _ => true | _ => false end.
Definition is_ok {E A} (o : Outcome E A) : bool := match o with Ok _ => true | _ => false end.

End Kit.

(** [haystack.contains(needle)] *)
Fixpoint str_contains (needle haystack : string) : bool :=
  starts_with needle haystack
  || match haystack with
     | EmptyString => false
     | String _ rest => str_contains needle rest
     end.

(** [Display for MintError] *)
Definition mint_error_to_string (e : MintError) : string :=
  match e with
  | MintError.Unauthorized m => "unauthorized: " +:+ m
  | MintError.Identity m => "identity: " +:+ m
  | MintError.Audit m => "audit: " +:+ m
  | MintError.Lineage m => "lineage: " +:+ m
  | MintError.Config m => "config: " +:+ m
  end.

Definition says (e : MintError) (text : string) : bool := str_contains text (mint_error_to_string e).

Definition is_unauthorized (e : MintError) : bool :=
  match e with MintError.Unauthorized _ => true | _ => false end.
Definition is_lineage_error (e : MintError) : bool :=
  match e with MintError.Lineage _ => true | _ => false end.
Definition is_config_error (e : MintError) : bool :=
  match e with MintError.Config _ => true | _ => false end.

(** [Duration::seconds(n)], [Duration::hours(n)] of a small [n]. *)
Definition seconds (n : Z) : Z := (n * NANOS)%Z.
Definition hours (n : Z) : Z := seconds (n * 3600).

(** [std::thread::sleep]: every later reading of the clock is that much later. *)
Definition thread_sleep {E} (nanos : Z) : M World E unit := λ w,
  (Ok tt, mkWorld (λ n, (w_clock w n + nanos)%Z) (w_clock_reads w) (w_uuids w) (w_uuid_reads w)
            (w_random w) (w_random_reads w)).

(** [entries == ["a", "b"]]: entry by entry, through [PartialEq<&str>]. *)
Fixpoint boundary_eq_strs (b : list ScopeBoundaryEntry) (l : list string) : bool :=
  match b, l with
  | [], [] => true
  | e :: b', s :: l' => entry_eq_str e s && boundary_eq_strs b' l'
  | _, _ => false
  end.

(** [value[key]]: an absent member is null. *)
Definition value_at (v : Json) (k : string) : Json :=
  match v with JObject m => default JNull (m !! k) | _ => JNull end.

(** The rest of a test, once what it works on is built. *)
Definition scenario {S X} (s : S) (body : T (S * World) X) : T World X := λ w,
  let '(r, (_, w')) := body (s, w) in (r, w').

(** The texts below have single quotes where JSON has double ones. *)
Fixpoint dq (s : string) : string :=
  match s with
  | EmptyString => EmptyString
  | String c rest => String (if bool_decide (c = "'"%char) then "034"%char else c) (dq rest)
  end.

Section Clock.
  Context {Ext : Externals}.

  (** [t + d], a panic where chrono's addition panics *)
Definition plus {S} (t : Instant) (d : Z) : T S Instant := some_of (dt_add t d).

  (** A document no mint issued, with an hour to live. *)
Definition unminted_doc (agent_class tenant : string) (parent_vaid : option VaidId)
    (scope : list ScopeBoundaryEntry) (caps : list string) : T World Vaid :=
  let! agent := AgentId_new in
  let! issued := utc_now in
  let! now := utc_now in
  let! expires := plus now (hours 1) in
  mret (with_lineage agent (mkAgentClass agent_class) "1.0.0" (mkTenantId tenant) issued expires
          [] [] parent_vaid scope "lineage" caps "vaid.example"
          (kernel_key_thumbprint (replicate 32 "000"%byte))).

End Clock.
