(* ===== verification/MintTests.v ===== *)
(** * The unit tests of the mint

    The module [tests] of [crates/vaid-mint/src/mint.rs], up to the tests of the
    configured depth: fixtures, root mints, and the attenuation of a delegation.
    Each test is the source's, step for step; the service a test shares with its
    issuer and its audit trail is the state it runs over. *)

From S2P Require Import Prelude Json Externals Concrete Identity Scope IssuerIdentity Document.
From S2P Require Import Revocation World Attenuation Pop Issuer Mint Vectors TestKit.

(** An issuer over a lineage store, and the service the fixtures build. *)
Notation Issuer L := (ReferenceIssuer (R := InMemoryRevocationList) (L := L)).
Notation Service I := (MintService I InMemoryAudit PermitAll).

Section Shared.
  Context {I A G : Type}.

  (** The test's handle on the shared audit trail. *)
Definition audit : T (MintService I A G * World) A := let! s := mget in mret (ms_audit s.1).

  (** A call on the issuer the test shares with the service. *)
Definition on_shared_issuer (f : I → I) : T (MintService I A G * World) unit := λ s,
  (Ok tt, (set_issuer s.1 (f (ms_issuer s.1)), s.2)).

End Shared.

(** [audit.entries()[i].details] *)
Definition details_of {S} (a : InMemoryAudit) (i : nat) : T S Json :=
  let! entry := some_of (audit_entries a !! i) in mret (details entry).

Section MintTests.
  Context {Ext : Externals}.

Definition fixture : T World (Service (Issuer InMemoryLineageStore)) :=
  let! issuer := unwrapped (ephemeral 1 "vaid.example") in
  unwrapped (mliftO (mint_service_new issuer InMemoryAudit_new)).

  (** ** A holder's keypair and its proof of possession *)

Definition holder_keypair : T World KeyPair :=
  let! pkcs8 := random_bytes in
  let! pkcs8 := some_of pkcs8 in
  some_of (kp_from_pkcs8 pkcs8).

Definition pubkey (kp : KeyPair) : list byte := kp_public_key kp.

Definition byo_seed (public_key_der : list byte) : VaidSeed :=
  mkVaidSeed "runner" "1.0.0" "acme" None [entry_prefix "data.x"] ["read"] (Some public_key_der).

Definition make_pop (seed : VaidSeed) (registered_key : list byte) (signing_key : KeyPair)
    (nonce : string) (issued_at : Instant) : MintPop :=
  let payload := pop_payload seed registered_key nonce issued_at in
  mkMintPop nonce issued_at (sign_payload payload signing_key).

  (** A seed without a key of its own, as the generate-and-discard tests have. *)
Definition keyless_seed (agent_class tenant_id : string) (scope : list ScopeBoundaryEntry)
    (caps : list string) : VaidSeed :=
  mkVaidSeed agent_class "1.0.0" tenant_id None scope caps None.

  (** ** Root mints *)

Definition root_generate_and_discard_mints_and_audits : T World unit :=
  let! svc := fixture in
  scenario svc (
    let req := mkMintVaidRequest
      (keyless_seed "researcher" "acme" [entry_prefix "data.governance"] ["read.documents"]) None in
    let! resp := unwrapped (mint_root req) in
    assert_eq (class_as_str (vd_agent_class (resp_vaid resp))) "researcher" ;;!
    assert_that (boundary_eq_strs (vd_scope_boundary (resp_vaid resp)) ["data.governance"]) ;;!
    assert_eq (parent_vaid (resp_vaid resp)) None ;;!
    let! audit := audit in
    assert_eq (audit_len audit) 1 ;;!
    let! first := some_of (audit_entries audit !! 0) in
    assert_eq (event_type first) "vaid_minted" ;;!
    assert_eq (value_at (details first) "delegated") (JBool false)).

  (** A gate that denies every root mint. *)
Inductive DenyAll : Type := mkDenyAll.
#[local] Instance deny_all : AuthorizationGate DenyAll :=
  λ _, mthrow (MintError.Unauthorized "root mint denied by gate").

Definition root_mint_denied_by_authorization_gate_has_no_side_effects : T World unit :=
  let! issuer := unwrapped (ephemeral (R := InMemoryRevocationList) (L := InMemoryLineageStore)
                              1 "vaid.example") in
  let! svc := unwrapped (mliftO (with_authorization issuer InMemoryAudit_new mkDenyAll)) in
  scenario svc (
    let req := mkMintVaidRequest (keyless_seed "researcher" "acme" [] []) None in
    let! err := unwrapped_err (mint_root req) in
    assert_that (says err "denied by gate") ;;!
    let! audit := audit in
    assert_that (audit_is_empty audit)).

Definition root_byo_key_with_valid_pop_binds_key : T World unit :=
  let! svc := fixture in
  scenario svc (
    let! kp := on_world holder_keypair in
    let registered := pubkey kp in
    let seed := byo_seed registered in
    let! now := on_world utc_now in
    let pop := make_pop seed registered kp "nonce-aaa" now in
    let! resp := unwrapped (mint_root (mkMintVaidRequest seed (Some pop))) in
    assert_eq (vd_public_key_der (resp_vaid resp)) registered ;;!
    let! audit := audit in
    let! details := details_of audit 0 in
    assert_eq (value_at details "byo_key") (JBool true) ;;!
    assert_eq (value_at details "pop_verified") (JBool true)).

Definition root_byo_key_with_pop_for_different_key_is_rejected : T World unit :=
  let! svc := fixture in
  scenario svc (
    let! victim := on_world holder_keypair in
    let! attacker := on_world holder_keypair in
    let victim_pub := pubkey victim in
    let seed := byo_seed victim_pub in
    let! now := on_world utc_now in
    let pop := make_pop seed victim_pub attacker "nonce-bbb" now in
    let! err := unwrapped_err (mint_root (mkMintVaidRequest seed (Some pop))) in
    assert_that (says err "does not verify") ;;!
    let! audit := audit in
    assert_that (audit_is_empty audit)).

Definition root_byo_key_without_pop_is_rejected : T World unit :=
  let! svc := fixture in
  scenario svc (
    let! kp := on_world holder_keypair in
    let seed := byo_seed (pubkey kp) in
    let! err := unwrapped_err (mint_root (mkMintVaidRequest seed None)) in
    assert_that (says err "proof-of-possession required")).

Definition root_byo_key_replay_is_rejected : T World unit :=
  let! svc := fixture in
  scenario svc (
    let! kp := on_world holder_keypair in
    let registered := pubkey kp in
    let seed := byo_seed registered in
    let! now := on_world utc_now in
    let pop := make_pop seed registered kp "nonce-replay" now in
    let! first := succeeds (mint_root (mkMintVaidRequest seed (Some pop))) in
    assert_that first ;;!
    let! replay := unwrapped_err (mint_root (mkMintVaidRequest seed (Some pop))) in
    assert_that (says replay "replay")).

Definition root_byo_key_stale_pop_is_rejected : T World unit :=
  let! svc := fixture in
  scenario svc (
    let! kp := on_world holder_keypair in
    let registered := pubkey kp in
    let seed := byo_seed registered in
    let! now := on_world utc_now in
    let! stale := plus now (- seconds (MINT_POP_FRESHNESS_SECS + 60))%Z in
    let pop := make_pop seed registered kp "nonce-stale" stale in
    let! err := unwrapped_err (mint_root (mkMintVaidRequest seed (Some pop))) in
    assert_that (says err "freshness window")).

  (** ** Attenuated delegation *)

Definition parent_doc (tenant : string) (scope caps : list string) : T World Vaid :=
  unminted_doc "parent" tenant None (map entry_prefix scope) caps.

Definition child_seed (parent : Vaid) (scope caps : list string) (child_pub : list byte) : VaidSeed :=
  mkVaidSeed "child" "1.0.0" (tenant_as_str (vd_tenant_id parent)) (Some (vaid_id parent))
    (map entry_prefix scope) caps (Some child_pub).

Definition signed_child (parent : Vaid) (scope caps : list string) (nonce : string)
    : T World MintVaidRequest :=
  let! kp := holder_keypair in
  let pubk := pubkey kp in
  let seed := child_seed parent scope caps pubk in
  let! now := utc_now in
  let pop := make_pop seed pubk kp nonce now in
  mret (mkMintVaidRequest seed (Some pop)).

Definition child_within_bounds_is_minted_with_lineage_and_delegated_audit : T World unit :=
  let! svc := fixture in
  scenario svc (
    let! parent := on_world (parent_doc "aifactory" ["data.aifactory"] ["read"; "write"]) in
    let! req := on_world (signed_child parent ["data.aifactory.sub"] ["read"] "ok-1") in
    let! resp := unwrapped (mint_child req (Some parent)) in
    assert_eq (parent_vaid (resp_vaid resp)) (Some (vaid_id parent)) ;;!
    let! audit := audit in
    let! details := details_of audit 0 in
    assert_eq (value_at details "delegated") (JBool true) ;;!
    assert_eq (value_at details "attenuation_verified") (JBool true)).

Definition child_scope_exceeding_parent_is_denied : T World unit :=
  let! svc := fixture in
  scenario svc (
    let! parent := on_world (parent_doc "aifactory" ["data.aifactory"] ["read"]) in
    let! req := on_world (signed_child parent ["data.somewhere-else"] ["read"] "deny-scope") in
    let! err := unwrapped_err (mint_child req (Some parent)) in
    assert_that (says err "scope_boundary exceeds") ;;!
    let! audit := audit in
    assert_that (audit_is_empty audit)).

Definition empty_child_scope_under_restricted_parent_is_denied : T World unit :=
  let! svc := fixture in
  scenario svc (
    let! parent := on_world (parent_doc "aifactory" ["data.aifactory"] ["read"]) in
    let! req := on_world (signed_child parent [] ["read"] "deny-empty-scope") in
    let! err := unwrapped_err (mint_child req (Some parent)) in
    assert_that (says err "scope_boundary exceeds")).

Definition empty_parent_scope_permits_any_child_scope : T World unit :=
  let! svc := fixture in
  scenario svc (
    let! parent := on_world (parent_doc "aifactory" [] ["read"]) in
    let! req1 := on_world (signed_child parent ["data.anything"] ["read"] "u-1") in
    let! ok1 := succeeds (mint_child req1 (Some parent)) in
    assert_that ok1 ;;!
    let! req2 := on_world (signed_child parent [] ["read"] "u-2") in
    let! ok2 := succeeds (mint_child req2 (Some parent)) in
    assert_that ok2).

Definition child_caps_exceeding_parent_are_denied : T World unit :=
  let! svc := fixture in
  scenario svc (
    let! parent := on_world (parent_doc "aifactory" ["data.aifactory"] ["read"]) in
    let! req := on_world (signed_child parent ["data.aifactory.sub"] ["read"; "write"] "deny-caps") in
    let! err := unwrapped_err (mint_child req (Some parent)) in
    assert_that (says err "capability_set exceeds")).

Definition empty_parent_caps_may_delegate_nothing_but_empty_child_caps_ok : T World unit :=
  let! svc := fixture in
  scenario svc (
    let! parent := on_world (parent_doc "aifactory" [] []) in
    let! deny := on_world (signed_child parent [] ["read"] "caps-deny") in
    let! err := unwrapped_err (mint_child deny (Some parent)) in
    assert_that (says err "capability_set exceeds") ;;!
    let! ok := on_world (signed_child parent [] [] "caps-ok") in
    let! minted := succeeds (mint_child ok (Some parent)) in
    assert_that minted).

  (** [seed.tenant_id = ..], [seed.parent_vaid = ..] *)
Definition with_tenant (seed : VaidSeed) (tenant_id : string) : VaidSeed :=
  mkVaidSeed (seed_agent_class seed) (seed_version seed) tenant_id (seed_parent_vaid seed)
    (seed_scope_boundary seed) (seed_capability_set seed) (seed_public_key_der seed).
Definition with_parent (seed : VaidSeed) (parent_vaid : option VaidId) : VaidSeed :=
  mkVaidSeed (seed_agent_class seed) (seed_version seed) (seed_tenant_id seed) parent_vaid
    (seed_scope_boundary seed) (seed_capability_set seed) (seed_public_key_der seed).
Definition without_key (seed : VaidSeed) : VaidSeed :=
  mkVaidSeed (seed_agent_class seed) (seed_version seed) (seed_tenant_id seed)
    (seed_parent_vaid seed) (seed_scope_boundary seed) (seed_capability_set seed) None.

Definition cross_tenant_child_is_denied : T World unit :=
  let! svc := fixture in
  scenario svc (
    let! parent := on_world (parent_doc "aifactory" ["data.aifactory"] ["read"]) in
    let! kp := on_world holder_keypair in
    let pubk := pubkey kp in
    let seed := with_tenant (child_seed parent ["data.aifactory.sub"] ["read"] pubk) "acme" in
    let! now := on_world utc_now in
    let pop := make_pop seed pubk kp "forge-tenant" now in
    let! err := unwrapped_err (mint_child (mkMintVaidRequest seed (Some pop)) (Some parent)) in
    assert_that (says err "cross-tenant delegation is denied") ;;!
    let! audit := audit in
    assert_that (audit_is_empty audit)).

Definition child_claiming_a_different_parent_vaid_is_denied : T World unit :=
  let! svc := fixture in
  scenario svc (
    let! parent := on_world (parent_doc "aifactory" ["data.aifactory"] ["read"]) in
    let! kp := on_world holder_keypair in
    let pubk := pubkey kp in
    let! forged := on_world VaidId_new in
    let seed := with_parent (child_seed parent ["data.aifactory.sub"] ["read"] pubk) (Some forged) in
    let! now := on_world utc_now in
    let pop := make_pop seed pubk kp "forge-parent" now in
    let! err := unwrapped_err (mint_child (mkMintVaidRequest seed (Some pop)) (Some parent)) in
    assert_that (says err "parent_vaid") ;;!
    let! audit := audit in
    assert_that (audit_is_empty audit)).

Definition mint_child_without_parent_context_is_denied : T World unit :=
  let! svc := fixture in
  scenario svc (
    let! parent := on_world (parent_doc "aifactory" ["data.aifactory"] ["read"]) in
    let! req := on_world (signed_child parent ["data.aifactory.sub"] ["read"] "no-parent") in
    let! err := unwrapped_err (mint_child req None) in
    assert_that (says err "no verified parent VAID")).

Definition mint_child_without_byo_key_is_denied : T World unit :=
  let! svc := fixture in
  scenario svc (
    let! parent := on_world (parent_doc "aifactory" ["data.aifactory"] ["read"]) in
    let seed := without_key (child_seed parent ["data.aifactory.sub"] ["read"] []) in
    let! err := unwrapped_err (mint_child (mkMintVaidRequest seed None) (Some parent)) in
    assert_that (says err "BYO-key required")).

Definition rejected_attenuation_does_not_consume_the_pop_nonce : T World unit :=
  let! svc := fixture in
  scenario svc (
    let! parent := on_world (parent_doc "aifactory" ["data.aifactory"] ["read"]) in
    let! denied := on_world (signed_child parent ["data.elsewhere"] ["read"] "N") in
    let! r := succeeds (mint_child denied (Some parent)) in
    assert_that (negb r) ;;!
    let! ok := on_world (signed_child parent ["data.aifactory.sub"] ["read"] "N") in
    let! r := succeeds (mint_child ok (Some parent)) in
    assert_that r).

Definition minted_child_verifies_and_is_contained_by_parent : T World unit :=
  let! issuer := unwrapped (ephemeral (R := InMemoryRevocationList) (L := InMemoryLineageStore)
                              1 "vaid.example") in
  let! svc := unwrapped (mliftO (mint_service_new (assuming_nothing_revoked issuer) InMemoryAudit_new)) in
  scenario svc (
    let! root := unwrapped (mint_root (mkMintVaidRequest
      (keyless_seed "parent" "aifactory" [entry_prefix "data.aifactory"] ["read"; "write"]) None)) in
    let parent := resp_vaid root in
    let! req := on_world (signed_child parent ["data.aifactory.reports"] ["read"] "e2e") in
    let! resp := unwrapped (mint_child req (Some parent)) in
    let child := resp_vaid resp in
    let! verified := unwrapped (with_issuer (verify_vaid child)) in
    assert_that verified ;;!
    assert_that (forallb (λ e, match entry_claimed_resource e with
                               | Some r => is_in_scope parent r
                               | None => false
                               end) (vd_scope_boundary child)) ;;!
    assert_that (forallb (has_capability parent) (vd_capability_set child))).
End MintTests.
