(* ===== verification/DepthTests.v ===== *)
(** * The unit tests of the mint: depth and lineage stores

    The rest of the module [tests] of [crates/vaid-mint/src/mint.rs] that is about
    ancestry: the configured delegation depth, its validation, the refusal when
    the ancestry cannot be resolved, and lineage stores whose writes can fail. *)

From S2P Require Import Prelude Json Externals Concrete Identity Scope IssuerIdentity Document.
From S2P Require Import Revocation World Attenuation Pop Issuer Mint Vectors TestKit MintTests.

(** ** Lineage stores of the tests *)

(** What it knows it answers, and it accepts every write without recording it. *)
Record PartialLineageStore : Type := mkPartialLineageStore { known : gmap VaidId ParentResolution }.

#[global] Instance partial_resolver : LineageResolver PartialLineageStore :=
  λ s vaid_id, default Unknown (known s !! vaid_id).

Definition accept_write {L} (vaid_id : VaidId) (parent : option VaidId)
    : M L LineageWriteError unit := mret tt.

#[global] Instance partial_store : LineageStore PartialLineageStore := {|
  record := record_default accept_write;
  try_record := accept_write;
|}.

(** Claims every id is a genuine root. *)
Inductive AlwaysRootLineageStore : Type := mkAlwaysRootLineageStore.

#[global] Instance always_root_resolver : LineageResolver AlwaysRootLineageStore := λ _ _, Root.
#[global] Instance always_root_store : LineageStore AlwaysRootLineageStore := {|
  record := record_default accept_write;
  try_record := accept_write;
|}.

(** Every write fails, and only [try_record] is written out. *)
Inductive FailingLineageStore : Type := mkFailingLineageStore.

#[global] Instance failing_resolver : LineageResolver FailingLineageStore := λ _ _, Unknown.

Definition failing_try_record (vaid_id : VaidId) (parent : option VaidId)
    : M FailingLineageStore LineageWriteError unit :=
  mthrow (mkLineageWriteError "simulated database write failure").

#[global] Instance failing_store : LineageStore FailingLineageStore := {|
  record := record_default failing_try_record;
  try_record := failing_try_record;
|}.

(** Writes through to an in-memory store, by [try_record] only. *)
Record SucceedingFallibleLineageStore : Type :=
  mkSucceedingFallibleLineageStore { inner : InMemoryLineageStore }.

#[global] Instance succeeding_resolver : LineageResolver SucceedingFallibleLineageStore :=
  λ s vaid_id, resolve_parent (inner s) vaid_id.

Definition succeeding_try_record (vaid_id : VaidId) (parent : option VaidId)
    : M SucceedingFallibleLineageStore LineageWriteError unit := λ s,
  let '(r, s') := record vaid_id parent (inner s) in
  match r with
  | Ok _ => (Ok tt, mkSucceedingFallibleLineageStore s')
  | Err e => match e with end
  | Panicked => (Panicked, mkSucceedingFallibleLineageStore s')
  end.

#[global] Instance succeeding_store : LineageStore SucceedingFallibleLineageStore := {|
  record := record_default succeeding_try_record;
  try_record := succeeding_try_record;
|}.

Section DepthTests.
  Context {Ext : Externals}.

  (** An issuer whose lineage half is [store] and whose revocation half vouches. *)
Definition issuer_with_lineage_store {L} `{LineageStore L} (store : L) : T World (Issuer L) :=
  let! issuer := unwrapped (ephemeral 1 "vaid.example") in
  mret (with_revocation_backend issuer (RevocationBackend_new assume_nothing_revoked store)).

Definition fixture_with_lineage_store {L} `{LineageStore L} (store : L)
    : T World (Service (Issuer L)) :=
  let! issuer := issuer_with_lineage_store store in
  unwrapped (mliftO (mint_service_new issuer InMemoryAudit_new)).

  (** A service of a configured depth over a fresh issuer. *)
Definition fixture_with_depth (max_delegation_depth : nat)
    : T World (Service (Issuer InMemoryLineageStore)) :=
  let! issuer := unwrapped (ephemeral 1 "vaid.example") in
  unwrapped (mliftO (with_max_delegation_depth issuer InMemoryAudit_new mkPermitAll
                       max_delegation_depth)).

Section Minting.
  Context {I : Type} {VI : VaidIssuer I}.

Definition mint_real_root (tenant : string) : T (Service I * World) Vaid :=
  let req := mkMintVaidRequest
    (keyless_seed "root" tenant [entry_prefix "data.aifactory"] ["read"]) None in
  let! resp := unwrapped (mint_root req) in
  mret (resp_vaid resp).

Definition mint_real_child (parent : Vaid) (nonce : string) : T (Service I * World) Vaid :=
  let! req := on_world (signed_child parent ["data.aifactory"] ["read"] nonce) in
  let! resp := unwrapped (mint_child req (Some parent)) in
  mret (resp_vaid resp).

End Minting.

  (** ** The configured depth *)

Definition default_depth_mints_a_root_child_but_refuses_a_grandchild : T World unit :=
  let! svc := fixture in
  scenario svc (
    let! root := mint_real_root "aifactory" in
    let! child := mint_real_child root "root-to-child" in
    let! events := audit in
    let events_after_child := audit_len events in
    assert_eq events_after_child 2 ;;!
    let! req := on_world (signed_child child ["data.aifactory"] ["read"] "child-to-grandchild") in
    let! err := unwrapped_err (mint_child req (Some child)) in
    assert_that (says err "delegation depth") ;;!
    let! audit := audit in
    assert_eq (audit_len audit) events_after_child).

Definition a_root_child_is_always_allowed_regardless_of_configured_depth : T World unit :=
  let! svc := fixture_with_depth 1 in
  scenario svc (
    let! root := mint_real_root "aifactory" in
    let! child := mint_real_child root "root-to-child-explicit-1" in
    assert_that (bool_decide (parent_vaid child = Some (vaid_id root)))).

Definition depth_2_mints_a_grandchild_but_refuses_a_great_grandchild : T World unit :=
  let! svc := fixture_with_depth 2 in
  scenario svc (
    let! root := mint_real_root "aifactory" in
    let! child := mint_real_child root "depth2-root-to-child" in
    let! grandchild := mint_real_child child "depth2-child-to-grandchild" in
    assert_eq (parent_vaid grandchild) (Some (vaid_id child)) ;;!
    let! req := on_world (signed_child grandchild ["data.aifactory"] ["read"]
                            "depth2-grandchild-to-greatgrandchild") in
    let! err := unwrapped_err (mint_child req (Some grandchild)) in
    assert_that (says err "delegation depth")).

Definition depth_refusal_happens_before_any_lineage_write : T World unit :=
  let! svc := fixture in
  scenario svc (
    let! root := mint_real_root "aifactory" in
    let! child := mint_real_child root "before-write-root-to-child" in
    let! events := audit in
    let events_before := audit_len events in
    let! req := on_world (signed_child child ["data.aifactory"] ["read"]
                            "before-write-child-to-grandchild") in
    let! ok := succeeds (mint_child req (Some child)) in
    assert_that (negb ok) ;;!
    let! audit := audit in
    assert_eq (audit_len audit) events_before).

  (** ** Validation of the depth *)

Definition max_delegation_depth_zero_is_rejected : T World unit :=
  assert_that (is_err (validate_max_delegation_depth 0)).

Definition max_delegation_depth_above_the_lineage_bound_is_rejected : T World unit :=
  assert_that (is_err (validate_max_delegation_depth (MAX_LINEAGE_DEPTH + 1))).

Definition max_delegation_depth_at_the_lineage_bound_is_accepted : T World unit :=
  let! depth := unwrapped (mliftO (validate_max_delegation_depth MAX_LINEAGE_DEPTH)) in
  assert_eq depth MAX_LINEAGE_DEPTH.

Definition max_delegation_depth_one_is_accepted : T World unit :=
  let! depth := unwrapped (mliftO (validate_max_delegation_depth 1)) in
  assert_eq depth 1.

Definition constructing_a_mint_with_an_invalid_depth_fails_closed : T World unit :=
  let! issuer := unwrapped (ephemeral (R := InMemoryRevocationList) (L := InMemoryLineageStore)
                              1 "vaid.example") in
  match with_max_delegation_depth issuer InMemoryAudit_new mkPermitAll 0 with
  | Err err => assert_that (is_config_error err)
  | _ => mpanic
  end.

  (** ** Ancestry that cannot be resolved *)

Definition doc_with_parent (tenant : string) (parent_vaid : VaidId) : T World Vaid :=
  unminted_doc "child" tenant (Some parent_vaid) [entry_prefix "data.aifactory"] ["read"].

Definition doc_with_parent_free_root : T World Vaid := unminted_doc "root" "aifactory" None [] [].

Definition fresh_vaid_id : T World VaidId :=
  let! d := doc_with_parent_free_root in mret (vaid_id d).

Definition depth_1_refuses_when_the_grandparent_cannot_be_resolved_after_a_restart
    : T World unit :=
  let! svc := fixture in
  scenario svc (
    let! root := mint_real_root "aifactory" in
    let! child := mint_real_child root "restart-root-to-child" in
    on_shared_issuer clear_lineage ;;!
    let! req := on_world (signed_child child ["data.aifactory"] ["read"]
                            "restart-child-to-grandchild") in
    let! err := unwrapped_err (mint_child req (Some child)) in
    assert_that (is_unauthorized err) ;;!
    assert_that (says err "could not be determined")).

Definition depth_2_refuses_when_an_ancestor_beyond_the_first_hop_is_unresolvable : T World unit :=
  let! root_id := fresh_vaid_id in
  let! child := doc_with_parent "aifactory" root_id in
  let! grandchild := doc_with_parent "aifactory" (vaid_id child) in
  let store := mkPartialLineageStore {[vaid_id child := Parent root_id]} in
  let! issuer := issuer_with_lineage_store store in
  let! svc := unwrapped (mliftO (with_max_delegation_depth issuer InMemoryAudit_new mkPermitAll 2)) in
  scenario svc (
    let! req := on_world (signed_child grandchild ["data.aifactory"] ["read"]
                            "partial-grandchild-to-greatgrandchild") in
    let! err := unwrapped_err (mint_child req (Some grandchild)) in
    assert_that (is_unauthorized err) ;;!
    assert_that (says err "could not be determined")).

Definition depth_1_refuses_regardless_of_what_a_lying_resolver_claims : T World unit :=
  let! root_id := fresh_vaid_id in
  let! child_as_parent := doc_with_parent "aifactory" root_id in
  let! issuer := issuer_with_lineage_store mkAlwaysRootLineageStore in
  let! svc := unwrapped (mliftO (mint_service_new issuer InMemoryAudit_new)) in
  scenario svc (
    let! req := on_world (signed_child child_as_parent ["data.aifactory"] ["read"]
                            "lying-resolver-depth-2-attempt") in
    let! err := unwrapped_err (mint_child req (Some child_as_parent)) in
    assert_that (is_unauthorized err) ;;!
    assert_that (says err "delegation depth")).

Definition depth_check_refuses_with_the_existing_typed_error_on_a_lineage_store_failure
    : T World unit :=
  let! svc := fixture_with_lineage_store mkFailingLineageStore in
  scenario svc (
    let! root_id := on_world fresh_vaid_id in
    let! parent := on_world (doc_with_parent "aifactory" root_id) in
    let! req := on_world (signed_child parent ["data.aifactory"] ["read"] "store-failure-attempt") in
    let! err := unwrapped_err (mint_child req (Some parent)) in
    assert_that (is_unauthorized err) ;;!
    let! audit := audit in
    assert_that (audit_is_empty audit)).

  (** ** Lineage writes that can fail *)

Definition root_mint_fails_closed_when_lineage_write_fails : T World unit :=
  let! svc := fixture_with_lineage_store mkFailingLineageStore in
  scenario svc (
    let! err := unwrapped_err (mint_root (mkMintVaidRequest
      (keyless_seed "researcher" "acme" [] []) None)) in
    assert_that (is_lineage_error err) ;;!
    assert_that (says err "simulated database write failure") ;;!
    let! audit := audit in
    assert_that (audit_is_empty audit)).

Definition child_mint_fails_closed_when_lineage_write_fails : T World unit :=
  let! svc := fixture_with_lineage_store mkFailingLineageStore in
  scenario svc (
    let! parent := on_world (parent_doc "aifactory" ["data.aifactory"] ["read"]) in
    let! req := on_world (signed_child parent ["data.aifactory.sub"] ["read"] "fail-1") in
    let! err := unwrapped_err (mint_child req (Some parent)) in
    assert_that (is_lineage_error err) ;;!
    let! audit := audit in
    assert_that (audit_is_empty audit)).

Definition a_store_implementing_only_try_record_mints_normally : T World unit :=
  let! svc := fixture_with_lineage_store (mkSucceedingFallibleLineageStore lineage_store_new) in
  scenario svc (
    let! parent := on_world (parent_doc "aifactory" ["data.aifactory"] ["read"; "write"]) in
    let! req := on_world (signed_child parent ["data.aifactory.sub"] ["read"] "ok-fallible") in
    let! resp := unwrapped (mint_child req (Some parent)) in
    assert_eq (parent_vaid (resp_vaid resp)) (Some (vaid_id parent)) ;;!
    let! audit := audit in
    let! details := details_of audit 0 in
    assert_eq (value_at details "delegated") (JBool true)).

Definition record_on_a_failing_store_panics_rather_than_silently_dropping_the_write
    : T World unit :=
  should_panic (
    let! id := VaidId_new in
    λ w, let '(r, _) := record id None mkFailingLineageStore in (r, w)).

End DepthTests.
