(* ===== verification/ExpiryTests.v ===== *)
(** * The unit tests of the mint: expiry containment

    The tests of [crates/vaid-mint/src/mint.rs] about a child's expiry: it is
    clamped to the parent's, the clamp is visible in the response and the audit
    trail, and an issuer that ignores the ceiling is caught. *)

From S2P Require Import Prelude Json Externals Concrete Identity Scope IssuerIdentity Document.
From S2P Require Import Revocation World Attenuation Pop Issuer Mint Vectors TestKit MintTests DepthTests.

Section ExpiryTests.
  Context {Ext : Externals}.

  (** A parent whose expiry is [secs] from now, to the whole second. *)
Definition parent_expiring_in (secs : Z) : T World Vaid :=
  let! now := utc_now in
  let! expires := plus now (seconds secs) in
  let expires := dt_trunc_subsecs0 expires in
  let! agent := AgentId_new in
  let! now := utc_now in
  let! issued := plus now (- hours 1)%Z in
  mret (with_lineage agent (mkAgentClass "parent") "1.0.0" (mkTenantId "acme") issued expires
          [] [] None [entry_prefix "data.x"] "lineage" ["read"] "vaid.example"
          (kernel_key_thumbprint (replicate 32 "000"%byte))).

  (** The root the tests mint: the tenant and the authority of [parent_expiring_in]. *)
Definition acme_root (agent_class : string) : MintVaidRequest :=
  mkMintVaidRequest (keyless_seed agent_class "acme" [entry_prefix "data.x"] ["read"]) None.

  (** ** The clamp *)

Definition child_is_clamped_to_its_parents_expiry : T World unit :=
  let! svc := fixture in
  scenario svc (
    let! parent := on_world (parent_expiring_in 600) in
    let! req := on_world (signed_child parent ["data.x"] ["read"] "clamp-1") in
    let! resp := unwrapped (mint_child req (Some parent)) in
    assert_eq (expires_at_as_presented (resp_vaid resp)) (expires_at_as_presented parent)).

Definition child_keeps_the_issuer_ttl_when_it_is_the_earlier_bound : T World unit :=
  let! svc := fixture in
  scenario svc (
    let! parent := on_world (parent_expiring_in 86400) in
    let! req := on_world (signed_child parent ["data.x"] ["read"] "clamp-2") in
    let! resp := unwrapped (mint_child req (Some parent)) in
    let! child_end := some_of (expires_at (resp_vaid resp)) in
    let! parent_end := some_of (expires_at parent) in
    assert_that (child_end <? parent_end)%Z).

Definition delegation_works_across_a_second_boundary : T World unit :=
  let! svc := fixture in
  scenario svc (
    let! root := unwrapped (mint_root (acme_root "parent")) in
    let parent := resp_vaid root in
    on_world (thread_sleep 1100000000) ;;!
    let! req := on_world (signed_child parent ["data.x"] ["read"] "boundary") in
    let! resp := unwrapped (mint_child req (Some parent)) in
    let! child_end := some_of (expires_at (resp_vaid resp)) in
    let! parent_end := some_of (expires_at parent) in
    assert_that (child_end <=? parent_end)%Z).

Definition delegating_from_an_already_expired_parent_is_refused : T World unit :=
  let! svc := fixture in
  scenario svc (
    let! parent := on_world (parent_expiring_in (-60)) in
    let! req := on_world (signed_child parent ["data.x"] ["read"] "dead-parent") in
    let! err := unwrapped_err (mint_child req (Some parent)) in
    assert_that (says err (expires_at_as_presented parent)) ;;!
    assert_that (says err "expired")).

Definition an_unreadable_parent_expiry_refuses_the_delegation : T World unit :=
  let! svc := fixture in
  scenario svc (
    let! written := on_world
      (unminted_doc "parent" "acme" None [entry_prefix "data.x"] ["read"]) in
    let json := object_insert "expires_at" (JString "whenever") (vaid_to_value written) in
    let! parent := some_of (vaid_deserialize (raw_of_value json)) in
    let! req := on_world (signed_child parent ["data.x"] ["read"] "unreadable") in
    let! ok := succeeds (mint_child req (Some parent)) in
    assert_that (negb ok)).

Definition refusing_a_dead_parent_does_not_consume_the_pop_nonce : T World unit :=
  let! svc := fixture in
  scenario svc (
    let! dead := on_world (parent_expiring_in (-60)) in
    let! live := on_world (parent_expiring_in 600) in
    let! req := on_world (signed_child dead ["data.x"] ["read"] "shared-nonce") in
    let! ok := succeeds (mint_child req (Some dead)) in
    assert_that (negb ok) ;;!
    let! req_ok := on_world (signed_child live ["data.x"] ["read"] "shared-nonce") in
    let! ok := succeeds (mint_child req_ok (Some live)) in
    assert_that ok).

  (** Delegates everything to the real issuer but drops the ceiling. *)
Record IgnoresTheCeiling : Type :=
  mkIgnoresTheCeiling { real_issuer : Issuer InMemoryLineageStore }.

Definition on_real {X} (m : M (Issuer InMemoryLineageStore * World) MintError X)
    : M (IgnoresTheCeiling * World) MintError X :=
  zoom (λ s, (real_issuer s.1, s.2)) (λ iw s, (mkIgnoresTheCeiling iw.1, iw.2)) m.

#[local] Instance ignores_the_ceiling : VaidIssuer IgnoresTheCeiling := {|
  issue_vaid_with_key agent_class version tenant_id parent_vaid scope_boundary capability_set
      public_key_der _not_after :=
    on_real (issue_vaid_with_key agent_class version tenant_id parent_vaid scope_boundary
               capability_set public_key_der None);
  issue_vaid_with_lineage agent_class version tenant_id parent_vaid scope_boundary capability_set
      _not_after :=
    on_real (issue_vaid_with_lineage agent_class version tenant_id parent_vaid scope_boundary
               capability_set None);
  verify_vaid d := on_real (verify_vaid d);
  resolve_delegation_ancestor i vaid_id := resolve_delegation_ancestor (real_issuer i) vaid_id;
|}.

Definition an_issuer_that_ignores_the_ceiling_is_caught_and_the_child_withheld : T World unit :=
  let! issuer := unwrapped (ephemeral 1 "vaid.example") in
  let! svc := unwrapped (mliftO (mint_service_new (mkIgnoresTheCeiling issuer) InMemoryAudit_new)) in
  scenario svc (
    let! parent := on_world (parent_expiring_in 600) in
    let! req := on_world (signed_child parent ["data.x"] ["read"] "bad-issuer") in
    let! err := unwrapped_err (mint_child req (Some parent)) in
    assert_that (says err "not_after")).

Definition the_root_path_is_unclamped : T World unit :=
  let! svc := fixture in
  scenario svc (
    let! resp := unwrapped (mint_root (acme_root "root")) in
    let root := resp_vaid resp in
    let! expires := some_of (expires_at root) in
    let! issued := some_of (issued_at root) in
    assert_eq (expires - issued)%Z (hours 1)).

  (** ** The clamp, as the caller sees it *)

Definition a_clamped_child_says_so_on_the_response : T World unit :=
  let! svc := fixture in
  scenario svc (
    let! parent := on_world (parent_expiring_in 600) in
    let! req := on_world (signed_child parent ["data.x"] ["read"] "visible-1") in
    let! response := unwrapped (mint_child req (Some parent)) in
    assert_that (expiry_bounded_by_parent response) ;;!
    assert_eq (resp_parent_expires_at response) (Some (expires_at_as_presented parent)) ;;!
    assert_eq (expires_at_as_presented (resp_vaid response)) (expires_at_as_presented parent)).

Definition an_unclamped_child_says_that_too : T World unit :=
  let! svc := fixture in
  scenario svc (
    let! parent := on_world (parent_expiring_in 86400) in
    let! req := on_world (signed_child parent ["data.x"] ["read"] "visible-2") in
    let! response := unwrapped (mint_child req (Some parent)) in
    assert_that (negb (expiry_bounded_by_parent response)) ;;!
    assert_eq (resp_parent_expires_at response) (Some (expires_at_as_presented parent)) ;;!
    let! child_end := some_of (expires_at (resp_vaid response)) in
    let! parent_end := some_of (expires_at parent) in
    assert_that (child_end <? parent_end)%Z).

Definition a_root_mint_is_never_bounded_by_a_parent_it_does_not_have : T World unit :=
  let! svc := fixture in
  scenario svc (
    let! response := unwrapped (mint_root (acme_root "root")) in
    assert_that (negb (expiry_bounded_by_parent response)) ;;!
    assert_eq (resp_parent_expires_at response) None).

Definition the_clamp_is_recorded_in_the_audit_trail : T World unit :=
  let! svc := fixture in
  scenario svc (
    let! parent := on_world (parent_expiring_in 600) in
    let! req := on_world (signed_child parent ["data.x"] ["read"] "visible-3") in
    unwrapped (mint_child req (Some parent)) ;;!
    let! audit := audit in
    let! entry := some_of (last (audit_entries audit)) in
    assert_eq (value_at (details entry) "expiry_bounded_by_parent") (JBool true) ;;!
    assert_eq (value_at (details entry) "expires_at") (JString (expires_at_as_presented parent)) ;;!
    assert_eq (value_at (details entry) "parent_expires_at")
      (JString (expires_at_as_presented parent))).

Definition expiry_clamp_still_applies_through_a_fallible_lineage_store : T World unit :=
  let! svc := fixture_with_lineage_store (mkSucceedingFallibleLineageStore lineage_store_new) in
  scenario svc (
    let! parent := on_world (parent_expiring_in 600) in
    let! req := on_world (signed_child parent ["data.x"] ["read"] "clamp-fallible") in
    let! resp := unwrapped (mint_child req (Some parent)) in
    assert_eq (expires_at_as_presented (resp_vaid resp)) (expires_at_as_presented parent)).

End ExpiryTests.
