(* ===== verification/IssuerTests.v ===== *)
(** * The unit tests of the issuer and of its stores

    The modules [tests] of [crates/vaid-mint/src/issuer.rs] and
    [crates/vaid-mint/src/revocation.rs]. *)

From S2P Require Import Prelude Json Externals Concrete Identity Scope IssuerIdentity Document.
From S2P Require Import Revocation World Verify Pop Issuer Mint Vectors TestKit.

(** ** The revocation list *)

Definition absent_store_is_unavailable_vouching_store_is_not_revoked : T World unit :=
  let absent := revocation_list_new in
  let! id := VaidId_new in
  assert_eq (check_lineage absent [id]) Unavailable ;;!
  let empty := assume_nothing_revoked in
  let! id := VaidId_new in
  assert_eq (check_lineage empty [id]) NotRevoked.

Definition revoking_makes_a_store_available_and_reports_any_hop : T World unit :=
  let l := revocation_list_new in
  let! root := VaidId_new in
  let! leaf := VaidId_new in
  let l := list_revoke root l in
  assert_that (is_available l) ;;!
  assert_eq (check_lineage l [root; leaf]) Revoked ;;!
  assert_eq (check_lineage l [leaf]) NotRevoked.

Definition mark_unavailable_flips_back_to_unavailable : T World unit :=
  let l := assume_nothing_revoked in
  let! id := VaidId_new in
  assert_eq (check_lineage l [id]) NotRevoked ;;!
  let l := mark_unavailable l in
  let! id := VaidId_new in
  assert_eq (check_lineage l [id]) Unavailable.

Section IssuerTests.
  Context {Ext : Externals}.

  (** The issuer of every test, over the built-in lineage store's type. *)
Notation Issuer := (ReferenceIssuer (R := InMemoryRevocationList) (L := InMemoryLineageStore)).

Definition ephemeral_issuer (vaid_ttl_hours : Z) : T World Issuer :=
  unwrapped (ephemeral vaid_ttl_hours "vaid.example").

  (** [issuer.issue_vaid_with_lineage(.., None).unwrap()], as every test calls it *)
Definition issue_root (scope : list ScopeBoundaryEntry) (caps : list string)
    : T (Issuer * World) Vaid :=
  unwrapped (issue_vaid_with_lineage (mkAgentClass "root") "1.0.0" (mkTenantId "t") None
               scope caps None).

Definition verifies (d : Vaid) : T (Issuer * World) bool := unwrapped (verify_vaid d).

  (** [issuer.revoke(id)] *)
Definition revoked (id : VaidId) : T (Issuer * World) unit := λ s, (Ok tt, (revoke s.1 id, s.2)).

  (** [store.revoke(id)], where [store] is the list injected into the issuer *)
Definition revoked_in_store (id : VaidId) : T (Issuer * World) unit := λ s,
  let i := s.1 in
  (Ok tt,
   (mkReferenceIssuer (ri_kernel_key_pair i) (ri_vaid_ttl_hours i) (ri_trust_domain i) (ri_lineage i)
      (ri_default_lineage i) (list_revoke id <$> ri_revocation i) (ri_default_store i), s.2)).

Definition issued_root_vaid_verifies_against_its_issuer : T World unit :=
  let! issuer := ephemeral_issuer 1 in
  scenario (assuming_nothing_revoked issuer) (
    let! d := issue_root [] [] in
    let! ok := verifies d in
    assert_that ok ;;!
    assert_eq (parent_vaid d) None ;;!
    assert_eq (sig_version d) VAID_SIG_VERSION_V4).

Definition a_tampered_field_fails_verification : T World unit :=
  let! issuer := ephemeral_issuer 1 in
  scenario issuer (
    let! d := issue_root [entry_prefix "data.x"] ["read"] in
    let val := object_insert "scope_boundary"
      (JArray [JObject {["kind" := JString "prefix"; "value" := JString "data.x"]};
               JObject {["kind" := JString "prefix"; "value" := JString "data.everything"]}])
      (vaid_to_value d) in
    let! forged := some_of (vaid_deserialize (raw_of_value val)) in
    let! ok := verifies forged in
    assert_that (negb ok)).

Definition a_different_issuer_does_not_verify : T World unit :=
  let! a := ephemeral_issuer 1 in
  let! b := ephemeral_issuer 1 in
  let! d := scenario (assuming_nothing_revoked a) (
    let! d := issue_root [] [] in
    let! ok := verifies d in
    assert_that ok ;;!
    mret d) in
  scenario (assuming_nothing_revoked b) (
    let! ok := verifies d in
    assert_that (negb ok)).

Definition revocation_fails_verification : T World unit :=
  let! issuer := ephemeral_issuer 1 in
  scenario (assuming_nothing_revoked issuer) (
    let! d := issue_root [] [] in
    let! ok := verifies d in
    assert_that ok ;;!
    revoked (vaid_id d) ;;!
    let! ok := verifies d in
    assert_that (negb ok)).

Definition expired_vaid_fails_verification : T World unit :=
  let! issuer := ephemeral_issuer (-1) in
  scenario issuer (
    let! d := issue_root [] [] in
    let! now := on_world utc_now in
    assert_that (is_expired_at d now) ;;!
    let! ok := verifies d in
    assert_that (negb ok)).

Definition default_revocation_store_is_absent_and_fails_closed : T World unit :=
  let! issuer := ephemeral_issuer 1 in
  scenario issuer (
    let! d := issue_root [] [] in
    let! s := mget in
    assert_eq (revocation_status s.1 d) Unavailable ;;!
    let! ok := verifies d in
    assert_that (negb ok) ;;!
    assert_that (verify_vaid_authenticity (kernel_public_key s.1) d)).

Definition assuming_nothing_revoked_restores_the_pre_0_9_posture : T World unit :=
  let! issuer := ephemeral_issuer 1 in
  scenario (assuming_nothing_revoked issuer) (
    let! d := issue_root [] [] in
    let! s := mget in
    assert_eq (revocation_status s.1 d) NotRevoked ;;!
    let! ok := verifies d in
    assert_that ok ;;!
    revoked (vaid_id d) ;;!
    let! s := mget in
    assert_eq (revocation_status s.1 d) Revoked).

Definition injected_revocation_check_is_consulted : T World unit :=
  let! issuer := ephemeral_issuer 1 in
  scenario (with_revocation_backend issuer
              (RevocationBackend_new assume_nothing_revoked lineage_store_new)) (
    let! d := issue_root [] [] in
    let! ok := verifies d in
    assert_that ok ;;!
    revoked_in_store (vaid_id d) ;;!
    let! ok := verifies d in
    assert_that (negb ok)).

Definition injected_unavailable_store_fails_closed : T World unit :=
  let! issuer := ephemeral_issuer 1 in
  scenario (with_revocation_backend issuer
              (RevocationBackend_new revocation_list_unavailable lineage_store_new)) (
    let! d := issue_root [] [] in
    let! s := mget in
    assert_eq (revocation_status s.1 d) Unavailable ;;!
    let! ok := verifies d in
    assert_that (negb ok)).

Definition same_seed_issuer_produces_the_same_kernel_public_key : T World unit :=
  let seed := replicate 32 "007"%byte in
  let! a := unwrapped (mliftO (from_seed seed 1 "vaid.example")) in
  let! b := unwrapped (mliftO (from_seed seed 1 "vaid.example")) in
  assert_eq (kernel_public_key (a : Issuer)) (kernel_public_key (b : Issuer)).

End IssuerTests.
