(* ===== verification/DocumentTests.v ===== *)
(** * The unit tests of the document

    The two test modules of [crates/vaid-mint/src/document.rs]: the scan for
    repeated names, scope matching, signing bytes, and typed boundary entries on
    their own and inside a document. *)

From S2P Require Import Prelude Json Externals Concrete Identity Scope IssuerIdentity Document DupScan.
From S2P Require Import Verify World Pop Issuer Mint Vectors TestKit.

(** ** [duplicate_member_tests] *)

Definition finds_a_duplicate_at_the_top_level : T World unit :=
  assert_that (has_duplicate_member_names (dq "{'a':1,'a':2}")).

Definition finds_a_duplicate_nested_inside_an_extension : T World unit :=
  assert_that (has_duplicate_member_names (dq "{'x':{'a':1,'a':2}}")).

Definition the_same_name_at_different_depths_is_not_a_duplicate : T World unit :=
  assert_that (negb (has_duplicate_member_names (dq "{'a':1,'b':{'a':2}}"))).

Definition repeated_strings_in_an_array_are_values_not_keys : T World unit :=
  assert_that (negb (has_duplicate_member_names (dq "{'s':['a','a']}"))) ;;!
  assert_that (negb (has_duplicate_member_names (dq "{'s':[{'a':1},{'a':1}]}"))).

Definition a_value_that_looks_like_a_key_is_not_one : T World unit :=
  assert_that (negb (has_duplicate_member_names (dq "{'p':'\'a\':1','q':'\'a\':1'}"))).

Definition an_escaped_quote_does_not_end_a_string : T World unit :=
  assert_that (negb (has_duplicate_member_names (dq "{'a\'b':1,'c':2}"))).

Definition an_unterminated_string_is_not_reported_as_a_duplicate : T World unit :=
  assert_that (negb (has_duplicate_member_names (dq "{'a':'unterminated"))).

Section DocumentTests.
  Context {Ext : Externals}.
  (** [serde_json::to_string] of a [Value] *)
  Context (serde_json_text : Json → string).

Definition doc (scope caps : list string) : T World Vaid :=
  unminted_doc "x" "t" None (map entry_prefix scope) caps.

Definition in_scope {S} (d : Vaid) (r : string) : T S unit := assert_that (is_in_scope d r).
Definition not_in_scope {S} (d : Vaid) (r : string) : T S unit := assert_that (negb (is_in_scope d r)).

  (** ** Scope and capabilities *)

Definition empty_scope_is_unrestricted : T World unit :=
  let! v := doc [] [] in in_scope v "anything.at.all".

Definition scope_is_segment_matched : T World unit :=
  let! v := doc ["data.x"] [] in
  in_scope v "data.x.sub" ;;!
  not_in_scope v "data.y".

Definition a_sibling_sharing_a_textual_prefix_is_not_contained : T World unit :=
  let! v := doc ["data.governance"] [] in
  in_scope v "data.governance" ;;!
  in_scope v "data.governance.reports" ;;!
  not_in_scope v "data.governance-secret" ;;!
  not_in_scope v "data.governanceX" ;;!
  not_in_scope v "data.governance2".

Definition both_reserved_separators_are_honoured : T World unit :=
  let! slash := doc ["t/research"] [] in
  in_scope slash "t/research/sub" ;;!
  not_in_scope slash "t/research-secret" ;;!
  let! dot := doc ["data.governance"] [] in
  in_scope dot "data.governance.reports" ;;!
  let! mixed := doc ["a/b"] [] in
  in_scope mixed "a/b.c" ;;!
  in_scope mixed "a/b/c" ;;!
  not_in_scope mixed "a/bc".

Definition a_trailing_separator_entry_matches_by_plain_prefix : T World unit :=
  let! v := doc ["data."] [] in
  in_scope v "data.x" ;;!
  in_scope v "data.." ;;!
  not_in_scope v "datax" ;;!
  let! s := doc ["t/"] [] in
  in_scope s "t/x" ;;!
  not_in_scope s "tx".

  (** The corpus of the narrowing test: three letters, each maybe empty. *)
Definition alphabet : list string := ["a"; "b"; "."; "/"; "-"; ""].

Definition corpus : list string :=
  remove_dups (sort_by String.leb
    (flat_map (λ a, flat_map (λ b, map (λ c, a +:+ b +:+ c) alphabet) alphabet) alphabet)).

  (** One pair: a panic on a widening, else the count of narrowings. *)
Definition narrowing_step {S} (p r : string) (narrowed : nat) : T S nat :=
  let old := starts_with p r in
  let new := prefix_contains p r in
  if new && negb old then mpanic
  else if old && negb new then mret (narrowed + 1)%nat else mret narrowed.

Fixpoint narrowing_row {S} (p : string) (rs : list string) (narrowed : nat) : T S nat :=
  match rs with
  | [] => mret narrowed
  | r :: rs' => let! n := narrowing_step p r narrowed in narrowing_row p rs' n
  end.

Fixpoint narrowing_loop {S} (ps rs : list string) (narrowed : nat) : T S nat :=
  match ps with
  | [] => mret narrowed
  | p :: ps' => let! n := narrowing_row p rs narrowed in narrowing_loop ps' rs n
  end.

Definition the_rule_is_strictly_narrower_than_bare_prefix_matching : T World unit :=
  let! narrowed := narrowing_loop corpus corpus 0 in
  assert_that (0 <? narrowed)%nat.

Definition multibyte_segments_are_handled_consistently : T World unit :=
  let! v := doc ["data.données"] [] in
  in_scope v "data.données" ;;!
  in_scope v "data.données.sub" ;;!
  not_in_scope v "data.donnéesX" ;;!
  not_in_scope v "data.donné".

Definition capability_is_exact_membership : T World unit :=
  let! v := doc [] ["read"] in
  assert_that (has_capability v "read") ;;!
  assert_that (negb (has_capability v "write")) ;;!
  assert_that (negb (has_capability v "rea")).

  (** ** Signing bytes *)

Definition canonical_bytes_are_deterministic_and_32_bytes : T World unit :=
  let! v := doc ["data.x"] ["read"] in
  let a := canonical_vaid_signing_bytes v in
  let b := canonical_vaid_signing_bytes v in
  assert_eq a b ;;!
  assert_eq (length a) 32.

Definition nulling_signature_makes_bytes_independent_of_signature_value : T World unit :=
  let! unsigned := doc ["data.x"] ["read"] in
  let before := canonical_vaid_signing_bytes unsigned in
  let signed := with_kernel_signature unsigned (replicate 64 "009"%byte) in
  let after := canonical_vaid_signing_bytes signed in
  assert_eq before after.

  (** ** Typed boundary entries *)

  (** [serde_json::from_str::<ScopeBoundaryEntry>(json)] *)
Definition entry (json : string) : option ScopeBoundaryEntry := json_parse json ≫= entry_deserialize.

Definition is_no_entry {S} (json : string) : T S unit :=
  assert_that (match entry (dq json) with None => true | Some _ => false end).

Definition a_well_formed_prefix_entry_parses : T World unit :=
  let! e := some_of (entry (dq "{'kind':'prefix','value':'orders/123/'}")) in
  assert_eq (entry_kind e) "prefix" ;;!
  assert_eq (as_str (entry_value e)) (Some "orders/123/").

Definition an_unrecognised_kind_parses_and_is_not_evaluable : T World unit :=
  let! e := some_of (entry (dq "{'kind':'amount','value':100}")) in
  assert_that (negb (entry_is_evaluable e)) ;;!
  assert_that (negb (boundary_is_evaluable [e])).

Definition a_bare_string_entry_is_not_an_entry : T World unit := is_no_entry "'data.governance'".

Definition an_entry_missing_a_required_member_is_not_an_entry : T World unit :=
  is_no_entry "{'kind':'prefix'}" ;;!
  is_no_entry "{'value':'a'}".

Definition an_entry_with_an_extra_member_is_not_an_entry : T World unit :=
  is_no_entry "{'kind':'prefix','value':'a','max':5}".

Definition a_prefix_entry_with_a_non_string_value_is_not_an_entry : T World unit :=
  is_no_entry "{'kind':'prefix','value':5}" ;;!
  is_no_entry "{'kind':'prefix','value':null}".

Definition an_empty_kind_is_not_an_entry : T World unit := is_no_entry "{'kind':'','value':'a'}".

  (** [json!(n)] *)
Definition json_int (n : Z) : Json := JNumber (PosInt n).

Definition the_constructor_applies_the_same_shape_rule_as_deserialize : T World unit :=
  assert_that (is_err (entry_new "prefix" (json_int 5))) ;;!
  assert_that (is_err (entry_new "" (JString "a"))) ;;!
  assert_that (is_ok (entry_new "amount" (json_int 100))).

  (** ** Entries inside a document *)

Definition vaid_json_with_boundary (boundary : Json) : T World string :=
  let! v := doc ["data.x"] ["read"] in
  mret (serde_json_text (object_insert "scope_boundary" boundary (vaid_to_value v))).

Definition kind_value (kind : string) (value : Json) : Json :=
  JObject {["kind" := JString kind; "value" := value]}.

Definition a_document_with_typed_entries_round_trips : T World unit :=
  let! text := vaid_json_with_boundary (JArray [kind_value "prefix" (JString "data.x")]) in
  let! parsed := some_of (vaid_from_str text) in
  assert_eq (length (vd_scope_boundary parsed)) 1 ;;!
  let! e := some_of (vd_scope_boundary parsed !! 0) in
  assert_eq (entry_kind e) "prefix".

Definition a_document_with_an_unrecognised_kind_deserializes : T World unit :=
  let! text := vaid_json_with_boundary (JArray [kind_value "amount_limit" (json_int 100)]) in
  let! parsed := some_of (vaid_from_str text) in
  assert_that (negb (boundary_is_evaluable (vd_scope_boundary parsed))).

  (** [ScopeBoundaryEntry::new(..).unwrap()] *)
Definition entry_of {S} (kind : string) (value : Json) : T S ScopeBoundaryEntry :=
  unwrapped (mliftO (entry_new kind value)).

Definition an_unreadable_entry_refuses_the_whole_boundary_even_when_another_matches
    : T World unit :=
  let first := entry_prefix "data.governance" in
  let! second := entry_of "amount" (json_int 100) in
  let boundary := [first; second] in
  assert_that (scope_contains [first] "data.governance.reports") ;;!
  assert_that (negb (scope_contains boundary "data.governance.reports")).

Definition an_unreadable_entry_alone_contains_nothing : T World unit :=
  let! e := entry_of "amount" (json_int 100) in
  assert_that (negb (scope_contains [e] "anything.at.all")) ;;!
  assert_that (negb (scope_contains [e] "")).

Definition evaluability_does_not_depend_on_the_resource : T World unit :=
  let! amount := entry_of "amount" (json_int 100) in
  let! future := entry_of "future" (JObject {["a" := json_int 1]}) in
  let entries := [entry_prefix ""; entry_prefix "data.governance"; entry_prefix "t/"; amount; future] in
  let resources := [""; "data.governance"; "data.governance.reports"; "t/x"; "z"] in
  assert_that (forallb (λ e,
    let derived := entry_is_evaluable e in
    forallb (λ r, bool_decide (bool_decide (is_Some (entry_contains e r)) = derived)) resources)
    entries).

  (** The loop body: a kind without a witness is a panic. *)
Definition registered_kind_evaluable (kind : string) : bool :=
  if bool_decide (kind = SCOPE_KIND_PREFIX) then
    let e := entry_prefix "data.x" in
    entry_is_evaluable e && bool_decide (is_Some (entry_claimed_resource e))
  else false.

Definition every_registered_kind_is_one_the_matcher_can_evaluate : T World unit :=
  assert_that (forallb registered_kind_evaluable RECOGNISED_SCOPE_KINDS).

End DocumentTests.
