(* ===== verification/CrateTests.v ===== *)
(** * The unit tests of the smaller modules

    The modules [tests] of [crates/vaid-mint/src/issuer_identity.rs],
    [crates/vaid-mint/src/mint_types.rs], [crates/vaid-pop/src/vaid_pop.rs] and
    [crates/vaid-pop/src/request_completion.rs], and the example in the
    documentation of [crates/vaid-mint/src/lib.rs]. *)

From S2P Require Import Prelude Json Externals Concrete Identity Scope IssuerIdentity Document.
From S2P Require Import Revocation World Pop Wire Issuer Mint Vectors TestKit MintTests.

#[global] Instance CompletionRecord_eq_dec : EqDecision CompletionRecord.
Proof. solve_decision. Defined.

(** ["a".repeat(n)] *)
Definition str_repeat (c : ascii) (n : nat) : string := String.string_of_list_ascii (replicate n c).

Section CrateTests.
  Context {Ext : Externals}.
  (** [serde_json::to_string] of a value, and the inverse of [base64_url_no_pad] *)
  Context (serde_json_text : Json → string).
  Context (base64_url_no_pad_decode : string → option (list byte)).

  (** ** Issuer identity *)

Definition matches_the_published_rfc_8037_thumbprint_vector : T World unit :=
  let x := "11qYAYKxCrfVS_7TyWQHOg7hcvPapiMlrwIaaPcHURo" in
  let! key := some_of (base64_url_no_pad_decode x) in
  assert_eq (kernel_key_thumbprint key)
    (THUMBPRINT_URI_PREFIX +:+ "kPrK_qmxVWaYVA9wwBF6Iuo3vVzz7TxHCTwXBygrS4k").

Definition thumbprint_is_deterministic_and_key_bound : T World unit :=
  let a := replicate 32 "007"%byte in
  let b := replicate 32 "008"%byte in
  assert_eq (kernel_key_thumbprint a) (kernel_key_thumbprint a) ;;!
  assert_that (bool_decide (kernel_key_thumbprint a ≠ kernel_key_thumbprint b)) ;;!
  assert_that (starts_with THUMBPRINT_URI_PREFIX (kernel_key_thumbprint a)).

Definition accepts_conforming_trust_domains : T World unit :=
  assert_that (forallb is_valid_trust_domain
    ["vaid.example"; "synthera.solara.associates"; "a.bc"; "x-1.example";
     "deep.ly.nested.name.example"]).

Definition rejects_non_conforming_trust_domains : T World unit :=
  assert_that (forallb (λ s, negb (is_valid_trust_domain s))
    [""; "single"; "Solara.Associates"; "solara.associates."; "solara..associates";
     "-lead.example"; "trail-.example"; "under_score.example"; "192.0.2.1"; "sp ace.example";
     "sοlara.associates"]).

Definition label_and_total_length_bounds_are_enforced : T World unit :=
  let long_label := str_repeat "a" 64 in
  assert_that (negb (is_valid_trust_domain (long_label +:+ ".example"))) ;;!
  let ok_label := str_repeat "a" 63 in
  assert_that (is_valid_trust_domain (ok_label +:+ ".example")) ;;!
  let at_limit := join "." [str_repeat "a" 63; str_repeat "a" 63; str_repeat "a" 63; str_repeat "a" 61] in
  assert_eq (String.length at_limit) TRUST_DOMAIN_MAX_LEN ;;!
  assert_that (is_valid_trust_domain at_limit) ;;!
  let over_limit := join "." [str_repeat "a" 63; str_repeat "a" 63; str_repeat "a" 63; str_repeat "a" 62] in
  assert_eq (String.length over_limit) (TRUST_DOMAIN_MAX_LEN + 1)%nat ;;!
  assert_that (negb (is_valid_trust_domain over_limit)).

Definition special_use_names_are_grammatical_but_flagged : T World unit :=
  assert_that (is_valid_trust_domain "vaid.example") ;;!
  assert_that (is_special_use_trust_domain "vaid.example") ;;!
  assert_that (is_special_use_trust_domain "foo.internal") ;;!
  assert_that (negb (is_special_use_trust_domain "synthera.solara.associates")).

  (** ** Mint requests *)

Definition request_round_trips_through_json : T World unit :=
  let req := mkMintVaidRequest
    (mkVaidSeed "researcher" "1.0.0" "acme" None [entry_prefix "data.governance"]
       ["read.documents"] None) None in
  let s := serde_json_to_string (mint_request_members req) in
  let! back := some_of (json_parse s ≫= mint_request_deserialize) in
  assert_eq (seed_agent_class (req_seed back)) "researcher".

Definition seed_without_public_key_der_deserializes : T World unit :=
  let json := dq "{'agentClass':'a','version':'1.0','tenantId':'t'}" in
  let! seed := some_of (json_parse json ≫= seed_deserialize) in
  assert_eq (seed_public_key_der seed) None.

  (** ** The signing primitive *)

Record DummyPayload : Type := mkDummyPayload {
  dummy_a : string;
  dummy_b : Z;
  dummy_c : list byte;
}.

#[local] Instance dummy_serialize : Serialize DummyPayload := λ d,
  JObject {["a" := JString (dummy_a d); "b" := JNumber (PosInt (dummy_b d));
            "c" := ser_bytes (dummy_c d)]}.

Definition dummy : DummyPayload := mkDummyPayload "x" 7 ["001"; "002"; "003"]%byte.

Definition fresh_keypair : T World KeyPair :=
  let! pkcs8 := random_bytes in
  let! pkcs8 := some_of pkcs8 in
  some_of (kp_from_pkcs8 pkcs8).

Definition sign_then_verify_round_trips : T World unit :=
  let! kp := fresh_keypair in
  let pk := kp_public_key kp in
  let sig := sign_payload dummy kp in
  assert_that (verify_signed_payload dummy pk sig).

Definition verify_fails_against_a_different_key : T World unit :=
  let! signer := fresh_keypair in
  let! attacker := fresh_keypair in
  let attacker_pub := kp_public_key attacker in
  let sig := sign_payload dummy signer in
  assert_that (negb (verify_signed_payload dummy attacker_pub sig)).

Definition verify_fails_when_payload_tampered : T World unit :=
  let! kp := fresh_keypair in
  let pk := kp_public_key kp in
  let sig := sign_payload dummy kp in
  let tampered := mkDummyPayload "x" 8 ["001"; "002"; "003"]%byte in
  assert_that (negb (verify_signed_payload tampered pk sig)).

Definition verify_fails_on_garbage_signature : T World unit :=
  let! kp := fresh_keypair in
  let pk := kp_public_key kp in
  assert_that (negb (verify_signed_payload dummy pk (replicate 64 "000"%byte))) ;;!
  assert_that (negb (verify_signed_payload dummy pk (replicate 3 "000"%byte))).

Definition pop_canonical_bytes_are_deterministic_and_32_bytes : T World unit :=
  let d1 := canonical_request_signing_bytes dummy in
  let d2 := canonical_request_signing_bytes dummy in
  assert_eq d1 d2 ;;!
  assert_eq (length d1) 32.

  (** ** Completion records *)

  (** [serde_json::to_string(&tier)] *)
Definition tier_text (t : AssuranceTier) : string := serde_json_text (JString (tier_name t)).

Definition assurance_tier_serializes_camelcase : T World unit :=
  assert_eq (tier_text SelfReported) (dq "'selfReported'") ;;!
  assert_eq (tier_text CounterSigned) (dq "'counterSigned'") ;;!
  assert_eq (tier_text ThirdPartyAttested) (dq "'thirdPartyAttested'").

  (** The loop body. *)
Definition tier_round_trips (tier : AssuranceTier) : T World unit :=
  let s := tier_text tier in
  let! back := some_of (json_parse s ≫= tier_deserialize) in
  assert_eq tier back.

Definition assurance_tier_round_trips : T World unit :=
  tier_round_trips SelfReported ;;!
  tier_round_trips CounterSigned ;;!
  tier_round_trips ThirdPartyAttested.

Definition completion_record_round_trips_through_json : T World unit :=
  let! vaid_id := VaidId_new in
  let! now := utc_now in
  let! signer_vaid_id := VaidId_new in
  let rec := {|
    cr_vaid_id := vaid_id;
    cr_request_digest_sha256 := "ee474ba8";
    cr_tenant_id := "acme";
    cr_status := "succeeded";
    cr_result_sha256 := "e3b0c442";
    cr_completed_at := (now - now mod NANOS)%Z;
    cr_signer_vaid_id := signer_vaid_id;
    cr_assurance_tier := SelfReported;
    cr_record_nonce := "abc";
  |} in
  let s := serde_json_to_string (completion_members rec) in
  let! back := some_of (json_parse s ≫= completion_deserialize) in
  assert_eq rec back.

  (** ** The example of the crate's documentation *)

Definition doc_example : T World unit :=
  let! issuer := unwrapped (ephemeral (R := InMemoryRevocationList) (L := InMemoryLineageStore)
                              24 "vaid.example") in
  let! mint := unwrapped (mliftO (mint_service_new (assuming_nothing_revoked issuer)
                                    InMemoryAudit_new)) in
  scenario mint (
    let! resp := unwrapped (mint_root (mkMintVaidRequest
      (keyless_seed "orchestrator" "acme" [entry_prefix "data.acme"] ["read"; "write"]) None)) in
    let! ok := unwrapped (with_issuer (verify_vaid (resp_vaid resp))) in
    assert_that ok).

End CrateTests.
