(* ===== verification/UnitRuns.v ===== *)
(** * The unit tests, evaluated

    The tests of [MintTests], [DepthTests], [ExpiryTests], [IssuerTests],
    [DocumentTests] and [CrateTests] are run against the definitions at an
    instance of the externals: SHA-256 and base64url as published, JSON texts
    printed and read, the calendar and the signature of [Concrete].  Those that
    read a clock are run at three of them; those that read neither a clock nor a
    text pass in every world.  This is a regression check of the model, not a
    statement about the program. *)

From stdpp Require Import pretty.
From S2P Require Import Prelude Json Externals Concrete Identity Scope IssuerIdentity Document DupScan.
From S2P Require Import Revocation World Verify Pop Issuer Mint Vectors Sha256 TestKit.
From S2P Require Import MintTests DepthTests ExpiryTests IssuerTests DocumentTests CrateTests.

(** ** JSON texts without white space: members sorted, integers and plain escapes *)

Fixpoint escaped (s : string) : string :=
  match s with
  | EmptyString => EmptyString
  | String c rest =>
      if bool_decide (c = DQUOTE ∨ c = BACKSLASH) then String BACKSLASH (String c (escaped rest))
      else String c (escaped rest)
  end.

Definition number_text (n : Number) : string :=
  match n with PosInt z => pretty z | NegInt z => pretty z | Float z => pretty z end.

Fixpoint insert_member (kv : string * string) (l : list (string * string)) : list (string * string) :=
  match l with
  | [] => [kv]
  | kv' :: l' => if String.leb kv.1 kv'.1 then kv :: l else kv' :: insert_member kv l'
  end.

Definition object_text (l : list (string * string)) : string :=
  "{" +:+ join "," (map (λ kv, quoted (escaped kv.1) +:+ ":" +:+ kv.2) l) +:+ "}".

Fixpoint json_text (j : Json) : string :=
  match j with
  | JNull => "null"
  | JBool b => if b then "true" else "false"
  | JNumber n => number_text n
  | JString s => quoted (escaped s)
  | JArray l => "[" +:+ join "," (map json_text l) +:+ "]"
  | JObject m => object_text (map_fold (λ k v l, insert_member (k, json_text v) l) [] m)
  end.

Definition struct_text (l : list (string * Json)) : string :=
  object_text (map (λ kv, (kv.1, json_text kv.2)) l).

(** Up to the closing quote. *)
Fixpoint read_string (s : string) : option (string * string) :=
  match s with
  | EmptyString => None
  | String c rest =>
      if bool_decide (c = DQUOTE) then Some ("", rest)
      else if bool_decide (c = BACKSLASH) then
        match rest with
        | String d rest' =>
            if bool_decide (d = DQUOTE ∨ d = BACKSLASH) then
              '(t, rest'') ← read_string rest'; Some (String d t, rest'')
            else None
        | EmptyString => None
        end
      else '(t, rest') ← read_string rest; Some (String c t, rest')
  end.

Fixpoint read_digits (n : Z) (s : string) : Z * string :=
  match s with
  | String c rest => if is_ascii_digit c then read_digits (n * 10 + char_digit c)%Z rest else (n, s)
  | EmptyString => (n, s)
  end.

Definition read_literal (word : string) (r : RawJson) (s : string) : option (RawJson * string) :=
  if starts_with word s then
    Some (r, String.substring (String.length word) (String.length s - String.length word) s)
  else None.

(** One value, the rest of an array, the rest of an object. *)
Fixpoint read_value (fuel : nat) (s : string) : option (RawJson * string) :=
  match fuel, s with
  | S fuel', String c rest =>
      if bool_decide (c = DQUOTE) then '(t, rest') ← read_string rest; Some (RString t, rest')
      else if bool_decide (c = "["%char) then
        if starts_with "]" rest then '(_, rest') ← read_literal "]" RNull rest; Some (RArray [], rest')
        else '(l, rest') ← read_elements fuel' rest; Some (RArray l, rest')
      else if bool_decide (c = "{"%char) then
        if starts_with "}" rest then '(_, rest') ← read_literal "}" RNull rest; Some (RObject [], rest')
        else '(l, rest') ← read_members fuel' rest; Some (RObject l, rest')
      else if is_ascii_digit c then
        let '(n, rest') := read_digits 0 s in Some (RNumber (PosInt n), rest')
      else if bool_decide (c = "t"%char) then read_literal "true" (RBool true) s
      else if bool_decide (c = "f"%char) then read_literal "false" (RBool false) s
      else read_literal "null" RNull s
  | _, _ => None
  end
with read_elements (fuel : nat) (s : string) : option (list RawJson * string) :=
  match fuel with
  | O => None
  | S fuel' =>
      '(v, rest) ← read_value fuel' s;
      match rest with
      | String "," rest' => '(l, rest'') ← read_elements fuel' rest'; Some (v :: l, rest'')
      | String "]" rest' => Some ([v], rest')
      | _ => None
      end
  end
with read_members (fuel : nat) (s : string) : option (list (string * RawJson) * string) :=
  match fuel, s with
  | S fuel', String c rest =>
      if bool_decide (c = DQUOTE) then
        '(k, rest) ← read_string rest;
        match rest with
        | String ":" rest =>
            '(v, rest) ← read_value fuel' rest;
            match rest with
            | String "," rest' => '(l, rest'') ← read_members fuel' rest'; Some ((k, v) :: l, rest'')
            | String "}" rest' => Some ([(k, v)], rest')
            | _ => None
            end
        | _ => None
        end
      else None
  | _, _ => None
  end.

Definition read_json (s : string) : option RawJson :=
  match read_value (S (2 * String.length s)) s with
  | Some (r, EmptyString) => Some r
  | _ => None
  end.

(** ** The instance *)

Definition published : Externals := {|
  ext_uuid := @ext_uuid (concrete no_json);
  ext_chrono := @ext_chrono (concrete no_json);
  ext_crypto := {|
    sha256 := sha256_bytes;
    ed25519_verify pk m s := bool_decide (s = pk ++ m);
    KeyPair := list byte;
    kp_public_key kp := kp;
    kp_sign kp m := kp ++ m;
    kp_from_pkcs8 b := if bool_decide (b = []) then None else Some b;
    kp_from_seed_unchecked b := if bool_decide (length b = 32) then Some b else None;
  |};
  ext_codec := {|
    base64_url_no_pad := base64url;
    base64_standard := base64url;
    base64_standard_decode := base64url_decode;
    serde_jcs_to_vec j := string_bytes (json_text j);
    json_parse := read_json;
    serde_json_to_string := struct_text;
    serde_json_to_string_pretty := struct_text;
    str_to_uppercase := upper;
  |};
|}.

(** A clock that starts at [start] and moves by [step] at every reading; fresh
    identifiers and key material. *)
Definition run_world (start step : Z) : World :=
  mkWorld (λ n, (start + Z.of_nat n * step)%Z) 0 (λ n, N.of_nat (n + 1)) 0
    (λ n, Some (be_bytes 32 (N.of_nat (n + 1)))) 0.

(** A stopped clock on a whole second; one about to cross a second, a minute, an
    hour and a day; one that takes a third of a second a reading. *)
Definition run_worlds : list World :=
  [run_world (1700000000 * NANOS) 0;
   run_world (1735689600 * NANOS - 1500) 1000;
   run_world (1709164800 * NANOS + 123456789) 333333333].

(** ** The tests *)

Section Tests.
  Context {Ext : Externals}.

(** What depends on no more of the externals than a digest's length: the depth's
    validation, the revocation list, repeated names, scope, trust domains. *)
Definition static_tests : list UnitTest :=
  [("max_delegation_depth_zero_is_rejected", max_delegation_depth_zero_is_rejected);
   ("max_delegation_depth_above_the_lineage_bound_is_rejected", max_delegation_depth_above_the_lineage_bound_is_rejected);
   ("max_delegation_depth_at_the_lineage_bound_is_accepted", max_delegation_depth_at_the_lineage_bound_is_accepted);
   ("max_delegation_depth_one_is_accepted", max_delegation_depth_one_is_accepted);
   ("absent_store_is_unavailable_vouching_store_is_not_revoked", absent_store_is_unavailable_vouching_store_is_not_revoked);
   ("revoking_makes_a_store_available_and_reports_any_hop", revoking_makes_a_store_available_and_reports_any_hop);
   ("mark_unavailable_flips_back_to_unavailable", mark_unavailable_flips_back_to_unavailable);
   ("finds_a_duplicate_at_the_top_level", finds_a_duplicate_at_the_top_level);
   ("finds_a_duplicate_nested_inside_an_extension", finds_a_duplicate_nested_inside_an_extension);
   ("the_same_name_at_different_depths_is_not_a_duplicate", the_same_name_at_different_depths_is_not_a_duplicate);
   ("repeated_strings_in_an_array_are_values_not_keys", repeated_strings_in_an_array_are_values_not_keys);
   ("a_value_that_looks_like_a_key_is_not_one", a_value_that_looks_like_a_key_is_not_one);
   ("an_escaped_quote_does_not_end_a_string", an_escaped_quote_does_not_end_a_string);
   ("an_unterminated_string_is_not_reported_as_a_duplicate", an_unterminated_string_is_not_reported_as_a_duplicate);
   ("empty_scope_is_unrestricted", empty_scope_is_unrestricted);
   ("scope_is_segment_matched", scope_is_segment_matched);
   ("a_sibling_sharing_a_textual_prefix_is_not_contained", a_sibling_sharing_a_textual_prefix_is_not_contained);
   ("both_reserved_separators_are_honoured", both_reserved_separators_are_honoured);
   ("a_trailing_separator_entry_matches_by_plain_prefix", a_trailing_separator_entry_matches_by_plain_prefix);
   ("the_rule_is_strictly_narrower_than_bare_prefix_matching", the_rule_is_strictly_narrower_than_bare_prefix_matching);
   ("multibyte_segments_are_handled_consistently", multibyte_segments_are_handled_consistently);
   ("capability_is_exact_membership", capability_is_exact_membership);
   ("canonical_bytes_are_deterministic_and_32_bytes", canonical_bytes_are_deterministic_and_32_bytes);
   ("nulling_signature_makes_bytes_independent_of_signature_value", nulling_signature_makes_bytes_independent_of_signature_value);
   ("the_constructor_applies_the_same_shape_rule_as_deserialize", the_constructor_applies_the_same_shape_rule_as_deserialize);
   ("an_unreadable_entry_refuses_the_whole_boundary_even_when_another_matches", an_unreadable_entry_refuses_the_whole_boundary_even_when_another_matches);
   ("an_unreadable_entry_alone_contains_nothing", an_unreadable_entry_alone_contains_nothing);
   ("evaluability_does_not_depend_on_the_resource", evaluability_does_not_depend_on_the_resource);
   ("every_registered_kind_is_one_the_matcher_can_evaluate", every_registered_kind_is_one_the_matcher_can_evaluate);
   ("accepts_conforming_trust_domains", accepts_conforming_trust_domains);
   ("rejects_non_conforming_trust_domains", rejects_non_conforming_trust_domains);
   ("label_and_total_length_bounds_are_enforced", label_and_total_length_bounds_are_enforced);
   ("special_use_names_are_grammatical_but_flagged", special_use_names_are_grammatical_but_flagged);
   ("canonical_bytes_are_deterministic_and_32_bytes", pop_canonical_bytes_are_deterministic_and_32_bytes)].

(** The mint and the issuer. *)
Definition clock_tests : list UnitTest :=
  [("root_generate_and_discard_mints_and_audits", root_generate_and_discard_mints_and_audits);
   ("root_mint_denied_by_authorization_gate_has_no_side_effects", root_mint_denied_by_authorization_gate_has_no_side_effects);
   ("root_byo_key_with_valid_pop_binds_key", root_byo_key_with_valid_pop_binds_key);
   ("root_byo_key_with_pop_for_different_key_is_rejected", root_byo_key_with_pop_for_different_key_is_rejected);
   ("root_byo_key_without_pop_is_rejected", root_byo_key_without_pop_is_rejected);
   ("root_byo_key_replay_is_rejected", root_byo_key_replay_is_rejected);
   ("root_byo_key_stale_pop_is_rejected", root_byo_key_stale_pop_is_rejected);
   ("child_within_bounds_is_minted_with_lineage_and_delegated_audit", child_within_bounds_is_minted_with_lineage_and_delegated_audit);
   ("child_scope_exceeding_parent_is_denied", child_scope_exceeding_parent_is_denied);
   ("empty_child_scope_under_restricted_parent_is_denied", empty_child_scope_under_restricted_parent_is_denied);
   ("empty_parent_scope_permits_any_child_scope", empty_parent_scope_permits_any_child_scope);
   ("child_caps_exceeding_parent_are_denied", child_caps_exceeding_parent_are_denied);
   ("empty_parent_caps_may_delegate_nothing_but_empty_child_caps_ok", empty_parent_caps_may_delegate_nothing_but_empty_child_caps_ok);
   ("cross_tenant_child_is_denied", cross_tenant_child_is_denied);
   ("child_claiming_a_different_parent_vaid_is_denied", child_claiming_a_different_parent_vaid_is_denied);
   ("mint_child_without_parent_context_is_denied", mint_child_without_parent_context_is_denied);
   ("mint_child_without_byo_key_is_denied", mint_child_without_byo_key_is_denied);
   ("rejected_attenuation_does_not_consume_the_pop_nonce", rejected_attenuation_does_not_consume_the_pop_nonce);
   ("minted_child_verifies_and_is_contained_by_parent", minted_child_verifies_and_is_contained_by_parent);
   ("default_depth_mints_a_root_child_but_refuses_a_grandchild", default_depth_mints_a_root_child_but_refuses_a_grandchild);
   ("a_root_child_is_always_allowed_regardless_of_configured_depth", a_root_child_is_always_allowed_regardless_of_configured_depth);
   ("depth_2_mints_a_grandchild_but_refuses_a_great_grandchild", depth_2_mints_a_grandchild_but_refuses_a_great_grandchild);
   ("depth_refusal_happens_before_any_lineage_write", depth_refusal_happens_before_any_lineage_write);
   ("constructing_a_mint_with_an_invalid_depth_fails_closed", constructing_a_mint_with_an_invalid_depth_fails_closed);
   ("depth_1_refuses_when_the_grandparent_cannot_be_resolved_after_a_restart", depth_1_refuses_when_the_grandparent_cannot_be_resolved_after_a_restart);
   ("depth_2_refuses_when_an_ancestor_beyond_the_first_hop_is_unresolvable", depth_2_refuses_when_an_ancestor_beyond_the_first_hop_is_unresolvable);
   ("depth_1_refuses_regardless_of_what_a_lying_resolver_claims", depth_1_refuses_regardless_of_what_a_lying_resolver_claims);
   ("depth_check_refuses_with_the_existing_typed_error_on_a_lineage_store_failure", depth_check_refuses_with_the_existing_typed_error_on_a_lineage_store_failure);
   ("root_mint_fails_closed_when_lineage_write_fails", root_mint_fails_closed_when_lineage_write_fails);
   ("child_mint_fails_closed_when_lineage_write_fails", child_mint_fails_closed_when_lineage_write_fails);
   ("a_store_implementing_only_try_record_mints_normally", a_store_implementing_only_try_record_mints_normally);
   ("record_on_a_failing_store_panics_rather_than_silently_dropping_the_write", record_on_a_failing_store_panics_rather_than_silently_dropping_the_write);
   ("child_is_clamped_to_its_parents_expiry", child_is_clamped_to_its_parents_expiry);
   ("child_keeps_the_issuer_ttl_when_it_is_the_earlier_bound", child_keeps_the_issuer_ttl_when_it_is_the_earlier_bound);
   ("delegation_works_across_a_second_boundary", delegation_works_across_a_second_boundary);
   ("delegating_from_an_already_expired_parent_is_refused", delegating_from_an_already_expired_parent_is_refused);
   ("an_unreadable_parent_expiry_refuses_the_delegation", an_unreadable_parent_expiry_refuses_the_delegation);
   ("refusing_a_dead_parent_does_not_consume_the_pop_nonce", refusing_a_dead_parent_does_not_consume_the_pop_nonce);
   ("an_issuer_that_ignores_the_ceiling_is_caught_and_the_child_withheld", an_issuer_that_ignores_the_ceiling_is_caught_and_the_child_withheld);
   ("the_root_path_is_unclamped", the_root_path_is_unclamped);
   ("a_clamped_child_says_so_on_the_response", a_clamped_child_says_so_on_the_response);
   ("an_unclamped_child_says_that_too", an_unclamped_child_says_that_too);
   ("a_root_mint_is_never_bounded_by_a_parent_it_does_not_have", a_root_mint_is_never_bounded_by_a_parent_it_does_not_have);
   ("the_clamp_is_recorded_in_the_audit_trail", the_clamp_is_recorded_in_the_audit_trail);
   ("expiry_clamp_still_applies_through_a_fallible_lineage_store", expiry_clamp_still_applies_through_a_fallible_lineage_store);
   ("issued_root_vaid_verifies_against_its_issuer", issued_root_vaid_verifies_against_its_issuer);
   ("a_tampered_field_fails_verification", a_tampered_field_fails_verification);
   ("a_different_issuer_does_not_verify", a_different_issuer_does_not_verify);
   ("revocation_fails_verification", revocation_fails_verification);
   ("expired_vaid_fails_verification", expired_vaid_fails_verification);
   ("default_revocation_store_is_absent_and_fails_closed", default_revocation_store_is_absent_and_fails_closed);
   ("assuming_nothing_revoked_restores_the_pre_0_9_posture", assuming_nothing_revoked_restores_the_pre_0_9_posture);
   ("injected_revocation_check_is_consulted", injected_revocation_check_is_consulted);
   ("injected_unavailable_store_fails_closed", injected_unavailable_store_fails_closed);
   ("same_seed_issuer_produces_the_same_kernel_public_key", same_seed_issuer_produces_the_same_kernel_public_key)].

(** Texts, digests and keys, and the documentation's example. *)
Definition text_tests : list UnitTest :=
  [("a_well_formed_prefix_entry_parses", a_well_formed_prefix_entry_parses);
   ("an_unrecognised_kind_parses_and_is_not_evaluable", an_unrecognised_kind_parses_and_is_not_evaluable);
   ("a_bare_string_entry_is_not_an_entry", a_bare_string_entry_is_not_an_entry);
   ("an_entry_missing_a_required_member_is_not_an_entry", an_entry_missing_a_required_member_is_not_an_entry);
   ("an_entry_with_an_extra_member_is_not_an_entry", an_entry_with_an_extra_member_is_not_an_entry);
   ("a_prefix_entry_with_a_non_string_value_is_not_an_entry", a_prefix_entry_with_a_non_string_value_is_not_an_entry);
   ("an_empty_kind_is_not_an_entry", an_empty_kind_is_not_an_entry);
   ("a_document_with_typed_entries_round_trips", a_document_with_typed_entries_round_trips json_text);
   ("a_document_with_an_unrecognised_kind_deserializes", a_document_with_an_unrecognised_kind_deserializes json_text);
   ("matches_the_published_rfc_8037_thumbprint_vector", matches_the_published_rfc_8037_thumbprint_vector base64url_decode);
   ("thumbprint_is_deterministic_and_key_bound", thumbprint_is_deterministic_and_key_bound);
   ("request_round_trips_through_json", request_round_trips_through_json);
   ("seed_without_public_key_der_deserializes", seed_without_public_key_der_deserializes);
   ("sign_then_verify_round_trips", sign_then_verify_round_trips);
   ("verify_fails_against_a_different_key", verify_fails_against_a_different_key);
   ("verify_fails_when_payload_tampered", verify_fails_when_payload_tampered);
   ("verify_fails_on_garbage_signature", verify_fails_on_garbage_signature);
   ("assurance_tier_serializes_camelcase", assurance_tier_serializes_camelcase json_text);
   ("assurance_tier_round_trips", assurance_tier_round_trips json_text);
   ("completion_record_round_trips_through_json", completion_record_round_trips_through_json);
   ("doc_example", doc_example)].

End Tests.

(** ** The runs *)

Definition all_pass (worlds : list World) (tests : list UnitTest) : bool :=
  forallb (λ t, forallb (passes t.2) worlds) tests.

Lemma clock_tests_pass : all_pass run_worlds (clock_tests (Ext := concrete read_json)) = true.
Proof. vm_compute. reflexivity. Qed.

Lemma text_tests_pass : all_pass (take 1 run_worlds) (text_tests (Ext := published)) = true.
Proof. vm_compute. reflexivity. Qed.

(** ** The static tests, in every world *)

(** What they need: no panic when an hour is added to a reading, identifiers that
    differ and are read as printed, and a digest of 32 bytes. *)
Record runnable {Ext : Externals} (w : World) : Prop := {
  run_hour n : is_Some (dt_add (w_clock w n) (hours 1));
  run_uuids i j : w_uuids w i = w_uuids w j → i = j;
  run_digest m : length (sha256 m) = 32;
  run_uuid_text :: UuidLaws;
}.

Section Static.
  Context {Ext : Externals}.

Lemma passes_assert {A} b (k : T World A) w :
  b = true → passes k w = true → passes (assert_that b ;;! k) w = true.
Proof. by intros ->. Qed.

Lemma passes_assert_last b w : b = true → passes (assert_that b) w = true.
Proof. by intros ->. Qed.

(** A document of the tests carries the scope and capabilities asked for. *)
Lemma passes_doc {A} scope caps (k : Vaid → T World A) w :
  runnable w →
  (∀ d w', runnable w' → vd_scope_boundary d = map entry_prefix scope →
           vd_capability_set d = caps → vaid_wf d → passes (k d) w' = true) →
  passes (let! v := doc scope caps in k v) w = true.
Proof.
  intros Hw Hk. unfold doc, unminted_doc, AgentId_new, plus, passes, mbindM. cbn.
  destruct (run_hour w Hw (S (w_clock_reads w))) as [e He]. rewrite He. cbn.
  apply Hk; [by destruct Hw|done..|]. destruct Hw. apply with_lineage_wf.
Qed.

Lemma digest_runs {A} `{Serialize A} (a : A) w :
  runnable w →
  canonical_request_signing_bytes a = canonical_request_signing_bytes a
  ∧ length (canonical_request_signing_bytes a) = 32.
Proof. intros [_ _ Hd _]. split; [done|]. apply Hd. Qed.

(** An assertion about the scope or the capabilities of such a document. *)
Ltac solve_membership :=
  unfold is_in_scope, has_capability;
  match goal with
  | H : vd_scope_boundary ?d = _ |- context [vd_scope_boundary ?d] => rewrite H
  | H : vd_capability_set ?d = _ |- context [vd_capability_set ?d] => rewrite H
  end;
  vm_compute; reflexivity.

(** Step through a test: its documents and its assertions. *)
Ltac run_static :=
  first
    [ apply passes_doc; [assumption|]; intros; run_static
    | apply passes_assert; [solve_membership|]; run_static
    | apply passes_assert_last; solve_membership ].

Ltac unfold_scope_test :=
  unfold empty_scope_is_unrestricted, scope_is_segment_matched,
    a_sibling_sharing_a_textual_prefix_is_not_contained, both_reserved_separators_are_honoured,
    a_trailing_separator_entry_matches_by_plain_prefix,
    multibyte_segments_are_handled_consistently, capability_is_exact_membership,
    in_scope, not_in_scope.

Lemma one_revoked root leaf :
  root ≠ leaf →
  check_lineage (list_revoke root revocation_list_new) [root; leaf] = Revoked
  ∧ check_lineage (list_revoke root revocation_list_new) [leaf] = NotRevoked.
Proof.
  intros Hne. unfold check_lineage, in_memory_check, list_revoke. cbn [default existsb]. split.
  - rewrite bool_decide_eq_true_2; [done|set_solver].
  - rewrite bool_decide_eq_false_2; [done|set_solver].
Qed.

Lemma revoking_runs w :
  runnable w → passes revoking_makes_a_store_available_and_reports_any_hop w = true.
Proof.
  intros [_ Hu _ _].
  destruct (one_revoked (VaidId_from_uuid (w_uuids w (w_uuid_reads w)))
              (VaidId_from_uuid (w_uuids w (S (w_uuid_reads w))))) as [Hboth Hleaf].
  { intros [= Heq]. apply Hu in Heq. lia. }
  unfold passes, revoking_makes_a_store_available_and_reports_any_hop, VaidId_new, mbindM.
  cbn -[check_lineage list_revoke]. by rewrite Hboth, Hleaf.
Qed.

Lemma signing_bytes_run w :
  runnable w → passes canonical_bytes_are_deterministic_and_32_bytes w = true.
Proof.
  intros Hw. apply passes_doc; [done|]. intros d w' [_ _ Hd _] _ _ _.
  apply passes_assert; [by apply bool_decide_eq_true_2|].
  apply passes_assert_last, bool_decide_eq_true_2, Hd.
Qed.

Lemma nulled_signature_runs w :
  runnable w → passes nulling_signature_makes_bytes_independent_of_signature_value w = true.
Proof.
  intros Hw. apply passes_doc; [done|]. intros d w' _ _ _ Hwf.
  apply passes_assert_last, bool_decide_eq_true_2. symmetry. by apply canonical_with_signature.
Qed.

Lemma pop_bytes_run w :
  runnable w → passes pop_canonical_bytes_are_deterministic_and_32_bytes w = true.
Proof.
  intros [_ _ Hd _]. apply passes_assert; [by apply bool_decide_eq_true_2|].
  apply passes_assert_last, bool_decide_eq_true_2, Hd.
Qed.

Lemma static_tests_pass w : runnable w → Forall (λ t, passes t.2 w = true) static_tests.
Proof.
  intros Hw. unfold static_tests.
  repeat (apply Forall_cons; split; [cbn [snd]|]); [..|by apply Forall_nil].
  all: match goal with
       | |- passes revoking_makes_a_store_available_and_reports_any_hop _ = true =>
           by apply revoking_runs
       | |- passes canonical_bytes_are_deterministic_and_32_bytes _ = true => by apply signing_bytes_run
       | |- passes nulling_signature_makes_bytes_independent_of_signature_value _ = true =>
           by apply nulled_signature_runs
       | |- passes pop_canonical_bytes_are_deterministic_and_32_bytes _ = true =>
           by apply pop_bytes_run
       | _ => first [vm_compute; reflexivity | unfold_scope_test; run_static]
       end.
Qed.

End Static.

(** A stopped clock is such a world. *)
Definition stopped : World := run_world (1700000000 * NANOS) 0.

Lemma stopped_runnable : runnable (Ext := published) stopped.
Proof.
  split.
  - intros n. change (w_clock stopped n) with (1700000000 * NANOS + Z.of_nat n * 0)%Z.
    rewrite Z.mul_0_r. by eexists.
  - intros i j. unfold stopped, run_world. cbn. lia.
  - apply sha256_length.
  - apply (laws_uuid (ExternalLaws := concrete_laws no_json)).
Qed.

Lemma stopped_static_tests : Forall (λ t, passes t.2 stopped = true) (static_tests (Ext := published)).
Proof. exact (static_tests_pass (Ext := published) stopped stopped_runnable). Qed.
