(* ===== verification/Client.v ===== *)
(** * The client's request signer

    [crates/vaid-client/src/auth.rs]: the four headers of a signed request,
    from a raw key or through an operator-signing port. *)

From S2P Require Import Prelude Json Externals Concrete Identity Scope Document World Pop.

Module PopError.
Inductive t : Type :=
  | InvalidVaid
  | Nonce
  | Signing (message : string).
End PopError.
Notation PopError := PopError.t.

Record PopHeaders : Type := mkPopHeaders {
  ph_vaid : string;
  ph_timestamp : string;
  ph_nonce : string;
  ph_signature : string;
}.

Definition into_pairs (h : PopHeaders) : list (string * string) :=
  [(HEADER_VAID, ph_vaid h); (HEADER_TIMESTAMP, ph_timestamp h);
   (HEADER_NONCE, ph_nonce h); (HEADER_SIGNATURE, ph_signature h)].

Record PopIdentity : Type := mkPopIdentity {
  pi_vaid_header : string;
  pi_vaid_id : VaidId;
  pi_tenant_id : string;
}.

Section Client.
  Context {Ext : Externals}.

  (** The derived [Deserialize] of [VaidIdentity]: an object with the two named
      members, others ignored, or their array. *)
Definition de_vaid_identity (r : RawJson) : option (VaidId * string) :=
  match r with
  | RObject l =>
      vaid_id ← de_required "vaid_id" de_vaid_id l;
      tenant_id ← de_required "tenant_id" de_string l;
      Some (vaid_id, tenant_id)
  | RArray [v; t] =>
      vaid_id ← de_vaid_id v; tenant_id ← de_string t; Some (vaid_id, tenant_id)
  | _ => None
  end.

Definition pop_identity_from_vaid_json (vaid_json : list byte) : Outcome PopError PopIdentity :=
  match r ← json_parse (String.string_of_list_byte vaid_json); de_vaid_identity r with
  | Some (vaid_id, tenant_id) => Ok (mkPopIdentity (base64_standard vaid_json) vaid_id tenant_id)
  | None => Err PopError.InvalidVaid
  end.

Definition hex_sha256 (body : list byte) : string := to_hex (sha256 body).

  (** [with_nanosecond(0)] is the truncation to a whole second. *)
Definition identity_payload (i : PopIdentity) (method path : string) (body : list byte)
    (now : Instant) (nonce : string) : RequestAuthPayload * string :=
  let now := (now - now mod NANOS)%Z in
  let timestamp := dt_to_rfc3339_secs_z now in
  ({| ra_vaid_id := pi_vaid_id i;
      ra_method := str_to_uppercase method;
      ra_path := path;
      ra_body_sha256 := hex_sha256 body;
      ra_tenant_id := pi_tenant_id i;
      ra_timestamp := now;
      ra_client_nonce := nonce |}, timestamp).

Definition identity_headers (i : PopIdentity) (timestamp nonce : string) (signature : list byte)
    : PopHeaders :=
  mkPopHeaders (pi_vaid_header i) timestamp nonce (base64_standard signature).

  (** 16 random bytes in hexadecimal. *)
Definition fresh_nonce : M World PopError string :=
  let! bytes := random_bytes in
  match bytes with
  | None => mthrow PopError.Nonce
  | Some bytes => mret (to_hex bytes)
  end.

  (** ** A raw key *)

Record RequestSigner : Type := mkRequestSigner { rs_identity : PopIdentity; rs_key : KeyPair }.

Definition request_signer_from_vaid_json (vaid_json : list byte) (key : KeyPair)
    : Outcome PopError RequestSigner :=
  match pop_identity_from_vaid_json vaid_json with
  | Ok identity => Ok (mkRequestSigner identity key)
  | Err e => Err e
  | Panicked => Panicked
  end.

Definition sign_headers_at (s : RequestSigner) (method path : string) (body : list byte)
    (now : Instant) (nonce : string) : Outcome PopError PopHeaders :=
  let '(payload, timestamp) := identity_payload (rs_identity s) method path body now nonce in
  let signature := sign_payload payload (rs_key s) in
  Ok (identity_headers (rs_identity s) timestamp nonce signature).

Definition sign_headers (s : RequestSigner) (method path : string) (body : list byte)
    : M World PopError PopHeaders :=
  let! now := utc_now in
  let! nonce := fresh_nonce in
  mliftO (sign_headers_at s method path body now nonce).

  (** ** A key in external custody *)

Section Port.
  Context {P : Type} `{Port : OperatorSigningPort P}.

Record PortRequestSigner : Type := mkPortRequestSigner { ps_identity : PopIdentity; ps_port : P }.

Definition port_signer_from_vaid_json (vaid_json : list byte) (port : P)
    : Outcome PopError PortRequestSigner :=
  match pop_identity_from_vaid_json vaid_json with
  | Ok identity => Ok (mkPortRequestSigner identity port)
  | Err e => Err e
  | Panicked => Panicked
  end.

Definition port_sign_headers_at (method path : string) (body : list byte) (now : Instant)
    (nonce : string) : M PortRequestSigner PopError PopHeaders := λ s,
  let '(payload, timestamp) := identity_payload (ps_identity s) method path body now nonce in
  let digest := canonical_request_signing_bytes payload in
  match port_sign digest (ps_port s) with
  | (Ok signature, port') =>
      (Ok (identity_headers (ps_identity s) timestamp nonce signature),
       mkPortRequestSigner (ps_identity s) port')
  | (Err e, port') =>
      (Err (PopError.Signing ("operator signing error: " +:+ operator_error_message e)),
       mkPortRequestSigner (ps_identity s) port')
  | (Panicked, port') => (Panicked, mkPortRequestSigner (ps_identity s) port')
  end.

Definition port_sign_headers (method path : string) (body : list byte)
    : M (PortRequestSigner * World) PopError PopHeaders :=
  let! now := zoom snd (λ w s, (s.1, w)) utc_now in
  let! nonce := zoom snd (λ w s, (s.1, w)) fresh_nonce in
  zoom fst (λ p s, (p, s.2)) (port_sign_headers_at method path body now nonce).

End Port.

  (** ** Properties *)

(** What a verifier rebuilds from the headers and the request it received, for
    the identity of the verified document. *)
Definition rebuilt_payload (vaid_id : VaidId) (tenant : string) (method path : string)
    (body : list byte) (timestamp : Instant) (nonce : string) : RequestAuthPayload := {|
  ra_vaid_id := vaid_id;
  ra_method := str_to_uppercase method;
  ra_path := path;
  ra_body_sha256 := hex_sha256 body;
  ra_tenant_id := tenant;
  ra_timestamp := timestamp;
  ra_client_nonce := nonce;
|}.

(** The round trip of the whole-second rendering, which the crate documents. *)
Definition timestamp_law : Prop := ∀ t,
  four_digit_year t → (t mod NANOS = 0)%Z →
  dt_parse_from_rfc3339 (dt_to_rfc3339_secs_z t) = Some t.

(** C38. A signed request verifies: from the document the signer was built on and
    the request it signed, a verifier that reads the timestamp and nonce off
    the headers and rebuilds the payload accepts the signature under the
    holder's public key, at any clock precision. *)
Theorem signed_request_verifies {CL : CryptoLaws} (Htime : timestamp_law)
    (vaid_json : list byte) (key : KeyPair) (s : RequestSigner)
    (method path : string) (body : list byte) (now : Instant) (nonce : string) (h : PopHeaders)
    (Hsigner : request_signer_from_vaid_json vaid_json key = Ok s)
    (Hyear : four_digit_year (now - now mod NANOS)%Z)
    (Hsign : sign_headers_at s method path body now nonce = Ok h) :
  ∃ r vaid_id tenant t signature,
    json_parse (String.string_of_list_byte vaid_json) = Some r
    ∧ de_vaid_identity r = Some (vaid_id, tenant)
    ∧ ph_vaid h = base64_standard vaid_json
    ∧ ph_signature h = base64_standard signature
    ∧ parse_rfc3339 (ph_timestamp h) = Some t
    ∧ verify_signed_payload
        (rebuilt_payload vaid_id tenant method path body t (ph_nonce h))
        (kp_public_key key) signature = true.
Proof.
  unfold request_signer_from_vaid_json, pop_identity_from_vaid_json in Hsigner.
  destruct (json_parse _) as [r|]; [|done]. simpl in Hsigner.
  destruct (de_vaid_identity r) as [[vaid_id tenant]|] eqn:Hid; [|done].
  injection Hsigner as <-. injection Hsign as <-. simpl.
  eexists r, vaid_id, tenant, (now - now mod NANOS)%Z, _. split_and!; try done.
  - apply Htime; [done|]. by rewrite Zminus_mod, Zmod_mod, Z.sub_diag.
  - by apply verify_sign_payload.
Qed.

(** A failing key store fails the request: when the port cannot sign, no
    headers are produced and the error says why; a signature it does produce is
    the one sent, over the digest a raw-key signer would have signed. *)
Theorem port_signing_spec {P} `{OperatorSigningPort P} (s : PortRequestSigner (P := P)) (key : KeyPair)
    (method path : string) (body : list byte) (now : Instant) (nonce : string) :
  let payload := (identity_payload (ps_identity s) method path body now nonce).1 in
  match port_sign (canonical_request_signing_bytes payload) (ps_port s) with
  | (Ok signature, port') =>
      ∃ h, port_sign_headers_at method path body now nonce s
           = (Ok h, mkPortRequestSigner (ps_identity s) port')
      ∧ ph_signature h = base64_standard signature
      ∧ (signature = kp_sign key (canonical_request_signing_bytes payload) →
         sign_headers_at (mkRequestSigner (ps_identity s) key) method path body now nonce = Ok h)
  | (Err e, port') =>
      ∃ msg, port_sign_headers_at method path body now nonce s
             = (Err (PopError.Signing msg), mkPortRequestSigner (ps_identity s) port')
  | (Panicked, port') =>
      port_sign_headers_at method path body now nonce s
      = (Panicked, mkPortRequestSigner (ps_identity s) port')
  end.
Proof.
  cbn zeta. unfold port_sign_headers_at. cbn [identity_payload fst].
  destruct (port_sign _ _) as [[signature|e|] port']; [|by eauto|done].
  eexists. split_and!; [done..|]. by intros ->.
Qed.

End Client.

(** ** Witness *)

Module ClientSamples.

Definition identity_json : RawJson :=
  RObject [("vaid_id", RString "u-1"); ("tenant_id", RString "acme"); ("version", RString "1")].

#[local] Instance samples : Externals :=
  concrete (λ s, if bool_decide (s = "doc") then Some identity_json else None).

Definition holder : list byte := string_bytes "holder".
Definition signer : RequestSigner :=
  mkRequestSigner (mkPopIdentity "doc" (VaidId_from_uuid 3%N) "acme") (holder : KeyPair).
Definition headers : PopHeaders :=
  match sign_headers_at signer "get" "/a" [] (1700000000 * NANOS + 5)%Z "n" with
  | Ok h => h
  | _ => mkPopHeaders "" "" "" ""
  end.

Lemma signed_request_verifies_witness :
  ∃ r vaid_id tenant t signature,
    json_parse (String.string_of_list_byte (string_bytes "doc")) = Some r
    ∧ de_vaid_identity r = Some (vaid_id, tenant)
    ∧ ph_vaid headers = base64_standard (string_bytes "doc")
    ∧ ph_signature headers = base64_standard signature
    ∧ parse_rfc3339 (ph_timestamp headers) = Some t
    ∧ verify_signed_payload
        (rebuilt_payload vaid_id tenant "get" "/a" [] t (ph_nonce headers))
        (kp_public_key (holder : KeyPair)) signature = true.
Proof.
  refine (signed_request_verifies _ (string_bytes "doc") (holder : KeyPair) signer "get" "/a" []
            (1700000000 * NANOS + 5)%Z "n" headers _ _ _).
  - intros t Ht Hw. change (e6_read (e6_print t) = Some t).
    rewrite e6_read_print by done. f_equal. lia.
  - reflexivity.
  - by apply (bool_decide_unpack (four_digit_year _)).
  - reflexivity.
Defined.

End ClientSamples.
