(* ===== verification/ClientExamples.v ===== *)
(** * The client's examples

    [crates/vaid-client/examples/emit_pop.rs], which signs the request of the
    frozen operator vector with the client and prints what it got, and
    [emit_pop_pathquery.rs], the generator of the vector whose path carries a
    query: the value each prints, for the text of the operator vector.  An
    [unwrap] that does not hold is a panic. *)

From S2P Require Import Prelude Json Externals Concrete Identity Scope IssuerIdentity Document.
From S2P Require Import DupScan World Pop Wire Vectors PopFirewall EmitterTexts Emitters EmittersPass.
From S2P Require Import PrettyText Client.

Definition PATHQUERY_COMMENT : string := text
  ["Path-with-query conformance vector (v1). Load-bearing. `input` is a real ";
   "RequestAuthPayload (camelCase) whose `path` is the on-the-wire request target ";
   "INCLUDING the query string — the pinned signing convention for framework ";
   "adapters (httpx `raw_path`), NOT path-only. Signing path-only would leave the ";
   "query outside the signature (tamperable), so this is a security decision. A ";
   "conforming signer MUST produce `digest_sha256_hex` from `input` via JCS ";
   "(RFC 8785) -> SHA-256 and reproduce `ed25519.signature_hex` byte-for-byte from ";
   "the seed. Same JCS→SHA-256→Ed25519 primitive as operator_pop_v1.json."].

Definition PATHQUERY_SCHEME : string := text
  ["JCS(RFC8785) -> SHA-256 -> pure Ed25519 over the 32-byte digest as raw message; ";
   "raw 64-byte signature; raw 32-byte Ed25519 public key"].

Definition PATHQUERY_KEY_COMMENT : string := text
  ["Deterministic test key (same RFC 8032 seed as operator_pop_v1.json). Any ";
   "conforming implementation derives the same public key and produces the same ";
   "signature over digest_sha256_hex."].

(** The signed target: path and query, as on the wire. *)
Definition QUERY_TARGET : string := "/vaid/mint?tenant=acme&limit=10".

(** [{"vaid_id":"..","tenant_id":".."}], formatted. *)
Definition identity_text (vaid_id tenant_id : string) : string :=
  "{" +:+ quoted "vaid_id" +:+ ":" +:+ quoted vaid_id +:+ "," +:+ quoted "tenant_id" +:+ ":"
  +:+ quoted tenant_id +:+ "}".

Section ClientExamples.
  Context {Ext : Externals}.

  (** [.unwrap()] of a [Result] *)
Definition unwrap_result {E A} (o : Outcome E A) : Emit A :=
  match o with Ok a => Ok a | _ => Panicked end.

Definition vector_value (VECTOR_JSON : string) : Emit Json :=
  let? r := unwrap (json_parse VECTOR_JSON) in Ok (value_of_raw r).

Definition input_str (v : Json) (key : string) : Emit string :=
  unwrap (as_str (index (index v "input") key)).

Definition seed_text (v : Json) : Emit string :=
  unwrap (as_str (index (index v "ed25519") "private_key_seed_hex")).

Definition seed_key (seed_hex : string) : Emit KeyPair :=
  let? seed := Emitters.unhex seed_hex in unwrap (kp_from_seed_unchecked seed).

Definition decode_signature (h : PopHeaders) : Emit (list byte) :=
  unwrap (base64_standard_decode (ph_signature h)).

Definition emit_pop (VECTOR_JSON : string) : Emit Json :=
  let? v := vector_value VECTOR_JSON in
  let? seed_hex := seed_text v in
  let? kp := seed_key seed_hex in
  let? vaid_id := input_str v "vaidId" in
  let? tenant_id := input_str v "tenantId" in
  let? signer := unwrap_result
    (request_signer_from_vaid_json (string_bytes (identity_text vaid_id tenant_id)) kp) in
  let? timestamp := input_str v "timestamp" in
  let? now := rfc3339 timestamp in
  let? nonce := input_str v "clientNonce" in
  let? method := input_str v "method" in
  let? path := input_str v "path" in
  let? headers := unwrap_result (sign_headers_at signer method path [] now nonce) in
  let? payload := unwrap (request_deserialize (raw_of_value (index v "input"))) in
  let digest := canonical_request_signing_bytes payload in
  let? sig := decode_signature headers in
  Ok (json_object
    [("digest_sha256_hex", JString (to_hex digest));
     ("signature_hex", JString (to_hex sig));
     ("timestamp", JString (ph_timestamp headers));
     ("client_nonce", JString (ph_nonce headers))]).

Definition pathquery_vector (vaid_id method path body_sha256 tenant_id timestamp nonce digest_hex
    seed_hex public_key_hex signature_hex : string) : Json :=
  json_object
    [("_comment", JString PATHQUERY_COMMENT);
     ("scheme", JString PATHQUERY_SCHEME);
     ("input", json_object
        [("vaidId", JString vaid_id);
         ("method", JString method);
         ("path", JString path);
         ("bodySha256", JString body_sha256);
         ("tenantId", JString tenant_id);
         ("timestamp", JString timestamp);
         ("clientNonce", JString nonce)]);
     ("digest_sha256_hex", JString digest_hex);
     ("ed25519", json_object
        [("_comment", JString PATHQUERY_KEY_COMMENT);
         ("private_key_seed_hex", JString seed_hex);
         ("public_key_hex", JString public_key_hex);
         ("signature_hex", JString signature_hex)])].

Definition emit_pop_pathquery (VECTOR_JSON : string) : Emit Json :=
  let? v := vector_value VECTOR_JSON in
  let? seed_hex := seed_text v in
  let? kp := seed_key seed_hex in
  let public_key_hex := to_hex (kp_public_key kp) in
  let? vaid_id := input_str v "vaidId" in
  let? tenant_id := input_str v "tenantId" in
  let? timestamp := input_str v "timestamp" in
  let? nonce := input_str v "clientNonce" in
  let method := "POST" in
  let path := QUERY_TARGET in
  let body : list byte := [] in
  let body_sha256 := to_hex (sha256 body) in
  let? signer := unwrap_result
    (request_signer_from_vaid_json (string_bytes (identity_text vaid_id tenant_id)) kp) in
  let? now_dt := rfc3339 timestamp in
  let? headers := unwrap_result (sign_headers_at signer method path body now_dt nonce) in
  let? id := unwrap (de_vaid_id (raw_of_value (JString vaid_id))) in
  let payload := {|
    ra_vaid_id := id;
    ra_method := method;
    ra_path := path;
    ra_body_sha256 := body_sha256;
    ra_tenant_id := tenant_id;
    ra_timestamp := now_dt;
    ra_client_nonce := nonce;
  |} in
  let digest := canonical_request_signing_bytes payload in
  let? sig := decode_signature headers in
  Ok (pathquery_vector vaid_id method path body_sha256 tenant_id timestamp nonce (to_hex digest)
        seed_hex public_key_hex (to_hex sig)).

  (** ** Lemmas *)

(** The seven texts a request payload is read from. *)
Definition request_texts (vaid_id method path body_sha256 tenant_id timestamp nonce : string)
    : gmap string Json :=
  list_to_map
    [("vaidId", JString vaid_id); ("method", JString method); ("path", JString path);
     ("bodySha256", JString body_sha256); ("tenantId", JString tenant_id);
     ("timestamp", JString timestamp); ("clientNonce", JString nonce)].

Lemma request_of_texts vaid_id method path body_sha256 tenant_id timestamp nonce id t :
  de_vaid_id (RString vaid_id) = Some id → dt_deserialize timestamp = Some t →
  request_deserialize (raw_of_value
    (JObject (request_texts vaid_id method path body_sha256 tenant_id timestamp nonce)))
  = Some (Build_RequestAuthPayload id method path body_sha256 tenant_id t nonce).
Proof.
  intros Hid Ht. unfold request_deserialize, request_texts. rewrite de_struct_object.
  eapply de_field_bind; [reflexivity|exact Hid|].
  do 4 (eapply de_field_bind; [reflexivity..|]).
  eapply de_field_bind; [reflexivity|exact Ht|].
  by (eapply de_field_bind; [reflexivity..|]).
Qed.

Lemma de_field_member {A} i k (f : RawJson → option A) (m : gmap string Json) a :
  de_field (raw_of_value (JObject m)) i k f Required = Some a →
  ∃ v, m !! k = Some v ∧ f (raw_of_value v) = Some a.
Proof.
  rewrite raw_of_value_object. unfold de_field, de_required, de_member. rewrite member_raw_object.
  destruct (m !! k) as [v|]; [|done]. cbn [mbind option_bind].
  destruct (f (raw_of_value v)) as [b|] eqn:Hb; [|done]. intros [= <-]. eauto.
Qed.

Lemma de_string_raw v s : de_string (raw_of_value v) = Some s → v = JString s.
Proof. destruct v; naive_solver. Qed.

(** What a payload read from an object's members was read from. *)
Lemma request_read m p :
  request_deserialize (raw_of_value (JObject m)) = Some p →
  ∃ vaid_id timestamp,
  m !! "vaidId" = Some (JString vaid_id) ∧ de_vaid_id (RString vaid_id) = Some (ra_vaid_id p)
  ∧ m !! "timestamp" = Some (JString timestamp) ∧ dt_deserialize timestamp = Some (ra_timestamp p)
  ∧ m !! "method" = Some (JString (ra_method p)) ∧ m !! "path" = Some (JString (ra_path p))
  ∧ m !! "tenantId" = Some (JString (ra_tenant_id p))
  ∧ m !! "clientNonce" = Some (JString (ra_client_nonce p)).
Proof.
  unfold request_deserialize. rewrite de_struct_object. intros Hp. invert_binds. simplify_eq.
  repeat match goal with
  | H : de_field _ _ _ _ _ = Some _ |- _ => apply de_field_member in H as (? & ? & H)
  end.
  repeat match goal with
  | H : de_string (raw_of_value _) = Some _ |- _ => apply de_string_raw in H; subst
  end.
  repeat match goal with
  | H : ?f (raw_of_value ?v) = Some _ |- _ => is_var v; destruct v; try discriminate H
  end.
  eauto 20.
Qed.

Lemma hex_pairs_outcome {E1 E2} s l : hex_pairs (E := E1) s = Ok l → hex_pairs (E := E2) s = Ok l.
Proof.
  revert l. induction s as [s IH] using (induction_ltof1 _ String.length). intros l.
  destruct s as [|a [|b s']]; [intros [= <-]; done|done|].
  cbn [hex_pairs]. destruct (negb (is_continuation a) && at_boundary s'); [|done].
  intros (rest & Hr & [= <-])%obind_ok.
  by rewrite (IH s' ltac:(unfold ltof; simpl; lia) rest Hr).
Qed.

Lemma unhex_outcome s b : PopFirewall.unhex s = Ok b → Emitters.unhex s = Ok b.
Proof.
  unfold PopFirewall.unhex, Emitters.unhex. intros (l & Hl & Hb)%obind_ok.
  rewrite (hex_pairs_outcome s l Hl). cbn [obind]. destruct (mapM id l); by simplify_eq.
Qed.

(** What the crates document of the calls the examples make. *)
Record ExampleLaws : Prop := {
  (** base64 is decoded as it was encoded *)
  el_base64 bytes : base64_standard_decode (base64_standard bytes) = Some bytes;
  el_digest bytes : length (sha256 bytes) = 32;
  (** capital letters are their own uppercase *)
  el_post : str_to_uppercase "POST" = "POST";
  (** RFC 8259, of an object of two plain strings *)
  el_identity a b :
    plain_text a → plain_text b →
    json_parse (identity_text a b) = Some (RObject [("vaid_id", RString a); ("tenant_id", RString b)]);
  (** what chrono reads as RFC 3339 its [Deserialize] reads as the same instant *)
  el_timestamp s t : dt_parse_from_rfc3339 s = Some t → dt_deserialize s = Some t;
}.

(** The vector's input is a request a client signs with no body, in a whole second. *)
Record client_request (v : Json) (p : RequestAuthPayload) : Prop := {
  cr_object : ∃ m, index v "input" = JObject m;
  cr_payload : request_deserialize (raw_of_value (index v "input")) = Some p;
  cr_method : str_to_uppercase (ra_method p) = ra_method p;
  cr_body : ra_body_sha256 p = hex_sha256 [];
  cr_second : (ra_timestamp p mod NANOS = 0)%Z;
  cr_rfc3339 timestamp :
    input_str v "timestamp" = Ok timestamp → dt_parse_from_rfc3339 timestamp = Some (ra_timestamp p);
  cr_plain vaid_id : input_str v "vaidId" = Ok vaid_id → plain_text vaid_id;
  cr_plain_tenant : plain_text (ra_tenant_id p);
}.

Section Laws.
  Context (Laws : ExampleLaws).

Lemma signer_of_texts vaid_id tenant_id id kp :
  plain_text vaid_id → plain_text tenant_id → de_vaid_id (RString vaid_id) = Some id →
  request_signer_from_vaid_json (string_bytes (identity_text vaid_id tenant_id)) kp
  = Ok (mkRequestSigner (mkPopIdentity (base64_standard (string_bytes (identity_text vaid_id tenant_id)))
          id tenant_id) kp).
Proof.
  intros Hv Ht Hid. unfold request_signer_from_vaid_json, pop_identity_from_vaid_json, string_bytes.
  rewrite String.string_of_list_byte_of_string, (el_identity Laws) by done. cbn [mbind option_bind].
  unfold de_vaid_identity, de_required, de_member. set (l := [_; _]).
  assert (member "vaid_id" l = [RString vaid_id]) as -> by reflexivity.
  assert (member "tenant_id" l = [RString tenant_id]) as -> by reflexivity.
  by rewrite Hid.
Qed.

(** Reading the operator vector, as both examples begin. *)
Lemma vector_read VECTOR_JSON raw p kp :
  let v := value_of_raw raw in
  json_parse VECTOR_JSON = Some raw → client_request v p → seed_keypair v = Ok kp →
  ∃ seed_hex vaid_id timestamp,
  vector_value VECTOR_JSON = Ok v ∧ seed_text v = Ok seed_hex ∧ seed_key seed_hex = Ok kp
  ∧ input_str v "vaidId" = Ok vaid_id ∧ input_str v "tenantId" = Ok (ra_tenant_id p)
  ∧ input_str v "timestamp" = Ok timestamp ∧ input_str v "clientNonce" = Ok (ra_client_nonce p)
  ∧ input_str v "method" = Ok (ra_method p) ∧ input_str v "path" = Ok (ra_path p)
  ∧ de_vaid_id (RString vaid_id) = Some (ra_vaid_id p) ∧ plain_text vaid_id
  ∧ dt_parse_from_rfc3339 timestamp = Some (ra_timestamp p).
Proof.
  intros v Hparse [[m Hm] Hp _ _ _ Ht Hpl _] Hkp. rewrite Hm in Hp.
  apply request_read in Hp as (vid & ts & H1 & H2 & H3 & H4 & H5 & H6 & H7 & H8).
  assert (∀ k s, m !! k = Some (JString s) → input_str v k = Ok s) as Hin
    by (intros k s Hk; unfold input_str; rewrite Hm; cbn [index]; by rewrite Hk).
  unfold seed_keypair in Hkp. ok_inv Hkp. ok_inv Hkp.
  repeat match goal with H : or_err _ _ = Ok _ |- _ => apply or_err_ok in H end.
  eexists _, vid, ts. split_and!; eauto.
  - unfold vector_value. by rewrite Hparse.
  - unfold seed_text. match goal with H : as_str _ = _ |- _ => by rewrite H end.
  - unfold seed_key. match goal with H : PopFirewall.unhex _ = _ |- _ => apply unhex_outcome in H; rewrite H end.
    cbn [obind]. by rewrite Hkp.
Qed.

(** The headers of the request a payload describes, signed in its second. *)
Lemma signed_request vaid_header id tenant kp path now nonce method :
  str_to_uppercase method = method → (now mod NANOS = 0)%Z →
  sign_headers_at (mkRequestSigner (mkPopIdentity vaid_header id tenant) kp) method path [] now nonce
  = Ok (mkPopHeaders vaid_header (dt_to_rfc3339_secs_z now) nonce
          (base64_standard (kp_sign kp (canonical_request_signing_bytes
             (Build_RequestAuthPayload id method path (hex_sha256 []) tenant now nonce))))).
Proof.
  intros Hm Hn. unfold sign_headers_at, identity_payload. rewrite Hm, Hn, Z.sub_0_r. done.
Qed.

(** The primitive's checks of a vector whose input is read as [p]. *)
Lemma operator_checks v p :
  request_deserialize (raw_of_value (index v "input")) = Some p →
  let digest := canonical_request_signing_bytes p in
  check_operator_digest v = Ok tt ∧ check_operator_signature v = Ok tt ↔
  length digest = 32 ∧ to_hex digest = str_of (index v "digest_sha256_hex")
  ∧ ∃ kp, seed_keypair v = Ok kp
    ∧ to_hex (kp_public_key kp) = str_of (index (index v "ed25519") "public_key_hex")
    ∧ to_hex (kp_sign kp digest) = str_of (index (index v "ed25519") "signature_hex").
Proof.
  intros Hp digest. unfold check_operator_digest, check_operator_signature, Check.
  rewrite !obind_ok. setoid_rewrite obind_ok. setoid_rewrite or_err_ok. setoid_rewrite assert_hex_ok.
  setoid_rewrite obind_ok. setoid_rewrite or_err_ok. setoid_rewrite assert_hex_ok. rewrite Hp. split.
  - intros [(p1 & [= <-] & Hd) (kp & Hkp & [] & Hpk & p2 & [= <-] & Hs)]. cbv zeta in Hd.
    fold digest in Hd, Hs. case_bool_decide as Hlen; [done|].
    apply assert_hex_ok in Hd. eauto 10.
  - intros (Hlen & Hd & kp & Hkp & Hpk & Hs). split.
    + exists p. split; [done|]. cbv zeta. fold digest. rewrite bool_decide_eq_false_2 by (by intros []).
      by apply assert_hex_ok.
    + exists kp. split; [done|]. exists tt. split; [done|]. by exists p.
Qed.

Lemma same_seed v v' seed_hex :
  seed_text v = Ok seed_hex → seed_text v' = Ok seed_hex → seed_keypair v = seed_keypair v'.
Proof.
  unfold seed_text, seed_keypair. destruct (as_str _); [|done]. destruct (as_str _); [|done].
  by intros [= ->] [= ->].
Qed.

Section Vector.
  Context (VECTOR_JSON : string) (raw : RawJson) (p : RequestAuthPayload).
  Context (Hparse : json_parse VECTOR_JSON = Some raw) (Hreq : client_request (value_of_raw raw) p).
  Context (kp : KeyPair) (Hkp : seed_keypair (value_of_raw raw) = Ok kp).

Lemma emit_pop_value :
  emit_pop VECTOR_JSON = Ok (json_object
    [("digest_sha256_hex", JString (to_hex (canonical_request_signing_bytes p)));
     ("signature_hex", JString (to_hex (kp_sign kp (canonical_request_signing_bytes p))));
     ("timestamp", JString (dt_to_rfc3339_secs_z (ra_timestamp p)));
     ("client_nonce", JString (ra_client_nonce p))]).
Proof.
  destruct (vector_read _ _ _ _ Hparse Hreq Hkp) as (seed_hex & vaid_id & timestamp & H).
  destruct H as (Hv & Hseed & Hkey & Hvid & Htenant & Hts & Hnonce & Hmethod & Hpath & Hid & Hplain & Hnow).
  unfold emit_pop, rfc3339. rewrite Hv. cbn [obind]. rewrite Hseed. cbn [obind]. rewrite Hkey.
  cbn [obind]. rewrite Hvid, Htenant. cbn [obind].
  rewrite (signer_of_texts _ _ _ _ Hplain (cr_plain_tenant _ _ Hreq) Hid), Hts. cbn [unwrap_result obind].
  rewrite Hnow, Hnonce. cbn [unwrap obind]. rewrite Hmethod, Hpath. cbn [obind].
  rewrite signed_request by apply Hreq. cbn [unwrap_result obind].
  rewrite (cr_payload _ _ Hreq). unfold decode_signature. cbn [unwrap obind ph_signature].
  rewrite (el_base64 Laws). cbn [unwrap obind ph_timestamp ph_nonce]. rewrite <- (cr_body _ _ Hreq).
  by destruct p.
Qed.

(** The payload of the request with a query. *)
Definition query_payload : RequestAuthPayload :=
  Build_RequestAuthPayload (ra_vaid_id p) "POST" QUERY_TARGET (to_hex (sha256 [])) (ra_tenant_id p)
    (ra_timestamp p) (ra_client_nonce p).

Lemma emit_pop_pathquery_value :
  ∃ vaid_id timestamp seed_hex,
  de_vaid_id (RString vaid_id) = Some (ra_vaid_id p)
  ∧ dt_parse_from_rfc3339 timestamp = Some (ra_timestamp p)
  ∧ seed_text (value_of_raw raw) = Ok seed_hex
  ∧ emit_pop_pathquery VECTOR_JSON = Ok (pathquery_vector vaid_id "POST" QUERY_TARGET
      (to_hex (sha256 [])) (ra_tenant_id p) timestamp (ra_client_nonce p)
      (to_hex (canonical_request_signing_bytes query_payload)) seed_hex (to_hex (kp_public_key kp))
      (to_hex (kp_sign kp (canonical_request_signing_bytes query_payload)))).
Proof.
  destruct (vector_read _ _ _ _ Hparse Hreq Hkp) as (seed_hex & vaid_id & timestamp & H).
  destruct H as (Hv & Hseed & Hkey & Hvid & Htenant & Hts & Hnonce & _ & _ & Hid & Hplain & Hnow).
  exists vaid_id, timestamp, seed_hex. split_and!; [done..|].
  unfold emit_pop_pathquery, rfc3339. rewrite Hv. cbn [obind]. rewrite Hseed. cbn [obind]. rewrite Hkey.
  cbn [obind]. rewrite Hvid, Htenant, Hts, Hnonce. cbn [obind].
  rewrite (signer_of_texts _ _ _ _ Hplain (cr_plain_tenant _ _ Hreq) Hid). cbn [unwrap_result obind].
  rewrite Hnow. cbn [unwrap obind]. rewrite signed_request by (apply el_post, Laws || apply Hreq).
  cbn [unwrap_result obind raw_of_value]. rewrite Hid. unfold decode_signature.
  cbn [unwrap obind ph_signature]. by rewrite (el_base64 Laws).
Qed.

End Vector.

(** C36. The client agrees with the signing primitive's frozen vector, and extends
    it.  On a vector the primitive's firewall accepts, whose request has no body,
    an uppercase method and a whole second, the client's example signs to the
    frozen digest and the frozen signature, whatever else the vector says; and
    the generator of the path-with-query vector runs to its end and writes a
    vector that the primitive's own checks accept, under the same key, whose
    signed path is the request target with its query. *)
Theorem client_examples_reproduce (VECTOR_JSON : string) (raw : RawJson) (p : RequestAuthPayload)
    (Hparse : json_parse VECTOR_JSON = Some raw) (Hreq : client_request (value_of_raw raw) p)
    (Hdigest : check_operator_digest (value_of_raw raw) = Ok tt)
    (Hsignature : check_operator_signature (value_of_raw raw) = Ok tt) :
  emit_pop VECTOR_JSON = Ok (json_object
    [("digest_sha256_hex", JString (str_of (index (value_of_raw raw) "digest_sha256_hex")));
     ("signature_hex", JString (str_of (index (index (value_of_raw raw) "ed25519") "signature_hex")));
     ("timestamp", JString (dt_to_rfc3339_secs_z (ra_timestamp p)));
     ("client_nonce", JString (ra_client_nonce p))])
  ∧ ∃ v, emit_pop_pathquery VECTOR_JSON = Ok v
    ∧ check_operator_digest v = Ok tt ∧ check_operator_signature v = Ok tt
    ∧ index (index v "input") "path" = JString QUERY_TARGET
    ∧ str_of (index (index v "ed25519") "public_key_hex")
      = str_of (index (index (value_of_raw raw) "ed25519") "public_key_hex").
Proof.
  pose proof (proj1 (operator_checks _ _ (cr_payload _ _ Hreq)) (conj Hdigest Hsignature)) as Hchecks.
  destruct Hchecks as (_ & Hd & kp & Hkp & Hpk & Hs). split.
  { rewrite <- Hd, <- Hs. exact (emit_pop_value _ _ _ Hparse Hreq kp Hkp). }
  destruct (emit_pop_pathquery_value _ _ _ Hparse Hreq kp Hkp) as (vid & ts & seed & Hid & Hts & Hseed & Hv).
  eexists. split; [exact Hv|]. clear Hv. set (v := pathquery_vector _ _ _ _ _ _ _ _ _ _ _).
  assert (request_deserialize (raw_of_value (index v "input")) = Some (query_payload p)) as Hp.
  { unfold v, pathquery_vector. read_members.
    apply request_of_texts; [done|]. by apply (el_timestamp Laws). }
  destruct (proj2 (operator_checks _ _ Hp)) as [Hd' Hs'].
  { split; [apply (el_digest Laws)|]. unfold v, pathquery_vector. read_members. split; [reflexivity|].
    exists kp. split_and!; [|reflexivity|reflexivity]. rewrite <- Hkp. apply (same_seed _ _ seed); [|done].
    unfold seed_text. by read_members. }
  split_and!; [done..| |rewrite <- Hpk]; unfold v, pathquery_vector; by read_members.
Qed.

End Laws.

End ClientExamples.

(** ** Witness: a small operator vector *)

Module ClientExamplesSamples.

Fixpoint strip_prefix (p s : string) : option string :=
  match p, s with
  | EmptyString, _ => Some s
  | String a p', String b s' => if bool_decide (a = b) then strip_prefix p' s' else None
  | String _ _, EmptyString => None
  end.

(** The text up to a closing quote, and what follows. *)
Fixpoint until_quote (t : string) : option (string * string) :=
  match t with
  | EmptyString => None
  | String c rest =>
      if bool_decide (c = DQUOTE) then Some ("", rest)
      else '(k, v) ← until_quote rest; Some (String c k, v)
  end.

Definition VAID_PREFIX : string := "{" +:+ quoted "vaid_id" +:+ ":" +:+ char_string DQUOTE.
Definition TENANT_PREFIX : string := "," +:+ quoted "tenant_id" +:+ ":" +:+ char_string DQUOTE.

Definition read_identity (s : string) : option RawJson :=
  rest ← strip_prefix VAID_PREFIX s;
  '(vaid_id, rest) ← until_quote rest;
  rest ← strip_prefix TENANT_PREFIX rest;
  '(tenant_id, rest) ← until_quote rest;
  if bool_decide (rest = "}") then
    Some (RObject [("vaid_id", RString vaid_id); ("tenant_id", RString tenant_id)])
  else None.

Lemma strip_prefix_app p s : strip_prefix p (p +:+ s) = Some s.
Proof. induction p as [|a p IH]; [by destruct s|]. simpl. by rewrite bool_decide_eq_true_2. Qed.

Lemma until_quote_plain k t : plain_text k → until_quote (k +:+ char_string DQUOTE +:+ t) = Some (k, t).
Proof.
  unfold plain_text. induction k as [|c k IH]; [done|]. simpl.
  intros [[[Hq _]%bool_decide_eq_true _]%andb_true_iff Hk]%andb_true_iff.
  rewrite bool_decide_eq_false_2 by done. simpl in IH. by rewrite IH.
Qed.

Lemma read_identity_text a b :
  plain_text a → plain_text b →
  read_identity (identity_text a b)
  = Some (RObject [("vaid_id", RString a); ("tenant_id", RString b)]).
Proof.
  intros Ha Hb. unfold read_identity.
  assert (identity_text a b
    = VAID_PREFIX +:+ a +:+ char_string DQUOTE +:+ TENANT_PREFIX +:+ b +:+ char_string DQUOTE +:+ "}") as ->.
  { unfold identity_text, VAID_PREFIX, TENANT_PREFIX, quoted. cbn. by rewrite !string_app_assoc. }
  rewrite strip_prefix_app. cbn [mbind option_bind]. rewrite until_quote_plain by done.
  cbn [mbind option_bind]. rewrite strip_prefix_app. cbn [mbind option_bind].
  by rewrite until_quote_plain.
Qed.

Lemma template_length tmpl s : matches_template tmpl s = true → String.length s = String.length tmpl.
Proof.
  revert s. induction tmpl as [|c tmpl IH]; intros [|a s]; try done. simpl.
  intros [_ Hs]%andb_true_iff. by rewrite (IH s).
Qed.

Lemma nanos_reads_e6 s t : e6_read s = Some t → nanos_read s = Some t.
Proof.
  unfold nanos_read. destruct (matches_template NANOS_TEMPLATE s) eqn:Hn; [|done].
  apply template_length in Hn. unfold e6_read.
  destruct (matches_template E6_TEMPLATE s) eqn:H6; [apply template_length in H6; by rewrite Hn in H6|].
  destruct (matches_template OFFSET_TEMPLATE s) eqn:Ho; [|done].
  apply template_length in Ho. by rewrite Hn in Ho.
Qed.

Definition operator_key : list byte := string_bytes "k".
Definition no_body_digest : list byte := replicate 32 x00.
Definition operator_second : Instant := (1780574400 * NANOS)%Z.
Definition operator_timestamp : string := Eval vm_compute in e6_print operator_second.
Definition operator_payload : RequestAuthPayload :=
  Build_RequestAuthPayload (VaidId_from_uuid 1%N) "POST" "/vaid/mint" (to_hex no_body_digest) "acme"
    operator_second "n1".

(** The bytes a payload signs, in the instance below. *)
Definition operator_digest : list byte :=
  take 32 (json_bytes (@to_value _ (@request_serialize (concrete no_json)) operator_payload)
           ++ no_body_digest).

Definition operator_vector : Json := json_object
  [("input", JObject (request_texts "u-" "POST" "/vaid/mint" (to_hex no_body_digest) "acme"
                        operator_timestamp "n1"));
   ("digest_sha256_hex", JString (to_hex operator_digest));
   ("ed25519", json_object
      [("private_key_seed_hex", JString (to_hex operator_key));
       ("public_key_hex", JString (to_hex operator_key));
       ("signature_hex", JString (to_hex (operator_key ++ operator_digest)))])].

Definition client_texts (s : string) : option RawJson :=
  if bool_decide (s = "vector") then Some (raw_of_value operator_vector) else read_identity s.

#[local] Instance client_concrete : Externals := PopFirewallSamples.with_digest client_texts.

Lemma client_laws : ExampleLaws.
Proof.
  split.
  - intros bytes. change (Some (string_bytes (String.string_of_list_byte bytes)) = Some bytes).
    unfold string_bytes. by rewrite String.list_byte_of_string_of_list_byte.
  - intros bytes. change (length (take 32 (bytes ++ replicate 32 x00)) = 32).
    rewrite length_take, length_app, length_replicate. lia.
  - reflexivity.
  - intros a b Ha Hb. change (client_texts (identity_text a b)
      = Some (RObject [("vaid_id", RString a); ("tenant_id", RString b)])).
    unfold client_texts. rewrite bool_decide_eq_false_2 by done.
    by apply read_identity_text.
  - intros s t. apply nanos_reads_e6.
Qed.

Lemma operator_vector_value : value_of_raw (raw_of_value operator_vector) = operator_vector.
Proof. apply value_of_raw_of_value. Qed.

Lemma operator_request : client_request (value_of_raw (raw_of_value operator_vector)) operator_payload.
Proof.
  rewrite operator_vector_value. split.
  - by eexists.
  - vm_compute. reflexivity.
  - reflexivity.
  - vm_compute. reflexivity.
  - reflexivity.
  - intros ts [= <-]. vm_compute. reflexivity.
  - intros vid [= <-]. done.
  - done.
Qed.

Lemma client_examples_reproduce_witness :
  ∃ signature v,
  emit_pop "vector" = Ok (json_object
    [("digest_sha256_hex", JString (to_hex operator_digest)); ("signature_hex", JString signature);
     ("timestamp", JString operator_timestamp); ("client_nonce", JString "n1")])
  ∧ emit_pop_pathquery "vector" = Ok v
  ∧ check_operator_digest v = Ok tt ∧ check_operator_signature v = Ok tt
  ∧ index (index v "input") "path" = JString QUERY_TARGET.
Proof.
  destruct (@client_examples_reproduce client_concrete client_laws "vector" (raw_of_value operator_vector)
    operator_payload eq_refl operator_request) as (Hpop & v & Hv & Hd & Hs & Hpath & _).
  - rewrite operator_vector_value. vm_compute. reflexivity.
  - rewrite operator_vector_value. vm_compute. reflexivity.
  - rewrite operator_vector_value in Hpop. eexists _, v.
    split; [exact Hpop|split; [exact Hv|split; [exact Hd|split; [exact Hs|exact Hpath]]]].
Defined.

End ClientExamplesSamples.
